(* ===== verification/_CoqProject ===== *)
-Q . S2P
Prelude.v
Sdk.v
SdkAuth.v
EvmDenom.v
PreciseBank.v
PreciseBankInv.v
PreciseBankOps.v
PreciseBankLive.v
PreciseBankGenesis.v
SdkModel.v
PreciseBankThms.v
PreciseBankWit.v
SnapshotStore.v
SnapshotThms.v
SnapshotWit.v
AccessList.v
StateDB.v
StateDBRevert.v
StateDBHist.v
StateDBCommit.v
StateDBPrepare.v
StateDBWit.v
VmKeeper.v
Precompile.v
VmBank.v
PrecompileThms.v
VmKeeperThms.v
SdkAuthModel.v
VmKeeperWit.v
PrecompileWit.v
Dec.v
FeeMarket.v
FeeMarketThms.v
FeeMarketWit.v
TxFees.v
TxFeesThms.v
TxFeesWit.v
AnteEvm.v
AnteEvmThms.v
AnteEvmWit.v
VmParams.v
Transition.v
TransitionThms.v
TransitionWit.v
AnteCosmos.v
AnteCosmosThms.v
AnteCosmosWit.v
VmQuery.v
VmQueryThms.v
VmQueryWit.v
Erc20Denoms.v
Erc20.v
Erc20Msgs.v
Erc20Reg.v
Erc20Conv.v
Erc20Chain.v
Erc20Gen.v
Erc20Thms.v
Erc20Wit.v
TokenPrecompile.v
TokenPrecompileThms.v
TokenPrecompileWit.v
GoHeap.v
Mempool.v
MempoolThms.v
MempoolWit.v
Indexer.v
IndexerThms.v
IndexerWit.v
