(* ===== verification/Prelude.v ===== *)
(** * A verification of the state and fee logic of Integra

    Integra is a Cosmos SDK chain with an EVM.  The repository (src/) is a fork
    of Cosmos EVM: SDK modules under x/, transaction checks under ante/,
    stateful precompiles under precompiles/, and server, RPC and mempool code
    around them.  This library models the part that decides who owns what, what
    a transaction may do and what it pays:

    - x/precisebank gives the bank's coin, which may have fewer than eighteen
      decimals, the eighteen decimals the EVM computes with.  Integer coins stay
      in x/bank; fractions are stored per account and backed by a reserve.
    - x/vm/statedb is the state the EVM sees during a transaction: cached
      accounts and storage, a journal that undoes changes, and a commit that
      writes them to the keeper.
    - x/vm/store holds the stacked cache stores on which precompile calls run, so
      that a revert of the EVM also reverts what a precompile wrote.
    - x/vm/keeper is that keeper: accounts and balances over x/auth and, through
      the wrapper x/vm/wrappers/bank.go, x/precisebank.  It executes messages
      (state_transition.go), charges and refunds gas, enforces the permissions
      of the parameters, and answers queries, gas estimation among them.
    - x/feemarket keeps the EIP-1559 base fee; BeginBlock computes it from the gas
      figure the previous EndBlock recorded.
    - ante/ routes a transaction to the handler of Ethereum or of Cosmos
      transactions, which decide whether it is let in and what it is charged.
    - precompiles/common runs native actions inside the EVM and mirrors the bank
      events they cause into the StateDB; precompiles/erc20 and werc20 show a coin
      of the bank as an ERC-20 token.
    - x/erc20 registers pairs of a coin and a token and converts between them.
    - mempool/ keeps Ethereum and Cosmos transactions in two pools and merges them by
      fee when a block is proposed.
    - indexer/ and rpc/types/events.go keep an index of executed Ethereum transactions
      that JSON-RPC answers from; server/indexer_service.go feeds it.

    ** Conventions

    A Go call returns, returns an error or panics: [outcome] in Prelude.v.  A
    stateful method is a function in the monad [M S], which returns the outcome
    together with the state written so far: an error does not undo writes, since
    rolling back is the caller's work.  Machine integers are [Z] with their
    range or wrap-around written out ([wrap], [u64_max], [to_int64] and the like);
    [sdkmath.Int] is a [Z] with its 256-bit check ([int_ok] of Sdk.v); the one
    floating-point comparison of the code is IEEE arithmetic of SpecFloat.
    Maps whose order does not matter are stdpp finite maps; where Go code sorts
    the keys, so does the model.  Addresses of the SDK are byte strings, those of
    the EVM are numbers.

    Code that is not in the repository is a class of operations, and the
    behaviour the modules rely on is a class of laws:

    - the SDK: [SdkTypes], [AccountKeeper], [BankKeeper] (Sdk.v: coin sets, x/auth,
      x/bank), [AuthKeeper] (SdkAuth.v), [AddrCodec] (bech32), [SdkEvents],
      [GasMeters], [CacheKV] (cachekv), [DecTypes] (LegacyDec), [ParamsCodec]
      (protobuf), [SdkDecorators] and [FeeCoinsLaws] (ante handlers), [StakingKeeper],
      [TxBuilder], [SdkIterator] and [CosmosPool] (transactions and their pool), [KVDB]
      (cosmos-db), [TxResultCodec] (protobuf);
    - go-ethereum: [Crypto] (Keccak), [GethAddress], [GethHex], [GethHash], [GethTx],
      [GethParams], [GethContract], [GethRevert], [GethABI], [TokenABI], and [GethEVM],
      the interpreter as a computation on the StateDB;
    - ibc-go: [IbcTransfer], [TransferKeeper].

    The pool of Ethereum transactions, [EvmPool], is a class although its code is in
    the repository (mempool/txpool): it is vendored from go-ethereum.  [ChainContext]
    is what the mempool reads of a context and its keepers.

    Interfaces between components are classes too.  [Keeper] is what the StateDB
    needs below it, and x/vm's keeper implements it; [Erc20Bank] and [Erc20Evm]
    are what x/erc20 needs, and Erc20Chain.v builds them of x/precisebank and
    x/vm; [StandardToken] is what conversions rely on of a contract; [TokenBank]
    is what the token precompiles need, and x/precisebank implements it for plain
    coins ([plain_laws]) and for the extended coin ([extended_laws]).  Every class of
    laws has an instance: SdkModel.v, SdkAuthModel.v and the files ending in Wit
    hold them, and the theorems are applied to concrete states there.

    ** Files

    - Prelude.v: outcomes and the state monad, their inversion lemmas and
      tactics, the hint database [go], sums over finite maps, integer lemmas.
    - Sdk.v, SdkAuth.v: interfaces of the SDK.  SdkModel.v, SdkAuthModel.v: a bank,
      accounts and a codec that satisfy them.
    - EvmDenom.v: x/vm/types/denom.go, denom_config.go, scaling.go.
    - PreciseBank.v: x/precisebank/keeper and types, one definition per method.
      PreciseBankInv.v, PreciseBankOps.v, PreciseBankLive.v: the reserve
      invariant, the effect of each method, when methods succeed.
      PreciseBankGenesis.v: genesis.go.  PreciseBankThms.v: the properties.
      PreciseBankWit.v: concrete runs.
    - SnapshotStore.v: modules [SnapshotKV] (x/vm/store/snapshotkv) and
      [SnapshotMulti] (x/vm/store/snapshotmulti); SnapshotThms.v, SnapshotWit.v.
    - AccessList.v: access_list.go and transient_storage.go.  StateDB.v:
      statedb.go, state_object.go, journal.go.  StateDBRevert.v, StateDBHist.v:
      reverts.  StateDBCommit.v: Commit.  StateDBPrepare.v: Prepare.  StateDBWit.v.
    - VmKeeper.v: modules [VmKeeper] (x/vm/keeper/statedb.go, fees.go, gas.go) and
      [BankWrapper] (x/vm/wrappers/bank.go); VmBank.v, VmKeeperThms.v, VmKeeperWit.v.
    - Precompile.v: precompiles/common; PrecompileThms.v, PrecompileWit.v.
    - Dec.v: fixed-point decimals.  FeeMarket.v: x/feemarket, the gas-wanted
      check and the EVM's view of the base fee; FeeMarketThms.v, FeeMarketWit.v.
    - TxFees.v: fee, gas and permission checks; TxFeesThms.v, TxFeesWit.v.
    - AnteEvm.v: the mono decorator and the checks it runs; AnteEvmThms.v,
      AnteEvmWit.v.
    - VmParams.v: parameters, permissions, hooks.  Transition.v: execution of a
      message and a transaction; TransitionThms.v, TransitionWit.v.
    - AnteCosmos.v: the routing of transactions and the handler of Cosmos
      transactions; AnteCosmosThms.v, AnteCosmosWit.v.
    - VmQuery.v: the gRPC queries; VmQueryThms.v, VmQueryWit.v.
    - Erc20Denoms.v: names, denominations and metadata.  Erc20.v: the store of
      x/erc20.  Erc20Msgs.v: contract calls, conversions, messages, packet
      callbacks, genesis.  Erc20Reg.v, Erc20Conv.v, Erc20Gen.v: the registry
      invariant, the backing of converted coins, genesis.  Erc20Chain.v: x/erc20 on
      the rest of the chain.  Erc20Thms.v, Erc20Wit.v.
    - TokenPrecompile.v: precompiles/erc20 and precompiles/werc20;
      TokenPrecompileThms.v, TokenPrecompileWit.v.
    - GoHeap.v: the container/heap of Go's library.  Mempool.v: mempool/miner/ordering.go,
      iterator.go, mempool.go, check_tx.go, signer.go, blockchain.go; MempoolThms.v,
      MempoolWit.v.
    - Indexer.v: indexer/kv_indexer.go, rpc/types/events.go, the lookups of
      rpc/backend/tx_info.go, server/indexer_service.go, and the events that
      ante/evm/11_emit_event.go and x/vm/keeper/msg_server.go emit; IndexerThms.v,
      IndexerWit.v.

    ** What the theorems show

    x/precisebank.  [precisebank_refines_ledger]: through any history of
    successful sends, mints and burns the extended balances are those of a plain
    eighteen-decimal ledger.  [reserve_always_solvent]: from an accepted genesis
    the reserve always covers fractions and remainder.  A send succeeds exactly
    when the extended balance covers it or sender and recipient are the same, a mint
    or burn when there is room or balance; a mint and a burn cancel; genesis
    round-trips.  Also proved are the cases where the module does something else:
    sends to the reserve, module transfers from it, error texts, the sum of coins
    with eighteen decimals.

    x/vm/store.  Whatever is done above a snapshot, reverting to it restores the
    store; committing persists the current view; the stores of a multistore stay
    at equal heights.

    x/vm/statedb.  [RevertToSnapshot_restores]: in any nesting of operations,
    snapshots and reverts (without precompile calls) a live snapshot can be
    reverted to and shows what it showed.  States are compared by what the
    getters see, because reads fill caches.  [Commit_persists]: a commit the keeper
    does not refuse gives it exactly what the getters returned.  [Prepare_warms]: the access
    list at the start is what EIP-2929, 2930 and 3651 ask for.  With precompile
    calls in between the first property fails; [revert_after_flush_is_stale] and
    [revert_after_flush_loses_write] are such runs.

    x/vm/keeper.  [evm_commit_settles] composes the commit with the keeper and the
    bank: after any EVM history and a commit that returned nil the bank holds what the
    EVM showed.  [SetBalance]
    and [DeleteAccount] do exactly what they say.

    Execution.  [failed_transaction_only_pays] and [successful_transaction_settles]
    go from the ante handler's charge through the interpreter to the refund: a
    failed transaction costs its gas and its nonce, a successful one leaves the bank
    with what the interpreter's state showed.  [message_gas_bounds]: the gas charged
    is at least the intrinsic gas less the largest refund, the floor of the data and,
    but for internal calls, the minimum share, and at most the limit.  [evm_enforces_permissions]: nobody
    the parameters bar creates or calls a contract.

    Ante handlers.  [AnteHandle_charges]: what an accepted Ethereum transaction
    paid, signed and counted; a nonce is accepted once.  [ethereum_kept_apart]: no
    message of the EVM gets in by the Cosmos handler, nested ones included;
    [authz_limiter_exact]; [cosmos_tx_pays]: a Cosmos transaction pays at least the
    minimum and at most its offer.

    Queries.  [queries_write_nothing]: those of accounts, balances, storage, code,
    fees and parameters, calls and estimates.  A gas estimate was executed
    successfully at that limit, and the search for it ends.

    x/feemarket.  The fixed-point code computes EIP-1559 with one division, moves
    within its bounds, BeginBlock and EndBlock store what they should, and the
    parameters stay valid in every chain from a validated genesis.

    Precompiles.  [native_send_mirrored]: after a transfer by a native action the
    StateDB shows the bank's new balances; [native_call_undoable]: a reverted call
    leaves nothing; [native_action_charges]: a successful one costs what its action
    consumed, while [failed_native_action_is_free] shows that one that fails or runs
    out of gas costs nothing.  [token_call_refines]: a successful call of the ERC-20
    precompile is a step of the abstract EIP-20 token (in which a transfer to oneself
    is accepted and moves nothing) and its logs are the step's events; over a history
    ([token_history_within_approvals]) no spender takes more than it was granted.
    Static calls write nothing, a deposit of the wrapped coin comes back.

    x/erc20.  [erc20_registry_consistent]: the maps of token pairs agree in every
    reachable state.  [erc20_coins_backed]: coins made of a standard token never
    outnumber the tokens in escrow; conversions are exact; genesis round-trips;
    sanitised names are well formed.

    Mempool.  [ordering_serves_best_first]: the heap of pending transactions serves
    one queue per account, always the best head, each account in nonce order.
    [SelectBy_shows_merge]: a proposal sees the merge of that service with the
    Cosmos transactions.  [Remove_evm_only_dead]: an Ethereum transaction is removed
    only when it can never run.  [unconverted_shows_cosmos_twice],
    [integer_price_never_wins] and [queued_but_refused] are runs in which the code does
    something else than its comments say.

    Index.  [IndexBlock_found]: what a block holds is found again by hash and by place.
    [index_answers_agree] goes from the events of a transaction to the answers of
    the backend, from the index and from CometBFT; they are the same but for the
    Ethereum index, which is a count in the one and the chain's in the other
    ([repeated_index_tells_two_places] is a block where they differ).  Keys are
    ordered by height, so [LoadLastBlock_max] finds the last block;
    [service_in_order] and [service_stuck] are about the steps of the service, the
    second showing that it does not recover from a failed request.

    ** Fuel

    [search_loop], the bisection of sort.Search in RevertToSnapshot, gets one unit
    of fuel per element from [Search], and [search_loop_spec] shows that this
    suffices: the interval shrinks in each round.  [BinSearch], the search for a gas
    limit, takes its fuel as an argument and returns [None] when it runs out; by
    [BinSearch_terminates] that never happens with 127 units or more from a lower
    bound of at least 1 and an upper bound of at most 2^63 ([search_from_zero_loops]
    and [search_above_2_63_loops] are searches that never end), and [search_fuel] is
    128.  The removal of prefixes in
    Erc20Denoms.v is by well-founded recursion on the length.  The loops of the heap
    get the length of the heap, since the index grows or shrinks in each round and
    stays inside of it.  [select_loop] takes its fuel as an argument and returns
    [None] when it runs out; by [SelectBy_shows_merge] one unit per transaction is
    enough.  All other loops are structural on the list they range over.

    ** Not modelled

    The go-ethereum EVM, signature recovery, protobuf and ABI code, tracing, telemetry,
    the command line and module wiring: code of libraries, generated code or glue.
    Store gas is not counted.  Of mempool/, the pool vendored from go-ethereum, the
    event bus and broadcasting; of the JSON-RPC backend, everything but the lookups of
    transactions, which is formatting and I/O over the queries modelled here.  The
    precompiles of staking, distribution, governance, slashing, bank and ICS-20
    translate ABI arguments into messages for SDK modules whose behaviour would all be
    assumed; the same holds for x/ibc/callbacks, whose effects are those of the
    contracts it calls.  The contract calls of x/erc20 and the token precompile are not
    one state: what a token precompile writes to the store of x/erc20 is not seen by
    the interpreter of Transition.v.  The wait of the indexer service has no duration,
    and its two goroutines are interleaved step by step. *)

From stdpp Require Export prelude gmap strings sorting.
From Stdlib Require Export ZArith Lia.

#[export] Set Warnings "-clear-no-such-hyp,-register-all".
#[global] Open Scope Z_scope.

(** * Outcomes and the state-and-error monad

    A Go call returns normally, returns a non-nil [error], or panics.  The
    store it has written to by then stays written: rolling back is the caller's
    business (a cached context, the EVM journal).  So the monad threads the
    state through all three outcomes. *)

(** The registered error codes the modelled code tests or returns. *)
Inductive err_kind : Type :=
  | ErrInvalidCoins
  | ErrInsufficientFunds
  | ErrUnauthorized
  | ErrUnknownAddress
  | ErrInvalidAddress
  | ErrSendDisabled
  | ErrInvalidSigner
  | ErrOutOfGas
  | ErrInsufficientFee
  | ErrInvalidRequest
  | ErrTxDecode
  | ErrInvalidHeight
  | ErrIntOverflowCoin
  | ErrCreateDisabled
  | ErrCallDisabled
  | ErrInvalidRefund
  | ErrNonceGap
  | ErrNonceLow
  | ErrInvalidSequence
  | ErrExecutionReverted
  | ErrWriteProtection
  | ErrNotFound
  | ErrInvalidType
  | ErrInvalidMsg
  | ErrUnknownRequest
  | ErrNotSupported
  | ErrInvalidGasLimit
  | ErrLogic
  | ErrERC20Disabled
  | ErrEVMDenom
  | ErrInternalTokenPair
  | ErrTokenPairNotFound
  | ErrTokenPairAlreadyExists
  | ErrERC20TokenPairDisabled
  | ErrBalanceInvariance
  | ErrUnexpectedEvent
  | ErrABIPack
  | ErrABIUnpack
  | ErrEVMCall
  | ErrInvalidAllowance
  | ErrNegativeToken
  | ErrExpectedEvent
  | ErrVMExecution
  | ErrNoSignatures
  | ErrInvalidBaseFee
  | ErrUnknownExtensionOptions
  | ErrGasOverflow
  | ErrUndefinedOwner
  | ErrNativeConversionDisabled
  | ErrInvalidDenomForTransfer
  | ErrInvalidPubKey
  | ErrIntrinsicGas
  | ErrFloorDataGas
  | ErrInsufficientFundsForTransfer
  | ErrNoIBCVoucherDenom
  | ErrDenomNotFound
  | ErrNegativeAmount
  | ErrInsufficientAllowance
  | ErrDecreasedAllowanceBelowZero
  | ErrTransferAmountExceedsBalance
  | ErrOther.

#[global] Instance err_kind_eq_dec : EqDecision err_kind.
Proof. solve_decision. Defined.

(** An error value: its code, its text, and the coins printed in it. *)
Record error : Type := mkError {
  err_code : err_kind;
  err_text : string;
  err_coins : list (string * Z)
}.

Definition errorf (k : err_kind) (t : string) : error := mkError k t [].

(** [errors.Is(err, target)] for a registered target. *)
Definition err_is (e : error) (k : err_kind) : bool := bool_decide (err_code e = k).

Inductive outcome (A : Type) : Type :=
  | Ok (a : A)
  | Err (e : error)
  | Panic (why : string).
Arguments Ok {A} _.
Arguments Err {A} _.
Arguments Panic {A} _.

Definition is_ok {A} (o : outcome A) : bool :=
  match o with Ok _ => true | _ => false end.

Definition is_panic {A} (o : outcome A) : bool :=
  match o with Panic _ => true | _ => false end.

Definition M (S A : Type) : Type := S → S * outcome A.

Definition ret {S A} (a : A) : M S A := λ s, (s, Ok a).

Definition bind {S A B} (m : M S A) (f : A → M S B) : M S B := λ s,
  match m s with
  | (s', Ok a) => f a s'
  | (s', Err e) => (s', Err e)
  | (s', Panic w) => (s', Panic w)
  end.

Definition throw {S A} (e : error) : M S A := λ s, (s, Err e).
Definition panic {S A} (w : string) : M S A := λ s, (s, Panic w).
Definition gets {S A} (f : S → A) : M S A := λ s, (s, Ok (f s)).
Definition modify {S} (f : S → S) : M S unit := λ s, (f s, Ok tt).
Definition of_outcome {S A} (o : outcome A) : M S A := λ s, (s, o).

(** [if err := m; err != nil { return wrap(err) }]: rewrites the error [m]
    returns, in the state [m] left, and lets a result or a panic through. *)
Definition on_error {S A} (m : M S A) (wrap : error → M S error) : M S A := λ s,
  match m s with
  | (s', Err e) => match wrap e s' with
                   | (s'', Ok e') => (s'', Err e')
                   | (s'', Err e') => (s'', Err e')
                   | (s'', Panic w) => (s'', Panic w)
                   end
  | r => r
  end.

(** [if err := m; err != nil { panic(err) }]. *)
Definition must {S A} (m : M S A) (why : string) : M S A := λ s,
  match m s with
  | (s', Err _) => (s', Panic why)
  | r => r
  end.

(** A call whose error the caller inspects. *)
Definition catch {S A} (m : M S A) : M S (A + error) := λ s,
  match m s with
  | (s', Ok a) => (s', Ok (inl a))
  | (s', Err e) => (s', Ok (inr e))
  | (s', Panic w) => (s', Panic w)
  end.

(** Running a call on one field of a larger state. *)
Definition zoom {S T A} (get : S → T) (set : T → S → S) (m : M T A) : M S A := λ s,
  let '(t, o) := m (get s) in (set t s, o).

Declare Scope go_scope.
Delimit Scope go_scope with go.
Notation "'let!' x := m 'in' k" := (bind m (λ x, k))
  (at level 10, x pattern, m at level 100, k at level 200) : go_scope.
Notation "m >>! k" := (bind m (λ _, k)) (at level 100, right associativity) : go_scope.
#[global] Open Scope go_scope.

(** [if c { body }] with no else branch. *)
Definition when {S} (c : bool) (m : M S unit) : M S unit := if c then m else ret tt.

(** Running a list of calls in order, stopping at the first that fails. *)
Fixpoint for_each {S A} (l : list A) (f : A → M S unit) : M S unit :=
  match l with
  | [] => ret tt
  | x :: r => f x >>! for_each r f
  end.

(** * Reasoning about monadic runs *)

Section monad_laws.
Context {S A B : Type}.
Implicit Types (m : M S A) (f : A → M S B) (s : S).

Lemma bind_Ok m f s s1 a : m s = (s1, Ok a) → bind m f s = f a s1.
Proof. intros E. unfold bind. by rewrite E. Qed.

Lemma bind_Err m f s s1 e : m s = (s1, Err e) → bind m f s = (s1, Err e).
Proof. intros E. unfold bind. by rewrite E. Qed.

Lemma bind_Panic m f s s1 w : m s = (s1, Panic w) → bind m f s = (s1, Panic w).
Proof. intros E. unfold bind. by rewrite E. Qed.

Lemma bind_Ok_inv m f s s' b :
  bind m f s = (s', Ok b) → ∃ s1 a, m s = (s1, Ok a) ∧ f a s1 = (s', Ok b).
Proof. unfold bind. destruct (m s) as [s1 []]; naive_solver. Qed.

Lemma bind_Panic_inv m f s s' w :
  bind m f s = (s', Panic w) →
  m s = (s', Panic w) ∨ ∃ s1 a, m s = (s1, Ok a) ∧ f a s1 = (s', Panic w).
Proof. unfold bind. destruct (m s) as [s1 []]; naive_solver. Qed.

Lemma bind_Err_inv m f s s' e :
  bind m f s = (s', Err e) →
  m s = (s', Err e) ∨ ∃ s1 a, m s = (s1, Ok a) ∧ f a s1 = (s', Err e).
Proof. unfold bind. destruct (m s) as [s1 []]; naive_solver. Qed.

Lemma bind_ret (a : A) f s : bind (ret a) f s = f a s.
Proof. done. Qed.

Lemma bind_assoc {C} m f (g : B → M S C) s :
  bind (bind m f) g s = bind m (λ a, bind (f a) g) s.
Proof. unfold bind. by destruct (m s) as [? []]. Qed.

Lemma bind_ext m f (g : A → M S B) s :
  (∀ s1 a, m s = (s1, Ok a) → f a s1 = g a s1) → bind m f s = bind m g s.
Proof. intros Hfg. unfold bind. destruct (m s) as [s1 []]; auto. Qed.

Lemma on_error_Ok_inv m (wrap : error → M S error) s s' a :
  on_error m wrap s = (s', Ok a) → m s = (s', Ok a).
Proof.
  unfold on_error. destruct (m s) as [s1 []]; [done| |done].
  destruct (wrap e s1) as [? []]; done.
Qed.

Lemma on_error_Ok m (wrap : error → M S error) s s' a :
  m s = (s', Ok a) → on_error m wrap s = (s', Ok a).
Proof. intros E. unfold on_error. by rewrite E. Qed.

Lemma must_Ok_inv m why s s' a : must m why s = (s', Ok a) → m s = (s', Ok a).
Proof. unfold must. destruct (m s) as [s1 []]; naive_solver. Qed.

Lemma must_Ok m why s s' a : m s = (s', Ok a) → must m why s = (s', Ok a).
Proof. intros E. unfold must. by rewrite E. Qed.

Lemma when_Ok_inv (c : bool) (m : M S unit) s s' u :
  when c m s = (s', Ok u) → (c = true ∧ m s = (s', Ok u)) ∨ (c = false ∧ s' = s).
Proof. destruct c; cbn; [by left|]. unfold ret. naive_solver. Qed.
End monad_laws.

(** An assertion that holds of every state a run can leave, whatever its
    outcome. *)
Definition preserves {S A} (I : S → Prop) (m : M S A) : Prop :=
  ∀ s, I s → I (m s).1.

Section preserves.
Context {S : Type} (I : S → Prop).

Lemma preserves_run {A} (m : M S A) s s' o : preserves I m → I s → m s = (s', o) → I s'.
Proof. intros Hm Hs E. specialize (Hm s Hs). by rewrite E in Hm. Qed.

Lemma preserves_ret {A} (a : A) : preserves I (ret a).
Proof. by intros s. Qed.

Lemma preserves_gets {A} (f : S → A) : preserves I (gets f).
Proof. by intros s. Qed.

Lemma preserves_throw {A} e : preserves I (throw (A:=A) e).
Proof. by intros s. Qed.

Lemma preserves_panic {A} w : preserves I (panic (A:=A) w).
Proof. by intros s. Qed.

Lemma preserves_bind {A B} (m : M S A) (f : A → M S B) :
  preserves I m → (∀ a, preserves I (f a)) → preserves I (bind m f).
Proof.
  intros Hm Hf s Hs. unfold bind. specialize (Hm s Hs).
  destruct (m s) as [s1 []]; cbn in *; try done. by apply Hf.
Qed.

Lemma preserves_when (c : bool) (m : M S unit) :
  preserves I m → preserves I (when c m).
Proof. intros Hm. destruct c; [done|apply preserves_ret]. Qed.

Lemma preserves_for_each {A} (l : list A) (f : A → M S unit) :
  (∀ a, preserves I (f a)) → preserves I (for_each l f).
Proof.
  intros Hf. induction l as [|x r IH]; cbn; [apply preserves_ret|].
  apply preserves_bind; [done|by intros []].
Qed.

Lemma preserves_on_error {A} (m : M S A) (wrap : error → M S error) :
  preserves I m → (∀ e, preserves I (wrap e)) → preserves I (on_error m wrap).
Proof.
  intros Hm Hw s Hs. unfold on_error. specialize (Hm s Hs). destruct (m s) as [s1 [a|e|w]]; try done.
  specialize (Hw e s1 Hm). by destruct (wrap e s1) as [s2 []].
Qed.

Lemma preserves_must {A} (m : M S A) why : preserves I m → preserves I (must m why).
Proof. intros Hm s Hs. unfold must. specialize (Hm s Hs). by destruct (m s) as [s1 []]. Qed.

Lemma preserves_catch {A} (m : M S A) : preserves I m → preserves I (catch m).
Proof. intros Hm s Hs. unfold catch. specialize (Hm s Hs). by destruct (m s) as [s1 []]. Qed.

Lemma preserves_modify (f : S → S) :
  (∀ s, I s → I (f s)) → preserves I (modify f).
Proof. intros Hf s Hs. by apply Hf. Qed.
End preserves.

(** An assertion that every successful run keeps; what a failed run leaves is the
    caller's to discard. *)
Definition ok_keeps {S A} (I : S → Prop) (m : M S A) : Prop :=
  ∀ s s' x, I s → m s = (s', Ok x) → I s'.

Section ok_keeps.
Context {S : Type} (I : S → Prop).

Lemma ok_keeps_ret {A} (a : A) : ok_keeps I (ret a).
Proof. intros s s' x Hs [= <- _]. done. Qed.

Lemma ok_keeps_gets {A} (f : S → A) : ok_keeps I (gets f).
Proof. intros s s' x Hs [= <- _]. done. Qed.

Lemma ok_keeps_throw {A} e : ok_keeps I (throw (A:=A) e).
Proof. done. Qed.

Lemma ok_keeps_panic {A} w : ok_keeps I (panic (A:=A) w).
Proof. done. Qed.

Lemma ok_keeps_of_outcome {A} (o : outcome A) : ok_keeps I (of_outcome o).
Proof. intros s s' x Hs [= <- _]. done. Qed.

Lemma ok_keeps_bind {A B} (m : M S A) (f : A → M S B) :
  ok_keeps I m → (∀ a, ok_keeps I (f a)) → ok_keeps I (bind m f).
Proof. intros Hm Hf s s' x Hs (s1 & a & E & E')%bind_Ok_inv. eapply Hf; [|done]. by eapply Hm. Qed.

Lemma ok_keeps_on_error {A} (m : M S A) w : ok_keeps I m → ok_keeps I (on_error m w).
Proof. intros Hm s s' x Hs E%on_error_Ok_inv. by eapply Hm. Qed.

Lemma ok_keeps_must {A} (m : M S A) w : ok_keeps I m → ok_keeps I (must m w).
Proof. intros Hm s s' x Hs E%must_Ok_inv. by eapply Hm. Qed.

Lemma ok_keeps_when (c : bool) (m : M S unit) : ok_keeps I m → ok_keeps I (when c m).
Proof. destruct c; [done|]. intros _. apply ok_keeps_ret. Qed.

Lemma ok_keeps_modify (f : S → S) : (∀ s, I s → I (f s)) → ok_keeps I (modify f).
Proof. intros Hf s s' x Hs [= <- _]. auto. Qed.
End ok_keeps.

(** Takes a call apart down to the calls that write. *)
Ltac ok_keeps_step :=
  lazymatch goal with
  | |- ok_keeps _ (ret _) => apply ok_keeps_ret
  | |- ok_keeps _ (gets _) => apply ok_keeps_gets
  | |- ok_keeps _ (throw _) => apply ok_keeps_throw
  | |- ok_keeps _ (panic _) => apply ok_keeps_panic
  | |- ok_keeps _ (of_outcome _) => apply ok_keeps_of_outcome
  | |- ok_keeps _ (bind _ _) => apply ok_keeps_bind; [|intros ?]
  | |- ok_keeps _ (on_error _ _) => apply ok_keeps_on_error
  | |- ok_keeps _ (must _ _) => apply ok_keeps_must
  | |- ok_keeps _ (when _ _) => apply ok_keeps_when
  | |- ok_keeps _ (if ?c then _ else _) => destruct c
  | |- ok_keeps _ (match ?x with _ => _ end) => destruct x
  end.

Lemma preserves_of_outcome {S A} (I : S → Prop) (o : outcome A) : preserves I (of_outcome o).
Proof. by intros s. Qed.

(** One step of a proof that a run preserves an assertion, by the shape of the
    run. *)
Ltac preserves_step :=
  match goal with
  | |- preserves _ (ret _) => apply preserves_ret
  | |- preserves _ (gets _) => apply preserves_gets
  | |- preserves _ (throw _) => apply preserves_throw
  | |- preserves _ (panic _) => apply preserves_panic
  | |- preserves _ (of_outcome _) => apply preserves_of_outcome
  | |- preserves _ (bind _ _) => apply preserves_bind; [|intros ?]
  | |- preserves _ (when _ _) => apply preserves_when
  | |- preserves _ (on_error _ _) => apply preserves_on_error; [|intros ?]
  | |- preserves _ (must _ _) => apply preserves_must
  | |- preserves _ (catch _) => apply preserves_catch
  | |- preserves _ (for_each _ _) => apply preserves_for_each; intros ?
  | |- preserves _ (if ?c then _ else _) => destruct c
  | |- preserves _ (match ?x with _ => _ end) => destruct x
  end.

Create HintDb go discriminated.
#[global] Hint Constants Opaque : go.
#[export] Hint Resolve preserves_ret preserves_gets preserves_throw preserves_panic
  preserves_bind preserves_when preserves_for_each preserves_modify : go.

(** * Sums over finite maps *)

Section map_sum.
Context `{Countable K}.
Implicit Types (m : gmap K Z) (k : K) (v : Z).

Definition map_sum m : Z := map_fold (λ _ v acc, v + acc) 0 m.

Lemma map_sum_empty : map_sum ∅ = 0.
Proof. apply map_fold_empty. Qed.

Lemma map_sum_insert_None m k v :
  m !! k = None → map_sum (<[k:=v]> m) = v + map_sum m.
Proof.
  intros Hk. unfold map_sum. apply map_fold_insert_L; [lia|done].
Qed.

Lemma map_sum_delete m k : map_sum (delete k m) = map_sum m - default 0 (m !! k).
Proof.
  destruct (m !! k) as [v|] eqn:E; cbn.
  - rewrite <-(insert_delete_id m k v E) at 2.
    rewrite map_sum_insert_None by apply lookup_delete_eq. lia.
  - rewrite delete_id by done. lia.
Qed.

Lemma map_sum_insert m k v :
  map_sum (<[k:=v]> m) = map_sum m - default 0 (m !! k) + v.
Proof.
  rewrite <-insert_delete_eq, map_sum_insert_None by apply lookup_delete_eq.
  rewrite map_sum_delete. lia.
Qed.

Lemma map_sum_nonneg m : map_Forall (λ _ v, 0 ≤ v) m → 0 ≤ map_sum m.
Proof.
  induction m as [|k v m Hk IH] using map_ind; [by rewrite map_sum_empty|].
  rewrite map_sum_insert_None, map_Forall_insert by done. intros [? ?%IH]. lia.
Qed.

(** Two distinct entries are below the total when no entry is negative. *)
Lemma map_sum_two m k1 k2 :
  map_Forall (λ _ v, 0 ≤ v) m → k1 ≠ k2 →
  default 0 (m !! k1) + default 0 (m !! k2) ≤ map_sum m.
Proof.
  intros Hm Hne.
  assert (0 ≤ map_sum (delete k2 (delete k1 m))) as Hpos.
  { by apply map_sum_nonneg, map_Forall_delete, map_Forall_delete. }
  rewrite !map_sum_delete, lookup_delete_ne in Hpos by done. lia.
Qed.

Lemma map_sum_one m k :
  map_Forall (λ _ v, 0 ≤ v) m → default 0 (m !! k) ≤ map_sum m.
Proof.
  intros Hm. assert (0 ≤ map_sum (delete k m)) as Hpos
    by by apply map_sum_nonneg, map_Forall_delete.
  rewrite map_sum_delete in Hpos. lia.
Qed.
End map_sum.

(** * Machine integers *)

Definition u8_max : Z := 2 ^ 8.
Definition u64_max : Z := 2 ^ 64.
Definition u256_max : Z := 2 ^ 256.

(** Unsigned wrap-around at the width [w] given as its modulus. *)
Definition wrap (modulus z : Z) : Z := z mod modulus.

Lemma wrap_small m z : 0 ≤ z < m → wrap m z = z.
Proof. apply Z.mod_small. Qed.

Lemma wrap_bound m z : 0 < m → 0 ≤ wrap m z < m.
Proof. apply Z.mod_pos_bound. Qed.
