(* ===== verification/Sdk.v ===== *)
(** The parts of the Cosmos SDK the modules call: [sdkmath.Int], [sdk.Coins], the
    account keeper and the x/bank keeper.  None of that code is in the
    repository, so each is a class of operations, and what the modules rely on
    is a second class of laws that states its documented behaviour. *)

From S2P Require Import Prelude.

(** An [sdk.AccAddress] is its bytes; the nil and the empty address are the
    empty string. *)
Abbreviation addr := string (only parsing).
Abbreviation denom := string (only parsing).

Definition addr_empty (a : addr) : bool := bool_decide (a = EmptyString).

Record Coin : Type := mkCoin { Denom : denom; Amount : Z }.

#[global] Instance Coin_eq_dec : EqDecision Coin.
Proof. solve_decision. Defined.

Abbreviation Coins := (list Coin) (only parsing).

(** ** [sdkmath.Int] and [sdk.Coins] *)

Class SdkTypes : Type := {
  (** the 256-bit range check every [sdkmath.Int] operation ends with *)
  int_ok : Z → bool;
  valid_denom : denom → bool;
  NewCoin : denom → Z → outcome Coin;
  NewCoins : Coins → Coins;
  Coins_IsValid : Coins → bool;
  Coins_IsAllPositive : Coins → bool;
  Coins_Empty : Coins → bool;
  Coins_AmountOf : Coins → denom → Z;
  Coins_Sub : Coins → Coin → outcome Coins
}.

Class SdkTypesLaws `{SdkTypes} : Prop := {
  int_ok_spec z : int_ok z = true ↔ Z.abs z < u256_max;
  NewCoin_ok d n : valid_denom d = true → 0 ≤ n → NewCoin d n = Ok (mkCoin d n);
  (** a set of one positive coin of a valid denomination is already sanitised *)
  NewCoins_single d n : valid_denom d = true → 0 < n → NewCoins [mkCoin d n] = [mkCoin d n];
  NewCoins_valid d n :
    valid_denom d = true → 0 < n → Coins_IsValid (NewCoins [mkCoin d n]) = true;
  NewCoins_amount d n e :
    valid_denom d = true → 0 < n →
    Coins_AmountOf (NewCoins [mkCoin d n]) e = if decide (e = d) then n else 0;
  (** and a zero coin is dropped *)
  NewCoins_zero d e : Coins_AmountOf (NewCoins [mkCoin d 0]) e = 0;
  AmountOf_nonneg cs d : Coins_IsValid cs = true → 0 ≤ Coins_AmountOf cs d;
  AmountOf_valid_denom cs d :
    Coins_IsValid cs = true → 0 < Coins_AmountOf cs d → valid_denom d = true;
  Sub_own_amount cs d :
    Coins_IsValid cs = true → 0 < Coins_AmountOf cs d →
    ∃ cs', Coins_Sub cs (mkCoin d (Coins_AmountOf cs d)) = Ok cs' ∧
      Coins_IsValid cs' = true ∧
      ∀ e, Coins_AmountOf cs' e = if decide (e = d) then 0 else Coins_AmountOf cs e;
  Empty_amount cs d : Coins_Empty cs = true → Coins_AmountOf cs d = 0;
  (** a valid set has no zero coin *)
  Empty_of_zero cs :
    Coins_IsValid cs = true → (∀ d, Coins_AmountOf cs d = 0) → Coins_Empty cs = true;
  IsAllPositive_valid cs :
    Coins_IsValid cs = true → Coins_IsAllPositive cs = negb (Coins_Empty cs)
}.

Section int.
Context `{SdkTypes} {S : Type}.

Definition ichk (z : Z) : M S Z :=
  if int_ok z then ret z else panic "Int overflow".
Definition iadd (a b : Z) : M S Z := ichk (a + b).
Definition isub (a b : Z) : M S Z := ichk (a - b).
Definition imul (a b : Z) : M S Z := ichk (a * b).
(** [Quo] truncates; both panic on a zero divisor. *)
Definition iquo (a b : Z) : M S Z :=
  if b =? 0 then panic "division by zero" else ret (Z.quot a b).
Definition imod (a b : Z) : M S Z :=
  if b =? 0 then panic "division by zero" else ret (a mod b).

Definition newCoin (d : denom) (n : Z) : M S Coin := of_outcome (NewCoin d n).

Context `{!SdkTypesLaws}.

Lemma ichk_run z s : Z.abs z < u256_max → ichk z s = (s, Ok z).
Proof. intros ?%int_ok_spec. unfold ichk. by case_match. Qed.

Lemma ichk_inv z s s' a : ichk z s = (s', Ok a) → s' = s ∧ a = z.
Proof. unfold ichk, ret, panic. case_match; naive_solver. Qed.

Lemma cond_add_inv (c : bool) x y s s' a :
  (if c then iadd x y else ret x) s = (s', Ok a) → s' = s ∧ a = x + if c then y else 0.
Proof.
  destruct c; [by intros ?%ichk_inv|]. unfold ret. intros [= -> ->]. split; [done|lia].
Qed.

Lemma cond_sub_inv (c : bool) x y s s' a :
  (if c then isub x y else ret x) s = (s', Ok a) → s' = s ∧ a = x - if c then y else 0.
Proof.
  destruct c; [by intros ?%ichk_inv|]. unfold ret. intros [= -> ->]. split; [done|lia].
Qed.

Lemma iadd_run x y s : Z.abs (x + y) < u256_max → iadd x y s = (s, Ok (x + y)).
Proof. apply ichk_run. Qed.

Lemma isub_run x y s : Z.abs (x - y) < u256_max → isub x y s = (s, Ok (x - y)).
Proof. apply ichk_run. Qed.

Lemma cond_add_run (c : bool) x y s :
  (c = true → Z.abs (x + y) < u256_max) →
  (if c then iadd x y else ret x) s = (s, Ok (x + if c then y else 0)).
Proof.
  intros Hc. destruct c; [by apply iadd_run, Hc|]. unfold ret. do 2 f_equal. lia.
Qed.

Lemma cond_sub_run (c : bool) x y s :
  (c = true → Z.abs (x - y) < u256_max) →
  (if c then isub x y else ret x) s = (s, Ok (x - if c then y else 0)).
Proof.
  intros Hc. destruct c; [by apply isub_run, Hc|]. unfold ret. do 2 f_equal. lia.
Qed.

Lemma iquo_inv x y s s' a : iquo x y s = (s', Ok a) → s' = s ∧ a = Z.quot x y.
Proof. unfold iquo, ret, panic. case_match; naive_solver. Qed.

Lemma imod_inv x y s s' a : imod x y s = (s', Ok a) → s' = s ∧ a = x mod y.
Proof. unfold imod, ret, panic. case_match; naive_solver. Qed.

Lemma iquo_run x y s : y ≠ 0 → iquo x y s = (s, Ok (Z.quot x y)).
Proof. intros ?%Z.eqb_neq. unfold iquo. by case_match. Qed.

Lemma imod_run x y s : y ≠ 0 → imod x y s = (s, Ok (x mod y)).
Proof. intros ?%Z.eqb_neq. unfold imod. by case_match. Qed.

Lemma newCoin_run d n s :
  valid_denom d = true → 0 ≤ n → newCoin d n s = (s, Ok (mkCoin d n)).
Proof. intros ??. unfold newCoin, of_outcome. by rewrite NewCoin_ok. Qed.
End int.

(** ** The account keeper *)

Record ModuleAccount : Type := mkModuleAccount {
  ma_address : addr;
  ma_permissions : list string
}.

Definition HasPermission (acc : ModuleAccount) (p : string) : bool :=
  bool_decide (p ∈ ma_permissions acc).

Definition Minter : string := "minter".
Definition Burner : string := "burner".

Class AccountKeeper : Type := {
  (** the address derived from a registered module's name, nil otherwise *)
  GetModuleAddress : string → addr;
  GetModuleAccount : string → option ModuleAccount;
  StringToBytes : string → outcome addr
}.

Class AccountKeeperLaws `{AccountKeeper} : Prop := {
  module_account_address m acc :
    GetModuleAccount m = Some acc →
    GetModuleAddress m = ma_address acc ∧ ma_address acc ≠ EmptyString;
  module_account_none m : GetModuleAccount m = None → GetModuleAddress m = EmptyString;
  (** addresses of distinct registered modules differ *)
  module_address_inj m1 m2 :
    GetModuleAddress m1 = GetModuleAddress m2 →
    GetModuleAddress m1 ≠ EmptyString → m1 = m2
}.

Definition has_perm `{AccountKeeper} (m p : string) : Prop :=
  ∃ acc, GetModuleAccount m = Some acc ∧ HasPermission acc p = true.

(** ** The x/bank keeper *)

Class BankKeeper (B : Type) : Type := {
  bk_GetBalance : B → addr → denom → Z;
  bk_SpendableCoin : B → addr → denom → Z;
  (** the part of a balance a vesting schedule locks *)
  bk_LockedCoin : B → addr → denom → Z;
  bk_GetSupply : B → denom → Z;
  bk_IsSendEnabledCoin : B → Coin → bool;
  bk_BlockedAddr : addr → bool;
  bk_SendCoins : addr → addr → Coins → M B unit;
  bk_SendCoinsFromAccountToModule : addr → string → Coins → M B unit;
  bk_SendCoinsFromModuleToModule : string → string → Coins → M B unit;
  bk_MintCoins : string → Coins → M B unit;
  bk_BurnCoins : string → Coins → M B unit
}.

(** How much a transfer of [cs] from [src] to [dst] changes the balance of [a]. *)
Definition moved `{SdkTypes} (src dst : addr) (cs : Coins) (a : addr) (d : denom) : Z :=
  (if decide (a = dst) then Coins_AmountOf cs d else 0)
  - (if decide (a = src) then Coins_AmountOf cs d else 0).

Class BankKeeperLaws (B : Type) `{SdkTypes, AccountKeeper, !BankKeeper B} : Prop := {
  bk_balance_nonneg b a d : 0 ≤ bk_GetBalance b a d;
  bk_balance_ok b a d : int_ok (bk_GetBalance b a d) = true;
  bk_locked_nonneg b a d : 0 ≤ bk_LockedCoin b a d;
  bk_supply_nonneg b d : 0 ≤ bk_GetSupply b d;
  bk_spendable_spec b a d :
    bk_SpendableCoin b a d = Z.max 0 (bk_GetBalance b a d - bk_LockedCoin b a d);

  bk_send_effect src dst cs b b' :
    Coins_IsValid cs = true →
    bk_SendCoins src dst cs b = (b', Ok tt) →
    (∀ a d, bk_GetBalance b' a d = bk_GetBalance b a d + moved src dst cs a d) ∧
    (∀ a d, bk_LockedCoin b' a d = bk_LockedCoin b a d) ∧
    (∀ d, bk_GetSupply b' d = bk_GetSupply b d);
  bk_send_succeeds src dst cs b :
    Coins_IsValid cs = true →
    (∀ d, Coins_AmountOf cs d ≤ bk_SpendableCoin b src d) →
    (∀ d, int_ok (bk_GetBalance b dst d + Coins_AmountOf cs d) = true) →
    ∃ b', bk_SendCoins src dst cs b = (b', Ok tt);
  bk_send_insufficient src dst d n b :
    valid_denom d = true → 0 < n → bk_SpendableCoin b src d < n →
    ∃ e, bk_SendCoins src dst (NewCoins [mkCoin d n]) b = (b, Err e) ∧
      err_code e = ErrInsufficientFunds;
  bk_send_to_module src m cs :
    GetModuleAddress m ≠ EmptyString →
    bk_SendCoinsFromAccountToModule src m cs = bk_SendCoins src (GetModuleAddress m) cs;
  bk_send_module_to_module m1 m2 cs :
    GetModuleAddress m1 ≠ EmptyString → GetModuleAddress m2 ≠ EmptyString →
    bk_SendCoinsFromModuleToModule m1 m2 cs
      = bk_SendCoins (GetModuleAddress m1) (GetModuleAddress m2) cs;

  bk_mint_effect m cs b b' :
    Coins_IsValid cs = true →
    bk_MintCoins m cs b = (b', Ok tt) →
    (∀ a d, bk_GetBalance b' a d = bk_GetBalance b a d
       + if decide (a = GetModuleAddress m) then Coins_AmountOf cs d else 0) ∧
    (∀ a d, bk_LockedCoin b' a d = bk_LockedCoin b a d) ∧
    (∀ d, bk_GetSupply b' d = bk_GetSupply b d + Coins_AmountOf cs d);
  bk_mint_succeeds m cs b :
    Coins_IsValid cs = true → has_perm m Minter →
    (∀ d, 0 < Coins_AmountOf cs d →
       int_ok (bk_GetBalance b (GetModuleAddress m) d + Coins_AmountOf cs d) = true) →
    (∀ d, 0 < Coins_AmountOf cs d → int_ok (bk_GetSupply b d + Coins_AmountOf cs d) = true) →
    ∃ b', bk_MintCoins m cs b = (b', Ok tt);

  bk_burn_effect m cs b b' :
    Coins_IsValid cs = true →
    bk_BurnCoins m cs b = (b', Ok tt) →
    (∀ a d, bk_GetBalance b' a d = bk_GetBalance b a d
       - if decide (a = GetModuleAddress m) then Coins_AmountOf cs d else 0) ∧
    (∀ a d, bk_LockedCoin b' a d = bk_LockedCoin b a d) ∧
    (∀ d, bk_GetSupply b' d = bk_GetSupply b d - Coins_AmountOf cs d);
  bk_burn_succeeds m cs b :
    Coins_IsValid cs = true → has_perm m Burner →
    (∀ d, Coins_AmountOf cs d ≤ bk_SpendableCoin b (GetModuleAddress m) d) →
    ∃ b', bk_BurnCoins m cs b = (b', Ok tt);
  bk_burn_insufficient m d n b :
    valid_denom d = true → 0 < n → has_perm m Burner →
    bk_SpendableCoin b (GetModuleAddress m) d < n →
    ∃ e, bk_BurnCoins m (NewCoins [mkCoin d n]) b = (b, Err e) ∧
      err_code e = ErrInsufficientFunds
}.
