(* ===== verification/SdkAuth.v ===== *)
(** The accounts of x/auth, as the EVM keeper uses them.  x/auth is SDK code: its
    operations are a class over the same SDK state as x/bank, because the two
    modules meet twice: the coins a vesting account locks depend on the account,
    and x/bank creates the account of a recipient that has none. *)

From S2P Require Import Prelude.
From S2P Require Import Sdk.

Class AuthAccounts : Type := {
  AccountI : Type;
  PubKey : Type;
  GetAddress : AccountI → addr;
  GetPubKey : AccountI → PubKey;
  GetAccountNumber : AccountI → Z;
  GetSequence : AccountI → Z;
  SetSequence : Z → AccountI → outcome AccountI;
  NewBaseAccount : addr → PubKey → Z → Z → AccountI
}.

Class AuthKeeper (B : Type) `{AuthAccounts} : Type := {
  ak_GetAccount : B → addr → option AccountI;
  ak_NewAccountWithAddress : addr → M B AccountI;
  ak_SetAccount : AccountI → M B unit;
  ak_RemoveAccount : AccountI → M B unit
}.

(** [b'] has the coins of [b]. *)
Definition same_coins {B} `{BankKeeper B} (b b' : B) : Prop :=
  (∀ a d, bk_GetBalance b' a d = bk_GetBalance b a d) ∧ (∀ d, bk_GetSupply b' d = bk_GetSupply b d).

(** [b'] has the accounts of [b], except that [a0] may have been created. *)
Definition accounts_but {B} `{AuthKeeper B} (a0 : addr) (b b' : B) : Prop :=
  ∀ a, ak_GetAccount b' a = ak_GetAccount b a ∨ (a = a0 ∧ ak_GetAccount b a = None).

Class AuthKeeperLaws (B : Type) `{AccountKeeper, !BankKeeper B, AuthKeeper B} : Prop := {
  ak_address b a acc : ak_GetAccount b a = Some acc → GetAddress acc = a;
  set_sequence_spec n acc acc' : SetSequence n acc = Ok acc' →
    GetSequence acc' = n ∧ GetAddress acc' = GetAddress acc;
  base_account_address a k n q : GetAddress (NewBaseAccount a k n q) = a;

  ak_new_spec a b b' acc : ak_NewAccountWithAddress a b = (b', Ok acc) →
    GetAddress acc = a ∧ GetSequence acc = 0 ∧ (∀ x, ak_GetAccount b' x = ak_GetAccount b x) ∧ same_coins b b' ∧
    (∀ x d, bk_LockedCoin b' x d = bk_LockedCoin b x d);
  ak_set_spec acc b b' : ak_SetAccount acc b = (b', Ok tt) →
    (∀ x, ak_GetAccount b' x = if decide (x = GetAddress acc) then Some acc else ak_GetAccount b x) ∧
    same_coins b b' ∧ (∀ x d, x ≠ GetAddress acc → bk_LockedCoin b' x d = bk_LockedCoin b x d);
  ak_remove_spec acc b b' : ak_RemoveAccount acc b = (b', Ok tt) →
    (∀ x, ak_GetAccount b' x = if decide (x = GetAddress acc) then None else ak_GetAccount b x) ∧
    same_coins b b' ∧ (∀ x d, x ≠ GetAddress acc → bk_LockedCoin b' x d = bk_LockedCoin b x d);

  (** vesting: no account and no base account locks coins, a new account is a
      base account, and the sequence has nothing to do with it *)
  no_account_locked b a d : ak_GetAccount b a = None → bk_LockedCoin b a d = 0;
  base_account_locked a k n q b b' d :
    ak_SetAccount (NewBaseAccount a k n q) b = (b', Ok tt) → bk_LockedCoin b' a d = 0;
  new_account_locked a b b1 acc n acc' b' d :
    ak_NewAccountWithAddress a b = (b1, Ok acc) → SetSequence n acc = Ok acc' →
    ak_SetAccount acc' b1 = (b', Ok tt) → bk_LockedCoin b' a d = 0;
  fresh_account_locked a b b1 acc b' d :
    ak_NewAccountWithAddress a b = (b1, Ok acc) → ak_SetAccount acc b1 = (b', Ok tt) → bk_LockedCoin b' a d = 0;
  set_sequence_locked a b acc n acc' b' d :
    ak_GetAccount b a = Some acc → SetSequence n acc = Ok acc' →
    ak_SetAccount acc' b = (b', Ok tt) → bk_LockedCoin b' a d = bk_LockedCoin b a d;

  send_accounts src dst cs b b' : bk_SendCoins src dst cs b = (b', Ok tt) → accounts_but dst b b';
  mint_accounts m cs b b' : bk_MintCoins m cs b = (b', Ok tt) → accounts_but (GetModuleAddress m) b b';
  burn_accounts m cs b b' : bk_BurnCoins m cs b = (b', Ok tt) → accounts_but (GetModuleAddress m) b b'
}.
