(* ===== verification/EvmDenom.v ===== *)
(** The EVM coin configuration (x/vm/types/denom.go, denom_config.go) and the
    conversions between the bank's decimals and the EVM's eighteen
    (scaling.go). *)

From S2P Require Import Prelude.
From S2P Require Import Sdk.

(** * Decimals *)

Definition EighteenDecimals : Z := 18.

(** The package variable [ConversionFactor], a Go map: a lookup of a missing key
    gives the zero [math.Int], whose pointer is nil; that is [None] here. *)
Definition ConversionFactor : gmap Z Z := list_to_map [
  (1, 10 ^ 17); (2, 10 ^ 16); (3, 10 ^ 15); (4, 10 ^ 14); (5, 10 ^ 13); (6, 10 ^ 12);
  (7, 10 ^ 11); (8, 10 ^ 10); (9, 10 ^ 9); (10, 10 ^ 8); (11, 10 ^ 7); (12, 10 ^ 6);
  (13, 10 ^ 5); (14, 10 ^ 4); (15, 10 ^ 3); (16, 10 ^ 2); (17, 10 ^ 1); (18, 10 ^ 0)].

Definition Decimals_Validate (d : Z) : option error :=
  if (0 <? d) && (d <=? EighteenDecimals) then None
  else Some (errorf ErrOther "received unsupported decimals").

Definition Decimals_ConversionFactor (d : Z) : option Z := ConversionFactor !! d.

(** * The coin configuration *)

Record EvmCoinInfo : Type := mkEvmCoinInfo {
  eci_Denom : denom;
  eci_ExtendedDenom : denom;
  eci_DisplayDenom : denom;
  eci_Decimals : Z
}.

#[global] Instance EvmCoinInfo_eq_dec : EqDecision EvmCoinInfo.
Proof. solve_decision. Defined.

(** The package's two global variables. *)
Record CoinConfig : Type := mkCoinConfig {
  defaultEvmCoinInfo : option EvmCoinInfo;
  evmCoinInfo : option EvmCoinInfo
}.

Section config.
Context `{SdkTypes}.

Definition SetDefaultEvmCoinInfo (coinInfo : EvmCoinInfo) : M CoinConfig unit :=
  modify (λ c, mkCoinConfig (Some coinInfo) (evmCoinInfo c)).

Definition getEvmCoinInfo (c : CoinConfig) : option EvmCoinInfo :=
  match evmCoinInfo c with
  | None => defaultEvmCoinInfo c
  | Some i => Some i
  end.

(** A field of the configured coin; reading it through a nil pointer panics. *)
Definition coin_field {A} (f : EvmCoinInfo → A) : M CoinConfig A := λ c,
  match getEvmCoinInfo c with
  | Some i => (c, Ok (f i))
  | None => (c, Panic "nil pointer dereference")
  end.

Definition GetEVMCoinDecimals : M CoinConfig Z := coin_field eci_Decimals.
Definition GetEVMCoinDenom : M CoinConfig denom := coin_field eci_Denom.
Definition GetEVMCoinExtendedDenom : M CoinConfig denom := coin_field eci_ExtendedDenom.
Definition GetEVMCoinDisplayDenom : M CoinConfig denom := coin_field eci_DisplayDenom.

(** [evmCoinInfo.Field = v]; the pointer is nil before [setEVMCoinInfo]. *)
Definition set_coin (f : EvmCoinInfo → EvmCoinInfo) : M CoinConfig unit := λ c,
  match evmCoinInfo c with
  | Some i => (mkCoinConfig (defaultEvmCoinInfo c) (Some (f i)), Ok tt)
  | None => (c, Panic "nil pointer dereference")
  end.

Definition setEVMCoinDecimals (d : Z) : M CoinConfig unit :=
  match Decimals_Validate d with
  | Some e => throw e
  | None => set_coin (λ i, mkEvmCoinInfo (eci_Denom i) (eci_ExtendedDenom i) (eci_DisplayDenom i) d)
  end.

Definition setEVMCoinDenom (d : denom) : M CoinConfig unit :=
  if valid_denom d
  then set_coin (λ i, mkEvmCoinInfo d (eci_ExtendedDenom i) (eci_DisplayDenom i) (eci_Decimals i))
  else throw (errorf ErrOther "setting EVM coin denom").

Definition setEVMCoinExtendedDenom (d : denom) : M CoinConfig unit :=
  if valid_denom d
  then set_coin (λ i, mkEvmCoinInfo (eci_Denom i) d (eci_DisplayDenom i) (eci_Decimals i))
  else throw (errorf ErrOther "invalid extended denom").

Definition setDisplayDenom (d : denom) : M CoinConfig unit :=
  if valid_denom d
  then set_coin (λ i, mkEvmCoinInfo (eci_Denom i) (eci_ExtendedDenom i) d (eci_Decimals i))
  else throw (errorf ErrOther "setting EVM coin display denom").

Definition new_EvmCoinInfo : EvmCoinInfo :=
  mkEvmCoinInfo EmptyString EmptyString EmptyString 0.

Definition setEVMCoinInfo (eci : EvmCoinInfo) : M CoinConfig unit :=
  let! cur := gets evmCoinInfo in
  if bool_decide (is_Some cur)
  then throw (errorf ErrOther "EVM coin info already set")
  else if (eci_Decimals eci =? EighteenDecimals)
          && negb (bool_decide (eci_Denom eci = eci_ExtendedDenom eci))
  then throw (errorf ErrOther "EVM coin denom and extended denom must be the same for 18 decimals")
  else
    modify (λ c, mkCoinConfig (defaultEvmCoinInfo c) (Some new_EvmCoinInfo)) >>!
    setEVMCoinDenom (eci_Denom eci) >>!
    setEVMCoinExtendedDenom (eci_ExtendedDenom eci) >>!
    setDisplayDenom (eci_DisplayDenom eci) >>!
    setEVMCoinDecimals (eci_Decimals eci).
End config.

(** A configuration [setEVMCoinInfo] can leave after it returned nil. *)
Record valid_coin_info `{SdkTypes} (i : EvmCoinInfo) : Prop := {
  vci_decimals : 1 ≤ eci_Decimals i ≤ 18;
  vci_denom : valid_denom (eci_Denom i) = true;
  vci_ext : valid_denom (eci_ExtendedDenom i) = true;
  vci_same : eci_Decimals i = 18 → eci_Denom i = eci_ExtendedDenom i
}.

(** * Scaling amounts *)

Section scaling.
Context (info : EvmCoinInfo).

(** A nil factor has no value; every use of it in arithmetic dereferences the
    nil pointer, which [0] stands for: the callers panic on it in the same
    place (a division) or are only used with a validated configuration. *)
Definition coin_factor : Z := default 0 (Decimals_ConversionFactor (eci_Decimals info)).

Definition ConvertAmountTo18DecimalsBigInt (amt : Z) : Z := amt * coin_factor.

(** [uint256] multiplication wraps. *)
Definition ConvertAmountTo18Decimals256Int (amt : Z) : Z :=
  wrap u256_max (amt * wrap u64_max coin_factor).

Definition ConvertEvmCoinDenomToExtendedDenom (coin : Coin) : outcome Coin :=
  if bool_decide (Denom coin = eci_Denom info)
  then Ok (mkCoin (eci_ExtendedDenom info) (Amount coin))
  else Err (errorf ErrOther "expected coin denom").

(** The loop of [ConvertCoinsDenomToExtendedDenom], before its final sort. *)
Definition convert_coin (coin : Coin) : Coin :=
  if bool_decide (Denom coin = eci_Denom info)
  then match ConvertEvmCoinDenomToExtendedDenom coin with Ok c => c | _ => coin end
  else coin.

Definition ConvertCoinsDenomToExtendedDenom (sort : Coins → Coins) (coins : Coins) : Coins :=
  sort (map convert_coin coins).
End scaling.

(** * Facts *)

Lemma Decimals_Validate_None d : Decimals_Validate d = None ↔ 1 ≤ d ≤ 18.
Proof. unfold Decimals_Validate, EighteenDecimals. case_match; split; intros; try done; lia. Qed.

(** The literal table is [10^(18-d)] on the supported decimals. *)
Lemma conversion_factor_table d :
  1 ≤ d ≤ 18 → Decimals_ConversionFactor d = Some (10 ^ (18 - d)).
Proof.
  intros Hd. assert (∃ n : nat, d = Z.of_nat n ∧ (n < 19)%nat) as (n & -> & Hn)
    by (exists (Z.to_nat d); lia).
  do 19 (destruct n as [|n]; [first [lia | reflexivity]|]). lia.
Qed.

Lemma conversion_factor_missing d :
  ¬ (1 ≤ d ≤ 18) → Decimals_ConversionFactor d = None.
Proof.
  intros Hd. unfold Decimals_ConversionFactor, ConversionFactor.
  apply not_elem_of_list_to_map_1. cbn. rewrite !elem_of_cons, elem_of_nil. lia.
Qed.

Lemma coin_factor_pow `{SdkTypes} info :
  valid_coin_info info → coin_factor info = 10 ^ (18 - eci_Decimals info).
Proof. intros [Hd _ _ _]. unfold coin_factor. by rewrite conversion_factor_table. Qed.

Lemma coin_factor_bounds `{SdkTypes} info :
  valid_coin_info info → 1 ≤ coin_factor info ≤ 10 ^ 17.
Proof.
  intros Hi. rewrite coin_factor_pow by done. destruct Hi as [Hd _ _ _]. split.
  - change 1 with (10 ^ 0). apply Z.pow_le_mono_r; lia.
  - apply Z.pow_le_mono_r; lia.
Qed.

Section config_facts.
Context `{SdkTypes}.

(** The field writes of [setEVMCoinInfo], once the pointer is set. *)
Lemma set_coin_run f c i :
  evmCoinInfo c = Some i →
  set_coin f c = (mkCoinConfig (defaultEvmCoinInfo c) (Some (f i)), Ok tt).
Proof. intros E. unfold set_coin. by rewrite E. Qed.

Lemma config_eta c : mkCoinConfig (defaultEvmCoinInfo c) (evmCoinInfo c) = c.
Proof. by destruct c. Qed.

(** [setEVMCoinInfo] accepts a configuration exactly when none is set
    yet, the three denominations and the decimals are valid and, with eighteen
    decimals, the extended denomination is the denomination itself; it then
    stores that configuration unchanged. *)
Theorem setEVMCoinInfo_accepts eci c :
  is_ok (setEVMCoinInfo eci c).2 = true ↔
  evmCoinInfo c = None ∧ valid_coin_info eci ∧ valid_denom (eci_DisplayDenom eci) = true ∧
  (setEVMCoinInfo eci c).1 = mkCoinConfig (defaultEvmCoinInfo c) (Some eci).
Proof.
  unfold setEVMCoinInfo. rewrite (bind_Ok (gets _) _ c c _ eq_refl).
  destruct (evmCoinInfo c) as [i|] eqn:Hc; cbn [is_Some].
  { rewrite bool_decide_eq_true_2 by done. split; [done|]. by intros (? & _). }
  rewrite bool_decide_eq_false_2 by (by intros [? ?]).
  destruct (decide (eci_Decimals eci = 18 ∧ eci_Denom eci ≠ eci_ExtendedDenom eci)) as [[Hd Hne]|Hok].
  { rewrite Hd, bool_decide_eq_false_2 by done. split; [done|]. intros (_ & [_ _ _ Hs] & _). naive_solver. }
  assert ((eci_Decimals eci =? EighteenDecimals)
          && negb (bool_decide (eci_Denom eci = eci_ExtendedDenom eci)) = false) as ->.
  { apply not_true_is_false. intros [Hd%Z.eqb_eq Hb]%andb_true_iff. case_bool_decide; naive_solver. }
  rewrite (bind_Ok (modify _) _ c (mkCoinConfig (defaultEvmCoinInfo c) (Some new_EvmCoinInfo)) tt eq_refl).
  unfold setEVMCoinDenom, setEVMCoinExtendedDenom, setDisplayDenom, setEVMCoinDecimals.
  destruct (valid_denom (eci_Denom eci)) eqn:H1; [|split; [done|by intros (_ & [] & _); congruence]].
  erewrite bind_Ok by (by apply set_coin_run).
  destruct (valid_denom (eci_ExtendedDenom eci)) eqn:H2; [|split; [done|by intros (_ & [] & _); congruence]].
  erewrite bind_Ok by (by apply set_coin_run).
  destruct (valid_denom (eci_DisplayDenom eci)) eqn:H3; [|split; [done|by intros (_ & _ & ? & _)]].
  erewrite bind_Ok by (by apply set_coin_run).
  destruct (Decimals_Validate (eci_Decimals eci)) as [e|] eqn:H4.
  - split; [done|]. intros (_ & [Hd _ _ _] & _). apply Decimals_Validate_None in Hd. congruence.
  - erewrite set_coin_run by done. split; [|done]. intros _.
    split_and!; [done| |done|by destruct eci].
    split; try done; [by apply Decimals_Validate_None|].
    intros Hd. destruct (decide (eci_Denom eci = eci_ExtendedDenom eci)); naive_solver.
Qed.

(** A rejected configuration is not rolled back: once the fields are being
    written, an invalid one leaves the configuration set, and a later call
    with a valid configuration is refused. *)
Theorem setEVMCoinInfo_not_atomic bad good c :
  evmCoinInfo c = None → valid_denom (eci_Denom bad) = false →
  (eci_Decimals bad = 18 → eci_Denom bad = eci_ExtendedDenom bad) →
  is_ok (setEVMCoinInfo bad c).2 = false ∧
  (setEVMCoinInfo good (setEVMCoinInfo bad c).1).2
    = Err (errorf ErrOther "EVM coin info already set").
Proof.
  intros Hc Hbad Hsame.
  assert (setEVMCoinInfo bad c = (mkCoinConfig (defaultEvmCoinInfo c) (Some new_EvmCoinInfo),
            Err (errorf ErrOther "setting EVM coin denom"))) as ->; [|done].
  unfold setEVMCoinInfo. rewrite (bind_Ok (gets _) _ c c _ eq_refl), Hc.
  rewrite bool_decide_eq_false_2 by (by intros [? ?]).
  assert ((eci_Decimals bad =? EighteenDecimals)
          && negb (bool_decide (eci_Denom bad = eci_ExtendedDenom bad)) = false) as ->.
  { apply not_true_is_false. intros [Hd%Z.eqb_eq Hb]%andb_true_iff. case_bool_decide; naive_solver. }
  rewrite (bind_Ok (modify _) _ c (mkCoinConfig (defaultEvmCoinInfo c) (Some new_EvmCoinInfo)) tt eq_refl).
  unfold setEVMCoinDenom. by rewrite Hbad.
Qed.
End config_facts.

(** The literal table is the power of ten that fills up to eighteen
    decimals, for the supported decimals and for no other. *)
Theorem ConversionFactor_table d :
  Decimals_ConversionFactor d = if decide (Decimals_Validate d = None) then Some (10 ^ (18 - d)) else None.
Proof.
  case_decide as Hd.
  - by apply conversion_factor_table, Decimals_Validate_None.
  - apply conversion_factor_missing. by rewrite <-Decimals_Validate_None.
Qed.

(** Scaling a 256-bit amount up to eighteen decimals is exact as long as
    the result fits, and wraps modulo 2^256 otherwise. *)
Theorem ConvertAmountTo18Decimals256Int_exact `{SdkTypes} info amt :
  valid_coin_info info → 0 ≤ amt →
  ConvertAmountTo18Decimals256Int info amt = ConvertAmountTo18DecimalsBigInt info amt mod u256_max ∧
  (amt * coin_factor info < u256_max →
   ConvertAmountTo18Decimals256Int info amt = ConvertAmountTo18DecimalsBigInt info amt).
Proof.
  intros Hi Ha. pose proof (coin_factor_bounds info Hi).
  unfold ConvertAmountTo18Decimals256Int, ConvertAmountTo18DecimalsBigInt.
  assert (10 ^ 17 < u64_max) by done.
  rewrite (wrap_small u64_max) by lia. split; [done|]. intros. apply wrap_small. nia.
Qed.
