(* ===== verification/PreciseBank.v ===== *)
(** x/precisebank: the keeper that gives a bank coin of fewer than eighteen
    decimals an eighteen-decimal face.  The integer part of a balance stays in
    x/bank; this module stores each account's fractional part, and the
    remainder, and keeps a reserve in its module account that backs them.

    One definition per keeper method (keeper/fractional_balance.go,
    remainder_amount.go, view.go, send.go, mint.go, burn.go, grpc_query.go and
    types/fractional_balance.go, events.go, extended_balance.go). *)

From S2P Require Import Prelude.
From S2P Require Import Sdk.
From S2P Require Import EvmDenom.

Definition ModuleName : string := "precisebank".

(** [NewEventFractionalBalanceChange]: the two attributes of the event. *)
Record FracEvent : Type := mkFracEvent { ev_address : addr; ev_delta : Z }.

(** The module's store has two disjoint key ranges: [0x01 ++ address] for the
    fractional balances and the key [0x02] for the remainder. *)
Record PState (B : Type) : Type := mkPState {
  ps_bank : B;
  ps_frac : gmap string Z;
  ps_rem : option Z;
  ps_events : list FracEvent
}.
Arguments mkPState {B}.
Arguments ps_bank {B}.
Arguments ps_frac {B}.
Arguments ps_rem {B}.
Arguments ps_events {B}.

Section precisebank.
Context `{SdkTypes, AccountKeeper} {B : Type} `{!BankKeeper B} (info : EvmCoinInfo).

Definition ConversionFactor : Z := coin_factor info.
Definition IntegerCoinDenom : denom := eci_Denom info.
Definition ExtendedCoinDenom : denom := eci_ExtendedDenom info.

Definition IsExtendedDenomSameAsIntegerDenom : bool :=
  bool_decide (IntegerCoinDenom = ExtendedCoinDenom).

(** A nil [Int] is [None]. *)
Definition ValidateFractionalAmount (amt : option Z) : option error :=
  match amt with
  | None => Some (errorf ErrOther "nil amount")
  | Some z =>
      if negb (0 <? z) then Some (errorf ErrOther "non-positive amount")
      else if z >=? ConversionFactor then Some (errorf ErrOther "amount exceeds max")
      else None
  end.

(** ** Store access *)

Definition bank {A} (m : M B A) : M (PState B) A :=
  zoom ps_bank (λ b s, mkPState b (ps_frac s) (ps_rem s) (ps_events s)) m.

Definition set_frac (f : gmap string Z) (s : PState B) : PState B :=
  mkPState (ps_bank s) f (ps_rem s) (ps_events s).
Definition set_rem (r : option Z) (s : PState B) : PState B :=
  mkPState (ps_bank s) (ps_frac s) r (ps_events s).

(** What a read of a key gives: a missing entry is zero. *)
Definition frac_of (s : PState B) (a : addr) : Z := default 0 (ps_frac s !! a).
Definition rem_of (s : PState B) : Z := default 0 (ps_rem s).

Definition GetFractionalBalance (address : addr) : M (PState B) Z :=
  gets (λ s, frac_of s address).

Definition DeleteFractionalBalance (address : addr) : M (PState B) unit :=
  modify (λ s, set_frac (delete address (ps_frac s)) s).

Definition SetFractionalBalance (address : addr) (amount : Z) : M (PState B) unit :=
  if addr_empty address then panic "address cannot be empty"
  else if amount =? 0 then DeleteFractionalBalance address
  else match ValidateFractionalAmount (Some amount) with
       | Some _ => panic "amount is invalid"
       | None => modify (λ s, set_frac (<[address := amount]> (ps_frac s)) s)
       end.

(** The prefix store iterates in ascending key order. *)
Definition key_le (x y : string * Z) : Prop := String.leb x.1 y.1 = true.
#[global] Instance key_le_dec : RelDecision key_le.
Proof. intros x y. unfold key_le. apply _. Defined.

Definition fractional_entries (s : PState B) : list (string * Z) :=
  merge_sort key_le (map_to_list (ps_frac s)).

(** The callback threads an accumulator and says whether to stop. *)
Fixpoint iterate {T} (l : list (string * Z)) (cb : addr → Z → T → M (PState B) (T * bool))
    (t : T) : M (PState B) T :=
  match l with
  | [] => ret t
  | (address, amount) :: r =>
      let! (t', stop) := cb address amount t in
      if (stop : bool) then ret t' else iterate r cb t'
  end.

Definition IterateFractionalBalances {T} (cb : addr → Z → T → M (PState B) (T * bool)) (t : T)
    : M (PState B) T :=
  let! l := gets fractional_entries in iterate l cb t.

Definition GetTotalSumFractionalBalances : M (PState B) Z :=
  IterateFractionalBalances (λ _ amount sum, let! sum' := iadd sum amount in ret (sum', false)) 0.

Definition GetRemainderAmount : M (PState B) Z :=
  gets rem_of.

Definition DeleteRemainderAmount : M (PState B) unit := modify (set_rem None).

Definition SetRemainderAmount (amount : Z) : M (PState B) unit :=
  if amount =? 0 then DeleteRemainderAmount
  else match ValidateFractionalAmount (Some amount) with
       | Some _ => panic "remainder amount is invalid"
       | None => modify (set_rem (Some amount))
       end.

Definition NewEventFractionalBalanceChange (address : addr) (before after : Z)
    : M (PState B) FracEvent :=
  let! delta := isub after before in
  ret (mkFracEvent address delta).

Definition EmitEventFractionalBalanceChange (address : addr) (before after : Z)
    : M (PState B) unit :=
  let! ev := NewEventFractionalBalanceChange address before after in
  modify (λ s, mkPState (ps_bank s) (ps_frac s) (ps_rem s) (ps_events s ++ [ev])).

(** ** Views *)

Definition reserve : addr := GetModuleAddress ModuleName.

Definition GetBalance (a : addr) (d : denom) : M (PState B) Coin :=
  if bool_decide (d = ExtendedCoinDenom) && bool_decide (a = reserve)
  then newCoin d 0
  else if negb (bool_decide (d = ExtendedCoinDenom))
  then gets (λ s, mkCoin d (bk_GetBalance (ps_bank s) a d))
  else
    let! integerCoins := gets (λ s, bk_GetBalance (ps_bank s) a IntegerCoinDenom) in
    let! fractionalAmount := GetFractionalBalance a in
    let! t := imul integerCoins ConversionFactor in
    let! fullAmount := iadd t fractionalAmount in
    newCoin ExtendedCoinDenom fullAmount.

Definition SpendableCoin (a : addr) (d : denom) : M (PState B) Coin :=
  if bool_decide (d = ExtendedCoinDenom) && bool_decide (a = reserve)
  then newCoin d 0
  else if negb (bool_decide (d = ExtendedCoinDenom))
  then gets (λ s, mkCoin d (bk_SpendableCoin (ps_bank s) a d))
  else
    let! integerCoin := gets (λ s, bk_SpendableCoin (ps_bank s) a IntegerCoinDenom) in
    let! fractionalAmount := GetFractionalBalance a in
    let! t := imul integerCoin ConversionFactor in
    let! fullAmount := iadd t fractionalAmount in
    newCoin ExtendedCoinDenom fullAmount.

Definition GetSupply (d : denom) : M (PState B) Coin :=
  gets (λ s, mkCoin d (bk_GetSupply (ps_bank s) d)).

Definition SumExtendedCoin (amt : Coins) : M (PState B) Coin :=
  let! integerAmount := imul (Coins_AmountOf amt IntegerCoinDenom) ConversionFactor in
  let extendedAmount := Coins_AmountOf amt ExtendedCoinDenom in
  let! fullEmissionAmount := iadd integerAmount extendedAmount in
  newCoin ExtendedCoinDenom fullEmissionAmount.

(** ** Sends *)

Definition IsSendEnabledCoin (coin : Coin) : M (PState B) bool :=
  if bool_decide (Denom coin = ExtendedCoinDenom)
  then
    let! q := iquo (Amount coin) ConversionFactor in
    let! c := newCoin IntegerCoinDenom q in
    gets (λ s, bk_IsSendEnabledCoin (ps_bank s) c)
  else gets (λ s, bk_IsSendEnabledCoin (ps_bank s) coin).

Fixpoint IsSendEnabledCoins (coins : Coins) : M (PState B) unit :=
  match coins with
  | [] => ret tt
  | coin :: r =>
      let! ok := IsSendEnabledCoin coin in
      if negb ok then throw (errorf ErrSendDisabled "transfers are currently disabled")
      else IsSendEnabledCoins r
  end.

Definition updateInsufficientFundsError (a : addr) (amt : Z) (err : error) : M (PState B) error :=
  if negb (err_is err ErrInsufficientFunds) then ret err
  else
    let! bal := SpendableCoin a ExtendedCoinDenom in
    let! coin := newCoin ExtendedCoinDenom amt in
    ret (mkError ErrInsufficientFunds "spendable balance is smaller than"
           [(Denom bal, Amount bal); (Denom coin, Amount coin)]).

Definition subFromFractionalBalance {S} (currentFractionalBalance amountToSub : Z) : M S (Z * bool) :=
  if currentFractionalBalance >=? ConversionFactor
  then panic "currentFractionalBalance must be less than ConversionFactor"
  else if amountToSub >=? ConversionFactor
  then panic "amountToSub must be less than ConversionFactor"
  else
    let! newFractionalBalance := isub currentFractionalBalance amountToSub in
    let borrowRequired := newFractionalBalance <? 0 in
    if borrowRequired
    then let! n := iadd newFractionalBalance ConversionFactor in ret (n, borrowRequired)
    else ret (newFractionalBalance, borrowRequired).

Definition addToFractionalBalance {S} (currentFractionalBalance amountToAdd : Z) : M S (Z * bool) :=
  if currentFractionalBalance >=? ConversionFactor
  then panic "currentFractionalBalance must be less than ConversionFactor"
  else if amountToAdd >=? ConversionFactor
  then panic "amountToAdd must be less than ConversionFactor"
  else
    let! newFractionalBalance := iadd currentFractionalBalance amountToAdd in
    let carryRequired := newFractionalBalance >=? ConversionFactor in
    if carryRequired
    then let! n := isub newFractionalBalance ConversionFactor in ret (n, carryRequired)
    else ret (newFractionalBalance, carryRequired).

(** The integer coins [n] as a coin set: [sdk.NewCoins(sdk.NewCoin(denom, n))]. *)
Definition integerCoins (n : Z) : M (PState B) Coins :=
  let! c := newCoin IntegerCoinDenom n in ret (NewCoins [c]).

Definition sendExtendedCoins (from to : addr) (amt : Z) : M (PState B) unit :=
  let moduleAddr := reserve in
  if bool_decide (from = moduleAddr) || bool_decide (to = moduleAddr)
  then
    let! integerAmt := iquo amt ConversionFactor in
    when (0 <? integerAmt)
      (let! cs := integerCoins integerAmt in
       on_error (bank (bk_SendCoins from to cs)) (updateInsufficientFundsError from amt))
  else if bool_decide (from = to) then ret tt
  else
    let! senderFracBal := GetFractionalBalance from in
    let! recipientFracBal := GetFractionalBalance to in
    let! integerAmt0 := iquo amt ConversionFactor in
    let! fractionalAmt := imod amt ConversionFactor in
    let! (senderNewFracBal, senderNeedsBorrow) :=
      subFromFractionalBalance senderFracBal fractionalAmt in
    let! (recipientNewFracBal, recipientNeedsCarry) :=
      addToFractionalBalance recipientFracBal fractionalAmt in
    let! integerAmt :=
      (if senderNeedsBorrow && recipientNeedsCarry then iadd integerAmt0 1 else ret integerAmt0) in
    when (0 <? integerAmt)
      (let! cs := integerCoins integerAmt in
       on_error (bank (bk_SendCoins from to cs)) (updateInsufficientFundsError from amt)) >>!
    when (senderNeedsBorrow && negb recipientNeedsCarry)
      (let! cs := integerCoins 1 in
       on_error (bank (bk_SendCoinsFromAccountToModule from ModuleName cs))
                (updateInsufficientFundsError from amt)) >>!
    when (negb senderNeedsBorrow && recipientNeedsCarry)
      (let! cs := integerCoins 1 in
       must (bank (bk_SendCoins reserve to cs)) "failed to carry fractional coins") >>!
    SetFractionalBalance from senderNewFracBal >>!
    SetFractionalBalance to recipientNewFracBal >>!
    EmitEventFractionalBalanceChange from senderFracBal senderNewFracBal >>!
    EmitEventFractionalBalanceChange to recipientFracBal recipientNewFracBal.

(** The coins of [amt] x/bank handles itself, and the extended amount. *)
Definition split_coins (amt : Coins) : M (PState B) (Coins * Z) :=
  let extendedAmount := Coins_AmountOf amt ExtendedCoinDenom in
  if 0 <? extendedAmount
  then let! removeCoin := newCoin ExtendedCoinDenom extendedAmount in
       let! passthroughCoins := of_outcome (Coins_Sub amt removeCoin) in
       ret (passthroughCoins, extendedAmount)
  else ret (amt, extendedAmount).

Definition SendCoins (from to : addr) (amt : Coins) : M (PState B) unit :=
  if negb (Coins_IsValid amt) then throw (errorf ErrInvalidCoins "invalid coins")
  else
    let! (passthroughCoins, extendedCoinAmount) := split_coins amt in
    when (Coins_IsAllPositive passthroughCoins)
      (bank (bk_SendCoins from to passthroughCoins)) >>!
    when (0 <? extendedCoinAmount) (sendExtendedCoins from to extendedCoinAmount).

Definition SendCoinsFromAccountToModule (senderAddr : addr) (recipientModule : string)
    (amt : Coins) : M (PState B) unit :=
  match GetModuleAccount recipientModule with
  | None => panic "module account does not exist"
  | Some recipientAcc =>
      if bool_decide (recipientModule = ModuleName)
      then throw (errorf ErrUnauthorized "module account is not allowed to receive funds")
      else SendCoins senderAddr (ma_address recipientAcc) amt
  end.

Definition SendCoinsFromModuleToAccount (senderModule : string) (recipientAddr : addr)
    (amt : Coins) : M (PState B) unit :=
  let senderAddr := GetModuleAddress senderModule in
  if bool_decide (senderAddr = EmptyString) then panic "module account does not exist"
  else if bool_decide (senderModule = ModuleName)
  then throw (errorf ErrUnauthorized "module account is not allowed to send funds")
  else if bk_BlockedAddr recipientAddr
  then throw (errorf ErrUnauthorized "address is not allowed to receive funds")
  else SendCoins senderAddr recipientAddr amt.

Definition SendCoinsFromModuleToModule (senderModule recipientModule : string)
    (amt : Coins) : M (PState B) unit :=
  let senderAddr := GetModuleAddress senderModule in
  if bool_decide (senderAddr = EmptyString) then panic "module account does not exist"
  else match GetModuleAccount recipientModule with
  | None => panic "module account does not exist"
  | Some recipientAcc =>
      if bool_decide (recipientModule = ModuleName)
      then throw (errorf ErrUnauthorized "module account is not allowed to receive funds")
      else SendCoins senderAddr (ma_address recipientAcc) amt
  end.

(** [banktypes.MsgSend] and its handler. *)
Record MsgSend : Type := mkMsgSend {
  FromAddress : string;
  ToAddress : string;
  MsgAmount : Coins
}.

Definition Send (msg : MsgSend) : M (PState B) unit :=
  let decode x := match StringToBytes x with
                  | Ok a => ret a
                  | Err _ => throw (errorf ErrInvalidAddress "invalid address")
                  | Panic w => panic w
                  end in
  let! from := decode (FromAddress msg) in
  let! to := decode (ToAddress msg) in
  if negb (Coins_IsValid (MsgAmount msg))
  then throw (errorf ErrInvalidCoins "invalid coins")
  else if negb (Coins_IsAllPositive (MsgAmount msg))
  then throw (errorf ErrInvalidCoins "invalid coins")
  else
    IsSendEnabledCoins (MsgAmount msg) >>!
    (if bk_BlockedAddr to
     then throw (errorf ErrUnauthorized "address is not allowed to receive funds")
     else SendCoins from to (MsgAmount msg)).

(** ** Mint *)

Definition mintExtendedCoin (recipientModuleName : string) (amt : Z) : M (PState B) unit :=
  let moduleAddr := GetModuleAddress recipientModuleName in
  if bool_decide (recipientModuleName = ModuleName)
  then
    let! integerMintAmount := iquo amt ConversionFactor in
    when (0 <? integerMintAmount)
      (let! cs := integerCoins integerMintAmount in
       bank (bk_MintCoins recipientModuleName cs))
  else
    let! fractionalAmount := GetFractionalBalance moduleAddr in
    let! integerMintAmount0 := iquo amt ConversionFactor in
    let! fractionalMintAmount := imod amt ConversionFactor in
    let! prevRemainder := GetRemainderAmount in
    let! newRemainder0 := isub prevRemainder fractionalMintAmount in
    let! newFractionalBalance0 := iadd fractionalAmount fractionalMintAmount in
    when ((newFractionalBalance0 >=? ConversionFactor) && (newRemainder0 >=? 0))
      (let! cs := integerCoins 1 in
       bank (bk_SendCoinsFromModuleToModule ModuleName recipientModuleName cs)) >>!
    let! integerMintAmount :=
      (if (newFractionalBalance0 >=? ConversionFactor) && (newRemainder0 <? 0)
       then iadd integerMintAmount0 1 else ret integerMintAmount0) in
    let! newFractionalBalance :=
      (if newFractionalBalance0 >=? ConversionFactor
       then isub newFractionalBalance0 ConversionFactor else ret newFractionalBalance0) in
    when (0 <? integerMintAmount)
      (let! cs := integerCoins integerMintAmount in
       bank (bk_MintCoins recipientModuleName cs)) >>!
    SetFractionalBalance moduleAddr newFractionalBalance >>!
    let! carried := iadd fractionalAmount fractionalMintAmount in
    let wasCarried := carried >=? ConversionFactor in
    when ((prevRemainder <? fractionalMintAmount) && negb wasCarried)
      (let! cs := integerCoins 1 in
       on_error (bank (bk_MintCoins ModuleName cs))
         (λ e, ret (mkError (err_code e) "failed to mint for reserve" []))) >>!
    let! newRemainder :=
      (if newRemainder0 <? 0 then iadd newRemainder0 ConversionFactor else ret newRemainder0) in
    SetRemainderAmount newRemainder >>!
    EmitEventFractionalBalanceChange moduleAddr fractionalAmount newFractionalBalance.

Definition MintCoins (moduleName : string) (amt : Coins) : M (PState B) unit :=
  if bool_decide (moduleName = ModuleName)
  then panic "module account cannot be minted to"
  else match GetModuleAccount moduleName with
  | None => panic "module account does not exist"
  | Some acc =>
      if negb (HasPermission acc Minter)
      then panic "module account does not have permissions to mint tokens"
      else if negb (Coins_IsValid amt) then throw (errorf ErrInvalidCoins "invalid coins")
      else
        let! (passthroughCoins, extendedAmount) := split_coins amt in
        when (negb (Coins_Empty passthroughCoins))
          (bank (bk_MintCoins moduleName passthroughCoins)) >>!
        when (0 <? extendedAmount) (mintExtendedCoin moduleName extendedAmount)
  end.

(** ** Burn *)

Definition burnExtendedCoin (moduleName : string) (amt : Z) : M (PState B) unit :=
  let moduleAddr := GetModuleAddress moduleName in
  if bool_decide (moduleName = ModuleName)
  then
    let! integerBurnAmount := iquo amt ConversionFactor in
    when (0 <? integerBurnAmount)
      (let! cs := integerCoins integerBurnAmount in
       bank (bk_BurnCoins moduleName cs))
  else
    let! prevFractionalBalance := GetFractionalBalance moduleAddr in
    let! prevRemainder := GetRemainderAmount in
    let! integerBurnAmount0 := iquo amt ConversionFactor in
    let! fractionalBurnAmount := imod amt ConversionFactor in
    let! newFractionalBalance0 := isub prevFractionalBalance fractionalBurnAmount in
    let requiresBorrow := newFractionalBalance0 <? 0 in
    let! newRemainder0 := iadd prevRemainder fractionalBurnAmount in
    let overflowingRemainder := newRemainder0 >=? ConversionFactor in
    (* case 1: direct burn *)
    let! (newFractionalBalance1, newRemainder1, integerBurnAmount) :=
      (if requiresBorrow && overflowingRemainder
       then let! f := iadd newFractionalBalance0 ConversionFactor in
            let! r := isub newRemainder0 ConversionFactor in
            let! i := iadd integerBurnAmount0 1 in
            ret (f, r, i)
       else ret (newFractionalBalance0, newRemainder0, integerBurnAmount0)) in
    (* case 2: borrow through the reserve *)
    let! newFractionalBalance :=
      (if requiresBorrow && negb overflowingRemainder
       then let! f := iadd newFractionalBalance1 ConversionFactor in
            let! cs := integerCoins 1 in
            on_error (bank (bk_SendCoinsFromModuleToModule moduleName ModuleName cs))
                     (updateInsufficientFundsError moduleAddr amt) >>!
            ret f
       else ret newFractionalBalance1) in
    (* case 3: the remainder is worth one reserve coin *)
    let! newRemainder :=
      (if negb requiresBorrow && overflowingRemainder
       then let! cs := integerCoins 1 in
            on_error (bank (bk_BurnCoins ModuleName cs))
              (λ e, ret (mkError (err_code e) "failed to burn for reserve" [])) >>!
            isub newRemainder1 ConversionFactor
       else ret newRemainder1) in
    when (negb (integerBurnAmount =? 0))
      (let! cs := integerCoins integerBurnAmount in
       on_error (bank (bk_BurnCoins moduleName cs))
                (updateInsufficientFundsError moduleAddr amt)) >>!
    SetFractionalBalance moduleAddr newFractionalBalance >>!
    SetRemainderAmount newRemainder >>!
    EmitEventFractionalBalanceChange moduleAddr prevFractionalBalance newFractionalBalance.

Definition BurnCoins (moduleName : string) (amt : Coins) : M (PState B) unit :=
  if bool_decide (moduleName = ModuleName)
  then panic "module account cannot be burned from"
  else match GetModuleAccount moduleName with
  | None => panic "module account does not exist"
  | Some acc =>
      if negb (HasPermission acc Burner)
      then panic "module account does not have permissions to burn tokens"
      else if negb (Coins_IsValid amt) then throw (errorf ErrInvalidCoins "invalid coins")
      else
        let! (passthroughCoins, extendedAmount) := split_coins amt in
        when (negb (Coins_Empty passthroughCoins))
          (bank (bk_BurnCoins moduleName passthroughCoins)) >>!
        when (0 <? extendedAmount) (burnExtendedCoin moduleName extendedAmount)
  end.

(** ** Queries *)

Definition Query_Remainder : M (PState B) Coin :=
  let! remainder := GetRemainderAmount in
  newCoin ExtendedCoinDenom remainder.

Definition Query_FractionalBalance (decode : string → outcome addr) (address : string)
    : M (PState B) Coin :=
  let! a := of_outcome (decode address) in
  let! amt := GetFractionalBalance a in
  newCoin ExtendedCoinDenom amt.
End precisebank.
