(* ===== verification/PreciseBankInv.v ===== *)
(** The reserve invariant of x/precisebank, and what each state-changing
    operation does to the extended balances: the lemmas the module's
    properties are assembled from. *)

From S2P Require Import Prelude.
From S2P Require Import Sdk.
From S2P Require Import EvmDenom.
From S2P Require Import PreciseBank.

Section inv.
Context `{SdkTypesLaws, AccountKeeperLaws} {B : Type} `{!BankKeeper B, !BankKeeperLaws B}.
Context (info : EvmCoinInfo) (Hinfo : valid_coin_info info).

Abbreviation CF := (ConversionFactor info).
Abbreviation idenom := (IntegerCoinDenom info).
Implicit Types (s : PState B) (a from to : addr) (n amt : Z).

(** ** Observations *)

(** The integer coins of an account, how many of them it can spend, and the
    bank's supply of them. *)
Definition ibal s a : Z := bk_GetBalance (ps_bank s) a idenom.
Definition ispend s a : Z := bk_SpendableCoin (ps_bank s) a idenom.
Definition isupply s : Z := bk_GetSupply (ps_bank s) idenom.
Definition ilocked s a : Z := bk_LockedCoin (ps_bank s) a idenom.

(** The extended balance an account owns, and the part it can spend.  The
    reserve's coins back the fractional balances of others: it owns nothing. *)
Definition ext s a : Z := if decide (a = reserve) then 0 else ibal s a * CF + frac_of s a.
Definition ext_spend s a : Z := ispend s a * CF + frac_of s a.

(** The extended coins in circulation: the remainder is backed by the reserve
    but owned by nobody. *)
Definition ext_supply s : Z := isupply s * CF - rem_of s.

(** What the reserve holds above the fractional balances and the remainder. *)
Definition surplus s : Z := ibal s reserve * CF - (map_sum (ps_frac s) + rem_of s).

(** ** The invariant *)

Record pb_wf s : Prop := {
  wf_frac : map_Forall (λ a v, 0 < v < CF ∧ a ≠ EmptyString ∧ a ≠ reserve) (ps_frac s);
  wf_rem : ∀ r, ps_rem s = Some r → 0 < r < CF
}.

(** The reserve backs every fractional balance and the remainder, which add
    up to a whole number of integer coins. *)
Record solvent s : Prop := {
  sol_pos : 0 ≤ surplus s;
  sol_whole : (map_sum (ps_frac s) + rem_of s) mod CF = 0
}.

Lemma CF_bounds : 1 ≤ CF ≤ 10 ^ 17.
Proof. by apply coin_factor_bounds. Qed.

Lemma CF_nz : CF ≠ 0.
Proof. pose proof CF_bounds. lia. Qed.

Lemma frac_range s a : pb_wf s → 0 ≤ frac_of s a < CF.
Proof.
  intros [Hf _]. unfold frac_of. pose proof CF_bounds.
  destruct (ps_frac s !! a) as [v|] eqn:E; cbn; [|lia].
  destruct (Hf a v E). lia.
Qed.

Lemma rem_range s : pb_wf s → 0 ≤ rem_of s < CF.
Proof.
  intros [_ Hr]. unfold rem_of. pose proof CF_bounds.
  destruct (ps_rem s) as [r|]; cbn; [|lia]. specialize (Hr r eq_refl). lia.
Qed.

Lemma frac_nonneg s : pb_wf s → map_Forall (λ _ v, 0 ≤ v) (ps_frac s).
Proof. intros [Hf _] a v E. destruct (Hf a v E). lia. Qed.

Lemma frac_reserve s : pb_wf s → frac_of s reserve = 0.
Proof.
  intros [Hf _]. unfold frac_of. destruct (ps_frac s !! _) as [v|] eqn:E; [|done].
  by destruct (Hf _ v E) as (_ & _ & ?).
Qed.

(** ** Arithmetic of a split amount *)

Lemma quot_mod_split amt : 0 ≤ amt →
  amt = Z.quot amt CF * CF + amt mod CF ∧ 0 ≤ Z.quot amt CF ∧ 0 ≤ amt mod CF < CF.
Proof.
  intros. pose proof CF_bounds.
  rewrite Z.quot_div_nonneg by lia.
  pose proof (Z.div_mod amt CF ltac:(lia)). pose proof (Z.mod_pos_bound amt CF ltac:(lia)).
  pose proof (Z.div_pos amt CF ltac:(lia) ltac:(lia)). lia.
Qed.

Lemma small_int_ok z : Z.abs z ≤ 3 * 10 ^ 17 → Z.abs z < u256_max.
Proof. intros. unfold u256_max. assert (3 * 10 ^ 17 < 2 ^ 256) by reflexivity. lia. Qed.

Lemma subFrac_run {S} (cur x : Z) (s : S) :
  0 ≤ cur < CF → 0 ≤ x < CF →
  subFromFractionalBalance info cur x s
    = (s, Ok (cur - x + (if cur <? x then CF else 0), cur <? x)).
Proof.
  intros Hc Hx. pose proof CF_bounds. unfold subFromFractionalBalance.
  destruct (Z.geb_spec cur CF); [lia|]. destruct (Z.geb_spec x CF); [lia|].
  unfold isub. erewrite bind_Ok by (apply ichk_run, small_int_ok; lia).
  destruct (Z.ltb_spec (cur - x) 0), (Z.ltb_spec cur x); try lia.
  - unfold iadd. by erewrite bind_Ok by (apply ichk_run, small_int_ok; lia).
  - unfold ret. do 3 f_equal. lia.
Qed.

Lemma addFrac_run {S} (cur x : Z) (s : S) :
  0 ≤ cur < CF → 0 ≤ x < CF →
  addToFractionalBalance info cur x s
    = (s, Ok (cur + x - (if CF <=? cur + x then CF else 0), CF <=? cur + x)).
Proof.
  intros Hc Hx. pose proof CF_bounds. unfold addToFractionalBalance.
  destruct (Z.geb_spec cur CF); [lia|]. destruct (Z.geb_spec x CF); [lia|].
  unfold iadd. erewrite bind_Ok by (apply ichk_run, small_int_ok; lia).
  destruct (Z.geb_spec (cur + x) CF), (Z.leb_spec CF (cur + x)); try lia.
  - unfold isub. by erewrite bind_Ok by (apply ichk_run, small_int_ok; lia).
  - unfold ret. do 3 f_equal. lia.
Qed.

(** ** Store writes *)

Definition upd_frac (f : gmap string Z) a (v : Z) : gmap string Z :=
  if v =? 0 then delete a f else <[a := v]> f.
Definition upd_rem (v : Z) : option Z := if v =? 0 then None else Some v.

Lemma validate_some v : 0 < v < CF → ValidateFractionalAmount info (Some v) = None.
Proof.
  intros. unfold ValidateFractionalAmount.
  destruct (Z.ltb_spec 0 v); [|lia]. by destruct (Z.geb_spec v CF); [lia|].
Qed.

Lemma setFrac_run s a v :
  a ≠ EmptyString → 0 ≤ v < CF →
  SetFractionalBalance info a v s = (set_frac (upd_frac (ps_frac s) a v) s, Ok tt).
Proof.
  intros Ha Hv. unfold SetFractionalBalance, addr_empty, upd_frac.
  rewrite bool_decide_eq_false_2 by done.
  destruct (Z.eqb_spec v 0); [done|]. by rewrite validate_some by lia.
Qed.

Lemma setRem_run s v :
  0 ≤ v < CF → SetRemainderAmount info v s = (set_rem (upd_rem v) s, Ok tt).
Proof.
  intros Hv. unfold SetRemainderAmount, upd_rem.
  destruct (Z.eqb_spec v 0); [done|]. by rewrite validate_some by lia.
Qed.

Lemma emit_run s a x y :
  0 ≤ x < CF → 0 ≤ y < CF →
  EmitEventFractionalBalanceChange a x y s
    = (mkPState (ps_bank s) (ps_frac s) (ps_rem s) (ps_events s ++ [mkFracEvent a (y - x)]), Ok tt).
Proof.
  intros. pose proof CF_bounds.
  unfold EmitEventFractionalBalanceChange, NewEventFractionalBalanceChange, isub.
  erewrite bind_Ok; [done|]. erewrite bind_Ok by (apply ichk_run, small_int_ok; lia). done.
Qed.

Lemma upd_frac_lookup f a v b :
  default 0 (upd_frac f a v !! b) = if decide (b = a) then v else default 0 (f !! b).
Proof.
  unfold upd_frac. destruct (Z.eqb_spec v 0) as [->|]; case_decide as Hb; subst;
    rewrite ?lookup_delete_eq, ?lookup_insert_eq, ?lookup_delete_ne, ?lookup_insert_ne by done; done.
Qed.

Lemma upd_frac_sum f a v :
  map_sum (upd_frac f a v) = map_sum f - default 0 (f !! a) + v.
Proof.
  unfold upd_frac. destruct (Z.eqb_spec v 0) as [->|];
    rewrite ?map_sum_delete, ?map_sum_insert; lia.
Qed.

Lemma upd_frac_wf (P : string → Z → Prop) f a v :
  map_Forall P f → (v ≠ 0 → P a v) → map_Forall P (upd_frac f a v).
Proof.
  intros Hf Hv. unfold upd_frac. destruct (Z.eqb_spec v 0).
  - by apply map_Forall_delete.
  - apply map_Forall_insert_2; auto.
Qed.

Lemma upd_rem_default v : default 0 (upd_rem v) = v.
Proof. unfold upd_rem. by destruct (Z.eqb_spec v 0) as [->|]. Qed.

(** ** Bank steps *)

Definition point a n (b : addr) : Z := if decide (b = a) then n else 0.

(** A run that only changes x/bank: by [δ] on each integer balance and by [σ]
    on the supply. *)
Record bstep s s' (δ : addr → Z) (σ : Z) : Prop := {
  bs_bal : ∀ a, ibal s' a = ibal s a + δ a;
  bs_locked : ∀ a, ilocked s' a = ilocked s a;
  bs_supply : isupply s' = isupply s + σ;
  bs_frac : ps_frac s' = ps_frac s;
  bs_rem : ps_rem s' = ps_rem s;
  bs_events : ps_events s' = ps_events s
}.

Lemma bstep_refl s : bstep s s (λ _, 0) 0.
Proof. split; intros; lia || done. Qed.

Lemma bstep_trans s1 s2 s3 δ1 δ2 σ1 σ2 :
  bstep s1 s2 δ1 σ1 → bstep s2 s3 δ2 σ2 → bstep s1 s3 (λ a, δ1 a + δ2 a) (σ1 + σ2).
Proof.
  intros [Hb1 Hl1 Hs1 Hf1 Hr1 He1] [Hb2 Hl2 Hs2 Hf2 Hr2 He2].
  split; intros; rewrite ?Hb2, ?Hb1, ?Hl2, ?Hs2, ?Hf2, ?Hr2, ?He2; auto; lia.
Qed.

Lemma bank_inv {A} (m : M B A) s s' x :
  bank m s = (s', Ok x) → ∃ b, m (ps_bank s) = (b, Ok x) ∧
    s' = mkPState b (ps_frac s) (ps_rem s) (ps_events s).
Proof. unfold bank, zoom. destruct (m (ps_bank s)) as [b o]. intros [= <- ->]. eauto. Qed.

Lemma bank_run {A} (m : M B A) s b o :
  m (ps_bank s) = (b, o) → bank m s = (mkPState b (ps_frac s) (ps_rem s) (ps_events s), o).
Proof. intros E. unfold bank, zoom. by rewrite E. Qed.

Lemma integerCoins_run n s :
  0 ≤ n → integerCoins info n s = (s, Ok (NewCoins [mkCoin idenom n])).
Proof.
  intros. unfold integerCoins.
  by erewrite bind_Ok by (apply newCoin_run; [apply Hinfo|done]).
Qed.

Lemma idenom_valid : valid_denom idenom = true.
Proof. apply Hinfo. Qed.

Abbreviation int_coins n := (NewCoins [mkCoin idenom n]).

Lemma int_coins_valid n : 0 < n → Coins_IsValid (int_coins n) = true.
Proof. intros. apply NewCoins_valid; [apply idenom_valid|done]. Qed.

Lemma int_coins_amount n : 0 < n → Coins_AmountOf (int_coins n) idenom = n.
Proof.
  intros. rewrite NewCoins_amount by (done || apply idenom_valid). by rewrite decide_True.
Qed.

Lemma send_step from to cs s s' u :
  Coins_IsValid cs = true →
  bank (bk_SendCoins from to cs) s = (s', Ok u) →
  bstep s s' (λ b, point to (Coins_AmountOf cs idenom) b - point from (Coins_AmountOf cs idenom) b) 0.
Proof.
  intros Hcs (b & E & ->)%bank_inv. destruct u.
  destruct (bk_send_effect _ _ _ _ _ Hcs E) as (Hb & Hl & Hs).
  split; intros; unfold ibal, ilocked, isupply, point; cbn; rewrite ?Hb, ?Hl, ?Hs; done || lia.
Qed.

Lemma mint_step m cs s s' u :
  Coins_IsValid cs = true →
  bank (bk_MintCoins m cs) s = (s', Ok u) →
  bstep s s' (point (GetModuleAddress m) (Coins_AmountOf cs idenom)) (Coins_AmountOf cs idenom).
Proof.
  intros Hcs (b & E & ->)%bank_inv. destruct u.
  destruct (bk_mint_effect _ _ _ _ Hcs E) as (Hb & Hl & Hs).
  split; intros; unfold ibal, ilocked, isupply, point; cbn; rewrite ?Hb, ?Hl, ?Hs; done || lia.
Qed.

Lemma burn_step m cs s s' u :
  Coins_IsValid cs = true →
  bank (bk_BurnCoins m cs) s = (s', Ok u) →
  bstep s s' (λ b, - point (GetModuleAddress m) (Coins_AmountOf cs idenom) b)
    (- Coins_AmountOf cs idenom).
Proof.
  intros Hcs (b & E & ->)%bank_inv. destruct u.
  destruct (bk_burn_effect _ _ _ _ Hcs E) as (Hb & Hl & Hs).
  split; intros; unfold ibal, ilocked, isupply, point; cbn; rewrite ?Hb, ?Hl, ?Hs;
    try done; case_decide; lia.
Qed.

(** A guarded transaction on [n] integer coins, as every step of the keeper
    is written. *)
Lemma when_int_step (c : bool) n (op : Coins → M (PState B) unit) δ σ s s' u :
  0 < n ∨ c = false →
  (0 < n → ∀ s1 s2 u, op (int_coins n) s1 = (s2, Ok u) → bstep s1 s2 δ σ) →
  when c (let! cs := integerCoins info n in op cs) s = (s', Ok u) →
  bstep s s' (λ a, if c then δ a else 0) (if c then σ else 0).
Proof.
  intros Hn Hop [[-> E]|[-> ->]]%when_Ok_inv; [|apply bstep_refl].
  destruct Hn as [Hn|]; [|done].
  erewrite bind_Ok in E by (apply integerCoins_run; lia). eauto.
Qed.

(** ** Events *)

(** The change of a fraction that a list of events reports. *)
Definition ev_sum (evs : list FracEvent) (a : addr) : Z :=
  foldr (λ e n, point (ev_address e) (ev_delta e) a + n) 0 evs.

Lemma ev_sum_app evs1 evs2 a : ev_sum (evs1 ++ evs2) a = ev_sum evs1 a + ev_sum evs2 a.
Proof. unfold ev_sum. induction evs1 as [|e evs1 IH]; cbn; [done|]. rewrite IH. lia. Qed.

(** The events of a run report exactly how it changed the fractions. *)
Definition tracked s s' : Prop :=
  ∃ evs, ps_events s' = ps_events s ++ evs ∧ ∀ a, ev_sum evs a = frac_of s' a - frac_of s a.

Lemma tracked_refl s s' : ps_events s' = ps_events s → ps_frac s' = ps_frac s → tracked s s'.
Proof.
  intros He Hf. exists []. rewrite app_nil_r. split; [done|]. intros a. unfold frac_of. rewrite Hf. cbn. lia.
Qed.

Lemma tracked_trans s1 s2 s3 : tracked s1 s2 → tracked s2 s3 → tracked s1 s3.
Proof.
  intros (e1 & E1 & Hv1) (e2 & E2 & Hv2). exists (e1 ++ e2). split; [by rewrite E2, E1, app_assoc|].
  intros a. rewrite ev_sum_app, Hv1, Hv2. lia.
Qed.

(** ** Extended operations

    What a whole operation leaves: integer balances moved by [δ], the supply
    by [σ], and new module state. *)
Record settled s s' (δ : addr → Z) (σ : Z) (f : gmap string Z) (r : option Z) (evs : list FracEvent) : Prop := {
  st_bal : ∀ a, ibal s' a = ibal s a + δ a;
  st_locked : ∀ a, ilocked s' a = ilocked s a;
  st_supply : isupply s' = isupply s + σ;
  st_frac : ps_frac s' = f;
  st_rem : ps_rem s' = r;
  st_events : ps_events s' = ps_events s ++ evs
}.

Lemma settled_wf s s' δ σ f r evs :
  settled s s' δ σ f r evs →
  map_Forall (λ a v, 0 < v < CF ∧ a ≠ EmptyString ∧ a ≠ reserve) f →
  (∀ x, r = Some x → 0 < x < CF) → pb_wf s'.
Proof. intros [_ _ _ <- <- _] ??. by split. Qed.

Lemma settled_surplus s s' δ σ f r evs :
  settled s s' δ σ f r evs →
  surplus s' = surplus s + δ reserve * CF
    - (map_sum f - map_sum (ps_frac s)) - (default 0 r - rem_of s).
Proof.
  intros [Hb _ _ <- <- _]. unfold surplus, rem_of. rewrite Hb. lia.
Qed.

Lemma settled_ext s s' δ σ f r evs a :
  settled s s' δ σ f r evs → a ≠ reserve →
  ext s' a = ext s a + δ a * CF + (default 0 (f !! a) - frac_of s a).
Proof.
  intros [Hb _ _ <- _ _] Ha. unfold ext, frac_of. rewrite !decide_False, Hb by done. lia.
Qed.

Lemma settled_ext_supply s s' δ σ f r evs :
  settled s s' δ σ f r evs → ext_supply s' = ext_supply s + σ * CF - (default 0 r - rem_of s).
Proof. intros [_ _ Hs _ <- _]. unfold ext_supply, rem_of. rewrite Hs. lia. Qed.

Lemma send_int_step from to n s s' u (w : error → M (PState B) error) :
  0 < n →
  on_error (bank (bk_SendCoins from to (int_coins n))) w s = (s', Ok u) →
  bstep s s' (λ b, point to n b - point from n b) 0.
Proof.
  intros Hn E%on_error_Ok_inv%send_step; [|by apply int_coins_valid].
  by rewrite int_coins_amount in E.
Qed.

Lemma carry_int_step from to n s s' u why :
  0 < n →
  must (bank (bk_SendCoins from to (int_coins n))) why s = (s', Ok u) →
  bstep s s' (λ b, point to n b - point from n b) 0.
Proof.
  intros Hn E%must_Ok_inv%send_step; [|by apply int_coins_valid].
  by rewrite int_coins_amount in E.
Qed.

Context (Hreserve : reserve ≠ EmptyString).

Lemma borrow_int_step from n s s' u (w : error → M (PState B) error) :
  0 < n →
  on_error (bank (bk_SendCoinsFromAccountToModule from ModuleName (int_coins n))) w s = (s', Ok u) →
  bstep s s' (λ b, point reserve n b - point from n b) 0.
Proof. intros Hn E. rewrite bk_send_to_module in E by done. by eapply send_int_step. Qed.

(** Steps of mint and burn on integer coins. *)
Lemma mint_int_step m n s s' u :
  0 < n → bank (bk_MintCoins m (int_coins n)) s = (s', Ok u) →
  bstep s s' (point (GetModuleAddress m) n) n.
Proof.
  intros Hn E%mint_step; [|by apply int_coins_valid]. by rewrite int_coins_amount in E.
Qed.

Lemma mint_reserve_step n s s' u w :
  0 < n → on_error (bank (bk_MintCoins ModuleName (int_coins n))) w s = (s', Ok u) →
  bstep s s' (point reserve n) n.
Proof. intros Hn E%on_error_Ok_inv. by eapply mint_int_step. Qed.

Lemma burn_int_step m n s s' u w :
  0 < n → on_error (bank (bk_BurnCoins m (int_coins n))) w s = (s', Ok u) →
  bstep s s' (λ b, - point (GetModuleAddress m) n b) (- n).
Proof.
  intros Hn E%on_error_Ok_inv%burn_step; [|by apply int_coins_valid].
  by rewrite int_coins_amount in E.
Qed.

Lemma module_int_step m1 m2 n s s' u :
  GetModuleAddress m1 ≠ EmptyString → GetModuleAddress m2 ≠ EmptyString → 0 < n →
  bank (bk_SendCoinsFromModuleToModule m1 m2 (int_coins n)) s = (s', Ok u) →
  bstep s s' (λ b, point (GetModuleAddress m2) n b - point (GetModuleAddress m1) n b) 0.
Proof.
  intros H1' H2' Hn E. rewrite bk_send_module_to_module in E by done.
  by eapply (send_int_step _ _ _ _ _ _ ret), on_error_Ok.
Qed.

Lemma module_not_reserve m :
  GetModuleAddress m ≠ EmptyString → m ≠ ModuleName → GetModuleAddress m ≠ reserve.
Proof. intros Hm Hne Heq. by apply Hne, module_address_inj. Qed.

(** ** Plans

    Under the invariant the pure arithmetic of an operation always succeeds,
    and what is left is a plan: which bank steps run, for how many coins, and
    the new module state.  Each lemma says the code is its plan. *)

Definition send_plan from to amt (q : Z) (borrow carry : bool) (f1 f2 x y : Z)
    : M (PState B) unit :=
  when (0 <? q + Z.b2z (borrow && carry))
    (let! cs := integerCoins info (q + Z.b2z (borrow && carry)) in
     on_error (bank (bk_SendCoins from to cs)) (updateInsufficientFundsError info from amt)) >>!
  when (borrow && negb carry)
    (let! cs := integerCoins info 1 in
     on_error (bank (bk_SendCoinsFromAccountToModule from ModuleName cs))
              (updateInsufficientFundsError info from amt)) >>!
  when (negb borrow && carry)
    (let! cs := integerCoins info 1 in
     must (bank (bk_SendCoins reserve to cs)) "failed to carry fractional coins") >>!
  SetFractionalBalance info from x >>!
  SetFractionalBalance info to y >>!
  EmitEventFractionalBalanceChange from f1 x >>!
  EmitEventFractionalBalanceChange to f2 y.

Definition mint_plan (m : string) (q : Z) (carry short : bool) (f x y : Z) : M (PState B) unit :=
  when (carry && negb short)
    (let! cs := integerCoins info 1 in
     bank (bk_SendCoinsFromModuleToModule ModuleName m cs)) >>!
  when (0 <? q + Z.b2z (carry && short))
    (let! cs := integerCoins info (q + Z.b2z (carry && short)) in
     bank (bk_MintCoins m cs)) >>!
  SetFractionalBalance info (GetModuleAddress m) x >>!
  when (short && negb carry)
    (let! cs := integerCoins info 1 in
     on_error (bank (bk_MintCoins ModuleName cs))
       (λ e, ret (mkError (err_code e) "failed to mint for reserve" []))) >>!
  SetRemainderAmount info y >>!
  EmitEventFractionalBalanceChange (GetModuleAddress m) f x.

Definition burn_plan (m : string) amt (q : Z) (borrow over : bool) (f x y : Z) : M (PState B) unit :=
  when (borrow && negb over)
    (let! cs := integerCoins info 1 in
     on_error (bank (bk_SendCoinsFromModuleToModule m ModuleName cs))
              (updateInsufficientFundsError info (GetModuleAddress m) amt)) >>!
  when (negb borrow && over)
    (let! cs := integerCoins info 1 in
     on_error (bank (bk_BurnCoins ModuleName cs))
       (λ e, ret (mkError (err_code e) "failed to burn for reserve" []))) >>!
  when (negb (q + Z.b2z (borrow && over) =? 0))
    (let! cs := integerCoins info (q + Z.b2z (borrow && over)) in
     on_error (bank (bk_BurnCoins m cs))
              (updateInsufficientFundsError info (GetModuleAddress m) amt)) >>!
  SetFractionalBalance info (GetModuleAddress m) x >>!
  SetRemainderAmount info y >>!
  EmitEventFractionalBalanceChange (GetModuleAddress m) f x.

(** Runs the pure steps of a program: reads, checked arithmetic, returns. *)
Ltac in_range :=
  intros;
  repeat match goal with Hc : ?c = true, Hi : ?c = true → _ |- _ => specialize (Hi Hc) end;
  first [ apply small_int_ok; lia | lia ].
Ltac pure_step :=
  erewrite bind_Ok;
    [|first [ reflexivity
            | apply iquo_run, CF_nz
            | apply imod_run, CF_nz
            | apply subFrac_run; assumption
            | apply addFrac_run; assumption
            | apply isub_run; in_range
            | apply iadd_run; in_range
            | apply cond_sub_run; in_range
            | apply cond_add_run; in_range ] ];
  cbn beta iota.

Lemma sendExtended_plan from to amt s q r (borrow carry : bool) :
  pb_wf s → 0 < amt → int_ok amt = true →
  from ≠ to → from ≠ reserve → to ≠ reserve →
  q = Z.quot amt CF → r = amt mod CF →
  borrow = (frac_of s from <? r) → carry = (CF <=? frac_of s to + r) →
  sendExtendedCoins info from to amt s
  = send_plan from to amt q borrow carry (frac_of s from) (frac_of s to)
      (frac_of s from - r + if borrow then CF else 0)
      (frac_of s to + r - if carry then CF else 0) s.
Proof.
  intros Hwf Hamt Hok%int_ok_spec Hne Hfr Htr Hq Hr Hbor Hcar.
  pose proof CF_bounds. pose proof (frac_range s from Hwf) as Rf.
  pose proof (frac_range s to Hwf) as Rt.
  destruct (quot_mod_split amt ltac:(lia)) as (Hsplit & Hq0 & Hr0).
  unfold sendExtendedCoins, GetFractionalBalance.
  rewrite !bool_decide_eq_false_2 by done. cbn [orb].
  do 4 pure_step. rewrite <-Hq, <-Hr in *. clear Hq Hr. do 2 pure_step.
  rewrite <-Hbor, <-Hcar. unfold send_plan.
  assert (borrow && carry = true → q + 1 ≤ amt) as Hq1.
  { subst borrow. intros [Hlt%Z.ltb_lt _]%andb_true_iff. nia. }
  pure_step. done.
Qed.

Lemma mintExtended_plan m amt s q r (carry short : bool) :
  pb_wf s → 0 < amt → int_ok amt = true → m ≠ ModuleName →
  q = Z.quot amt CF → r = amt mod CF →
  carry = (CF <=? frac_of s (GetModuleAddress m) + r) → short = (rem_of s <? r) →
  mintExtendedCoin info m amt s
  = mint_plan m q carry short (frac_of s (GetModuleAddress m))
      (frac_of s (GetModuleAddress m) + r - if carry then CF else 0)
      (rem_of s - r + if short then CF else 0) s.
Proof.
  intros Hwf Hamt Hok%int_ok_spec Hne Hq Hr Hcar Hsh.
  pose proof CF_bounds. pose proof (frac_range s (GetModuleAddress m) Hwf) as Rf.
  pose proof (rem_range s Hwf) as Rr.
  destruct (quot_mod_split amt ltac:(lia)) as (Hsplit & Hq0 & Hr0).
  unfold mintExtendedCoin, GetFractionalBalance, GetRemainderAmount.
  rewrite bool_decide_eq_false_2 by done.
  do 4 pure_step. rewrite <-Hq, <-Hr in *. clear Hq Hr.
  set (f := frac_of s (GetModuleAddress m)) in *. set (rem := rem_of s) in *.
  assert (carry && short = true → q + 1 ≤ amt) as Hq1.
  { subst short. intros [_ Hlt%Z.ltb_lt]%andb_true_iff. nia. }
  do 2 pure_step. unfold mint_plan.
  replace (f + r >=? CF) with carry by (rewrite Z.geb_leb; done).
  replace (rem - r >=? 0) with (negb short)
    by (subst short; destruct (Z.ltb_spec rem r), (Z.geb_spec (rem - r) 0); done || lia).
  replace (rem - r <? 0) with short
    by (subst short; destruct (Z.ltb_spec rem r), (Z.ltb_spec (rem - r) 0); done || lia).
  rewrite <-Hsh. apply bind_ext. intros s1 [] _. do 2 pure_step.
  apply bind_ext. intros s2 [] _. apply bind_ext. intros s3 [] _. pure_step.
  replace (f + r >=? CF) with carry by (rewrite Z.geb_leb; done).
  apply bind_ext. intros s4 [] _. pure_step. done.
Qed.

Lemma burnExtended_plan m amt s q r (borrow over : bool) :
  pb_wf s → 0 < amt → int_ok amt = true → m ≠ ModuleName →
  q = Z.quot amt CF → r = amt mod CF →
  borrow = (frac_of s (GetModuleAddress m) <? r) → over = (CF <=? rem_of s + r) →
  burnExtendedCoin info m amt s
  = burn_plan m amt q borrow over (frac_of s (GetModuleAddress m))
      (frac_of s (GetModuleAddress m) - r + if borrow then CF else 0)
      (rem_of s + r - if over then CF else 0) s.
Proof.
  intros Hwf Hamt Hok%int_ok_spec Hne Hq Hr Hbor Hov.
  pose proof CF_bounds. pose proof (frac_range s (GetModuleAddress m) Hwf) as Rf.
  pose proof (rem_range s Hwf) as Rr.
  destruct (quot_mod_split amt ltac:(lia)) as (Hsplit & Hq0 & Hr0).
  unfold burnExtendedCoin, GetFractionalBalance, GetRemainderAmount.
  rewrite bool_decide_eq_false_2 by done.
  do 4 pure_step. rewrite <-Hq, <-Hr in *. clear Hq Hr.
  set (f := frac_of s (GetModuleAddress m)) in *. set (rem := rem_of s) in *.
  do 2 pure_step. unfold burn_plan.
  replace (f - r <? 0) with borrow
    by (subst borrow; destruct (Z.ltb_spec f r), (Z.ltb_spec (f - r) 0); done || lia).
  replace (rem + r >=? CF) with over by (rewrite Z.geb_leb; done).
  destruct borrow, over; cbn [andb negb when Z.b2z].
  - symmetry in Hbor. apply Z.ltb_lt in Hbor. assert (q + 1 ≤ amt) by nia.
    erewrite bind_Ok by (do 3 pure_step; reflexivity). cbn beta iota.
    by rewrite !bind_ret.
  - rewrite bind_ret, bind_assoc. pure_step.
    rewrite !bind_assoc, Z.add_0_r, Z.sub_0_r.
    apply bind_ext. intros s1 cs _. rewrite bind_assoc.
    apply bind_ext. intros s2 [] _. by rewrite !bind_ret.
  - rewrite !bind_ret, !Z.add_0_r, !bind_assoc.
    apply bind_ext. intros s1 cs _. rewrite bind_assoc.
    apply bind_ext. intros s2 [] _. pure_step. done.
  - by rewrite !bind_ret, !Z.add_0_r, Z.sub_0_r.
Qed.

(** ** What a completed plan leaves *)

Ltac int_step H :=
  eapply when_int_step in H;
    [|first [by left | match goal with |- 0 < ?n ∨ (0 <? ?n) = false =>
                         destruct (Z.ltb_spec 0 n); auto end ]
     |intros Hn ??? Hs;
      first [ eapply borrow_int_step, Hs; done | eapply carry_int_step, Hs; done
            | eapply send_int_step, Hs; done | eapply mint_reserve_step, Hs; done
            | eapply burn_int_step, Hs; done | eapply module_int_step, Hs; done
            | apply on_error_Ok_inv in Hs; eapply module_int_step, Hs; done
            | eapply mint_int_step, Hs; done ] ].

Lemma send_plan_settled from to amt q (borrow carry : bool) f1 f2 x y s s' u :
  from ≠ EmptyString → to ≠ EmptyString → from ≠ to → from ≠ reserve → to ≠ reserve →
  0 ≤ q → 0 ≤ f1 < CF → 0 ≤ f2 < CF → 0 ≤ x < CF → 0 ≤ y < CF →
  send_plan from to amt q borrow carry f1 f2 x y s = (s', Ok u) →
  settled s s'
    (λ a, point to (q + Z.b2z carry) a - point from (q + Z.b2z borrow) a
          + point reserve (Z.b2z borrow - Z.b2z carry) a)
    0 (upd_frac (upd_frac (ps_frac s) from x) to y) (ps_rem s)
    [mkFracEvent from (x - f1); mkFracEvent to (y - f2)].
Proof.
  intros Hf Ht Hne Hfr Htr Hq R1 R2 Rx Ry E. unfold send_plan in E.
  apply bind_Ok_inv in E as (s2 & [] & E1 & E).
  apply bind_Ok_inv in E as (s3 & [] & E2 & E).
  apply bind_Ok_inv in E as (s4 & [] & E3 & E).
  int_step E1. int_step E2. int_step E3.
  pose proof (bstep_trans _ _ _ _ _ _ _ (bstep_trans _ _ _ _ _ _ _ E1 E2) E3)
    as [Hbal Hl Hs Hfr' Hrm Hev]. clear E1 E2 E3.
  do 2 (erewrite bind_Ok in E by (apply setFrac_run; done)).
  erewrite bind_Ok in E by (apply emit_run; done).
  erewrite emit_run in E by done. simplify_eq E. intros <-.
  split; cbn; try done.
  - intros a. unfold ibal in *. cbn. rewrite Hbal. unfold point.
    destruct (Z.ltb_spec 0 (q + Z.b2z (borrow && carry))), borrow, carry;
      cbn in *; repeat case_decide; lia.
  - unfold isupply in *. cbn. rewrite Hs.
    destruct (0 <? _), borrow, carry; cbn [andb negb]; lia.
  - by rewrite Hfr'.
  - by rewrite Hev, <-app_assoc.
Qed.

Lemma mint_plan_settled m q (carry short : bool) f x y s s' u :
  GetModuleAddress m ≠ EmptyString → GetModuleAddress m ≠ reserve →
  0 ≤ q → 0 ≤ f < CF → 0 ≤ x < CF → 0 ≤ y < CF →
  mint_plan m q carry short f x y s = (s', Ok u) →
  settled s s'
    (λ a, point (GetModuleAddress m) (q + Z.b2z carry) a
          + point reserve (Z.b2z short - Z.b2z carry) a)
    (q + Z.b2z short) (upd_frac (ps_frac s) (GetModuleAddress m) x) (upd_rem y)
    [mkFracEvent (GetModuleAddress m) (x - f)].
Proof.
  intros Hm Hmr Hq R1 Rx Ry E. unfold mint_plan in E.
  apply bind_Ok_inv in E as (s1 & [] & E1 & E).
  apply bind_Ok_inv in E as (s2 & [] & E2 & E).
  erewrite bind_Ok in E by (apply setFrac_run; done).
  apply bind_Ok_inv in E as (s3 & [] & E3 & E).
  erewrite bind_Ok in E by (apply setRem_run; done).
  erewrite emit_run in E by done. simplify_eq E. intros <-.
  int_step E1. int_step E2. int_step E3.
  pose proof (bstep_trans _ _ _ _ _ _ _ E1 E2) as [Hb1 Hl1 Hs1 Hf1 Hr1 Hv1].
  destruct E3 as [Hb2 Hl2 Hs2 Hf2 _ Hv2]. clear E1 E2.
  split; cbn; try done.
  - intros a. unfold ibal in *. cbn in *. rewrite Hb2. cbn. rewrite Hb1. unfold point, reserve in *.
    destruct (Z.ltb_spec 0 (q + Z.b2z (carry && short))), carry, short;
      cbn in *; repeat case_decide; try congruence; try lia.
  - intros a. unfold ilocked in *. cbn in *. rewrite Hl2. cbn. by rewrite Hl1.
  - unfold isupply in *. cbn in *. rewrite Hs2. cbn. rewrite Hs1.
    destruct (Z.ltb_spec 0 (q + Z.b2z (carry && short))), carry, short;
      cbn [andb negb Z.b2z] in *; lia.
  - rewrite Hf2. cbn. by rewrite Hf1.
  - rewrite Hv2. cbn. by rewrite Hv1.
Qed.

Lemma burn_plan_settled m amt q (borrow over : bool) f x y s s' u :
  GetModuleAddress m ≠ EmptyString → GetModuleAddress m ≠ reserve →
  0 ≤ q → 0 ≤ f < CF → 0 ≤ x < CF → 0 ≤ y < CF →
  burn_plan m amt q borrow over f x y s = (s', Ok u) →
  settled s s'
    (λ a, point reserve (Z.b2z borrow - Z.b2z over) a
          - point (GetModuleAddress m) (q + Z.b2z borrow) a)
    (- (q + Z.b2z over)) (upd_frac (ps_frac s) (GetModuleAddress m) x) (upd_rem y)
    [mkFracEvent (GetModuleAddress m) (x - f)].
Proof.
  intros Hm Hmr Hq R1 Rx Ry E. unfold burn_plan in E.
  replace (negb (q + Z.b2z (borrow && over) =? 0)) with (0 <? q + Z.b2z (borrow && over)) in E
    by (destruct borrow, over; cbn [andb Z.b2z]; destruct (Z.ltb_spec 0 (q + 0)), (Z.ltb_spec 0 (q + 1)),
        (Z.eqb_spec (q + 0) 0), (Z.eqb_spec (q + 1) 0); done || lia).
  apply bind_Ok_inv in E as (s1 & [] & E1 & E).
  apply bind_Ok_inv in E as (s2 & [] & E2 & E).
  apply bind_Ok_inv in E as (s3 & [] & E3 & E).
  erewrite bind_Ok in E by (apply setFrac_run; done).
  erewrite bind_Ok in E by (apply setRem_run; done).
  erewrite emit_run in E by done. simplify_eq E. intros <-.
  int_step E1. int_step E2. int_step E3.
  pose proof (bstep_trans _ _ _ _ _ _ _ (bstep_trans _ _ _ _ _ _ _ E1 E2) E3)
    as [Hb Hl Hs Hf _ Hev]. clear E1 E2 E3.
  split; cbn; try done.
  - intros a. unfold ibal in *. cbn in *. rewrite Hb. unfold point, reserve in *.
    destruct (Z.ltb_spec 0 (q + Z.b2z (borrow && over))), borrow, over;
      cbn in *; repeat case_decide; try congruence; try lia.
  - unfold isupply in *. cbn in *. rewrite Hs.
    destruct (Z.ltb_spec 0 (q + Z.b2z (borrow && over))), borrow, over;
      cbn [andb negb Z.b2z] in *; lia.
  - by rewrite Hf.
  - by rewrite Hev.
Qed.
End inv.
