(* ===== verification/PreciseBankOps.v ===== *)
(** The effect of x/precisebank's operations on extended balances, on the
    supply and on the reserve's backing. *)

From S2P Require Import Prelude.
From S2P Require Import Sdk.
From S2P Require Import EvmDenom.
From S2P Require Import PreciseBank.
From S2P Require Import PreciseBankInv.

Section ops.
Context `{SdkTypesLaws, AccountKeeperLaws} {B : Type} `{!BankKeeper B, !BankKeeperLaws B}.
Context (info : EvmCoinInfo) (Hinfo : valid_coin_info info) (Hreserve : reserve ≠ EmptyString).

Abbreviation CF := (ConversionFactor info).
Abbreviation idenom := (IntegerCoinDenom info).
Abbreviation xdenom := (ExtendedCoinDenom info).
Implicit Types (s : PState B) (a from to : addr) (amt : Z) (cs : Coins).

(** What an operation owes its caller: the stores stay well formed, the
    backing of the reserve is exactly what it was, each account's extended
    balance moves by [Δ] and the circulating supply by [σ]. *)
Record effect s s' (Δ : addr → Z) (σ : Z) : Prop := {
  ef_wf : pb_wf info s';
  ef_surplus : surplus info s' = surplus info s;
  ef_ext : ∀ a, a ≠ reserve → ext info s' a = ext info s a + Δ a;
  ef_supply : ext_supply info s' = ext_supply info s + σ;
  ef_locked : ∀ a, ilocked info s' a = ilocked info s a;
  ef_events : tracked s s'
}.

Lemma effect_trans s1 s2 s3 Δ1 Δ2 σ1 σ2 :
  effect s1 s2 Δ1 σ1 → effect s2 s3 Δ2 σ2 → effect s1 s3 (λ a, Δ1 a + Δ2 a) (σ1 + σ2).
Proof.
  intros [] [Hw Hp He Hs Hl Hv]. split; [done|congruence|..|congruence|].
  - intros a Ha. rewrite He, ef_ext0 by done. lia.
  - lia.
  - by eapply tracked_trans.
Qed.

Lemma effect_proper s s' Δ Δ' σ σ' :
  (∀ a, Δ a = Δ' a) → σ = σ' → effect s s' Δ σ → effect s s' Δ' σ'.
Proof. intros HΔ <- []. split; auto. intros a Ha. rewrite <-HΔ. auto. Qed.

Lemma effect_refl s : pb_wf info s → effect s s (λ _, 0) 0.
Proof. intros. split; auto; try (intros; lia). by apply tracked_refl. Qed.

Lemma effect_solvent s s' Δ σ : effect s s' Δ σ → solvent info s → solvent info s'.
Proof.
  intros [_ Hs _ _ _ _] [Hp Hw]. pose proof (CF_nz info Hinfo).
  split; [by rewrite Hs|]. unfold surplus in Hs.
  apply Z.mod_divide in Hw as [k Hk]; [|done]. apply Z.mod_divide; [done|].
  exists (ibal info s' reserve - ibal info s reserve + k). lia.
Qed.

(** A bank step on coins x/precisebank does not manage moves [n] whole integer
    coins, [n = 0] for any other denomination. *)
Lemma bstep_effect s s' δ σ :
  pb_wf info s → bstep info s s' δ σ → δ reserve = 0 →
  effect s s' (λ a, δ a * CF) (σ * CF).
Proof.
  intros [Hf Hr] [Hb Hl Hs Hfr Hrm Hev] Hres.
  split; unfold surplus, ext_supply, rem_of in *; rewrite ?Hfr, ?Hrm, ?Hb, ?Hs; auto; try lia.
  - split; rewrite ?Hfr, ?Hrm; auto.
  - intros a Ha. unfold ext, frac_of. rewrite !decide_False, Hb, Hfr by done. lia.
  - by apply tracked_refl.
Qed.

Lemma settled_effect s s' δ σ f r evs Δ τ :
  settled info s s' δ σ f r evs →
  map_Forall (λ a v, 0 < v < CF ∧ a ≠ EmptyString ∧ a ≠ reserve) f →
  (∀ x, r = Some x → 0 < x < CF) →
  δ reserve * CF = (map_sum f - map_sum (ps_frac s)) + (default 0 r - rem_of s) →
  (∀ a, a ≠ reserve → Δ a = δ a * CF + (default 0 (f !! a) - frac_of s a)) →
  τ = σ * CF - (default 0 r - rem_of s) →
  (∀ a, ev_sum evs a = default 0 (f !! a) - frac_of s a) →
  effect s s' Δ τ.
Proof.
  intros Hst Hf Hr Hres HΔ Hτ Hev. split.
  - by eapply settled_wf.
  - erewrite settled_surplus by done. lia.
  - intros a Ha. erewrite settled_ext, HΔ by done. lia.
  - erewrite settled_ext_supply by done. lia.
  - eapply st_locked; done.
  - destruct Hst as [_ _ _ <- _ He]. by exists evs.
Qed.

Lemma upd_rem_wf (v : Z) : 0 ≤ v < CF → ∀ x, upd_rem v = Some x → 0 < x < CF.
Proof. unfold upd_rem. intros Hv x. destruct (Z.eqb_spec v 0); [done|]. intros [= ->]. lia. Qed.

Lemma frac_upd_wf s a (v : Z) :
  pb_wf info s → 0 ≤ v < CF → a ≠ EmptyString → a ≠ reserve →
  map_Forall (λ a v, 0 < v < CF ∧ a ≠ EmptyString ∧ a ≠ reserve) (upd_frac (ps_frac s) a v).
Proof. intros Hwf ???. apply upd_frac_wf; [apply Hwf|]. intros. split_and!; done || lia. Qed.

(** ** The extended coin *)

Lemma sendExtended_effect from to amt s s' u :
  pb_wf info s → 0 < amt → int_ok amt = true →
  from ≠ EmptyString → to ≠ EmptyString → from ≠ to → from ≠ reserve → to ≠ reserve →
  sendExtendedCoins info from to amt s = (s', Ok u) →
  effect s s' (λ a, point to amt a - point from amt a) 0.
Proof.
  intros Hwf Hamt Hok Hf Ht Hne Hfr Htr E. pose proof (CF_bounds info Hinfo).
  pose proof (frac_range info Hinfo s from Hwf) as Rf.
  pose proof (frac_range info Hinfo s to Hwf) as Rt.
  destruct (quot_mod_split info Hinfo amt ltac:(lia)) as (Hsplit & Hq0 & Hr0).
  erewrite sendExtended_plan in E by done.
  set (q := Z.quot amt CF) in *. set (r := amt mod CF) in *. clearbody q r.
  set (x := frac_of s from - r + _) in E. set (y := frac_of s to + r - _) in E.
  assert (0 ≤ x < CF) by (subst x; destruct (Z.ltb_spec (frac_of s from) r); lia).
  assert (0 ≤ y < CF) by (subst y; destruct (Z.leb_spec CF (frac_of s to + r)); lia).
  apply send_plan_settled in E; try done.
  eapply settled_effect; [exact E| |apply Hwf|..]; unfold point.
  - apply upd_frac_wf; [by apply frac_upd_wf|]. intros. split_and!; done || lia.
  - rewrite !upd_frac_sum, upd_frac_lookup.
    repeat case_decide; try congruence.
    fold (frac_of s from) (frac_of s to) (rem_of s). subst x y.
    destruct (Z.ltb_spec (frac_of s from) r), (Z.leb_spec CF (frac_of s to + r)); cbn [Z.b2z]; lia.
  - intros a Ha. rewrite !upd_frac_lookup. fold (frac_of s a).
    rewrite (decide_False (P := a = reserve)) by done. subst x y.
    destruct (Z.ltb_spec (frac_of s from) r), (Z.leb_spec CF (frac_of s to + r));
      cbn [Z.b2z]; repeat case_decide; simplify_eq; lia.
  - fold (rem_of s). lia.
  - intros a. cbn. unfold point. rewrite !upd_frac_lookup. fold (frac_of s a).
    repeat case_decide; simplify_eq; lia.
Qed.

Lemma mintExtended_effect m amt s s' u :
  pb_wf info s → 0 < amt → int_ok amt = true →
  GetModuleAddress m ≠ EmptyString → m ≠ ModuleName →
  mintExtendedCoin info m amt s = (s', Ok u) →
  effect s s' (point (GetModuleAddress m) amt) amt.
Proof.
  intros Hwf Hamt Hok Hm Hne E. pose proof (CF_bounds info Hinfo).
  pose proof (module_not_reserve m Hm Hne) as Hmr.
  pose proof (frac_range info Hinfo s (GetModuleAddress m) Hwf) as Rf.
  pose proof (rem_range info Hinfo s Hwf) as Rr.
  destruct (quot_mod_split info Hinfo amt ltac:(lia)) as (Hsplit & Hq0 & Hr0).
  erewrite mintExtended_plan in E by done.
  set (q := Z.quot amt CF) in *. set (r := amt mod CF) in *. clearbody q r.
  set (f := frac_of s (GetModuleAddress m)) in *.
  set (x := f + r - _) in E. set (y := rem_of s - r + _) in E.
  assert (0 ≤ x < CF) by (subst x; destruct (Z.leb_spec CF (f + r)); lia).
  assert (0 ≤ y < CF) by (subst y; destruct (Z.ltb_spec (rem_of s) r); lia).
  apply mint_plan_settled in E; try done.
  eapply settled_effect; [exact E|by apply frac_upd_wf|by apply upd_rem_wf|..];
    unfold point; rewrite ?upd_rem_default.
  - rewrite upd_frac_sum, decide_False, decide_True by done.
    fold (frac_of s (GetModuleAddress m)) f. subst x y.
    destruct (Z.leb_spec CF (f + r)), (Z.ltb_spec (rem_of s) r); cbn [Z.b2z]; lia.
  - intros a Ha. rewrite upd_frac_lookup. fold (frac_of s a).
    rewrite (decide_False (P := a = reserve)) by done. subst x.
    destruct (Z.leb_spec CF (f + r)); cbn [Z.b2z]; case_decide; subst; try lia;
      fold f; lia.
  - subst y. destruct (Z.ltb_spec (rem_of s) r); cbn [Z.b2z]; lia.
  - intros a. cbn. unfold point. rewrite upd_frac_lookup. fold (frac_of s a).
    case_decide as Ha; [rewrite Ha; fold f|]; lia.
Qed.

Lemma burnExtended_effect m amt s s' u :
  pb_wf info s → 0 < amt → int_ok amt = true →
  GetModuleAddress m ≠ EmptyString → m ≠ ModuleName →
  burnExtendedCoin info m amt s = (s', Ok u) →
  effect s s' (λ a, - point (GetModuleAddress m) amt a) (- amt).
Proof.
  intros Hwf Hamt Hok Hm Hne E. pose proof (CF_bounds info Hinfo).
  pose proof (module_not_reserve m Hm Hne) as Hmr.
  pose proof (frac_range info Hinfo s (GetModuleAddress m) Hwf) as Rf.
  pose proof (rem_range info Hinfo s Hwf) as Rr.
  destruct (quot_mod_split info Hinfo amt ltac:(lia)) as (Hsplit & Hq0 & Hr0).
  erewrite burnExtended_plan in E by done.
  set (q := Z.quot amt CF) in *. set (r := amt mod CF) in *. clearbody q r.
  set (f := frac_of s (GetModuleAddress m)) in *.
  set (x := f - r + _) in E. set (y := rem_of s + r - _) in E.
  assert (0 ≤ x < CF) by (subst x; destruct (Z.ltb_spec f r); lia).
  assert (0 ≤ y < CF) by (subst y; destruct (Z.leb_spec CF (rem_of s + r)); lia).
  apply burn_plan_settled in E; try done.
  eapply settled_effect; [exact E|by apply frac_upd_wf|by apply upd_rem_wf|..];
    unfold point; rewrite ?upd_rem_default.
  - rewrite upd_frac_sum, decide_True, decide_False by done.
    fold (frac_of s (GetModuleAddress m)) f. subst x y.
    destruct (Z.ltb_spec f r), (Z.leb_spec CF (rem_of s + r)); cbn [Z.b2z]; lia.
  - intros a Ha. rewrite upd_frac_lookup. fold (frac_of s a).
    rewrite (decide_False (P := a = reserve)) by done. subst x.
    destruct (Z.ltb_spec f r); cbn [Z.b2z]; case_decide; subst; try lia;
      fold f; lia.
  - subst y. destruct (Z.leb_spec CF (rem_of s + r)); cbn [Z.b2z]; lia.
  - intros a. cbn. unfold point. rewrite upd_frac_lookup. fold (frac_of s a).
    case_decide as Ha; [rewrite Ha; fold f|]; lia.
Qed.

(** ** Coin sets *)

(** The extended value of a coin set.  With eighteen decimals the two
    denominations are one, and the coin counts once. *)
Definition ext_value cs : Z :=
  (if decide (idenom = xdenom) then 0 else Coins_AmountOf cs idenom * CF)
  + Coins_AmountOf cs xdenom.

(** Every amount is an [sdkmath.Int]; the type's constructors guarantee it. *)
Definition in_range cs : Prop := ∀ d, int_ok (Coins_AmountOf cs d) = true.

Lemma split_coins_inv cs s s' pc n :
  Coins_IsValid cs = true →
  split_coins info cs s = (s', Ok (pc, n)) →
  s' = s ∧ n = Coins_AmountOf cs xdenom ∧ Coins_IsValid pc = true ∧
  ∀ d, Coins_AmountOf pc d = if decide (d = xdenom) then 0 else Coins_AmountOf cs d.
Proof.
  intros Hv. unfold split_coins. destruct (Z.ltb_spec 0 (Coins_AmountOf cs xdenom)) as [Hp|Hp].
  - erewrite bind_Ok by (apply newCoin_run; [apply Hinfo|lia]).
    destruct (Sub_own_amount cs xdenom Hv Hp) as (cs' & Hsub & Hv' & Ha).
    intros E. erewrite bind_Ok in E by (unfold of_outcome; by rewrite Hsub).
    unfold ret in E. by simplify_eq.
  - unfold ret. intros [= <- <- <-]. split_and!; try done.
    intros d. case_decide; [subst|done]. pose proof (AmountOf_nonneg cs xdenom Hv). lia.
Qed.

Lemma split_value cs pc :
  (∀ d, Coins_AmountOf pc d = if decide (d = xdenom) then 0 else Coins_AmountOf cs d) →
  ext_value cs = Coins_AmountOf pc idenom * CF + Coins_AmountOf cs xdenom.
Proof. intros Ha. unfold ext_value. rewrite Ha. by case_decide. Qed.

(** A set of one extended coin is split into nothing and that amount. *)
Lemma split_single amt s :
  0 < amt →
  ∃ pc, split_coins info (NewCoins [mkCoin xdenom amt]) s = (s, Ok (pc, amt)) ∧
    Coins_IsAllPositive pc = false ∧ Coins_Empty pc = true.
Proof.
  intros Hamt. assert (valid_denom xdenom = true) as Hd by apply Hinfo.
  assert (Coins_AmountOf (NewCoins [mkCoin xdenom amt]) xdenom = amt) as Ha
    by (rewrite NewCoins_amount by done; by rewrite decide_True).
  assert (Coins_IsValid (NewCoins [mkCoin xdenom amt]) = true) as Hv by by apply NewCoins_valid.
  destruct (Sub_own_amount _ xdenom Hv ltac:(by rewrite Ha)) as (pc & Hsub & Hv' & Hpc).
  rewrite Ha in Hsub. assert (Coins_Empty pc = true) as He.
  { apply Empty_of_zero; [done|]. intros d. rewrite Hpc, NewCoins_amount by done. by case_decide. }
  pose proof (IsAllPositive_valid pc Hv') as Hpos. rewrite He in Hpos.
  exists pc. split; [|done].
  unfold split_coins. rewrite Ha, (proj2 (Z.ltb_lt _ _) Hamt).
  erewrite bind_Ok by (apply newCoin_run; [done|lia]).
  erewrite bind_Ok by (unfold of_outcome; by rewrite Hsub). done.
Qed.

Lemma SendCoins_single from to amt s :
  0 < amt →
  SendCoins info from to (NewCoins [mkCoin xdenom amt]) s = sendExtendedCoins info from to amt s.
Proof.
  intros Hamt. destruct (split_single amt s Hamt) as (pc & Hsp & Hpos & _). unfold SendCoins.
  rewrite NewCoins_valid by (apply Hinfo || done). cbn [negb].
  erewrite bind_Ok by exact Hsp. cbn beta iota. rewrite Hpos. cbn [when]. rewrite bind_ret.
  by rewrite (proj2 (Z.ltb_lt _ _) Hamt).
Qed.

Lemma MintCoins_single m amt s :
  0 < amt → has_perm m Minter → m ≠ ModuleName →
  MintCoins info m (NewCoins [mkCoin xdenom amt]) s = mintExtendedCoin info m amt s.
Proof.
  intros Hamt (acc & Hacc & Hp) Hne. destruct (split_single amt s Hamt) as (pc & Hsp & _ & He).
  unfold MintCoins. rewrite bool_decide_eq_false_2, Hacc, Hp by done. cbn [negb].
  rewrite NewCoins_valid by (apply Hinfo || done). cbn [negb].
  erewrite bind_Ok by exact Hsp. cbn beta iota. rewrite He. cbn [negb when]. rewrite bind_ret.
  by rewrite (proj2 (Z.ltb_lt _ _) Hamt).
Qed.

Lemma BurnCoins_single m amt s :
  0 < amt → has_perm m Burner → m ≠ ModuleName →
  BurnCoins info m (NewCoins [mkCoin xdenom amt]) s = burnExtendedCoin info m amt s.
Proof.
  intros Hamt (acc & Hacc & Hp) Hne. destruct (split_single amt s Hamt) as (pc & Hsp & _ & He).
  unfold BurnCoins. rewrite bool_decide_eq_false_2, Hacc, Hp by done. cbn [negb].
  rewrite NewCoins_valid by (apply Hinfo || done). cbn [negb].
  erewrite bind_Ok by exact Hsp. cbn beta iota. rewrite He. cbn [negb when]. rewrite bind_ret.
  by rewrite (proj2 (Z.ltb_lt _ _) Hamt).
Qed.

Lemma SendCoins_effect from to cs s s' u :
  pb_wf info s → in_range cs →
  from ≠ EmptyString → to ≠ EmptyString → from ≠ reserve → to ≠ reserve →
  SendCoins info from to cs s = (s', Ok u) →
  effect s s' (λ a, point to (ext_value cs) a - point from (ext_value cs) a) 0.
Proof.
  intros Hwf Hrange Hf Ht Hfr Htr E. unfold SendCoins in E.
  destruct (Coins_IsValid cs) eqn:Hv; [|done]. cbn [negb] in E.
  apply bind_Ok_inv in E as (s1 & [pc n] & Esp & E).
  apply split_coins_inv in Esp as (-> & -> & Hpv & Hpa); [|done].
  rewrite (split_value cs pc Hpa).
  apply bind_Ok_inv in E as (s2 & [] & E1 & E).
  assert (effect s s2 (λ a, (point to (Coins_AmountOf pc idenom) a
                             - point from (Coins_AmountOf pc idenom) a) * CF) (0 * CF)) as He1.
  { apply when_Ok_inv in E1 as [[_ E1]|[Hz ->]].
    - eapply (bstep_effect _ _ (λ a, _)); [done|by eapply send_step|].
      unfold point. by rewrite !decide_False.
    - rewrite IsAllPositive_valid in Hz by done. apply negb_false_iff in Hz.
      rewrite Empty_amount by done. unfold point.
      eapply effect_proper, effect_refl; [|done..]. intros. repeat case_decide; lia. }
  assert (pb_wf info s2) as Hwf2 by apply He1.
  apply when_Ok_inv in E as [[Hn%Z.ltb_lt E]|[Hn%Z.ltb_ge ->]].
  - destruct (decide (from = to)) as [<-|Hne].
    + unfold sendExtendedCoins in E.
      rewrite !bool_decide_eq_false_2, bool_decide_eq_true_2 in E by done.
      cbn [orb] in E. unfold ret in E. simplify_eq. eapply effect_proper, He1; [|lia]. intros. cbn beta. lia.
    + apply sendExtended_effect in E; try done.
      eapply effect_proper, effect_trans; [| |exact He1|exact E]; [|lia].
      intros. unfold point. cbn. repeat case_decide; lia.
  - pose proof (AmountOf_nonneg cs xdenom Hv).
    eapply effect_proper, He1; [|lia]. intros. unfold point. repeat case_decide; lia.
Qed.

Lemma module_registered m acc :
  GetModuleAccount m = Some acc → GetModuleAddress m ≠ EmptyString.
Proof. intros [-> ?]%module_account_address. done. Qed.

Lemma MintCoins_effect m cs s s' u :
  pb_wf info s → in_range cs → MintCoins info m cs s = (s', Ok u) →
  effect s s' (point (GetModuleAddress m) (ext_value cs)) (ext_value cs).
Proof.
  intros Hwf Hrange E. unfold MintCoins in E. case_bool_decide as Hne; [done|].
  destruct (GetModuleAccount m) as [acc|] eqn:Hacc; [|done].
  pose proof (module_registered _ _ Hacc) as Hm. pose proof (module_not_reserve m Hm Hne) as Hmr.
  destruct (HasPermission acc Minter); [|done]. cbn [negb] in E.
  destruct (Coins_IsValid cs) eqn:Hv; [|done]. cbn [negb] in E.
  apply bind_Ok_inv in E as (s1 & [pc n] & Esp & E).
  apply split_coins_inv in Esp as (-> & -> & Hpv & Hpa); [|done].
  rewrite (split_value cs pc Hpa).
  apply bind_Ok_inv in E as (s2 & [] & E1 & E).
  assert (effect s s2 (λ a, point (GetModuleAddress m) (Coins_AmountOf pc idenom) a * CF)
            (Coins_AmountOf pc idenom * CF)) as He1.
  { apply when_Ok_inv in E1 as [[_ E1]|[Hz%negb_false_iff ->]].
    - eapply bstep_effect; [done|by eapply mint_step|]. unfold point. by rewrite decide_False.
    - rewrite Empty_amount by done. eapply effect_proper, effect_refl; [|done..].
      intros. unfold point. case_decide; lia. }
  assert (pb_wf info s2) as Hwf2 by apply He1.
  pose proof (AmountOf_nonneg cs xdenom Hv).
  apply when_Ok_inv in E as [[Hn%Z.ltb_lt E]|[Hn%Z.ltb_ge ->]].
  - apply mintExtended_effect in E; try done.
    eapply effect_proper, effect_trans; [| |exact He1|exact E]; [|lia].
    intros. unfold point. cbn. case_decide; lia.
  - eapply effect_proper, He1; [|lia]. intros. unfold point. case_decide; lia.
Qed.

Lemma BurnCoins_effect m cs s s' u :
  pb_wf info s → in_range cs → BurnCoins info m cs s = (s', Ok u) →
  effect s s' (λ a, - point (GetModuleAddress m) (ext_value cs) a) (- ext_value cs).
Proof.
  intros Hwf Hrange E. unfold BurnCoins in E. case_bool_decide as Hne; [done|].
  destruct (GetModuleAccount m) as [acc|] eqn:Hacc; [|done].
  pose proof (module_registered _ _ Hacc) as Hm. pose proof (module_not_reserve m Hm Hne) as Hmr.
  destruct (HasPermission acc Burner); [|done]. cbn [negb] in E.
  destruct (Coins_IsValid cs) eqn:Hv; [|done]. cbn [negb] in E.
  apply bind_Ok_inv in E as (s1 & [pc n] & Esp & E).
  apply split_coins_inv in Esp as (-> & -> & Hpv & Hpa); [|done].
  rewrite (split_value cs pc Hpa).
  apply bind_Ok_inv in E as (s2 & [] & E1 & E).
  assert (effect s s2 (λ a, - point (GetModuleAddress m) (Coins_AmountOf pc idenom) a * CF)
            (- Coins_AmountOf pc idenom * CF)) as He1.
  { apply when_Ok_inv in E1 as [[_ E1]|[Hz%negb_false_iff ->]].
    - eapply (bstep_effect _ _ (λ a, - _)); [done|by eapply burn_step|].
      unfold point. by rewrite decide_False.
    - rewrite Empty_amount by done. eapply effect_proper, effect_refl; [|done..].
      intros. unfold point. case_decide; lia. }
  assert (pb_wf info s2) as Hwf2 by apply He1.
  pose proof (AmountOf_nonneg cs xdenom Hv).
  apply when_Ok_inv in E as [[Hn%Z.ltb_lt E]|[Hn%Z.ltb_ge ->]].
  - apply burnExtended_effect in E; try done.
    eapply effect_proper, effect_trans; [| |exact He1|exact E]; [|lia].
    intros. unfold point. cbn. case_decide; lia.
  - eapply effect_proper, He1; [|lia]. intros. unfold point. case_decide; lia.
Qed.
End ops.
