(* ===== verification/PreciseBankLive.v ===== *)
(** When x/precisebank's operations succeed: a send, a mint and a burn of
    extended coins go through exactly when the extended balance allows it, and
    the reserve can always pay the carries it owes. *)

From S2P Require Import Prelude.
From S2P Require Import Sdk.
From S2P Require Import EvmDenom.
From S2P Require Import PreciseBank.
From S2P Require Import PreciseBankInv.
From S2P Require Import PreciseBankOps.

Section live.
Context `{SdkTypesLaws, AccountKeeperLaws} {B : Type} `{!BankKeeper B, !BankKeeperLaws B}.
Context (info : EvmCoinInfo) (Hinfo : valid_coin_info info) (Hreserve : reserve ≠ EmptyString).

Abbreviation CF := (ConversionFactor info).
Abbreviation idenom := (IntegerCoinDenom info).
Abbreviation xdenom := (ExtendedCoinDenom info).
Abbreviation int_coins n := (NewCoins [mkCoin idenom n]).
Implicit Types (s : PState B) (a from to : addr) (amt n : Z).

(** Receiving [n] more integer coins does not overflow 256 bits. *)
Definition room s a n : Prop := ibal info s a + n < u256_max.

Lemma ispend_spec s a : ispend info s a = Z.max 0 (ibal info s a - ilocked info s a).
Proof. apply bk_spendable_spec. Qed.

Lemma ibal_nonneg s a : 0 ≤ ibal info s a.
Proof. apply bk_balance_nonneg. Qed.

Lemma int_coins_spendable s a n d :
  0 < n → n ≤ ispend info s a →
  Coins_AmountOf (int_coins n) d ≤ bk_SpendableCoin (ps_bank s) a d.
Proof.
  intros Hn Hle. rewrite NewCoins_amount by (apply Hinfo || done). case_decide; [by subst|].
  rewrite bk_spendable_spec. lia.
Qed.

Lemma int_coins_room s a n d :
  0 < n → room s a n →
  int_ok (bk_GetBalance (ps_bank s) a d + Coins_AmountOf (int_coins n) d) = true.
Proof.
  intros Hn Hr. rewrite NewCoins_amount by (apply Hinfo || done).
  pose proof (bk_balance_nonneg (ps_bank s) a d). unfold room, ibal in Hr.
  case_decide; [subst; apply int_ok_spec; lia|]. rewrite Z.add_0_r. apply bk_balance_ok.
Qed.

Lemma send_int_ok from to n s :
  0 < n → n ≤ ispend info s from → room s to n →
  ∃ s', bank (bk_SendCoins from to (int_coins n)) s = (s', Ok tt).
Proof.
  intros Hn Hsp Hr. destruct (bk_send_succeeds from to (int_coins n) (ps_bank s)) as [b Hb].
  - by apply int_coins_valid.
  - intros d. by apply int_coins_spendable.
  - intros d. by apply int_coins_room.
  - eexists. by apply bank_run.
Qed.

Lemma send_int_fails from to n s :
  0 < n → ispend info s from < n →
  ∃ e, bank (bk_SendCoins from to (int_coins n)) s = (s, Err e) ∧ err_code e = ErrInsufficientFunds.
Proof.
  intros Hn Hsp.
  destruct (bk_send_insufficient from to idenom n (ps_bank s)) as (e & He & Hk);
    [apply Hinfo|done..|].
  exists e. split; [|done]. erewrite bank_run by done. by destruct s.
Qed.

(** The message [updateInsufficientFundsError] builds. *)
Lemma update_error_run a amt e s :
  pb_wf info s → err_code e = ErrInsufficientFunds → a ≠ reserve →
  0 ≤ amt → ext_spend info s a < u256_max →
  updateInsufficientFundsError info a amt e s
  = (s, Ok (mkError ErrInsufficientFunds "spendable balance is smaller than"
              [(xdenom, ext_spend info s a); (xdenom, amt)])).
Proof.
  intros Hwf He Ha Hamt Hr. unfold updateInsufficientFundsError, err_is.
  rewrite bool_decide_eq_true_2 by done. cbn [negb].
  pose proof (CF_bounds info Hinfo). pose proof (frac_range info Hinfo s a Hwf).
  pose proof (ispend_spec s a). unfold ext_spend in *.
  erewrite bind_Ok.
  2:{ unfold SpendableCoin. rewrite (bool_decide_eq_true_2 (xdenom = xdenom)) by done.
      rewrite bool_decide_eq_false_2 by done. cbn [andb negb].
      rewrite (bind_Ok (gets _) _ s s _ eq_refl). unfold GetFractionalBalance.
      rewrite (bind_Ok (gets _) _ s s _ eq_refl). fold (ispend info s a).
      unfold imul. erewrite bind_Ok by (apply ichk_run; nia).
      erewrite bind_Ok by (apply iadd_run; nia).
      apply newCoin_run; [apply Hinfo|nia]. }
  erewrite bind_Ok by (apply newCoin_run; [apply Hinfo|done]). done.
Qed.

(** ** Sends *)

Lemma when_send_ok (c : bool) from to n s w :
  0 < n ∨ c = false → (c = true → n ≤ ispend info s from ∧ room s to n) →
  ∃ s', when c (let! cs := integerCoins info n in
                on_error (bank (bk_SendCoins from to cs)) w) s = (s', Ok tt).
Proof.
  intros Hn Hc. destruct c; [|by eexists]. destruct Hn as [Hn|]; [|done].
  destruct (Hc eq_refl) as [Hsp Hr]. destruct (send_int_ok from to n s Hn Hsp Hr) as [s' Hs'].
  exists s'. cbn. erewrite bind_Ok by (apply integerCoins_run; done || lia).
  by apply on_error_Ok.
Qed.

Lemma when_carry_ok (c : bool) to n s why :
  0 < n → (c = true → n ≤ ispend info s reserve ∧ room s to n) →
  ∃ s', when c (let! cs := integerCoins info n in
                must (bank (bk_SendCoins reserve to cs)) why) s = (s', Ok tt).
Proof.
  intros Hn Hc. destruct c; [|by eexists].
  destruct (Hc eq_refl) as [Hsp Hr]. destruct (send_int_ok reserve to n s Hn Hsp Hr) as [s' Hs'].
  exists s'. cbn. erewrite bind_Ok by (apply integerCoins_run; done || lia).
  by apply must_Ok.
Qed.

Lemma when_borrow_eq (c : bool) from n w s :
  when c (let! cs := integerCoins info n in
          on_error (bank (bk_SendCoinsFromAccountToModule from ModuleName cs)) w) s
  = when c (let! cs := integerCoins info n in
            on_error (bank (bk_SendCoins from reserve cs)) w) s.
Proof.
  destruct c; [|done]. cbn. apply bind_ext. intros s1 cs _. by rewrite bk_send_to_module.
Qed.

(** The reserve of a solvent module holds a coin whenever two fractional
    parts together are worth one. *)
Lemma reserve_covers s (v : Z) :
  solvent info s → CF ≤ v → v ≤ map_sum (ps_frac s) + rem_of s → 1 ≤ ibal info s reserve.
Proof.
  intros [Hp _] Hv Hle. unfold surplus in Hp. pose proof (CF_bounds info Hinfo). nia.
Qed.

Lemma quotient_le (c q i x y : Z) :
  0 < c → q * c + x ≤ i * c + y → y - x < c → q ≤ i.
Proof. intros. nia. Qed.

Lemma quotient_lt (c q i x y : Z) :
  0 < c → q * c + x ≤ i * c + y → y < x → q + 1 ≤ i.
Proof. intros. nia. Qed.

Lemma when_send_step (c : bool) from to n s s' w :
  0 < n ∨ c = false →
  when c (let! cs := integerCoins info n in on_error (bank (bk_SendCoins from to cs)) w) s = (s', Ok tt) →
  bstep info s s' (λ a, if c then point to n a - point from n a else 0) 0.
Proof.
  intros Hn E.
  eapply (when_int_step info Hinfo _ _ _ (λ a, point to n a - point from n a) 0) in E;
    [by destruct c|done|].
  intros Hn' ??? Hs. by eapply send_int_step.
Qed.

(** The whole coins a send takes from the sender, borrow included, are
    affordable exactly when the extended amount is. *)
Lemma spend_iff s a q r :
  pb_wf info s → 0 ≤ r < CF →
  q * CF + r ≤ ext_spend info s a ↔ q + Z.b2z (frac_of s a <? r) ≤ ispend info s a.
Proof.
  intros Hwf Hr. pose proof (CF_bounds info Hinfo). pose proof (frac_range info Hinfo s a Hwf).
  unfold ext_spend. destruct (Z.ltb_spec (frac_of s a) r); cbn [Z.b2z]; split; intros.
  - eapply quotient_lt with (c := CF); [lia|done|done].
  - nia.
  - rewrite Z.add_0_r. eapply quotient_le with (c := CF); [lia|done|lia].
  - nia.
Qed.

Lemma carry_backed s from to r :
  pb_wf info s → solvent info s → from ≠ to →
  r ≤ frac_of s from → CF ≤ frac_of s to + r → 1 ≤ ibal info s reserve.
Proof.
  intros Hwf Hsol Hne Hb Hc. pose proof (rem_range info Hinfo s Hwf).
  eapply reserve_covers with (v := frac_of s from + frac_of s to); [done|lia|].
  pose proof (map_sum_two (ps_frac s) from to (frac_nonneg info s Hwf) Hne).
  unfold frac_of. lia.
Qed.

Lemma send_tail_run from to f1 f2 x y s :
  from ≠ EmptyString → to ≠ EmptyString →
  0 ≤ f1 < CF → 0 ≤ f2 < CF → 0 ≤ x < CF → 0 ≤ y < CF →
  ∃ s', (SetFractionalBalance info from x >>! SetFractionalBalance info to y >>!
         EmitEventFractionalBalanceChange from f1 x >>!
         EmitEventFractionalBalanceChange to f2 y) s = (s', Ok tt).
Proof.
  intros. do 2 (erewrite bind_Ok by (by apply setFrac_run)).
  erewrite bind_Ok by (by apply (emit_run info)). eexists. by apply (emit_run info).
Qed.

Lemma sub_frac_range (f r : Z) :
  0 ≤ f < CF → 0 ≤ r < CF → 0 ≤ f - r + (if f <? r then CF else 0) < CF.
Proof. intros. destruct (Z.ltb_spec f r); lia. Qed.

Lemma add_frac_range (f r : Z) :
  0 ≤ f < CF → 0 ≤ r < CF → 0 ≤ f + r - (if CF <=? f + r then CF else 0) < CF.
Proof. intros. destruct (Z.leb_spec CF (f + r)); lia. Qed.

Lemma sendExtended_succeeds from to amt s :
  pb_wf info s → solvent info s → ilocked info s reserve = 0 →
  0 < amt → int_ok amt = true → from ≠ EmptyString → to ≠ EmptyString →
  from ≠ to → from ≠ reserve → to ≠ reserve →
  amt ≤ ext_spend info s from → room s to (Z.quot amt CF + 1) → room s reserve 1 →
  ∃ s', sendExtendedCoins info from to amt s = (s', Ok tt).
Proof.
  intros Hwf Hsol Hlk Hamt Hok Hf Ht Hne Hfr Htr Hbal Hroom Hroomr.
  pose proof (frac_range info Hinfo s from Hwf) as Rf.
  pose proof (frac_range info Hinfo s to Hwf) as Rt.
  destruct (quot_mod_split info Hinfo amt ltac:(lia)) as (Hsplit & Hq0 & Hr0).
  erewrite sendExtended_plan by done.
  set (q := Z.quot amt CF) in *. set (r := amt mod CF) in *. clearbody q r.
  rewrite Hsplit in Hbal. apply spend_iff in Hbal; [|done..].
  pose proof (carry_backed s from to r Hwf Hsol Hne) as Hcb.
  rewrite <-Z.ltb_ge, <-Z.leb_le in Hcb.
  pose proof (sub_frac_range _ _ Rf Hr0) as Rx. pose proof (add_frac_range _ _ Rt Hr0) as Ry.
  set (borrow := frac_of s from <? r) in *. set (carry := CF <=? frac_of s to + r) in *.
  unfold send_plan. set (n := q + Z.b2z (borrow && carry)).
  assert (0 < n ∨ (0 <? n) = false) as Hn by (destruct (Z.ltb_spec 0 n); auto).
  destruct (when_send_ok (0 <? n) from to n s (updateInsufficientFundsError info from amt))
    as [s1 E1]; [done| |].
  { intros _. unfold room in *. subst n. destruct borrow, carry; cbn [andb Z.b2z] in *; lia. }
  erewrite bind_Ok by exact E1. apply when_send_step in E1 as [Hb1 Hl1 _ _ _ _]; [|done].
  destruct (when_send_ok (borrow && negb carry) from reserve 1 s1
              (updateInsufficientFundsError info from amt)) as [s2 E2]; [left; lia| |].
  { pose proof (ispend_spec s from). pose proof (ispend_spec s1 from).
    intros [-> ->%negb_true_iff]%andb_true_iff. unfold room in *.
    rewrite Hb1, Hl1 in *. unfold point in *. cbn [andb Z.b2z] in *.
    destruct (Z.ltb_spec 0 n); repeat case_decide; simplify_eq; lia. }
  erewrite bind_Ok by (rewrite when_borrow_eq; exact E2).
  apply when_send_step in E2 as [Hb2 Hl2 _ _ _ _]; [|left; lia].
  destruct (when_carry_ok (negb borrow && carry) to 1 s2 "failed to carry fractional coins")
    as [s3 E3]; [lia| |].
  { intros [Hb%negb_true_iff Hc]%andb_true_iff. specialize (Hcb Hb Hc).
    subst n. rewrite Hb, Hc in *. unfold room in *.
    rewrite ispend_spec, !Hb2, !Hl2, !Hb1, !Hl1. unfold point. cbn [andb negb Z.b2z] in *.
    destruct (Z.ltb_spec 0 (q + 0)); repeat case_decide; simplify_eq; lia. }
  erewrite bind_Ok by exact E3. by apply send_tail_run.
Qed.

(** The state an insufficient send leaves, and the error it reports: the
    spendable balance in the message is read after the whole coins of the
    amount may already have been moved. *)
Lemma sendExtended_insufficient from to amt s :
  pb_wf info s → 0 < amt → int_ok amt = true → from ≠ EmptyString → to ≠ EmptyString →
  from ≠ to → from ≠ reserve → to ≠ reserve →
  ext_spend info s from < amt → room s to (Z.quot amt CF + 1) →
  ∃ s', sendExtendedCoins info from to amt s
        = (s', Err (mkError ErrInsufficientFunds "spendable balance is smaller than"
                      [(xdenom, ext_spend info s' from); (xdenom, amt)])) ∧
    pb_wf info s' ∧ surplus info s' = surplus info s.
Proof.
  intros Hwf Hamt Hok Hf Ht Hne Hfr Htr Hbal Hroom.
  pose proof (frac_range info Hinfo s from Hwf) as Rf. pose proof (CF_bounds info Hinfo).
  destruct (quot_mod_split info Hinfo amt ltac:(lia)) as (Hsplit & Hq0 & Hr0).
  erewrite sendExtended_plan by done. pose proof Hok as Hok'. apply int_ok_spec in Hok'.
  assert (¬ amt ≤ ext_spend info s from) as Hspent by lia.
  set (q := Z.quot amt CF) in *. set (r := amt mod CF) in *. clearbody q r.
  rewrite Hsplit in Hspent. rewrite spend_iff in Hspent by done.
  set (borrow := frac_of s from <? r) in *. set (carry := CF <=? frac_of s to + r) in *.
  unfold send_plan. set (n := q + Z.b2z (borrow && carry)).
  assert (0 < n ∨ (0 <? n) = false) as Hn by (destruct (Z.ltb_spec 0 n); auto).
  pose proof (ispend_spec s from) as Hsp.
  destruct (decide (n ≤ ispend info s from)) as [Hle|Hgt].
  - assert (borrow && negb carry = true) as Hbc
      by (subst n; destruct borrow, carry; cbn [andb negb Z.b2z] in *; done || lia).
    assert (n = q) as -> by (subst n; destruct borrow, carry; cbn [andb negb Z.b2z] in *; done || lia).
    destruct (when_send_ok (0 <? q) from to q s (updateInsufficientFundsError info from amt))
      as [s1 E1]; [done|unfold room in *; intros; lia|].
    erewrite bind_Ok by exact E1. apply when_send_step in E1 as [Hb1 Hl1 Hs1 Hf1 Hr1 _]; [|done].
    pose proof (ispend_spec s1 from) as Hsp1. rewrite Hb1, Hl1 in Hsp1. unfold point in *.
    assert (ispend info s1 from < 1) as Hlt.
    { apply andb_true_iff in Hbc as [-> _]. cbn [Z.b2z] in Hspent.
      destruct (Z.ltb_spec 0 q); repeat case_decide; simplify_eq; lia. }
    assert (pb_wf info s1) as Hwf1 by (split; rewrite ?Hf1, ?Hr1; apply Hwf).
    destruct (send_int_fails from reserve 1 s1 ltac:(lia) Hlt) as (e & He & Hk).
    exists s1. split_and!; [|done|].
    + rewrite Hbc. erewrite bind_Err; [done|]. cbn [when].
      erewrite bind_Ok by (apply integerCoins_run; done || lia).
      rewrite bk_send_to_module by done. unfold on_error. fold reserve. rewrite He.
      erewrite update_error_run; try done; [lia|]. unfold ext_spend, frac_of. rewrite Hf1.
      fold (frac_of s from). assert (ispend info s1 from = 0) as -> by lia.
      pose proof (small_int_ok (frac_of s from)). lia.
    + unfold surplus, rem_of. rewrite Hb1, Hf1, Hr1. unfold point.
      destruct (0 <? q); repeat case_decide; try congruence; lia.
  - assert (0 < n) as Hn0 by (pose proof (ispend_spec s from); lia).
    destruct (send_int_fails from to n s Hn0 ltac:(lia)) as (e & He & Hk).
    exists s. split_and!; [|done|done]. rewrite (proj2 (Z.ltb_lt 0 n) Hn0).
    erewrite bind_Err; [done|]. cbn [when].
    erewrite bind_Ok by (apply integerCoins_run; done || lia).
    unfold on_error. rewrite He. erewrite update_error_run; try done; lia.
Qed.

(** ** Mints and burns *)

Lemma mint_int_ok m n s :
  0 < n → has_perm m Minter → room s (GetModuleAddress m) n → isupply info s + n < u256_max →
  ∃ s', bank (bk_MintCoins m (int_coins n)) s = (s', Ok tt).
Proof.
  intros Hn Hp Hr Hs. pose proof (bk_supply_nonneg (ps_bank s) idenom).
  destruct (bk_mint_succeeds m (int_coins n) (ps_bank s)) as [b Hb].
  - by apply int_coins_valid.
  - done.
  - intros d _. by apply int_coins_room.
  - intros d. rewrite NewCoins_amount by (apply Hinfo || done).
    case_decide; [|lia]. subst. intros _. apply int_ok_spec. unfold isupply in *. lia.
  - eexists. by apply bank_run.
Qed.

Lemma burn_int_ok m n s :
  0 < n → has_perm m Burner → n ≤ ispend info s (GetModuleAddress m) →
  ∃ s', bank (bk_BurnCoins m (int_coins n)) s = (s', Ok tt).
Proof.
  intros Hn Hp Hsp. destruct (bk_burn_succeeds m (int_coins n) (ps_bank s)) as [b Hb].
  - by apply int_coins_valid.
  - done.
  - intros d. by apply int_coins_spendable.
  - eexists. by apply bank_run.
Qed.

(** A guarded bank step on [n] coins succeeds when its body does. *)
Lemma when_int_ok (c : bool) n (op : Coins → M (PState B) unit) s :
  0 < n ∨ c = false →
  (0 < n → c = true → ∃ s', op (int_coins n) s = (s', Ok tt)) →
  ∃ s', when c (let! cs := integerCoins info n in op cs) s = (s', Ok tt).
Proof.
  intros Hn Hop. destruct c; [|by eexists]. destruct Hn as [Hn|]; [|done].
  destruct (Hop Hn eq_refl) as [s' Hs']. exists s'. cbn.
  by erewrite bind_Ok by (apply integerCoins_run; done || lia).
Qed.

Lemma burnExtended_succeeds m amt s :
  pb_wf info s → solvent info s → ilocked info s reserve = 0 →
  0 < amt → int_ok amt = true → m ≠ ModuleName →
  has_perm m Burner → has_perm ModuleName Burner →
  amt ≤ ext_spend info s (GetModuleAddress m) → room s reserve 1 →
  ∃ s', burnExtendedCoin info m amt s = (s', Ok tt).
Proof.
  intros Hwf Hsol Hlk Hamt Hok Hne Hpm Hpr Hbal Hroom.
  assert (GetModuleAddress m ≠ EmptyString) as Hm
    by (destruct Hpm as (acc & Hacc & _); by apply module_registered in Hacc).
  pose proof (module_not_reserve m Hm Hne) as Hmr.
  pose proof (frac_range info Hinfo s (GetModuleAddress m) Hwf) as Rf.
  pose proof (rem_range info Hinfo s Hwf) as Rr.
  destruct (quot_mod_split info Hinfo amt ltac:(lia)) as (Hsplit & Hq0 & Hr0).
  erewrite burnExtended_plan by done.
  set (q := Z.quot amt CF) in *. set (r := amt mod CF) in *. clearbody q r.
  rewrite Hsplit in Hbal. apply spend_iff in Hbal; [|done..].
  set (a := GetModuleAddress m) in *. unfold burn_plan. fold a.
  pose proof (sub_frac_range _ _ Rf Hr0) as Rx. pose proof (add_frac_range _ _ Rr Hr0) as Ry.
  pose proof (map_sum_one (ps_frac s) a (frac_nonneg info s Hwf)) as Hone.
  fold (frac_of s a) in Hone.
  pose proof (reserve_covers s (frac_of s a + rem_of s) Hsol) as Hcov.
  assert (r ≤ frac_of s a → CF ≤ rem_of s + r → 1 ≤ ibal info s reserve) as Hres
    by (intros; apply Hcov; lia). clear Hcov.
  rewrite <-Z.ltb_ge, <-Z.leb_le in Hres.
  set (borrow := frac_of s a <? r) in *. set (over := CF <=? rem_of s + r) in *.
  set (n := q + Z.b2z (borrow && over)).
  replace (negb (n =? 0)) with (0 <? n)
    by (destruct (Z.ltb_spec 0 n), (Z.eqb_spec n 0); subst n; destruct borrow, over;
        cbn [andb negb Z.b2z] in *; done || lia).
  pose proof (ispend_spec s a) as Hsp.
  destruct (when_int_ok (borrow && negb over) 1
    (λ cs, on_error (bank (bk_SendCoinsFromModuleToModule m ModuleName cs))
             (updateInsufficientFundsError info a amt)) s) as [s1 E1]; [left; lia| |].
  { intros _ [Hb _]%andb_true_iff. rewrite Hb in Hbal. cbn [Z.b2z] in Hbal.
    rewrite bk_send_module_to_module by done.
    destruct (send_int_ok a reserve 1 s) as [s' Hs']; [lia|lia|done|].
    exists s'. by apply on_error_Ok. }
  erewrite bind_Ok by exact E1.
  eapply (when_int_step info Hinfo _ _ _ (λ b, point reserve 1 b - point a 1 b) 0) in E1
    as [Hb1 Hl1 _ _ _ _];
    [|left; lia|intros Hn ??? Hs; apply on_error_Ok_inv in Hs; by eapply module_int_step].
  destruct (when_int_ok (negb borrow && over) 1
    (λ cs, on_error (bank (bk_BurnCoins ModuleName cs))
             (λ e, ret (mkError (err_code e) "failed to burn for reserve" []))) s1)
    as [s2 E2]; [left; lia| |].
  { intros _ [Hb%negb_true_iff Ho]%andb_true_iff. specialize (Hres Hb Ho).
    destruct (burn_int_ok ModuleName 1 s1) as [s' Hs']; [lia|done| |exists s'; by apply on_error_Ok].
    fold reserve. rewrite ispend_spec, Hb1, Hl1, Hb. cbn [andb]. lia. }
  erewrite bind_Ok by exact E2.
  eapply (when_int_step info Hinfo _ _ _ (λ b, - point reserve 1 b) (-1)) in E2
    as [Hb2 Hl2 _ _ _ _];
    [|left; lia|intros Hn ??? Hs; by eapply (burn_int_step info Hinfo ModuleName)].
  destruct (when_int_ok (0 <? n) n
    (λ cs, on_error (bank (bk_BurnCoins m cs)) (updateInsufficientFundsError info a amt)) s2)
    as [s3 E3]; [destruct (Z.ltb_spec 0 n); auto| |].
  { intros Hn _. destruct (burn_int_ok m n s2) as [s' Hs'];
      [done|done| |exists s'; by apply on_error_Ok].
    fold a. rewrite ispend_spec, Hb2, Hl2, Hb1, Hl1. unfold point.
    subst n. destruct borrow, over; cbn [andb negb Z.b2z] in *; repeat case_decide; try congruence; lia. }
  erewrite bind_Ok by exact E3.
  erewrite bind_Ok by (by apply setFrac_run). erewrite bind_Ok by (by apply setRem_run).
  eexists. by apply (emit_run info).
Qed.

Lemma mintExtended_succeeds m amt s :
  pb_wf info s → solvent info s → ilocked info s reserve = 0 →
  0 < amt → int_ok amt = true → m ≠ ModuleName →
  has_perm m Minter → has_perm ModuleName Minter →
  room s (GetModuleAddress m) (Z.quot amt CF + 1) → room s reserve 1 →
  isupply info s + Z.quot amt CF + 1 < u256_max →
  ∃ s', mintExtendedCoin info m amt s = (s', Ok tt).
Proof.
  intros Hwf Hsol Hlk Hamt Hok Hne Hpm Hpr Hroom Hroomr Hroomsup.
  assert (GetModuleAddress m ≠ EmptyString) as Hm
    by (destruct Hpm as (acc & Hacc & _); by apply module_registered in Hacc).
  pose proof (module_not_reserve m Hm Hne) as Hmr.
  pose proof (frac_range info Hinfo s (GetModuleAddress m) Hwf) as Rf.
  pose proof (rem_range info Hinfo s Hwf) as Rr.
  destruct (quot_mod_split info Hinfo amt ltac:(lia)) as (Hsplit & Hq0 & Hr0).
  erewrite mintExtended_plan by done.
  set (q := Z.quot amt CF) in *. set (r := amt mod CF) in *. clearbody q r.
  set (a := GetModuleAddress m) in *. unfold mint_plan. fold a.
  pose proof (add_frac_range _ _ Rf Hr0) as Rx. pose proof (sub_frac_range _ _ Rr Hr0) as Ry.
  pose proof (map_sum_one (ps_frac s) a (frac_nonneg info s Hwf)) as Hone.
  fold (frac_of s a) in Hone.
  pose proof (reserve_covers s (frac_of s a + rem_of s) Hsol) as Hcov.
  assert (r ≤ rem_of s → CF ≤ frac_of s a + r → 1 ≤ ibal info s reserve) as Hres
    by (intros; apply Hcov; lia). clear Hcov.
  rewrite <-Z.ltb_ge, <-Z.leb_le in Hres.
  set (carry := CF <=? frac_of s a + r) in *. set (short := rem_of s <? r) in *.
  set (n := q + Z.b2z (carry && short)).
  assert (0 < n ∨ (0 <? n) = false) as Hn by (destruct (Z.ltb_spec 0 n); auto).
  destruct (when_int_ok (carry && negb short) 1
    (λ cs, bank (bk_SendCoinsFromModuleToModule ModuleName m cs)) s) as [s1 E1]; [left; lia| |].
  { intros _ [Hc Hs%negb_true_iff]%andb_true_iff. specialize (Hres Hs Hc).
    rewrite bk_send_module_to_module by done. fold reserve a.
    apply send_int_ok; [lia|rewrite ispend_spec; lia|unfold room in *; lia]. }
  erewrite bind_Ok by exact E1.
  eapply (when_int_step info Hinfo _ _ _ (λ b, point a 1 b - point reserve 1 b) 0) in E1
    as [Hb1 Hl1 Hs1 _ _ _]; [|left; lia|intros Hn' ??? Hs; by eapply module_int_step].
  destruct (when_int_ok (0 <? n) n (λ cs, bank (bk_MintCoins m cs)) s1) as [s2 E2]; [done| |].
  { intros Hn' _. apply mint_int_ok; try done.
    - unfold room in *. fold a. rewrite Hb1. unfold point. subst n.
      destruct carry, short; cbn [andb negb Z.b2z] in *; repeat case_decide; try congruence; lia.
    - rewrite Hs1. subst n. destruct carry, short; cbn [andb negb Z.b2z] in *; lia. }
  erewrite bind_Ok by exact E2.
  eapply (when_int_step info Hinfo _ _ _ (point a n) n) in E2
    as [Hb2 Hl2 Hs2 _ _ _]; [|done|intros Hn' ??? Hs; by eapply mint_int_step].
  erewrite bind_Ok by (by apply setFrac_run). set (s2' := set_frac _ s2).
  destruct (when_int_ok (short && negb carry) 1
    (λ cs, on_error (bank (bk_MintCoins ModuleName cs))
             (λ e, ret (mkError (err_code e) "failed to mint for reserve" []))) s2')
    as [s3 E3]; [left; lia| |].
  { intros _ [Hs Hc%negb_true_iff]%andb_true_iff.
    destruct (mint_int_ok ModuleName 1 s2') as [s' Hs'];
      [lia|done| | |exists s'; by apply on_error_Ok].
    - unfold room in *. fold reserve. change (ibal info s2' reserve) with (ibal info s2 reserve).
      rewrite Hb2, Hb1, Hc. unfold point. subst n. rewrite Hc. cbn [andb negb Z.b2z].
      destruct (0 <? q + 0); repeat case_decide; try congruence; lia.
    - change (isupply info s2') with (isupply info s2). rewrite Hs2, Hs1, Hc. subst n. rewrite Hc.
      cbn [andb Z.b2z]. destruct (0 <? q + 0); lia. }
  erewrite bind_Ok by exact E3. erewrite bind_Ok by (by apply setRem_run).
  eexists. by apply (emit_run info).
Qed.
End live.
