(* ===== verification/PreciseBankGenesis.v ===== *)
(** Genesis of x/precisebank: validation of a genesis state
    (types/genesis.go, fractional_balances.go), its import and export
    (genesis.go). *)

From S2P Require Import Prelude.
From S2P Require Import Sdk.
From S2P Require Import EvmDenom.
From S2P Require Import PreciseBank.
From S2P Require Import PreciseBankInv.

(** [strings.ToLower] on ASCII text, the only text bech32 accepts. *)
Definition lower_char (c : Ascii.ascii) : Ascii.ascii :=
  let n := Ascii.nat_of_ascii c in
  if (65 <=? Z.of_nat n) && (Z.of_nat n <=? 90) then Ascii.ascii_of_nat (n + 32) else c.

Fixpoint ToLower (s : string) : string :=
  match s with
  | EmptyString => EmptyString
  | String c r => String (lower_char c) (ToLower r)
  end.

(** The bech32 codec of the SDK. *)
Class AddrCodec : Type := {
  AccAddressFromBech32 : string → outcome addr;
  AccAddress_String : addr → string
}.

(** Bech32 text decodes to a non-empty address; an address has one encoding up
    to case, of which [String] prints the lower-case one, and that decodes. *)
Class AddrCodecLaws `{AddrCodec} : Prop := {
  bech32_nonempty x a : AccAddressFromBech32 x = Ok a → a ≠ EmptyString;
  bech32_canonical x a : AccAddressFromBech32 x = Ok a → AccAddress_String a = ToLower x;
  bech32_roundtrip x a :
    AccAddressFromBech32 x = Ok a → AccAddressFromBech32 (AccAddress_String a) = Ok a;
  bech32_lower a : ToLower (AccAddress_String a) = AccAddress_String a
}.

(** A nil [Int] field is [None]. *)
Record FractionalBalance : Type := mkFractionalBalance {
  fb_Address : string;
  fb_Amount : option Z
}.

Definition NewFractionalBalance (address : string) (amount : Z) : FractionalBalance :=
  mkFractionalBalance address (Some amount).

Record GenesisState : Type := mkGenesisState {
  gs_Balances : list FractionalBalance;
  gs_Remainder : option Z
}.

Definition NewGenesisState (balances : list FractionalBalance) (remainder : Z) : GenesisState :=
  mkGenesisState balances (Some remainder).

Definition DefaultGenesisState : GenesisState := NewGenesisState [] 0.

Section genesis.
Context `{SdkTypes, AccountKeeper, AddrCodec} {B : Type} `{!BankKeeper B} (info : EvmCoinInfo).

Definition nil_deref {S A} : M S A := panic "nil pointer dereference".

Definition FractionalBalance_Validate (fb : FractionalBalance) : option error :=
  match AccAddressFromBech32 (fb_Address fb) with
  | Ok _ => ValidateFractionalAmount info (fb_Amount fb)
  | Err e => Some e
  | Panic w => Some (errorf ErrOther w)
  end.

Fixpoint validate_balances {S} (fbs : list FractionalBalance) (seenAddresses : gset string)
    : M S unit :=
  match fbs with
  | [] => ret tt
  | fb :: r =>
      match FractionalBalance_Validate fb with
      | Some e => throw (errorf (err_code e) "invalid fractional balance")
      | None =>
          let lowerAddr := ToLower (fb_Address fb) in
          if bool_decide (lowerAddr ∈ seenAddresses)
          then throw (errorf ErrOther "duplicate address")
          else validate_balances r ({[lowerAddr]} ∪ seenAddresses)
      end
  end.

Definition FractionalBalances_Validate {S} (fbs : list FractionalBalance) : M S unit :=
  validate_balances fbs ∅.

Fixpoint sum_amounts {S} (fbs : list FractionalBalance) (sum : Z) : M S Z :=
  match fbs with
  | [] => ret sum
  | fb :: r =>
      match fb_Amount fb with
      | None => nil_deref
      | Some v => let! sum' := iadd sum v in sum_amounts r sum'
      end
  end.

Definition SumAmount {S} (fbs : list FractionalBalance) : M S Z := sum_amounts fbs 0.

Definition GenesisState_Validate {S} (gs : GenesisState) : M S unit :=
  on_error (FractionalBalances_Validate (gs_Balances gs))
    (λ e, ret (errorf (err_code e) "invalid balances")) >>!
  match gs_Remainder gs with
  | None => throw (errorf ErrOther "nil remainder amount")
  | Some remainder =>
      if remainder <? 0 then throw (errorf ErrOther "negative remainder amount")
      else if remainder >=? ConversionFactor info
      then throw (errorf ErrOther "remainder exceeds max")
      else
        let! sum := SumAmount (gs_Balances gs) in
        let! sumWithRemainder := iadd sum remainder in
        let! offBy := imod sumWithRemainder (ConversionFactor info) in
        if negb (offBy =? 0)
        then throw (errorf ErrOther "sum of fractional balances + remainder is not a multiple")
        else ret tt
  end.

Definition TotalAmountWithRemainder {S} (gs : GenesisState) : M S Z :=
  let! sum := SumAmount (gs_Balances gs) in
  match gs_Remainder gs with
  | None => nil_deref
  | Some remainder => iadd sum remainder
  end.

(** [sdk.MustAccAddressFromBech32]. *)
Definition MustAccAddressFromBech32 {S} (x : string) : M S addr :=
  must (of_outcome (AccAddressFromBech32 x)) "invalid bech32 address".

Definition InitGenesis (gs : GenesisState) : M (PState B) unit :=
  must (GenesisState_Validate gs) "failed to validate genesis state" >>!
  (if bool_decide (GetModuleAccount ModuleName = None)
   then panic "module account has not been set" else ret tt) >>!
  let! totalAmt := TotalAmountWithRemainder gs in
  let! moduleBal := gets (λ s, bk_GetBalance (ps_bank s) reserve (IntegerCoinDenom info)) in
  let! moduleBalExtended := imul moduleBal (ConversionFactor info) in
  (if negb (totalAmt =? moduleBalExtended)
   then
     if (match gs_Balances gs with [] => true | _ => false end)
        && bool_decide (gs_Remainder gs = Some 0)
     then let! _ := iquo totalAmt (ConversionFactor info) in ret tt
     else panic "module account balance does not match"
   else ret tt) >>!
  for_each (gs_Balances gs) (λ bal,
    let! a := MustAccAddressFromBech32 (fb_Address bal) in
    match fb_Amount bal with
    | None => nil_deref
    | Some amount => SetFractionalBalance info a amount
    end) >>!
  match gs_Remainder gs with
  | None => nil_deref
  | Some remainder => SetRemainderAmount info remainder
  end.

Definition ExportGenesis : M (PState B) GenesisState :=
  let! balances := IterateFractionalBalances
    (λ a amount balances, ret (balances ++ [NewFractionalBalance (AccAddress_String a) amount], false)) [] in
  let! remainder := GetRemainderAmount in
  ret (NewGenesisState balances remainder).
End genesis.

(** * Facts *)

Section facts.
Context `{SdkTypesLaws, AccountKeeperLaws, AddrCodecLaws}.
Context {B : Type} `{!BankKeeper B, !BankKeeperLaws B}.
Context (info : EvmCoinInfo) (Hinfo : valid_coin_info info).

Abbreviation CF := (ConversionFactor info).
Implicit Types (s : PState B) (fbs : list FractionalBalance) (es : list (string * Z)).

Definition list_sum (l : list Z) : Z := foldr Z.add 0 l.

(** A genesis balance that stands for the store entry [e]. *)
Definition fb_decodes (fb : FractionalBalance) (e : string * Z) : Prop :=
  AccAddressFromBech32 (fb_Address fb) = Ok e.1 ∧ fb_Amount fb = Some e.2 ∧ 0 < e.2 < CF.

Lemma fb_validate_inv fb :
  FractionalBalance_Validate info fb = None ↔ ∃ e, fb_decodes fb e.
Proof.
  unfold FractionalBalance_Validate, fb_decodes, ValidateFractionalAmount. split.
  - destruct (AccAddressFromBech32 _) as [a| |] eqn:Ha; try done.
    destruct (fb_Amount fb) as [v|]; [|done].
    destruct (Z.ltb_spec 0 v); [|done]. cbn [negb].
    destruct (Z.geb_spec v CF); [done|]. intros _. exists (a, v). cbn. split_and!; done || lia.
  - intros ([a v] & -> & -> & Hv). cbn in *.
    destruct (Z.ltb_spec 0 v); [|lia]. cbn [negb]. destruct (Z.geb_spec v CF); [lia|done].
Qed.

Lemma decodes_addr_eq fb1 fb2 e1 e2 :
  fb_decodes fb1 e1 → fb_decodes fb2 e2 →
  ToLower (fb_Address fb1) = ToLower (fb_Address fb2) ↔ e1.1 = e2.1.
Proof.
  intros (Ha1 & _ & _) (Ha2 & _ & _).
  rewrite <-(bech32_canonical _ _ Ha1), <-(bech32_canonical _ _ Ha2).
  split; [|by intros ->]. intros Heq.
  apply bech32_roundtrip in Ha1, Ha2. rewrite Heq in Ha1. congruence.
Qed.

(** Validation accepts exactly the lists that decode to entries with distinct
    addresses. *)
Lemma validate_balances_iff {S} fbs (seen : gset string) (st : S) :
  validate_balances info fbs seen st = (st, Ok tt) ↔
  (∃ es, Forall2 fb_decodes fbs es) ∧ NoDup (ToLower ∘ fb_Address <$> fbs) ∧
  ∀ x, x ∈ (ToLower ∘ fb_Address <$> fbs) → x ∉ seen.
Proof.
  revert seen. induction fbs as [|fb r IH]; intros seen; cbn.
  { split; [|done]. intros _. split_and!; [by exists []|constructor|set_solver]. }
  destruct (FractionalBalance_Validate info fb) as [e|] eqn:Hfb.
  { split; [done|]. intros [[es Hes] _]. apply Forall2_cons_inv_l in Hes as (e1 & ? & ? & _).
    assert (FractionalBalance_Validate info fb = None) by (apply fb_validate_inv; eauto). congruence. }
  apply fb_validate_inv in Hfb as [e1 He1].
  case_bool_decide as Hseen.
  { split; [done|]. intros (_ & _ & Hx). exfalso. eapply Hx, Hseen. set_solver. }
  rewrite IH, NoDup_cons. split.
  - intros ([es Hes] & Hnd & Hx). split_and!; [exists (e1 :: es); by constructor| |done|].
    + intros Hin. apply Hx in Hin. set_solver.
    + set_solver.
  - intros ([es Hes] & [Hni Hnd] & Hx). split_and!; [|done|set_solver].
    apply Forall2_cons_inv_l in Hes as (? & es' & _ & Hes & _). eauto.
Qed.

Lemma decodes_nodup fbs es :
  Forall2 fb_decodes fbs es → NoDup (ToLower ∘ fb_Address <$> fbs) ↔ NoDup es.*1.
Proof.
  induction 1 as [|fb e fbs es Hfe Hr IH]; [done|]. cbn. rewrite !NoDup_cons, IH.
  enough (ToLower (fb_Address fb) ∈ (ToLower ∘ fb_Address <$> fbs) ↔ e.1 ∈ es.*1) as ->; [done|].
  clear IH. induction Hr as [|fb' e' fbs es Hfe' Hr IH]; cbn; [set_solver|].
  rewrite !elem_of_cons, IH. by rewrite (decodes_addr_eq _ _ _ _ Hfe Hfe').
Qed.

Lemma sum_amounts_run {S} fbs es acc (st : S) :
  Forall2 fb_decodes fbs es → 0 ≤ acc → acc + list_sum es.*2 < u256_max →
  sum_amounts fbs acc st = (st, Ok (acc + list_sum es.*2)).
Proof.
  intros Hes. revert acc. induction Hes as [|fb e fbs es (_ & Hv & Hpos) Hr IH]; intros acc; cbn.
  { intros. unfold ret. do 2 f_equal. lia. }
  intros Ha Hlt. rewrite Hv.
  assert (0 ≤ list_sum es.*2).
  { clear IH Hlt. induction Hr as [|??? ? (_ & _ & ?) _ IH]; cbn; [done|]. unfold list_sum in *. lia. }
  unfold list_sum in *. erewrite bind_Ok by (apply iadd_run; lia).
  rewrite IH by lia. do 2 f_equal. lia.
Qed.

Lemma sum_amounts_inv {S} fbs es acc (st st' : S) z :
  Forall2 fb_decodes fbs es →
  sum_amounts fbs acc st = (st', Ok z) → st' = st ∧ z = acc + list_sum es.*2.
Proof.
  intros Hes. revert acc. induction Hes as [|fb e fbs es (_ & Hv & _) _ IH]; intros acc; cbn.
  - unfold ret. intros [= -> ->]. split; [done|lia].
  - rewrite Hv. intros (s1 & z' & [-> ->]%ichk_inv & E)%bind_Ok_inv.
    apply IH in E as [-> ->]. unfold list_sum. split; [done|lia].
Qed.

Lemma validate_balances_state {S} fbs (seen : gset string) (st st' : S) u :
  validate_balances info fbs seen st = (st', Ok u) → st' = st.
Proof.
  revert seen. induction fbs as [|fb r IH]; intros seen; cbn; [by intros [= ->]|].
  destruct (FractionalBalance_Validate info fb); [done|]. case_bool_decide; [done|]. apply IH.
Qed.

Definition insert_all (m : gmap string Z) es : gmap string Z :=
  foldl (λ m e, <[e.1 := e.2]> m) m es.

Lemma insert_all_union m es :
  NoDup es.*1 → insert_all m es = list_to_map es ∪ m.
Proof.
  revert m. induction es as [|[k v] es IH]; intros m; cbn; [by rewrite map_empty_union|].
  rewrite NoDup_cons. intros [Hk Hnd]. fold (insert_all (<[k:=v]> m) es).
  rewrite IH, <-insert_union_l, insert_union_r by (done || by apply not_elem_of_list_to_map_1). done.
Qed.

Lemma map_sum_list es : NoDup es.*1 → map_sum (list_to_map es) = list_sum es.*2.
Proof.
  induction es as [|[k v] es IH]; cbn; [intros; apply map_sum_empty|].
  rewrite NoDup_cons. intros [Hk Hnd].
  rewrite map_sum_insert_None, IH by (done || by apply not_elem_of_list_to_map_1). done.
Qed.

Lemma set_balances_run fbs es s :
  Forall2 fb_decodes fbs es →
  for_each fbs (λ bal,
    let! a := MustAccAddressFromBech32 (fb_Address bal) in
    match fb_Amount bal with
    | None => nil_deref
    | Some amount => SetFractionalBalance info a amount
    end) s = (set_frac (insert_all (ps_frac s) es) s, Ok tt).
Proof.
  intros Hes. revert s. induction Hes as [|fb e fbs es (Ha & Hv & Hpos) Hr IH]; intros s; cbn.
  { by destruct s. }
  rewrite (bind_Ok _ _ s (set_frac (<[e.1 := e.2]> (ps_frac s)) s) tt); [by rewrite IH|].
  unfold MustAccAddressFromBech32.
  erewrite bind_Ok by (apply must_Ok; unfold of_outcome; by rewrite Ha). rewrite Hv.
  rewrite setFrac_run by (try lia; by eapply bech32_nonempty).
  unfold upd_frac. by destruct (Z.eqb_spec e.2 0); [lia|].
Qed.

(** ** Import *)

Lemma genesis_validate_inv {S} gs (st st' : S) u :
  GenesisState_Validate info gs st = (st', Ok u) →
  ∃ es r, Forall2 fb_decodes (gs_Balances gs) es ∧ NoDup es.*1 ∧ gs_Remainder gs = Some r ∧
    0 ≤ r < CF ∧ (list_sum es.*2 + r) mod CF = 0 ∧ st' = st.
Proof.
  intros E. unfold GenesisState_Validate in E.
  apply bind_Ok_inv in E as (s1 & [] & E1%on_error_Ok_inv & E).
  pose proof (validate_balances_state _ _ _ _ _ E1) as ->.
  apply validate_balances_iff in E1 as ([es Hes] & Hnd & _).
  destruct (gs_Remainder gs) as [r|] eqn:Hr; [|done].
  destruct (Z.ltb_spec r 0); [done|]. destruct (Z.geb_spec r CF); [done|].
  apply bind_Ok_inv in E as (s2 & sum & E2 & E). apply bind_Ok_inv in E as (s3 & sr & E3 & E).
  apply bind_Ok_inv in E as (s4 & off & E4 & E).
  apply ichk_inv in E3 as [-> ->]. apply imod_inv in E4 as [-> ->].
  destruct (Z.eqb_spec ((sum + r) mod CF) 0) as [Hz|]; [|done].
  cbn [negb] in E. unfold ret in E. simplify_eq.
  assert (st' = st ∧ sum = list_sum es.*2) as [-> ->].
  { eapply (sum_amounts_inv _ _ 0) in E2; [|exact Hes]. destruct E2 as [-> ->]. split; [done|lia]. }
  exists es, r. split_and!; try done; try lia. by apply (decodes_nodup _ _ Hes).
Qed.

(** What an accepted genesis leaves, in an empty module store. *)
Lemma init_genesis_inv gs s s' u :
  ps_frac s = ∅ →
  InitGenesis info gs s = (s', Ok u) →
  ∃ es r, Forall2 fb_decodes (gs_Balances gs) es ∧ NoDup es.*1 ∧ gs_Remainder gs = Some r ∧
    0 ≤ r < CF ∧ (list_sum es.*2 + r) mod CF = 0 ∧
    (list_sum es.*2 + r = ibal info s reserve * CF ∨ (es = [] ∧ r = 0)) ∧
    GetModuleAccount ModuleName ≠ None ∧
    s' = mkPState (ps_bank s) (list_to_map es) (upd_rem r) (ps_events s).
Proof.
  intros Hemp E. unfold InitGenesis in E.
  apply bind_Ok_inv in E as (s1 & [] & E1%must_Ok_inv & E).
  apply genesis_validate_inv in E1 as (es & r & Hes & Hnd & Hr & Hrb & Hz & ->).
  apply bind_Ok_inv in E as (s2 & [] & E2 & E).
  destruct (bool_decide (GetModuleAccount ModuleName = None)) eqn:Hacc in E2; [done|].
  apply bool_decide_eq_false in Hacc. unfold ret in E2. simplify_eq.
  apply bind_Ok_inv in E as (s3 & tot & E3 & E). unfold TotalAmountWithRemainder in E3.
  apply bind_Ok_inv in E3 as (s4 & sum & E4 & E3). eapply sum_amounts_inv in E4; [|exact Hes].
  destruct E4 as [-> ->]. rewrite Hr in E3, E. apply ichk_inv in E3 as [-> ->].
  rewrite (bind_Ok (gets _) _ s2 s2 _ eq_refl) in E.
  apply bind_Ok_inv in E as (s5 & mb & [-> ->]%ichk_inv & E).
  apply bind_Ok_inv in E as (s6 & [] & E5 & E).
  assert (s6 = s2 ∧ (list_sum es.*2 + r = ibal info s2 reserve * CF ∨ (es = [] ∧ r = 0))) as [-> Hbal].
  { fold (ibal info s2 reserve) in E5.
    destruct (Z.eqb_spec (0 + list_sum es.*2 + r) (ibal info s2 reserve * CF)) as [Heq|Heq];
      cbn [negb] in E5.
    - unfold ret in E5. simplify_eq. split; [done|left; lia].
    - destruct (gs_Balances gs); [|done]. case_bool_decide; simplify_eq.
      apply Forall2_nil_inv_l in Hes as ->. cbn [andb] in E5.
      apply bind_Ok_inv in E5 as (s7 & ? & [-> _]%iquo_inv & E5). unfold ret in E5.
      simplify_eq. auto. }
  erewrite bind_Ok in E by (by apply set_balances_run). rewrite Hemp, setRem_run in E by done.
  simplify_eq. exists es, r. split_and!; try done; try lia.
  unfold set_rem, set_frac. cbn. by rewrite insert_all_union, map_union_empty by done.
Qed.

Lemma genesis_accepts gs es r s :
  Forall2 fb_decodes (gs_Balances gs) es → NoDup es.*1 → gs_Remainder gs = Some r →
  0 ≤ r < CF → (list_sum es.*2 + r) mod CF = 0 → list_sum es.*2 + r < u256_max →
  SumAmount (gs_Balances gs) s = (s, Ok (list_sum es.*2)) →
  GenesisState_Validate info gs s = (s, Ok tt).
Proof.
  intros Hes Hnd Hr Hrb Hz Hlt Hsum. pose proof (CF_bounds info Hinfo).
  assert (0 ≤ list_sum es.*2) as Hpos.
  { clear -Hes. induction Hes as [|??? ? (_ & _ & ?) _ IH]; cbn; [done|]. unfold list_sum in *. lia. }
  unfold GenesisState_Validate. erewrite bind_Ok.
  2:{ apply on_error_Ok, validate_balances_iff. split_and!; [eauto| |set_solver].
      by apply (decodes_nodup _ _ Hes). }
  rewrite Hr. destruct (Z.ltb_spec r 0); [lia|]. destruct (Z.geb_spec r CF); [lia|].
  erewrite bind_Ok by exact Hsum. erewrite bind_Ok by (apply iadd_run; lia).
  erewrite bind_Ok by (apply imod_run; lia). by rewrite Hz.
Qed.

Lemma init_genesis_run gs es r s :
  ps_frac s = ∅ → GetModuleAccount ModuleName ≠ None →
  Forall2 fb_decodes (gs_Balances gs) es → NoDup es.*1 → gs_Remainder gs = Some r →
  0 ≤ r < CF → (list_sum es.*2 + r) mod CF = 0 →
  list_sum es.*2 + r = ibal info s reserve * CF → list_sum es.*2 + r < u256_max →
  InitGenesis info gs s
    = (mkPState (ps_bank s) (list_to_map es) (upd_rem r) (ps_events s), Ok tt).
Proof.
  intros Hemp Hacc Hes Hnd Hr Hrb Hz Hbal Hlt. pose proof (bk_balance_nonneg (ps_bank s) reserve (IntegerCoinDenom info)).
  pose proof (CF_bounds info Hinfo).
  assert (SumAmount (gs_Balances gs) s = (s, Ok (list_sum es.*2))) as Hsum
    by (unfold SumAmount; rewrite (sum_amounts_run _ _ 0 _ Hes); [|lia..]; do 2 f_equal; lia).
  unfold InitGenesis. erewrite bind_Ok by (apply must_Ok; by eapply genesis_accepts).
  rewrite bool_decide_eq_false_2 by done. rewrite bind_ret.
  assert (Z.abs (list_sum es.*2 + r) < u256_max) as Habs by (unfold ibal in Hbal; nia).
  erewrite bind_Ok.
  2:{ unfold TotalAmountWithRemainder. erewrite bind_Ok by exact Hsum. rewrite Hr.
      by apply iadd_run. }
  rewrite (bind_Ok (gets _) _ s s _ eq_refl). fold (ibal info s reserve).
  unfold imul. erewrite bind_Ok by (apply ichk_run; by rewrite <-Hbal).
  rewrite (proj2 (Z.eqb_eq _ _)) by lia. cbn [negb]. rewrite bind_ret.
  erewrite bind_Ok by (by apply set_balances_run). rewrite Hr, setRem_run by done.
  unfold set_rem, set_frac. cbn. by rewrite Hemp, insert_all_union, map_union_empty by done.
Qed.

(** ** Export *)

Lemma entries_perm s : fractional_entries s ≡ₚ map_to_list (ps_frac s).
Proof. apply merge_sort_Permutation. Qed.

Lemma entries_nodup s : NoDup (fractional_entries s).*1.
Proof. rewrite entries_perm. apply NoDup_fst_map_to_list. Qed.

Lemma entries_map s : list_to_map (fractional_entries s) = ps_frac s.
Proof.
  rewrite (list_to_map_proper _ _ (entries_nodup s) (entries_perm s)).
  apply list_to_map_to_list.
Qed.

Definition export_entry (e : string * Z) : FractionalBalance :=
  NewFractionalBalance (AccAddress_String e.1) e.2.

Lemma export_iterate es acc s :
  iterate es (λ a amount balances,
    ret (balances ++ [NewFractionalBalance (AccAddress_String a) amount], false)) acc s
  = (s, Ok (acc ++ map export_entry es)).
Proof.
  revert acc. induction es as [|[a v] es IH]; intros acc; cbn [iterate map].
  - by rewrite app_nil_r.
  - rewrite bind_ret. cbn beta iota. rewrite IH, <-app_assoc. done.
Qed.

Lemma export_run s :
  ExportGenesis s = (s, Ok (NewGenesisState (map export_entry (fractional_entries s)) (rem_of s))).
Proof.
  unfold ExportGenesis. erewrite bind_Ok.
  2:{ unfold IterateFractionalBalances. rewrite (bind_Ok (gets _) _ s s _ eq_refl).
      apply export_iterate. }
  done.
Qed.

(** Every stored address has a bech32 form. *)
Definition encodable s : Prop :=
  ∀ a v, ps_frac s !! a = Some v → AccAddressFromBech32 (AccAddress_String a) = Ok a.

Lemma export_decodes s :
  pb_wf info s → encodable s →
  Forall2 fb_decodes (map export_entry (fractional_entries s)) (fractional_entries s).
Proof.
  intros Hwf Henc. apply Forall2_fmap_l, Forall_Forall2_diag, Forall_forall.
  intros [a v] Hin. rewrite entries_perm in Hin. apply elem_of_map_to_list in Hin.
  split_and!; cbn; [by eapply Henc|done|..]; apply (wf_frac _ _ Hwf) in Hin as [? _]; lia.
Qed.

Lemma sum_iterate es acc s :
  Forall (λ e, 0 < e.2) es → 0 ≤ acc → acc + list_sum es.*2 < u256_max →
  iterate es (λ _ amount sum, let! sum' := iadd sum amount in ret (sum', false)) acc s
  = (s, Ok (acc + list_sum es.*2)).
Proof.
  intros Hpos. revert acc. induction Hpos as [|[a v] es Hv Hes IH]; intros acc Hacc Hlt.
  - cbn. unfold ret. do 2 f_equal. lia.
  - cbn [iterate fmap list_fmap list_sum foldr snd] in *.
    assert (0 ≤ list_sum es.*2)
      by (clear -Hes; induction Hes; cbn; [done|]; unfold list_sum in *; lia).
    rewrite bind_assoc. unfold list_sum in *. erewrite bind_Ok by (apply iadd_run; lia).
    rewrite bind_ret. cbn beta iota. rewrite IH by lia. do 2 f_equal. lia.
Qed.

Lemma total_sum_run s :
  pb_wf info s → map_sum (ps_frac s) < u256_max →
  GetTotalSumFractionalBalances s = (s, Ok (map_sum (ps_frac s))).
Proof.
  intros Hwf Hlt. unfold GetTotalSumFractionalBalances, IterateFractionalBalances.
  rewrite (bind_Ok (gets _) _ s s _ eq_refl).
  assert (map_sum (ps_frac s) = list_sum (fractional_entries s).*2) as Hsum
    by (rewrite <-(entries_map s) at 1; apply map_sum_list, entries_nodup).
  rewrite Hsum in *. rewrite sum_iterate; [done| |lia|lia].
  apply Forall_forall. intros [a v] Hin. rewrite entries_perm in Hin.
  apply elem_of_map_to_list, (wf_frac _ _ Hwf) in Hin as [? _]. cbn. lia.
Qed.
End facts.
