(* ===== verification/SdkModel.v ===== *)
(** A concrete SDK: coin sets as lists, a bank as nested finite maps, four
    registered modules and a bech32 codec that folds case.  It satisfies every
    law the modules assume, and the witnesses of the theorems run on it. *)

From Stdlib Require Import Ascii.
From S2P Require Import Prelude.
From S2P Require Import Sdk.
From S2P Require Import PreciseBank.
From S2P Require Import PreciseBankGenesis.

(** * Texts *)

(** The bits of a positive number, and with them a text for every countable value. *)
Fixpoint bits_of (p : positive) : string :=
  match p with
  | xH => EmptyString
  | xO q => String "0"%char (bits_of q)
  | xI q => String "1"%char (bits_of q)
  end.
Fixpoint of_bits (s : string) : positive :=
  match s with
  | EmptyString => xH
  | String c r => if decide (c = "0"%char) then xO (of_bits r) else xI (of_bits r)
  end.

Lemma of_bits_of p : of_bits (bits_of p) = p.
Proof. induction p as [p IH|p IH|]; cbn; [|..|done]; by rewrite IH. Qed.

Definition print {A} `{Countable A} (x : A) : string := bits_of (encode x).
Definition parse {A} `{Countable A} (t : string) : option A := decode (of_bits t).

Lemma parse_print {A} `{Countable A} (x : A) : parse (print x) = Some x.
Proof. unfold parse, print. by rewrite of_bits_of, decode_encode. Qed.

(** * Coins *)

Definition m_amount_of (cs : list Coin) (d : string) : Z :=
  foldr (λ c acc, (if decide (Denom c = d) then Amount c else 0) + acc) 0 cs.

Definition m_coins_ok (cs : list Coin) : bool :=
  bool_decide (NoDup (Denom <$> cs))
  && forallb (λ c, negb (bool_decide (Denom c = EmptyString)) && (0 <? Amount c)) cs.

#[global] Instance m_sdk : SdkTypes := {
  int_ok z := Z.abs z <? u256_max;
  valid_denom d := negb (bool_decide (d = EmptyString));
  NewCoin d n :=
    if negb (bool_decide (d = EmptyString)) && (0 <=? n) then Ok (mkCoin d n)
    else Panic "invalid coin";
  NewCoins cs := filter (λ c, Amount c ≠ 0) cs;
  Coins_IsValid := m_coins_ok;
  Coins_IsAllPositive cs := match cs with [] => false | _ => forallb (λ c, 0 <? Amount c) cs end;
  Coins_Empty cs := match cs with [] => true | _ => false end;
  Coins_AmountOf := m_amount_of;
  Coins_Sub cs c :=
    let rest := m_amount_of cs (Denom c) - Amount c in
    if rest <? 0 then Panic "negative coin amount"
    else Ok (filter (λ x, Denom x ≠ Denom c) cs
             ++ (if rest =? 0 then [] else [mkCoin (Denom c) rest]))
}.

Lemma m_amount_cons c cs d :
  m_amount_of (c :: cs) d = (if decide (Denom c = d) then Amount c else 0) + m_amount_of cs d.
Proof. done. Qed.

Lemma m_coins_cons c cs :
  m_coins_ok (c :: cs) = true ↔
  (Denom c ∉ Denom <$> cs) ∧ Denom c ≠ EmptyString ∧ 0 < Amount c ∧ m_coins_ok cs = true.
Proof.
  unfold m_coins_ok. rewrite !andb_true_iff, !bool_decide_eq_true. cbn.
  rewrite NoDup_cons, !andb_true_iff, negb_true_iff, bool_decide_eq_false, Z.ltb_lt. naive_solver.
Qed.

Lemma m_amount_absent cs d : d ∉ (Denom <$> cs) → m_amount_of cs d = 0.
Proof.
  induction cs as [|c cs IH]; [done|]. rewrite fmap_cons, not_elem_of_cons, m_amount_cons.
  intros [Hd ?%IH]. rewrite decide_False by done. lia.
Qed.

Lemma m_amount_nonneg cs d : m_coins_ok cs = true → 0 ≤ m_amount_of cs d.
Proof.
  induction cs as [|c cs IH]; [done|]. rewrite m_coins_cons. intros (_ & _ & ? & ?%IH).
  rewrite m_amount_cons. case_decide; lia.
Qed.

Lemma m_filter_ok cs d :
  m_coins_ok cs = true → m_coins_ok (filter (λ x, Denom x ≠ d) cs) = true.
Proof.
  induction cs as [|c cs IH]; [done|]. rewrite m_coins_cons. intros (Hni & ? & ? & Hok).
  rewrite filter_cons. case_decide; [|auto]. apply m_coins_cons. split_and!; auto.
  intros (x & Heq & Hx)%list_elem_of_fmap. apply Hni. rewrite Heq. apply list_elem_of_filter in Hx as [_ Hx].
  by apply list_elem_of_fmap_2.
Qed.

Lemma m_filter_amount cs d e :
  m_amount_of (filter (λ x, Denom x ≠ d) cs) e = if decide (e = d) then 0 else m_amount_of cs e.
Proof.
  induction cs as [|c cs IH]; [cbn; by case_decide|].
  destruct (decide (Denom c = d)) as [Hc|Hc].
  - rewrite filter_cons_False, IH, m_amount_cons by (by intros []).
    repeat case_decide; simplify_eq; congruence || lia.
  - rewrite filter_cons_True, !m_amount_cons, IH by done.
    repeat case_decide; simplify_eq; congruence || lia.
Qed.

Lemma m_new_coins d n : n ≠ 0 → NewCoins [mkCoin d n] = [mkCoin d n].
Proof. intros. cbn. by rewrite decide_True by done. Qed.

#[global] Instance m_sdk_laws : SdkTypesLaws.
Proof.
  split.
  - intros. apply Z.ltb_lt.
  - intros d n Hd ?. cbn in *. by rewrite Hd, (proj2 (Z.leb_le 0 n)).
  - intros d n _ Hn. apply m_new_coins. lia.
  - intros d n Hd%negb_true_iff Hn. rewrite m_new_coins by lia. apply m_coins_cons. cbn.
    case_bool_decide; [done|]. split_and!; done || set_solver.
  - intros d n e Hd Hn. rewrite m_new_coins by lia. cbn. repeat case_decide; simplify_eq; lia.
  - done.
  - intros. by apply m_amount_nonneg.
  - intros cs d Hok Hpos. cbn in Hok, Hpos. induction cs as [|c cs IH]; [done|].
    apply m_coins_cons in Hok as (_ & Hne & _ & Hok). rewrite m_amount_cons in Hpos. case_decide; [|auto].
    subst. cbn. by rewrite bool_decide_eq_false_2.
  - intros cs d Hok Hpos. cbn in *. rewrite Z.sub_diag. cbn. rewrite app_nil_r. eexists. split_and!; [done| |].
    + by apply m_filter_ok.
    + intros e. apply m_filter_amount.
  - by intros [|??] d.
  - intros [|c cs] Hok Hz; [done|]. specialize (Hz (Denom c)). cbn [Coins_AmountOf Coins_IsValid m_sdk] in *.
    apply m_coins_cons in Hok as (_ & _ & ? & Hok). pose proof (m_amount_nonneg cs (Denom c) Hok).
    rewrite m_amount_cons, decide_True in Hz by done. lia.
  - intros [|c cs]; [done|]. cbn [Coins_IsValid m_sdk]. rewrite m_coins_cons. intros (_ & _ & Hc & Hok).
    cbn. rewrite (proj2 (Z.ltb_lt _ _) Hc). cbn.
    unfold m_coins_ok in Hok. apply andb_true_iff in Hok as [_ Hok].
    rewrite forallb_forall in Hok |- *. intros x Hx.
    by apply Hok, andb_true_iff in Hx as [_ ?].
Qed.

(** * Accounts *)

Definition m_perms : list (string * list string) :=
  [("precisebank", [Minter; Burner]); ("evm", [Minter; Burner]);
   ("erc20", [Minter; Burner]); ("fee_collector", [])].

Definition m_module_address (m : string) : string :=
  if decide (m ∈ m_perms.*1) then "module/" +:+ m else EmptyString.

#[global] Instance m_accounts : AccountKeeper := {
  GetModuleAddress := m_module_address;
  GetModuleAccount m :=
    match (list_to_map m_perms : gmap string (list string)) !! m with
    | Some ps => Some (mkModuleAccount (m_module_address m) ps)
    | None => None
    end;
  StringToBytes x := if decide (x = EmptyString) then Err (errorf ErrOther "empty address") else Ok x
}.

Lemma m_module_registered m : m ∈ m_perms.*1 → m_module_address m = "module/" +:+ m.
Proof. intros. unfold m_module_address. by rewrite decide_True. Qed.

#[global] Instance m_accounts_laws : AccountKeeperLaws.
Proof.
  split; unfold GetModuleAccount, GetModuleAddress, m_accounts.
  - intros m acc. destruct (_ !! m) as [ps|] eqn:E; [|done]. intros [= <-]. cbn [ma_address].
    apply elem_of_list_to_map_2, (list_elem_of_fmap_2 fst) in E.
    split; [done|]. rewrite m_module_registered by done. discriminate.
  - intros m. destruct (_ !! m) as [ps|] eqn:E; [done|]. intros _.
    apply not_elem_of_list_to_map_2 in E. unfold m_module_address. by rewrite decide_False.
  - intros m1 m2. unfold m_module_address. repeat case_decide; try done. by intros [=].
Qed.

(** * The bank *)

(** Balances by denomination and account. *)
Abbreviation m_bank := (gmap string (gmap string Z)) (only parsing).

Definition clamp (z : Z) : Z := if (0 <=? z) && (z <? u256_max) then z else 0.

Definition m_bal (b : m_bank) (a d : string) : Z :=
  default 0 (clamp <$> (default ∅ (b !! d) !! a)).
Definition m_supply (b : m_bank) (d : string) : Z := map_sum (clamp <$> default ∅ (b !! d)).
Definition m_set (b : m_bank) (a d : string) (v : Z) : m_bank :=
  <[d := <[a := v]> (default ∅ (b !! d))]> b.
(** [lk] gives the coins a vesting schedule locks. *)
Definition m_spendable (lk : string → Z) (b : m_bank) (a d : string) : Z :=
  Z.max 0 (m_bal b a d - lk a).

Definition m_add (a : string) (sign : Z) (c : Coin) (b : m_bank) : m_bank :=
  m_set b a (Denom c) (m_bal b a (Denom c) + sign * Amount c).

Definition m_apply (a : string) (sign : Z) (cs : list Coin) (b : m_bank) : m_bank :=
  foldr (m_add a sign) b cs.

Definition m_send (lk : string → Z) (src dst : string) (cs : list Coin) : M m_bank unit := λ b,
  if negb (forallb (λ c, Amount c <=? m_spendable lk b src (Denom c)) cs)
  then (b, Err (errorf ErrInsufficientFunds "spendable balance is smaller than"))
  else if negb (forallb (λ c, m_bal b dst (Denom c) + Amount c <? u256_max) cs)
  then (b, Panic "Int overflow")
  else (m_apply dst 1 cs (m_apply src (-1) cs b), Ok tt).

Definition m_perm (m p : string) : bool :=
  bool_decide (p ∈ default [] ((list_to_map m_perms : gmap string (list string)) !! m)).

Definition m_mint (m : string) (cs : list Coin) : M m_bank unit := λ b,
  if negb (m_perm m Minter) then (b, Panic "no permission to mint")
  else if negb (forallb (λ c, (m_bal b (m_module_address m) (Denom c) + Amount c <? u256_max)
                              && (m_supply b (Denom c) + Amount c <? u256_max)) cs)
  then (b, Panic "Int overflow")
  else (m_apply (m_module_address m) 1 cs b, Ok tt).

Definition m_burn (lk : string → Z) (m : string) (cs : list Coin) : M m_bank unit := λ b,
  if negb (m_perm m Burner) then (b, Panic "no permission to burn")
  else if negb (forallb (λ c, Amount c <=? m_spendable lk b (m_module_address m) (Denom c)) cs)
  then (b, Err (errorf ErrInsufficientFunds "spendable balance is smaller than"))
  else (m_apply (m_module_address m) (-1) cs b, Ok tt).

(** One account has a vesting schedule. *)
Definition m_locked (a : string) : Z := if decide (a = "vest") then 1000 else 0.

#[global] Instance m_keeper : BankKeeper m_bank := {
  bk_GetBalance := m_bal;
  bk_SpendableCoin := m_spendable m_locked;
  bk_LockedCoin _ a _ := m_locked a;
  bk_GetSupply := m_supply;
  bk_IsSendEnabledCoin _ c := negb (bool_decide (Denom c = "frozen"));
  bk_BlockedAddr a := bool_decide (a = m_module_address "precisebank");
  bk_SendCoins := m_send m_locked;
  bk_SendCoinsFromAccountToModule src m cs := m_send m_locked src (m_module_address m) cs;
  bk_SendCoinsFromModuleToModule m1 m2 cs := m_send m_locked (m_module_address m1) (m_module_address m2) cs;
  bk_MintCoins := m_mint;
  bk_BurnCoins := m_burn m_locked
}.

(** ** Laws *)

Lemma clamp_range z : 0 ≤ clamp z < u256_max.
Proof.
  unfold clamp. assert (0 < u256_max) by done.
  destruct (Z.leb_spec 0 z), (Z.ltb_spec z u256_max); cbn; lia.
Qed.

Lemma clamp_id z : 0 ≤ z < u256_max → clamp z = z.
Proof.
  intros. unfold clamp. destruct (Z.leb_spec 0 z), (Z.ltb_spec z u256_max); cbn; lia.
Qed.

Lemma m_bal_range b a d : 0 ≤ m_bal b a d < u256_max.
Proof.
  unfold m_bal. destruct (_ !! a) as [z|]; cbn; [apply clamp_range|]. by assert (0 < u256_max).
Qed.

Lemma m_bal_set b a d v a' d' :
  0 ≤ v < u256_max →
  m_bal (m_set b a d v) a' d' = if decide (a' = a ∧ d' = d) then v else m_bal b a' d'.
Proof.
  intros Hv. unfold m_bal, m_set. destruct (decide (d' = d)) as [->|Hd].
  - rewrite lookup_insert_eq. cbn. destruct (decide (a' = a)) as [->|Ha].
    + rewrite lookup_insert_eq. cbn. rewrite clamp_id by done. by rewrite decide_True.
    + rewrite lookup_insert_ne by done. by rewrite decide_False by naive_solver.
  - rewrite lookup_insert_ne by done. by rewrite decide_False by naive_solver.
Qed.

Lemma m_supply_set b a d v d' :
  0 ≤ v < u256_max →
  m_supply (m_set b a d v) d' = m_supply b d' + if decide (d' = d) then v - m_bal b a d else 0.
Proof.
  intros Hv. unfold m_supply, m_set, m_bal. case_decide; subst.
  - rewrite lookup_insert_eq. cbn. rewrite fmap_insert, map_sum_insert, lookup_fmap, clamp_id by done.
    lia.
  - rewrite lookup_insert_ne by done. lia.
Qed.

(** Applying distinct coins to one account moves each of its balances once. *)
Lemma m_apply_spec a sign cs b :
  m_coins_ok cs = true →
  (∀ c, c ∈ cs → 0 ≤ m_bal b a (Denom c) + sign * Amount c < u256_max) →
  (∀ a' d, m_bal (m_apply a sign cs b) a' d
     = m_bal b a' d + if decide (a' = a) then sign * m_amount_of cs d else 0) ∧
  (∀ d, m_supply (m_apply a sign cs b) d = m_supply b d + sign * m_amount_of cs d).
Proof.
  induction cs as [|c cs IH]; intros Hok Hr.
  { split; intros; cbn; [case_decide|]; lia. }
  apply m_coins_cons in Hok as (Hni & _ & _ & Hok).
  destruct IH as [IHb IHs]; [done|intros; apply Hr; set_solver|].
  cbn [m_apply foldr]. fold (m_apply a sign cs b). unfold m_add.
  assert (m_bal (m_apply a sign cs b) a (Denom c) = m_bal b a (Denom c)) as Hc.
  { rewrite IHb, m_amount_absent by done. case_decide; lia. }
  specialize (Hr c ltac:(set_solver)). split.
  - intros a' d. rewrite m_bal_set, Hc, IHb, m_amount_cons by lia.
    repeat case_decide; destruct_and?; simplify_eq; try lia.
    + rewrite m_amount_absent by done. lia.
    + naive_solver.
  - intros d. rewrite m_supply_set, Hc, IHs, m_amount_cons by lia. repeat case_decide; simplify_eq; lia.
Qed.

Lemma m_amount_elem cs c : m_coins_ok cs = true → c ∈ cs → m_amount_of cs (Denom c) = Amount c.
Proof.
  induction cs as [|c' cs IH]; [set_solver|]. intros (Hni & _ & _ & Hok)%m_coins_cons.
  rewrite m_amount_cons, elem_of_cons. intros [->|Hin].
  - rewrite decide_True, m_amount_absent by done. lia.
  - rewrite decide_False; [by rewrite IH|]. intros Heq. apply Hni. rewrite Heq.
    by apply list_elem_of_fmap_2.
Qed.

Lemma m_forallb (f : Coin → bool) cs : forallb f cs = true ↔ ∀ c, c ∈ cs → f c = true.
Proof. rewrite forallb_forall. by setoid_rewrite list_elem_of_In. Qed.

Lemma m_positive cs c : m_coins_ok cs = true → c ∈ cs → 0 < Amount c.
Proof.
  intros [_ Hok]%andb_true_iff Hin. rewrite m_forallb in Hok.
  by apply Hok, andb_true_iff in Hin as [_ ?%Z.ltb_lt].
Qed.

Section locks.
Context (lk : string → Z) (Hlk : ∀ a, 0 ≤ lk a).

(** The precondition of each step as facts about a balance. *)
Lemma m_send_inv src dst cs b b' :
  m_coins_ok cs = true → m_send lk src dst cs b = (b', Ok tt) →
  (∀ c, c ∈ cs → Amount c ≤ m_spendable lk b src (Denom c)) ∧
  (∀ c, c ∈ cs → m_bal b dst (Denom c) + Amount c < u256_max) ∧
  b' = m_apply dst 1 cs (m_apply src (-1) cs b).
Proof.
  intros Hok. unfold m_send.
  destruct (forallb _ cs) eqn:E1; [|done]. cbn [negb].
  destruct (forallb (λ c, _ <? _) cs) eqn:E2; [|done]. cbn [negb]. intros [= <-].
  rewrite m_forallb in E1, E2. split_and!; [|..|done]; intros c Hc.
  - by apply Z.leb_le, E1.
  - by apply Z.ltb_lt, E2.
Qed.

Lemma m_spend_bal b a d n : 0 < n → n ≤ m_spendable lk b a d → n ≤ m_bal b a d.
Proof. unfold m_spendable. intros. pose proof (Hlk a). lia. Qed.

Lemma m_sub_spec a cs b :
  m_coins_ok cs = true → (∀ c, c ∈ cs → Amount c ≤ m_spendable lk b a (Denom c)) →
  (∀ a' d, m_bal (m_apply a (-1) cs b) a' d
     = m_bal b a' d + if decide (a' = a) then -1 * m_amount_of cs d else 0) ∧
  (∀ d, m_supply (m_apply a (-1) cs b) d = m_supply b d + -1 * m_amount_of cs d).
Proof.
  intros Hok Hc. apply m_apply_spec; [done|]. intros c Hin.
  pose proof (m_positive _ _ Hok Hin). pose proof (m_bal_range b a (Denom c)).
  pose proof (m_spend_bal _ _ _ _ ltac:(eassumption) (Hc c Hin)). lia.
Qed.

Lemma m_single d n : 0 < n → NewCoins [mkCoin d n] = [mkCoin d n].
Proof. intros. apply m_new_coins. lia. Qed.

Lemma m_has_perm m p : has_perm m p → m_perm m p = true ∧ m ∈ m_perms.*1.
Proof.
  intros (acc & Hacc & Hp). unfold GetModuleAccount, m_accounts, m_perm in *.
  destruct (_ !! m) as [ps|] eqn:E; [|done]. simplify_eq. unfold HasPermission in Hp. split; [done|].
  by apply elem_of_list_to_map_2, (list_elem_of_fmap_2 fst) in E.
Qed.

Lemma m_send_effect src dst cs b b' :
  m_coins_ok cs = true → m_send lk src dst cs b = (b', Ok tt) →
  (∀ a d, m_bal b' a d = m_bal b a d + moved src dst cs a d) ∧
  (∀ d, m_supply b' d = m_supply b d).
Proof.
  intros Hok (Hsp & Hroom & ->)%m_send_inv; [|done].
  destruct (m_sub_spec src cs b Hok Hsp) as [Hb1 Hs1].
  destruct (m_apply_spec dst 1 cs (m_apply src (-1) cs b) Hok) as [Hb2 Hs2].
  { intros c Hin. pose proof (m_positive _ _ Hok Hin). specialize (Hroom c Hin).
    pose proof (m_bal_range (m_apply src (-1) cs b) dst (Denom c)) as Hr.
    rewrite Hb1 in Hr |- *. rewrite m_amount_elem in * by done. case_decide; lia. }
  split; intros.
  - rewrite Hb2, Hb1. unfold moved. cbn. repeat case_decide; lia.
  - rewrite Hs2, Hs1. lia.
Qed.

Lemma m_supply_nonneg b d : 0 ≤ m_supply b d.
Proof.
  apply map_sum_nonneg. intros a v. rewrite lookup_fmap. intros (z & _ & ->)%fmap_Some.
  apply clamp_range.
Qed.

Lemma m_mint_effect m cs b b' :
  m_coins_ok cs = true → m_mint m cs b = (b', Ok tt) →
  (∀ a d, m_bal b' a d
     = m_bal b a d + if decide (a = m_module_address m) then m_amount_of cs d else 0) ∧
  (∀ d, m_supply b' d = m_supply b d + m_amount_of cs d).
Proof.
  intros Hok. unfold m_mint. destruct (m_perm m Minter); [|done]. cbn [negb].
  destruct (forallb _ cs) eqn:E; [|done]. cbn [negb]. intros [= <-]. rewrite m_forallb in E.
  destruct (m_apply_spec (m_module_address m) 1 cs b Hok) as [Hb Hs].
  { intros c Hin. pose proof (m_positive _ _ Hok Hin).
    pose proof (m_bal_range b (m_module_address m) (Denom c)).
    apply E, andb_true_iff in Hin as [?%Z.ltb_lt _]. lia. }
  split; intros; rewrite ?Hb, ?Hs; [case_decide|]; lia.
Qed.

Lemma m_burn_effect m cs b b' :
  m_coins_ok cs = true → m_burn lk m cs b = (b', Ok tt) →
  (∀ a d, m_bal b' a d
     = m_bal b a d - if decide (a = m_module_address m) then m_amount_of cs d else 0) ∧
  (∀ d, m_supply b' d = m_supply b d - m_amount_of cs d).
Proof.
  intros Hok. unfold m_burn. destruct (m_perm m Burner); [|done]. cbn [negb].
  destruct (forallb _ cs) eqn:E; [|done]. cbn [negb]. intros [= <-]. rewrite m_forallb in E.
  destruct (m_sub_spec (m_module_address m) cs b Hok) as [Hb Hs].
  { intros c Hin. by apply Z.leb_le, E. }
  split; intros; rewrite ?Hb, ?Hs; [case_decide|]; lia.
Qed.

Lemma m_affordable cs b a :
  m_coins_ok cs = true → (∀ d, m_amount_of cs d ≤ m_spendable lk b a d) →
  forallb (λ c, Amount c <=? m_spendable lk b a (Denom c)) cs = true.
Proof.
  intros Hok Hsp. apply m_forallb. intros c Hin. apply Z.leb_le.
  rewrite <-(m_amount_elem cs c) by done. apply Hsp.
Qed.

Lemma m_int_ok z : int_ok z = true → z < u256_max.
Proof. cbn. intros ?%Z.ltb_lt. lia. Qed.

Lemma m_unaffordable b a d n :
  m_spendable lk b a d < n → forallb (λ c, Amount c <=? m_spendable lk b a (Denom c)) [mkCoin d n] = false.
Proof. intros Hn. cbn. by rewrite (proj2 (Z.leb_gt _ _) Hn). Qed.

End locks.

Lemma m_locked_nonneg a : 0 ≤ m_locked a.
Proof. unfold m_locked. by case_decide. Qed.

#[global] Instance m_keeper_laws : BankKeeperLaws m_bank.
Proof.
  split; cbn [bk_GetBalance bk_SpendableCoin bk_LockedCoin bk_GetSupply bk_SendCoins
    bk_SendCoinsFromAccountToModule bk_SendCoinsFromModuleToModule bk_MintCoins bk_BurnCoins m_keeper].
  - intros. apply m_bal_range.
  - intros b a d. cbn. pose proof (m_bal_range b a d). apply Z.ltb_lt. lia.
  - intros. apply m_locked_nonneg.
  - apply m_supply_nonneg.
  - done.
  - intros src dst cs b b' Hok E. destruct (m_send_effect m_locked m_locked_nonneg src dst cs b b' Hok E). done.
  - intros src dst cs b Hok Hsp Hroom. unfold m_send. rewrite (m_affordable m_locked cs b src Hok Hsp). cbn [negb].
    rewrite (proj2 (m_forallb _ cs)); [by eexists|]. intros c Hin. apply Z.ltb_lt.
    rewrite <-(m_amount_elem cs c) by done. by apply m_int_ok.
  - intros src dst d n b _ Hn Hlt. rewrite m_single by done. unfold m_send.
    rewrite m_unaffordable by done. by eexists.
  - done.
  - done.
  - intros m cs b b' Hok E. destruct (m_mint_effect m cs b b' Hok E). done.
  - intros m cs b Hok [Hp _]%m_has_perm Hb Hs. unfold m_mint. rewrite Hp. cbn [negb].
    rewrite (proj2 (m_forallb _ cs)); [by eexists|]. intros c Hin.
    assert (0 < m_amount_of cs (Denom c)) as Hpos by (rewrite m_amount_elem by done; by eapply m_positive).
    apply andb_true_iff. rewrite !Z.ltb_lt, <-(m_amount_elem cs c) by done.
    split; apply m_int_ok; auto.
  - intros m cs b b' Hok E. destruct (m_burn_effect m_locked m_locked_nonneg m cs b b' Hok E). done.
  - intros m cs b Hok [Hp _]%m_has_perm Hsp. unfold m_burn. rewrite Hp. cbn [negb].
    rewrite (m_affordable m_locked cs b (m_module_address m)) by done. by eexists.
  - intros m d n b _ Hn [Hp _]%m_has_perm Hlt. rewrite m_single by done. unfold m_burn. rewrite Hp. cbn [negb].
    rewrite m_unaffordable by done. by eexists.
Qed.

(** * Addresses *)

#[global] Instance m_codec : AddrCodec := {
  AccAddressFromBech32 x :=
    if decide (x = EmptyString) then Err (errorf ErrOther "empty address string is not allowed")
    else Ok (ToLower x);
  AccAddress_String a := ToLower a
}.

Lemma lower_char_idem c : lower_char (lower_char c) = lower_char c.
Proof. destruct c as [[] [] [] [] [] [] [] []]; reflexivity. Qed.

Lemma ToLower_idem x : ToLower (ToLower x) = ToLower x.
Proof. induction x as [|c x IH]; [done|]. cbn [ToLower]. by rewrite lower_char_idem, IH. Qed.

Lemma ToLower_empty x : ToLower x = EmptyString → x = EmptyString.
Proof. by destruct x. Qed.

#[global] Instance m_codec_laws : AddrCodecLaws.
Proof.
  split; cbn [AccAddressFromBech32 AccAddress_String m_codec].
  - intros x a. case_decide; [done|]. intros [= <-] ?%ToLower_empty. done.
  - intros x a. case_decide; [done|]. intros [= <-]. apply ToLower_idem.
  - intros x a. case_decide as Hx; [done|]. intros [= <-]. rewrite !ToLower_idem.
    rewrite decide_False; [done|]. by intros ?%ToLower_empty.
  - intros a. apply ToLower_idem.
Qed.
