(* ===== verification/PreciseBankThms.v ===== *)
(** The properties of x/precisebank: the reserve invariant over every history of
    the module, the exact effect of each operation, when they succeed, the
    refinement of an abstract eighteen-decimal ledger, and genesis. *)

From S2P Require Import Prelude.
From S2P Require Import Sdk.
From S2P Require Import EvmDenom.
From S2P Require Import PreciseBank.
From S2P Require Import PreciseBankInv.
From S2P Require Import PreciseBankOps.
From S2P Require Import PreciseBankLive.
From S2P Require Import PreciseBankGenesis.

Section histories.
Context `{SdkTypesLaws, AccountKeeperLaws, AddrCodecLaws}.
Context {B : Type} `{!BankKeeper B, !BankKeeperLaws B}.
Context (info : EvmCoinInfo).

Abbreviation CF := (ConversionFactor info).
Abbreviation idenom := (IntegerCoinDenom info).
Abbreviation xdenom := (ExtendedCoinDenom info).
Implicit Types (s : PState B) (a from to : addr) (cs : Coins).

(** The calls other modules and users make. *)
Inductive pb_op : Type :=
  | OpSendCoins (from to : addr) (amt : Coins)
  | OpAccountToModule (from : addr) (m : string) (amt : Coins)
  | OpModuleToAccount (m : string) (to : addr) (amt : Coins)
  | OpModuleToModule (m1 m2 : string) (amt : Coins)
  | OpMsgSend (msg : MsgSend)
  | OpMint (m : string) (amt : Coins)
  | OpBurn (m : string) (amt : Coins).

Definition run_op (op : pb_op) : M (PState B) unit :=
  match op with
  | OpSendCoins from to amt => SendCoins info from to amt
  | OpAccountToModule from m amt => SendCoinsFromAccountToModule info from m amt
  | OpModuleToAccount m to amt => SendCoinsFromModuleToAccount info m to amt
  | OpModuleToModule m1 m2 amt => SendCoinsFromModuleToModule info m1 m2 amt
  | OpMsgSend msg => Send info msg
  | OpMint m amt => MintCoins info m amt
  | OpBurn m amt => BurnCoins info m amt
  end.

(** The reserve's own key signs nothing: no call names it as the sender. *)
Definition sender_ok (op : pb_op) : Prop :=
  match op with
  | OpSendCoins from to amt => from ≠ reserve ∧ from ≠ EmptyString ∧ to ≠ EmptyString ∧ in_range amt
  | OpAccountToModule from _ amt => from ≠ reserve ∧ from ≠ EmptyString ∧ in_range amt
  | OpModuleToAccount _ to amt => to ≠ EmptyString ∧ in_range amt
  | OpModuleToModule m1 _ amt => m1 ≠ ModuleName ∧ in_range amt
  | OpMsgSend msg =>
      (∀ a, StringToBytes (FromAddress msg) = Ok a → a ≠ reserve ∧ a ≠ EmptyString) ∧
      (∀ a, StringToBytes (ToAddress msg) = Ok a → a ≠ EmptyString) ∧ in_range (MsgAmount msg)
  | OpMint _ amt | OpBurn _ amt => in_range amt
  end.

(** The states the module can be in: an accepted genesis without a balance for
    the reserve, successful calls (a failed one is rolled back with its
    transaction), and x/bank activity of others that takes nothing out of the
    reserve. *)
Inductive reachable : PState B → Prop :=
  | reach_genesis gs s0 s :
      ps_frac s0 = ∅ → InitGenesis info gs s0 = (s, Ok tt) →
      (∀ fb, fb ∈ gs_Balances gs → AccAddressFromBech32 (fb_Address fb) ≠ Ok reserve) →
      reachable s
  | reach_op op s s' :
      reachable s → sender_ok op → run_op op s = (s', Ok tt) → reachable s'
  | reach_bank b s :
      reachable s →
      bk_GetBalance (ps_bank s) reserve idenom ≤ bk_GetBalance b reserve idenom →
      reachable (mkPState b (ps_frac s) (ps_rem s) (ps_events s)).

Definition safe s : Prop := pb_wf info s ∧ solvent info s.

Context (Hinfo : valid_coin_info info) (Hreserve : reserve ≠ EmptyString).

Lemma effect_safe s s' Δ σ : effect info s s' Δ σ → solvent info s → safe s'.
Proof. intros E Hs. split; [apply E|]. by eapply effect_solvent. Qed.

(** x/bank steps that add to the reserve keep it solvent. *)
Lemma bstep_safe s s' δ σ :
  safe s → bstep info s s' δ σ → 0 ≤ δ reserve → safe s'.
Proof.
  intros [Hwf [Hp Hw]] [Hb _ _ Hf Hr _] Hd. pose proof (CF_bounds info Hinfo). split.
  - split; rewrite ?Hf, ?Hr; apply Hwf.
  - split; unfold surplus, rem_of in *; rewrite ?Hf, ?Hr, ?Hb; [nia|done].
Qed.

(** Sends to the reserve move whole coins and forget the fraction. *)
Lemma send_reserve_step from amt s s' u :
  from ≠ reserve → 0 < amt →
  sendExtendedCoins info from reserve amt s = (s', Ok u) →
  bstep info s s' (λ b, point reserve (Z.quot amt CF) b - point from (Z.quot amt CF) b) 0.
Proof.
  intros Hf Hamt E. pose proof (CF_bounds info Hinfo). unfold sendExtendedCoins in E.
  rewrite (bool_decide_eq_true_2 (reserve = reserve)), orb_true_r in E by done.
  erewrite bind_Ok in E by (apply iquo_run; lia).
  destruct (quot_mod_split info Hinfo amt ltac:(lia)) as (_ & Hq & _).
  eapply (when_int_step info Hinfo _ _ _
    (λ b, point reserve (Z.quot amt CF) b - point from (Z.quot amt CF) b) 0) in E as [Hb Hl Hs ???].
  - destruct (Z.ltb_spec 0 (Z.quot amt CF)); split; auto; intros b; rewrite Hb; unfold point;
      repeat case_decide; lia.
  - destruct (Z.ltb_spec 0 (Z.quot amt CF)); auto.
  - intros ? ??? E'. by eapply send_int_step.
Qed.

Lemma SendCoins_safe from to cs s s' u :
  safe s → in_range cs → from ≠ EmptyString → to ≠ EmptyString → from ≠ reserve →
  SendCoins info from to cs s = (s', Ok u) → safe s'.
Proof.
  intros Hsafe Hrange Hf Ht Hfr E. destruct (decide (to = reserve)) as [->|Htr].
  2:{ destruct Hsafe. apply SendCoins_effect in E; try done. by eapply effect_safe. }
  unfold SendCoins in E. destruct (Coins_IsValid cs) eqn:Hv; [|done]. cbn [negb] in E.
  apply bind_Ok_inv in E as (s1 & [pc n] & Esp & E).
  apply split_coins_inv in Esp as (-> & -> & Hpv & Hpa); [|done..].
  apply bind_Ok_inv in E as (s2 & [] & E1 & E).
  assert (safe s2) as Hsafe2.
  { apply when_Ok_inv in E1 as [[_ E1]|[_ ->]]; [|done].
    eapply (bstep_safe _ _ (λ b, _)); [done|by eapply send_step|]. unfold point. cbn beta.
    pose proof (AmountOf_nonneg pc idenom Hpv). repeat case_decide; try congruence; lia. }
  apply when_Ok_inv in E as [[Hn%Z.ltb_lt E]|[_ ->]]; [|done].
  destruct (quot_mod_split info Hinfo (Coins_AmountOf cs xdenom) (Z.lt_le_incl _ _ Hn)) as (_ & Hq & _).
  eapply (bstep_safe _ _ (λ b, _)); [done|by eapply send_reserve_step|]. cbn beta.
  unfold point. repeat case_decide; try congruence; lia.
Qed.

Lemma to_module_safe from m cs s s' u :
  safe s → in_range cs → from ≠ EmptyString → from ≠ reserve →
  match GetModuleAccount m with
  | None => panic "module account does not exist"
  | Some recipientAcc =>
      if bool_decide (m = ModuleName)
      then throw (errorf ErrUnauthorized "module account is not allowed to receive funds")
      else SendCoins info from (ma_address recipientAcc) cs
  end s = (s', Ok u) → safe s'.
Proof.
  intros Hsafe Hrange Hf Hfr E. destruct (GetModuleAccount m) as [acc|] eqn:Hacc; [|done].
  case_bool_decide; [done|]. apply module_account_address in Hacc as [_ Ha].
  by eapply SendCoins_safe in E.
Qed.

Lemma send_enabled_state cs s s' u : IsSendEnabledCoins info cs s = (s', Ok u) → s' = s.
Proof.
  induction cs as [|c r IH]; cbn; [by intros [= ->]|].
  intros (s1 & ok & E1 & E)%bind_Ok_inv. destruct ok; [|done]. cbn in E.
  assert (s1 = s) as ->; [|auto]. unfold IsSendEnabledCoin in E1.
  case_bool_decide; [|unfold gets in E1; by simplify_eq].
  apply bind_Ok_inv in E1 as (s2 & q & [-> _]%iquo_inv & E1).
  apply bind_Ok_inv in E1 as (s3 & c' & E2 & E1). unfold newCoin, of_outcome, gets in *. by simplify_eq.
Qed.

Lemma MsgSend_safe msg s s' u :
  safe s → sender_ok (OpMsgSend msg) → Send info msg s = (s', Ok u) → safe s'.
Proof.
  intros Hsafe (Hf & Ht & Hrange) E. unfold Send in E.
  apply bind_Ok_inv in E as (s1 & from & E1 & E). apply bind_Ok_inv in E as (s2 & to & E2 & E).
  destruct (StringToBytes (FromAddress msg)) as [f| |]; unfold ret, throw, panic in E1; simplify_eq.
  destruct (StringToBytes (ToAddress msg)) as [t| |]; unfold ret, throw, panic in E2; simplify_eq.
  destruct (Hf _ eq_refl) as [Hfr Hfe]. specialize (Ht _ eq_refl).
  destruct (Coins_IsValid _); [|done]. destruct (Coins_IsAllPositive _); [|done]. cbn [negb] in E.
  apply bind_Ok_inv in E as (s3 & [] & ->%send_enabled_state & E).
  destruct (bk_BlockedAddr to); [done|]. by apply SendCoins_safe in E.
Qed.

Lemma op_safe op s s' :
  safe s → sender_ok op → run_op op s = (s', Ok tt) → safe s'.
Proof.
  intros Hsafe Hop E. pose proof Hsafe as [Hwf Hsol]. destruct op; cbn in Hop, E.
  - destruct Hop as (? & ? & ? & ?). by apply SendCoins_safe in E.
  - destruct Hop as (? & ? & ?). by apply to_module_safe in E.
  - destruct Hop as (? & ?). unfold SendCoinsFromModuleToAccount in E.
    do 2 (case_bool_decide; [done|]). destruct (bk_BlockedAddr to); [done|].
    apply SendCoins_safe in E; try done. by apply module_not_reserve.
  - destruct Hop as (? & ?). unfold SendCoinsFromModuleToModule in E.
    case_bool_decide; [done|]. apply to_module_safe in E; try done. by apply module_not_reserve.
  - by eapply MsgSend_safe.
  - apply MintCoins_effect in E; try done. by eapply effect_safe.
  - apply BurnCoins_effect in E; try done. by eapply effect_safe.
Qed.

Lemma genesis_safe gs s0 s :
  ps_frac s0 = ∅ → InitGenesis info gs s0 = (s, Ok tt) →
  (∀ fb, fb ∈ gs_Balances gs → AccAddressFromBech32 (fb_Address fb) ≠ Ok reserve) →
  safe s.
Proof.
  intros Hemp E Hres. pose proof (CF_bounds info Hinfo).
  apply init_genesis_inv in E as (es & r & Hes & Hnd & _ & Hr & Hz & Hbal & _ & ->); [|done..].
  assert (rem_of (mkPState (ps_bank s0) (list_to_map es) (upd_rem r) (ps_events s0)) = r) as Hrem
    by apply upd_rem_default.
  split; split; unfold surplus; rewrite ?Hrem; cbn [ps_frac ps_rem].
  - intros a v Hv%elem_of_list_to_map_2.
    apply list_elem_of_lookup in Hv as [i Hi].
    destruct (Forall2_lookup_r _ _ _ _ _ Hes Hi) as (fb & Hfb & Ha & _ & Hpos). cbn in Ha, Hpos.
    split_and!; [lia|lia|by eapply bech32_nonempty|]. intros ->.
    apply list_elem_of_lookup_2 in Hfb. by eapply Hres.
  - intros x Hx. unfold upd_rem in Hx. destruct (Z.eqb_spec r 0); [done|]. simplify_eq. lia.
  - rewrite map_sum_list by done. unfold ibal in *. cbn [ps_bank].
    pose proof (bk_balance_nonneg (ps_bank s0) reserve idenom).
    destruct Hbal as [Heq|[-> ->]]; [rewrite Heq; lia|]. cbn. nia.
  - by rewrite map_sum_list by done.
Qed.

(** ** The abstract ledger

    What the module promises the EVM: an eighteen-decimal coin whose balances
    move by exactly the amounts named. *)
Record Ledger : Type := mkLedger { led_bal : addr → Z; led_supply : Z }.

Inductive ledger_event : Type :=
  | Transfer (from to : addr) (v : Z)
  | MintTo (a : addr) (v : Z)
  | BurnFrom (a : addr) (v : Z).

Definition event_delta (e : ledger_event) (a : addr) : Z :=
  match e with
  | Transfer from to v => point to v a - point from v a
  | MintTo b v => point b v a
  | BurnFrom b v => - point b v a
  end.

Definition event_supply (e : ledger_event) : Z :=
  match e with Transfer _ _ _ => 0 | MintTo _ v => v | BurnFrom _ v => - v end.

Definition ledger_apply (L : Ledger) (e : ledger_event) : Ledger :=
  mkLedger (λ a, led_bal L a + event_delta e a) (led_supply L + event_supply e).

Definition decoded (x : string) : addr :=
  match StringToBytes x with Ok a => a | _ => EmptyString end.

(** The event a call stands for. *)
Definition op_event (op : pb_op) : ledger_event :=
  match op with
  | OpSendCoins from to amt => Transfer from to (ext_value info amt)
  | OpAccountToModule from m amt => Transfer from (GetModuleAddress m) (ext_value info amt)
  | OpModuleToAccount m to amt => Transfer (GetModuleAddress m) to (ext_value info amt)
  | OpModuleToModule m1 m2 amt =>
      Transfer (GetModuleAddress m1) (GetModuleAddress m2) (ext_value info amt)
  | OpMsgSend msg =>
      Transfer (decoded (FromAddress msg)) (decoded (ToAddress msg)) (ext_value info (MsgAmount msg))
  | OpMint m amt => MintTo (GetModuleAddress m) (ext_value info amt)
  | OpBurn m amt => BurnFrom (GetModuleAddress m) (ext_value info amt)
  end.

Definition recipient_ok (op : pb_op) : Prop :=
  match op_event op with Transfer _ to _ => to ≠ reserve | _ => True end.

Definition refines s (L : Ledger) : Prop :=
  (∀ a, a ≠ reserve → led_bal L a = ext info s a) ∧ led_supply L = ext_supply info s.

Lemma effect_refines s s' e L :
  effect info s s' (event_delta e) (event_supply e) → refines s L → refines s' (ledger_apply L e).
Proof.
  intros [_ _ He Hs _] [Hb Hl]. split; cbn; [|lia]. intros a Ha. rewrite Hb, He by done. done.
Qed.

Lemma to_module_effect from m cs s s' u :
  pb_wf info s → in_range cs → from ≠ EmptyString → from ≠ reserve →
  match GetModuleAccount m with
  | None => panic "module account does not exist"
  | Some recipientAcc =>
      if bool_decide (m = ModuleName)
      then throw (errorf ErrUnauthorized "module account is not allowed to receive funds")
      else SendCoins info from (ma_address recipientAcc) cs
  end s = (s', Ok u) →
  effect info s s' (event_delta (Transfer from (GetModuleAddress m) (ext_value info cs))) 0.
Proof.
  intros Hwf Hrange Hf Hfr E. destruct (GetModuleAccount m) as [acc|] eqn:Hacc; [|done].
  case_bool_decide as Hne; [done|]. apply module_account_address in Hacc as [Heq Ha].
  rewrite <-Heq in *. apply SendCoins_effect in E; try done. by apply module_not_reserve.
Qed.

Lemma op_effect op s s' :
  pb_wf info s → sender_ok op → recipient_ok op → run_op op s = (s', Ok tt) →
  effect info s s' (event_delta (op_event op)) (event_supply (op_event op)).
Proof.
  intros Hwf Hop Hto E. destruct op; cbn in Hop, E; unfold recipient_ok in Hto; cbn in Hto.
  - destruct Hop as (? & ? & ? & ?). by apply SendCoins_effect in E.
  - destruct Hop as (? & ? & ?). by apply to_module_effect in E.
  - destruct Hop as (? & ?). unfold SendCoinsFromModuleToAccount in E.
    do 2 (case_bool_decide; [done|]). destruct (bk_BlockedAddr to); [done|].
    apply SendCoins_effect in E; try done. by apply module_not_reserve.
  - destruct Hop as (? & ?). unfold SendCoinsFromModuleToModule in E.
    case_bool_decide; [done|]. apply to_module_effect in E; try done. by apply module_not_reserve.
  - destruct Hop as (Hf & Ht & Hrange). unfold Send in E. cbn. unfold decoded in *.
    apply bind_Ok_inv in E as (s1 & from & E1 & E). apply bind_Ok_inv in E as (s2 & to & E2 & E).
    destruct (StringToBytes (FromAddress msg)); unfold ret, throw, panic in E1; simplify_eq.
    destruct (StringToBytes (ToAddress msg)); unfold ret, throw, panic in E2; simplify_eq.
    destruct (Hf _ eq_refl) as [Hfr Hfe]. specialize (Ht _ eq_refl).
    destruct (Coins_IsValid _); [|done]. destruct (Coins_IsAllPositive _); [|done]. cbn [negb] in E.
    apply bind_Ok_inv in E as (s3 & [] & ->%send_enabled_state & E).
    destruct (bk_BlockedAddr to); [done|]. by apply SendCoins_effect in E.
  - by apply MintCoins_effect in E.
  - by apply BurnCoins_effect in E.
Qed.

(** A history of successful calls. *)
Inductive runs : list pb_op → PState B → PState B → Prop :=
  | runs_nil s : runs [] s s
  | runs_cons op ops s s1 s2 :
      sender_ok op → recipient_ok op → run_op op s = (s1, Ok tt) → runs ops s1 s2 →
      runs (op :: ops) s s2.
End histories.

(** * Properties *)

Section properties.
Context `{SdkTypesLaws, AccountKeeperLaws, AddrCodecLaws}.
Context {B : Type} `{!BankKeeper B, !BankKeeperLaws B}.
Context (info : EvmCoinInfo) (Hinfo : valid_coin_info info) (Hreserve : reserve ≠ EmptyString).

Abbreviation CF := (ConversionFactor info).
Abbreviation xdenom := (ExtendedCoinDenom info).
Abbreviation ext_coins amt := (NewCoins [mkCoin xdenom amt]).
Implicit Types (s : PState B) (a from to : addr) (amt : Z).

(** C2: in every state the module can reach from an accepted genesis, each
    stored fractional balance is positive, below the conversion factor and not
    the reserve's, so is the remainder, the reserve's coins cover the sum of
    all fractional balances and the remainder, and that sum is a whole number
    of integer coins. *)
Theorem reserve_always_solvent s : reachable info s → pb_wf info s ∧ solvent info s.
Proof.
  induction 1 as [gs s0 s Hemp E Hres|op s s' _ IH Hop E|b s _ [Hwf [Hp Hw]] Hle].
  - by eapply (genesis_safe info Hinfo).
  - by eapply (op_safe info Hinfo Hreserve).
  - pose proof (CF_bounds info Hinfo). split; [by destruct Hwf; split|].
    split; [|done]. unfold surplus, ibal in *. cbn. fold (rem_of s) in *.
    change (rem_of (mkPState b (ps_frac s) (ps_rem s) (ps_events s))) with (rem_of s). nia.
Qed.

(** C1: over any history of successful calls that do not name the reserve,
    the extended balances and the circulating supply are those of an abstract
    eighteen-decimal ledger on which each call moves, mints or burns exactly
    the amount it names, and what the reserve holds above its obligations does
    not change. *)
Theorem precisebank_refines_ledger ops s s' L :
  pb_wf info s → runs info ops s s' → refines info s L →
  refines info s' (foldl ledger_apply L (op_event info <$> ops)) ∧
  surplus info s' = surplus info s.
Proof.
  intros Hwf Hr. revert L Hwf. induction Hr as [s|op ops s s1 s2 Hop Hto E _ IH]; intros L Hwf HL.
  - done.
  - apply (op_effect info Hinfo Hreserve) in E; try done.
    destruct (IH (ledger_apply L (op_event info op))) as [HL' Hs'].
    + apply E.
    + by eapply effect_refines.
    + split; [done|]. rewrite Hs'. apply E.
Qed.

(** C33: a send of extended coins between accounts other than the reserve succeeds
    exactly when the sender's spendable extended balance covers it, or when it is a
    send to oneself, which returns before any balance is looked at; in particular
    the carry the reserve has to pay out never fails, which in the code would
    panic. *)
Theorem SendCoins_iff_spendable from to amt s :
  pb_wf info s → solvent info s → ilocked info s reserve = 0 →
  0 < amt → int_ok amt = true → from ≠ EmptyString → to ≠ EmptyString →
  from ≠ reserve → to ≠ reserve →
  room info s to (Z.quot amt CF + 1) → room info s reserve 1 →
  (∃ s', SendCoins info from to (ext_coins amt) s = (s', Ok tt)) ↔ from = to ∨ amt ≤ ext_spend info s from.
Proof.
  intros Hwf Hsol Hlk Hamt Hok Hf Ht Hfr Htr Hroom Hroomr.
  rewrite (SendCoins_single info Hinfo) by done. destruct (decide (from = to)) as [->|Hne].
  { split; [by left|]. intros _. exists s. unfold sendExtendedCoins. by rewrite !bool_decide_false, bool_decide_true by done. }
  split.
  - intros [s' E]. right. destruct (decide (amt ≤ ext_spend info s from)) as [|Hlt]; [done|].
    destruct (sendExtended_insufficient info Hinfo Hreserve from to amt s) as (? & E' & _);
      try done; [lia|congruence].
  - intros [?|?]; [done|]. by apply (sendExtended_succeeds info Hinfo Hreserve).
Qed.

(** A send the sender cannot afford returns [ErrInsufficientFunds] (it
    never panics), leaves the fractional balances, the remainder and the
    reserve's surplus as they were, and prints the spendable balance of the
    state it leaves, in which the whole coins may already have moved. *)
Theorem SendCoins_insufficient_error from to amt s :
  pb_wf info s → 0 < amt → int_ok amt = true → from ≠ EmptyString → to ≠ EmptyString →
  from ≠ to → from ≠ reserve → to ≠ reserve →
  ext_spend info s from < amt → room info s to (Z.quot amt CF + 1) →
  ∃ s', SendCoins info from to (ext_coins amt) s
        = (s', Err (mkError ErrInsufficientFunds "spendable balance is smaller than"
                      [(xdenom, ext_spend info s' from); (xdenom, amt)])) ∧
    pb_wf info s' ∧ surplus info s' = surplus info s.
Proof.
  intros. rewrite (SendCoins_single info Hinfo) by done.
  by apply (sendExtended_insufficient info Hinfo Hreserve).
Qed.

(** C39: a mint of extended coins to a module with the minter permission
    succeeds whenever the balances and the supply have room for it, whatever
    the recipient's fraction and the remainder are. *)
Theorem MintCoins_succeeds m amt s :
  pb_wf info s → solvent info s → ilocked info s reserve = 0 →
  0 < amt → int_ok amt = true → m ≠ ModuleName →
  has_perm m Minter → has_perm ModuleName Minter →
  room info s (GetModuleAddress m) (Z.quot amt CF + 1) → room info s reserve 1 →
  isupply info s + Z.quot amt CF + 1 < u256_max →
  ∃ s', MintCoins info m (ext_coins amt) s = (s', Ok tt) ∧
    effect info s s' (point (GetModuleAddress m) amt) amt.
Proof.
  intros Hwf Hsol Hlk Hamt Hok Hne Hp Hpr Hroom Hroomr Hsup.
  rewrite (MintCoins_single info Hinfo) by done.
  destruct (mintExtended_succeeds info Hinfo Hreserve m amt s) as [s' E]; try done.
  exists s'. split; [done|]. eapply (mintExtended_effect info Hinfo Hreserve); try done.
  destruct Hp as (acc & Hacc & _). by eapply module_registered.
Qed.

(** A burn of extended coins from a module with the burner permission
    succeeds whenever the module's spendable extended balance covers it, and
    removes exactly that amount from the balance and from the supply. *)
Theorem BurnCoins_succeeds m amt s :
  pb_wf info s → solvent info s → ilocked info s reserve = 0 →
  0 < amt → int_ok amt = true → m ≠ ModuleName →
  has_perm m Burner → has_perm ModuleName Burner →
  amt ≤ ext_spend info s (GetModuleAddress m) → room info s reserve 1 →
  ∃ s', BurnCoins info m (ext_coins amt) s = (s', Ok tt) ∧
    effect info s s' (λ a, - point (GetModuleAddress m) amt a) (- amt).
Proof.
  intros Hwf Hsol Hlk Hamt Hok Hne Hp Hpr Hbal Hroom.
  rewrite (BurnCoins_single info Hinfo) by done.
  destruct (burnExtended_succeeds info Hinfo Hreserve m amt s) as [s' E]; try done.
  exists s'. split; [done|]. eapply (burnExtended_effect info Hinfo Hreserve); try done.
  destruct Hp as (acc & Hacc & _). by eapply module_registered.
Qed.

(** Minting an amount to a module and burning it again restores every
    extended balance, the circulating supply and the reserve's surplus,
    whichever carries and borrows the two took. *)
Theorem mint_burn_roundtrip m cs s s1 s2 :
  pb_wf info s → in_range cs →
  MintCoins info m cs s = (s1, Ok tt) → BurnCoins info m cs s1 = (s2, Ok tt) →
  (∀ a, a ≠ reserve → ext info s2 a = ext info s a) ∧
  ext_supply info s2 = ext_supply info s ∧ surplus info s2 = surplus info s.
Proof.
  intros Hwf Hr E1 E2. apply (MintCoins_effect info Hinfo Hreserve) in E1 as [Hwf1 Hp1 He1 Hs1 _]; try done.
  apply (BurnCoins_effect info Hinfo Hreserve) in E2 as [_ Hp2 He2 Hs2 _]; try done.
  split_and!; [|lia|congruence]. intros a Ha. rewrite He2, He1 by done. lia.
Qed.

(** The balance the module reports for the extended denomination is the
    account's extended balance: its integer coins scaled up plus its fraction,
    and nothing for the reserve. *)
Theorem GetBalance_extended a s :
  pb_wf info s → ext info s a < u256_max →
  GetBalance info a xdenom s = (s, Ok (mkCoin xdenom (ext info s a))).
Proof.
  intros Hwf Hlt. assert (valid_denom xdenom = true) as Hd by apply Hinfo.
  pose proof (CF_bounds info Hinfo). pose proof (frac_range info Hinfo s a Hwf).
  pose proof (ibal_nonneg info s a). unfold GetBalance, ext in *.
  rewrite (bool_decide_eq_true_2 (xdenom = xdenom)) by done. cbn [andb negb].
  case_bool_decide as Ha; case_decide; try done; [by apply newCoin_run|].
  rewrite (bind_Ok (gets _) _ s s _ eq_refl). fold (ibal info s a). unfold GetFractionalBalance.
  rewrite (bind_Ok (gets _) _ s s _ eq_refl). unfold imul. erewrite bind_Ok by (apply ichk_run; nia).
  erewrite bind_Ok by (apply iadd_run; nia). apply newCoin_run; [done|nia].
Qed.

(** A send to oneself of any amount, affordable or not, returns nil and
    changes nothing. *)
Theorem SendCoins_self a amt s :
  0 < amt → a ≠ reserve → SendCoins info a a (ext_coins amt) s = (s, Ok tt).
Proof.
  intros Hamt Ha. rewrite (SendCoins_single info Hinfo) by done. unfold sendExtendedCoins.
  rewrite (bool_decide_eq_false_2 (a = reserve)) by done. cbn [orb].
  by rewrite bool_decide_eq_true_2.
Qed.

(** A send to the reserve moves only the whole coins: the sender loses
    [amt] rounded down to a multiple of the conversion factor, although the
    call reports success for all of [amt]. *)
Theorem SendCoins_to_reserve_truncates from amt s s' :
  pb_wf info s → 0 < amt → from ≠ reserve →
  SendCoins info from reserve (ext_coins amt) s = (s', Ok tt) →
  ext info s' from = ext info s from - (amt - amt mod CF) ∧
  surplus info s' = surplus info s + (amt - amt mod CF).
Proof.
  intros Hwf Hamt Hf E. rewrite (SendCoins_single info Hinfo) in E by done.
  apply (send_reserve_step info Hinfo) in E as [Hb _ _ Hfr Hr _]; [|done..].
  destruct (quot_mod_split info Hinfo amt ltac:(lia)) as (Hsplit & _).
  unfold ext, surplus, frac_of, rem_of. rewrite Hfr, Hr, !Hb. unfold point.
  set (q := Z.quot amt CF) in *. set (r := amt mod CF) in *. clearbody q r.
  repeat case_decide; try congruence. split; lia.
Qed.

(** Exporting the module's state and importing it into an empty store with
    the same bank restores the fractional balances and the remainder. *)
Theorem genesis_roundtrip s :
  pb_wf info s → (map_sum (ps_frac s) + rem_of s) mod CF = 0 → surplus info s = 0 →
  encodable s → GetModuleAccount ModuleName ≠ None → map_sum (ps_frac s) + rem_of s < u256_max →
  ∃ gs, ExportGenesis s = (s, Ok gs) ∧
    InitGenesis info gs (mkPState (ps_bank s) ∅ None []) =
      (mkPState (ps_bank s) (ps_frac s) (ps_rem s) [], Ok tt).
Proof.
  intros Hwf Hz Hsur Henc Hacc Hlt. eexists. split; [apply export_run|].
  pose proof (map_sum_list _ (entries_nodup s)) as Hsum. rewrite entries_map in Hsum.
  rewrite (init_genesis_run info Hinfo _ (fractional_entries s) (rem_of s)); try done.
  - rewrite entries_map. cbn. repeat f_equal. unfold upd_rem, rem_of.
    destruct (ps_rem s) as [r|] eqn:Hr; [|done]. cbn.
    pose proof (wf_rem _ _ Hwf r Hr). by destruct (Z.eqb_spec r 0); [lia|].
  - by apply export_decodes.
  - apply entries_nodup.
  - by apply rem_range.
  - by rewrite <-Hsum.
  - rewrite <-Hsum. unfold surplus in Hsur. change (ibal info (mkPState (ps_bank s) ∅ None []) reserve)
      with (ibal info s reserve). lia.
  - by rewrite <-Hsum.
Qed.

(** Genesis is accepted only if the reserve holds exactly the fractional
    balances and the remainder; the one exception is the empty genesis, which
    is accepted with any reserve. *)
Theorem InitGenesis_backed gs s s' :
  ps_frac s = ∅ → InitGenesis info gs s = (s', Ok tt) →
  surplus info s' = 0 ∨ (gs_Balances gs = [] ∧ gs_Remainder gs = Some 0).
Proof.
  intros Hemp E.
  apply (init_genesis_inv info) in E as (es & r & Hes & Hnd & Hr & _ & _ & Hbal & _ & ->); [|done..].
  destruct Hbal as [Heq|[-> ->]].
  - left. unfold surplus, rem_of. cbn [ps_frac ps_rem]. rewrite map_sum_list, upd_rem_default by done.
    unfold ibal in *. cbn [ps_bank]. lia.
  - right. split; [by apply Forall2_nil_inv_r in Hes|done].
Qed.

(** The sum the iterator computes is the sum over the stored balances. *)
Theorem GetTotalSumFractionalBalances_spec s :
  pb_wf info s → map_sum (ps_frac s) < u256_max →
  GetTotalSumFractionalBalances s = (s, Ok (map_sum (ps_frac s))).
Proof. apply (total_sum_run info). Qed.

(** With eighteen decimals the integer and the extended denomination are
    one, and [SumExtendedCoin] counts its amount twice. *)
Theorem SumExtendedCoin_doubles cs s :
  eci_Decimals info = 18 → 0 ≤ Coins_AmountOf cs xdenom → 2 * Coins_AmountOf cs xdenom < u256_max →
  SumExtendedCoin info cs s = (s, Ok (mkCoin xdenom (2 * Coins_AmountOf cs xdenom))).
Proof.
  intros Hd Hpos Hlt. assert (eci_Denom info = eci_ExtendedDenom info) as Hsame by by apply Hinfo.
  assert (CF = 1) as HCF by (unfold ConversionFactor; rewrite coin_factor_pow, Hd by done; done).
  unfold SumExtendedCoin, imul, IntegerCoinDenom. rewrite HCF, Hsame. fold xdenom.
  erewrite bind_Ok by (apply ichk_run; lia). erewrite bind_Ok by (apply iadd_run; lia).
  rewrite newCoin_run; [|apply Hinfo|lia]. do 3 f_equal. lia.
Qed.
End properties.
