(* ===== verification/PreciseBankWit.v ===== *)
(** Concrete runs of x/precisebank on the SDK of SdkModel.v: each theorem of
    PreciseBankThms.v with hypotheses is applied at one of them. *)

From S2P Require Import Prelude.
From S2P Require Import Sdk.
From S2P Require Import EvmDenom.
From S2P Require Import PreciseBank.
From S2P Require Import PreciseBankInv.
From S2P Require Import PreciseBankOps.
From S2P Require Import PreciseBankLive.
From S2P Require Import PreciseBankGenesis.
From S2P Require Import SdkModel.
From S2P Require Import PreciseBankThms.

(** A chain whose bank coin has six decimals. *)
Definition info6 : EvmCoinInfo := mkEvmCoinInfo "uatom" "aatom" "atom" 6.

Lemma info6_valid : valid_coin_info info6.
Proof. split; cbn; done || lia. Qed.

Lemma reserve_set : reserve ≠ EmptyString.
Proof. discriminate. Qed.

Abbreviation res := "module/precisebank" (only parsing).

(** Alice has 5.6 coins, Bob 2, the EVM module 1; the remainder is 0.4. *)
Definition w_bank : gmap string (gmap string Z) :=
  {["uatom" := list_to_map [("alice", 5); ("bob", 2); ("module/evm", 1); (res, 1)]]}.
Definition w_genesis : GenesisState :=
  NewGenesisState [NewFractionalBalance "ALICE" (6 * 10 ^ 11)] (4 * 10 ^ 11).
Definition w_empty : PState (gmap string (gmap string Z)) := mkPState w_bank ∅ None [].
Definition w_init := (InitGenesis info6 w_genesis w_empty).1.

Definition aatom (n : Z) : list Coin := NewCoins [mkCoin "aatom" n].

Lemma aatom_range n : 0 ≤ n < u256_max → in_range (aatom n).
Proof.
  intros Hn d. unfold aatom. apply int_ok_spec.
  destruct (decide (n = 0)) as [->|]; [by cbn|].
  rewrite NewCoins_amount by (done || lia). case_decide; lia.
Qed.

(** A run that succeeds, without normalizing the state it leaves. *)
Lemma ok_run {S} (r : S * outcome unit) : is_ok r.2 = true → r = (r.1, Ok tt).
Proof. by destruct r as [? [[]| |]]. Qed.

Ltac run := vm_compute; first [reflexivity | done | discriminate].
Ltac run_ok := apply ok_run; vm_compute; reflexivity.

Lemma w_init_run : InitGenesis info6 w_genesis w_empty = (w_init, Ok tt).
Proof. run_ok. Qed.

Lemma w_no_reserve fb :
  fb ∈ gs_Balances w_genesis → AccAddressFromBech32 (fb_Address fb) ≠ Ok reserve.
Proof. cbn. intros ->%list_elem_of_singleton. by vm_compute. Qed.

Lemma w_init_safe : safe info6 w_init.
Proof. by eapply (genesis_safe info6 info6_valid), w_no_reserve; [|apply w_init_run]. Qed.

Ltac w_safe := first [exact (proj1 w_init_safe) | exact (proj2 w_init_safe)].
Ltac evm_perm := eexists; split; reflexivity.

Definition w_send := (SendCoins info6 "alice" "bob" (aatom (7 * 10 ^ 11)) w_init).1.
Definition w_mint := (MintCoins info6 "evm" (aatom (45 * 10 ^ 11)) w_send).1.
Definition w_burn := (BurnCoins info6 "evm" (aatom (45 * 10 ^ 11)) w_mint).1.

Lemma reserve_always_solvent_witness :
  reachable info6 w_mint ∧ pb_wf info6 w_mint ∧ solvent info6 w_mint.
Proof.
  assert (reachable info6 w_mint) as Hr.
  { eapply (reach_op _ (OpMint "evm" (aatom (45 * 10 ^ 11)))) with (s := w_send);
      [|apply aatom_range; by split|run_ok].
    eapply (reach_op _ (OpSendCoins "alice" "bob" (aatom (7 * 10 ^ 11)))) with (s := w_init);
      [|split_and!; [run..|apply aatom_range; by split]|run_ok].
    eapply reach_genesis; [|apply w_init_run|apply w_no_reserve]. done. }
  split; [exact Hr|]. exact (reserve_always_solvent info6 info6_valid reserve_set w_mint Hr).
Defined.

Definition w_ledger : Ledger := mkLedger (ext info6 w_init) (ext_supply info6 w_init).
Definition w_ops : list pb_op :=
  [OpSendCoins "alice" "bob" (aatom (7 * 10 ^ 11)); OpMint "evm" (aatom (45 * 10 ^ 11))].

Lemma precisebank_refines_ledger_witness :
  refines info6 w_mint (foldl ledger_apply w_ledger (op_event info6 <$> w_ops)) ∧
  surplus info6 w_mint = surplus info6 w_init.
Proof.
  apply (precisebank_refines_ledger info6 info6_valid reserve_set w_ops w_init w_mint w_ledger).
  - apply w_init_safe.
  - apply (runs_cons _ _ _ _ w_send); [split_and!; [run..|apply aatom_range; by split]|run|run_ok|].
    apply (runs_cons _ _ _ _ w_mint); [apply aatom_range; by split|run|run_ok|]. constructor.
  - by split.
Defined.

Lemma SendCoins_iff_spendable_witness :
  (∃ s', SendCoins info6 "alice" "bob" (aatom (56 * 10 ^ 11)) w_init = (s', Ok tt)) ↔
  "alice" = "bob" ∨ 56 * 10 ^ 11 ≤ ext_spend info6 w_init "alice".
Proof.
  apply (SendCoins_iff_spendable info6 info6_valid reserve_set "alice" "bob" (56 * 10 ^ 11) w_init);
    first [w_safe | run].
Defined.

Lemma SendCoins_insufficient_error_witness :
  ∃ s', SendCoins info6 "alice" "bob" (aatom (57 * 10 ^ 11)) w_init
        = (s', Err (mkError ErrInsufficientFunds "spendable balance is smaller than"
                      [("aatom", ext_spend info6 s' "alice"); ("aatom", 57 * 10 ^ 11)])) ∧
    pb_wf info6 s' ∧ surplus info6 s' = surplus info6 w_init.
Proof.
  apply (SendCoins_insufficient_error info6 info6_valid reserve_set "alice" "bob" (57 * 10 ^ 11) w_init);
    first [w_safe | run].
Defined.

Lemma MintCoins_succeeds_witness :
  ∃ s', MintCoins info6 "evm" (aatom (45 * 10 ^ 11)) w_init = (s', Ok tt) ∧
    effect info6 w_init s' (point "module/evm" (45 * 10 ^ 11)) (45 * 10 ^ 11).
Proof.
  apply (MintCoins_succeeds info6 info6_valid reserve_set "evm" (45 * 10 ^ 11) w_init);
    first [w_safe | evm_perm | run].
Defined.

Lemma BurnCoins_succeeds_witness :
  ∃ s', BurnCoins info6 "evm" (aatom (3 * 10 ^ 11)) w_init = (s', Ok tt) ∧
    effect info6 w_init s' (λ a, - point "module/evm" (3 * 10 ^ 11) a) (- (3 * 10 ^ 11)).
Proof.
  apply (BurnCoins_succeeds info6 info6_valid reserve_set "evm" (3 * 10 ^ 11) w_init);
    first [w_safe | evm_perm | run].
Defined.

Lemma mint_burn_roundtrip_witness :
  (∀ a, a ≠ reserve → ext info6 w_burn a = ext info6 w_send a) ∧
  ext_supply info6 w_burn = ext_supply info6 w_send ∧ surplus info6 w_burn = surplus info6 w_send.
Proof.
  apply (mint_burn_roundtrip info6 info6_valid reserve_set "evm" (aatom (45 * 10 ^ 11)) w_send w_mint).
  - assert (SendCoins info6 "alice" "bob" (aatom (7 * 10 ^ 11)) w_init = (w_send, Ok tt)) as E by run_ok.
    apply (SendCoins_safe info6 info6_valid reserve_set) in E;
      first [exact (proj1 E) | exact w_init_safe | apply aatom_range; by split | run].
  - apply aatom_range. by split.
  - run_ok.
  - run_ok.
Defined.

Lemma GetBalance_extended_witness :
  GetBalance info6 "alice" "aatom" w_init = (w_init, Ok (mkCoin "aatom" (ext info6 w_init "alice"))) ∧
  ext info6 w_init "alice" = 56 * 10 ^ 11.
Proof.
  split; [|run].
  apply (GetBalance_extended info6 info6_valid "alice" w_init); first [w_safe | run].
Defined.

Lemma SendCoins_self_witness :
  SendCoins info6 "bob" "bob" (aatom (9 * 10 ^ 18)) w_init = (w_init, Ok tt).
Proof. apply (SendCoins_self info6 info6_valid "bob" (9 * 10 ^ 18) w_init); run. Defined.

Lemma SendCoins_to_reserve_truncates_witness :
  let s' := (SendCoins info6 "alice" reserve (aatom (19 * 10 ^ 11)) w_init).1 in
  ext info6 s' "alice" = ext info6 w_init "alice" - (19 * 10 ^ 11 - (19 * 10 ^ 11) mod (ConversionFactor info6)) ∧
  surplus info6 s' = surplus info6 w_init + (19 * 10 ^ 11 - (19 * 10 ^ 11) mod (ConversionFactor info6)).
Proof.
  apply (SendCoins_to_reserve_truncates info6 info6_valid "alice" (19 * 10 ^ 11) w_init);
    first [w_safe | run_ok | run].
Defined.

Lemma w_init_encodable : encodable w_init.
Proof.
  intros a v Hv. assert (a = "alice") as ->; [|by vm_compute].
  assert (map_Forall (λ a _, a = "alice") (ps_frac w_init)) as Hf
    by (apply (bool_decide_unpack _); vm_compute; exact I).
  exact (Hf a v Hv).
Qed.

Lemma genesis_roundtrip_witness :
  ∃ gs, ExportGenesis w_init = (w_init, Ok gs) ∧
    InitGenesis info6 gs (mkPState (ps_bank w_init) ∅ None []) =
      (mkPState (ps_bank w_init) (ps_frac w_init) (ps_rem w_init) [], Ok tt).
Proof.
  apply (genesis_roundtrip info6 info6_valid w_init);
    first [w_safe | apply w_init_encodable | run].
Defined.

Lemma InitGenesis_backed_witness :
  surplus info6 w_init = 0 ∨ (gs_Balances w_genesis = [] ∧ gs_Remainder w_genesis = Some 0).
Proof.
  apply (InitGenesis_backed info6 info6_valid w_genesis w_empty); [done|apply w_init_run].
Defined.

Lemma GetTotalSumFractionalBalances_spec_witness :
  GetTotalSumFractionalBalances w_init = (w_init, Ok (map_sum (ps_frac w_init))).
Proof.
  apply (GetTotalSumFractionalBalances_spec info6); first [w_safe | run].
Defined.

Definition info18 : EvmCoinInfo := mkEvmCoinInfo "airl" "airl" "irl" 18.

Lemma info18_valid : valid_coin_info info18.
Proof. split; cbn; done || lia. Qed.

Lemma SumExtendedCoin_doubles_witness :
  SumExtendedCoin info18 [mkCoin "airl" 5] w_init = (w_init, Ok (mkCoin "airl" 10)).
Proof. apply (SumExtendedCoin_doubles info18 info18_valid [mkCoin "airl" 5]); run. Defined.

Lemma setEVMCoinInfo_not_atomic_witness :
  let c := mkCoinConfig None None in
  let bad := mkEvmCoinInfo EmptyString "aatom" "atom" 6 in
  is_ok (setEVMCoinInfo bad c).2 = false ∧
  (setEVMCoinInfo info6 (setEVMCoinInfo bad c).1).2 = Err (errorf ErrOther "EVM coin info already set").
Proof.
  apply (setEVMCoinInfo_not_atomic (mkEvmCoinInfo EmptyString "aatom" "atom" 6) info6 (mkCoinConfig None None));
    run.
Defined.

Lemma ConvertAmountTo18Decimals256Int_exact_witness :
  ConvertAmountTo18Decimals256Int info6 7 = ConvertAmountTo18DecimalsBigInt info6 7 mod u256_max ∧
  (7 * coin_factor info6 < u256_max →
   ConvertAmountTo18Decimals256Int info6 7 = ConvertAmountTo18DecimalsBigInt info6 7).
Proof. apply (ConvertAmountTo18Decimals256Int_exact info6 7); [apply info6_valid|run]. Defined.

(** * Behaviours the code allows *)

(** [SendCoinsFromModuleToModule] does not refuse the module itself as the
    sender: from a solvent state it can take the reserve's backing away, which
    [SendCoinsFromModuleToAccount] is written to prevent. *)
Theorem module_to_module_drains_reserve :
  safe info6 w_init ∧
  ∃ s', SendCoinsFromModuleToModule info6 ModuleName "evm" [mkCoin "uatom" 1] w_init = (s', Ok tt) ∧
    ¬ solvent info6 s'.
Proof.
  split; [exact w_init_safe|]. eexists. split; [run_ok|].
  intros [Hp _]. revert Hp. apply Z.lt_nge. run.
Qed.

(** When the borrow of a send fails, the error prints the balance left after
    the whole coins were moved (0.6 coins), not the 5.6 the sender could spend
    when it called. *)
Theorem insufficient_error_prints_moved_balance :
  ext_spend info6 w_init "alice" = 56 * 10 ^ 11 ∧
  (SendCoins info6 "alice" "bob" (aatom (57 * 10 ^ 11)) w_init).2 =
    Err (mkError ErrInsufficientFunds "spendable balance is smaller than"
           [("aatom", 6 * 10 ^ 11); ("aatom", 57 * 10 ^ 11)]).
Proof. split; run. Qed.
