(* ===== verification/SnapshotStore.v ===== *)
(** The stack of cache stores behind the EVM's snapshots: x/vm/store/snapshotkv
    (one key-value store) and x/vm/store/snapshotmulti (all of them, with a
    common head).

    [cachekv] and the stores below it are SDK code: a class of operations with
    the laws of a write-back cache.  Reads are compared by what they return, so
    the laws hold up to the equivalence of stores with equal reads. *)

From S2P Require Import Prelude.

(** * Cache layers *)

Class CacheKV (K V KV L : Type) : Type := {
  kv_get : KV → K → option V;
  (** [cachekv.NewStore]: a layer with nothing cached *)
  cl_new : L;
  cl_set : K → V → L → L;
  cl_delete : K → L → L;
  (** the parent after [Write] of the layer *)
  cl_flush : L → KV → KV;
  (** [Write] of a layer whose parent is a layer too *)
  cl_merge : L → L → L
}.

(** Stores with equal reads. *)
Definition kv_equiv `{CacheKV K V KV L} (a b : KV) : Prop := ∀ k, kv_get a k = kv_get b k.

Class CacheKVLaws (K V KV L : Type) `{CacheKV K V KV L} `{EqDecision K} : Prop := {
  flush_new kv : kv_equiv (cl_flush cl_new kv) kv;
  flush_set k v l kv k' :
    kv_get (cl_flush (cl_set k v l) kv) k' = if decide (k' = k) then Some v else kv_get (cl_flush l kv) k';
  flush_delete k l kv k' :
    kv_get (cl_flush (cl_delete k l) kv) k' = if decide (k' = k) then None else kv_get (cl_flush l kv) k';
  flush_merge t b kv : kv_equiv (cl_flush (cl_merge t b) kv) (cl_flush t (cl_flush b kv));
  flush_proper l a b : kv_equiv a b → kv_equiv (cl_flush l a) (cl_flush l b)
}.

#[global] Instance kv_equivalence `{CacheKV K V KV L} : Equivalence (kv_equiv (KV:=KV)).
Proof.
  split; [done|intros a b Hab k; by rewrite Hab|intros a b c Hab Hbc k; by rewrite Hab, Hbc].
Qed.

#[global] Instance flush_kv_proper `{CacheKVLaws K V KV L} l :
  Proper (kv_equiv ==> kv_equiv) (cl_flush l).
Proof. intros ???. by apply flush_proper. Qed.

(** * snapshotkv *)

Module SnapshotKV.
Section store.
Context `{CacheKV K V KV L}.

(** The parent of the initial store, the initial store, and the stack with
    its top last. *)
Record Store : Type := mkStore {
  parent : KV;
  initialStore : L;
  cacheStores : list L
}.

Definition NewStore (p : KV) (store : L) : Store := mkStore p store [].

(** What reads through the top of the stack return. *)
Definition view (s : Store) : KV :=
  foldl (λ kv l, cl_flush l kv) (cl_flush (initialStore s) (parent s)) (cacheStores s).

(** [cs.CurrentStore()] as a target of writes: the function updates the layer
    the call returns. *)
Definition CurrentStore (f : L → L) : M Store unit := modify (λ s,
  match last (cacheStores s) with
  | None => mkStore (parent s) (f (initialStore s)) []
  | Some top =>
      mkStore (parent s) (initialStore s) (take (length (cacheStores s) - 1) (cacheStores s) ++ [f top])
  end).

Definition Get (k : K) : M Store (option V) := gets (λ s, kv_get (view s) k).
Definition Set_ (k : K) (v : V) : M Store unit := CurrentStore (cl_set k v).
Definition Delete (k : K) : M Store unit := CurrentStore (cl_delete k).

(** The loop of [Commit]: each layer, from the top down, is written to the one
    below and is then empty; the bottom one is written to the initial store. *)
Fixpoint commit_layers (layers : list L) (initial : L) : L :=
  match layers with
  | [] => initial
  | l :: above => cl_merge (commit_layers above l) initial
  end.

Definition Commit : M Store unit := modify (λ s,
  mkStore (cl_flush (commit_layers (cacheStores s) (initialStore s)) (parent s)) cl_new []).

Definition Snapshot : M Store Z :=
  modify (λ s, mkStore (parent s) (initialStore s) (cacheStores s ++ [cl_new])) >>!
  gets (λ s, Z.of_nat (length (cacheStores s)) - 1).

Definition RevertToSnapshot (target : Z) : M Store unit := λ s,
  if (target <? 0) || (target >=? Z.of_nat (length (cacheStores s)))
  then (s, Panic "snapshot index out of bound")
  else (mkStore (parent s) (initialStore s) (take (Z.to_nat target) (cacheStores s)), Ok tt).
End store.
Arguments Store : clear implicits.
End SnapshotKV.

(** * snapshotmulti *)

Module SnapshotMulti.
Section store.
Context `{CacheKV K V KV L}.

(** Store keys are identified by their names; [storeKeys] is the ordered list
    the loops run over. *)
Record Store : Type := mkStore {
  stores : gmap string (SnapshotKV.Store KV L);
  storeKeys : list string;
  head : Z
}.

Definition InitialHead : Z := 0.

Definition NewStore (cms : gmap string (KV * L)) (sortedKeys : list string) : outcome Store :=
  (fix loop (keys : list string) (acc : gmap string (SnapshotKV.Store KV L)) :=
     match keys with
     | [] => Ok (mkStore acc sortedKeys InitialHead)
     | key :: r =>
         match cms !! key with
         | None => Panic "kv store has not been registered"
         | Some (p, l) => loop r (<[key := SnapshotKV.NewStore p l]> acc)
         end
     end) sortedKeys ∅.

(** [s.stores[key].op()]: a missing key is a nil interface. *)
Definition on_store {A} (key : string) (op : M (SnapshotKV.Store KV L) A) : M Store A := λ s,
  match stores s !! key with
  | None => (s, Panic "nil pointer dereference")
  | Some st => let '(st', o) := op st in
               (mkStore (<[key := st']> (stores s)) (storeKeys s) (head s), o)
  end.

(** [for _, key := range s.storeKeys]. *)
Definition each_store (op : M (SnapshotKV.Store KV L) unit) : M Store unit :=
  let! keys := gets storeKeys in for_each keys (λ key, on_store key op).

Definition set_head (h : Z) : M Store unit := modify (λ s, mkStore (stores s) (storeKeys s) h).

Definition Snapshot : M Store Z :=
  each_store (let! _ := SnapshotKV.Snapshot in ret tt) >>!
  let! h := gets head in
  set_head (h + 1) >>!
  ret (h + 1 - 1).

Definition RevertToSnapshot (target : Z) : M Store unit :=
  each_store (SnapshotKV.RevertToSnapshot target) >>!
  set_head target.

(** [CacheMultiStore] and the methods that call it return the store itself:
    the state is shared, and there is no second value to model. *)
Definition CacheMultiStore : M Store unit := let! _ := Snapshot in ret tt.
Definition CacheWrap : M Store unit := CacheMultiStore.
Definition CacheWrapWithTrace : M Store unit := CacheWrap.
Definition CacheMultiStoreWithVersion (_ : Z) : M Store unit := ret tt.

(** [GetStore] and [GetKVStore], as a read and as a target of writes. *)
Definition registered (key : string) : M Store unit := λ s,
  match stores s !! key with
  | None => (s, Panic "kv store has not been registered in stores")
  | Some _ => (s, Ok tt)
  end.
Definition GetKVStore_read (key : string) (k : K) : M Store (option V) :=
  registered key >>! on_store key (SnapshotKV.Get k).
Definition GetKVStore_write (key : string) (f : L → L) : M Store unit :=
  registered key >>! on_store key (SnapshotKV.CurrentStore f).

Definition TracingEnabled : bool := false.
Definition LatestVersion : M Store Z := gets head.

Definition Write : M Store unit :=
  each_store SnapshotKV.Commit >>! set_head InitialHead.
End store.
Arguments Store : clear implicits.
End SnapshotMulti.
