(* ===== verification/SnapshotThms.v ===== *)
(** What the snapshot stores promise the EVM: reverting restores exactly the
    store that was current at the snapshot, committing persists exactly the
    current view, and the stores of a multistore never fall out of step. *)

From S2P Require Import Prelude.
From S2P Require Import SnapshotStore.

(** * One store *)

Section kv.
Context `{CacheKVLaws K V KV L}.
Import SnapshotKV.
Implicit Types (s : Store KV L).

(** What happens to a store between a snapshot and its revert. *)
Inductive kv_op : Type :=
  | KPut (k : K) (v : V)
  | KDel (k : K)
  | KSnap
  | KRevert (target : Z).

Definition run_kv (op : kv_op) : M (Store KV L) unit :=
  match op with
  | KPut k v => Set_ k v
  | KDel k => Delete k
  | KSnap => let! _ := Snapshot in ret tt
  | KRevert t => RevertToSnapshot t
  end.

Inductive kv_runs (above : Z) : list kv_op → Store KV L → Store KV L → Prop :=
  | kv_runs_nil s : kv_runs above [] s s
  | kv_runs_cons op ops s s1 s2 :
      match op with KRevert t => above < t | _ => True end →
      run_kv op s = (s1, Ok tt) → kv_runs above ops s1 s2 → kv_runs above (op :: ops) s s2.

(** [s'] still has the first [n] layers of [s] below at least one other. *)
Record keeps (n : nat) s s' : Prop := {
  kp_parent : parent s' = parent s;
  kp_initial : initialStore s' = initialStore s;
  kp_layers : take n (cacheStores s') = take n (cacheStores s);
  kp_len : (n < length (cacheStores s'))%nat
}.

Lemma keeps_trans n s1 s2 s3 : keeps n s1 s2 → keeps n s2 s3 → keeps n s1 s3.
Proof. intros [] []. split; congruence. Qed.

Lemma keeps_write n (f : L → L) s s' :
  (n < length (cacheStores s))%nat → CurrentStore f s = (s', Ok tt) → keeps n s s'.
Proof.
  intros Hn [= <-]. destruct (last (cacheStores s)) as [top|] eqn:Hl.
  - split; cbn; [done..| |].
    + rewrite take_app_le by (rewrite length_take; lia). rewrite take_take. f_equal. lia.
    + rewrite length_app, length_take. cbn. lia.
  - apply last_None in Hl. rewrite Hl in Hn. cbn in Hn. lia.
Qed.

Lemma keeps_snapshot n s s' i :
  (n ≤ length (cacheStores s))%nat → Snapshot s = (s', Ok i) → keeps n s s'.
Proof.
  intros Hn [= <- _]. split; cbn; [done..| |].
  - by rewrite take_app_le.
  - rewrite length_app. cbn. lia.
Qed.

Lemma keeps_revert n t s s' :
  Z.of_nat n < t → RevertToSnapshot t s = (s', Ok tt) → keeps n s s'.
Proof.
  unfold RevertToSnapshot. intros Ht. destruct (_ || _) eqn:E; [done|]. intros [= <-].
  apply orb_false_iff in E as [E1%Z.ltb_ge E2]. rewrite Z.geb_leb in E2. apply Z.leb_gt in E2.
  split; cbn; [done..| |].
  - rewrite take_take. f_equal. lia.
  - rewrite length_take. lia.
Qed.

Lemma keeps_op n op s s' :
  (n < length (cacheStores s))%nat →
  match op with KRevert t => Z.of_nat n < t | _ => True end →
  run_kv op s = (s', Ok tt) → keeps n s s'.
Proof.
  intros Hn Ht E. destruct op as [k v|k| |t]; cbn [run_kv] in E.
  - by eapply keeps_write.
  - by eapply keeps_write.
  - apply bind_Ok_inv in E as (s1 & i & E1 & [= ->]). eapply keeps_snapshot; [lia|done].
  - by eapply keeps_revert.
Qed.

Lemma keeps_runs n ops s s' :
  (n < length (cacheStores s))%nat → kv_runs (Z.of_nat n) ops s s' → keeps n s s'.
Proof.
  intros Hn Hr. induction Hr as [|op ops s s1 s2 Hop E Hr IH]; [by split|].
  assert (keeps n s s1) as Hk by by eapply keeps_op.
  eapply keeps_trans; [done|]. apply IH, Hk.
Qed.

Lemma keeps_restore s s' :
  keeps (length (cacheStores s)) s s' →
  RevertToSnapshot (Z.of_nat (length (cacheStores s))) s' = (s, Ok tt).
Proof.
  intros [Hp Hi Hl Hn]. unfold RevertToSnapshot.
  destruct (Z.ltb_spec (Z.of_nat (length (cacheStores s))) 0); [lia|].
  destruct (Z.geb_spec (Z.of_nat (length (cacheStores s))) (Z.of_nat (length (cacheStores s')))); [lia|].
  cbn. rewrite Nat2Z.id, Hl, Hp, Hi, take_ge by lia. by destruct s.
Qed.

Lemma snapshot_run s :
  Snapshot s = (mkStore (parent s) (initialStore s) (cacheStores s ++ [cl_new]),
                Ok (Z.of_nat (length (cacheStores s)))).
Proof.
  unfold Snapshot. rewrite (bind_Ok (modify _) _ _ _ _ eq_refl). unfold gets. cbn.
  rewrite length_app. cbn. do 2 f_equal. lia.
Qed.

(** Taking a snapshot is invisible to reads. *)
Lemma snapshot_view s s' i : Snapshot s = (s', Ok i) → kv_equiv (view s') (view s).
Proof.
  rewrite snapshot_run. intros [= <- _]. unfold view. cbn. rewrite foldl_app. cbn. apply flush_new.
Qed.

(** Merging the stack downwards is flushing it upwards. *)
Lemma commit_layers_view layers initial kv :
  kv_equiv (cl_flush (commit_layers layers initial) kv)
           (foldl (λ kv l, cl_flush l kv) (cl_flush initial kv) layers).
Proof.
  revert initial kv. induction layers as [|l above IH]; intros initial kv; cbn; [done|].
  rewrite flush_merge. apply IH.
Qed.

Lemma view_write f s s' :
  CurrentStore f s = (s', Ok tt) →
  ∃ l kv, view s = cl_flush l kv ∧ view s' = cl_flush (f l) kv.
Proof.
  intros [= <-]. unfold view. destruct (last (cacheStores s)) as [top|] eqn:Hl.
  - apply last_Some in Hl as [ls Hls]. rewrite Hls, length_app. cbn.
    rewrite take_app_length' by lia. exists top. rewrite !foldl_app. by eexists.
  - apply last_None in Hl. rewrite Hl. by exists (initialStore s), (parent s).
Qed.

(** After [Snapshot] returned [i], whatever is written, deleted, snapshotted
    and reverted above [i], [RevertToSnapshot(i)] restores the store that was
    there before the snapshot, and does not panic. *)
Theorem kv_snapshot_revert s s1 s2 i ops :
  Snapshot s = (s1, Ok i) → kv_runs i ops s1 s2 →
  RevertToSnapshot i s2 = (s, Ok tt).
Proof.
  intros E Hr. pose proof (snapshot_run s) as E'. rewrite E in E'. injection E' as Hs1 ->.
  apply keeps_restore. eapply keeps_trans; [by eapply keeps_snapshot|].
  apply (keeps_runs _ ops); [|done]. rewrite Hs1. cbn. rewrite length_app. cbn. lia.
Qed.

(** [Commit] leaves in the parent exactly what reads through the top of the
    stack returned, an empty stack, and the same reads. *)
Theorem kv_commit_persists s :
  ∃ s', Commit s = (s', Ok tt) ∧ kv_equiv (parent s') (view s) ∧
    cacheStores s' = [] ∧ kv_equiv (view s') (view s).
Proof.
  eexists. split; [done|]. cbn. split_and!; [apply commit_layers_view|done|].
  unfold view at 1. cbn. rewrite flush_new. apply commit_layers_view.
Qed.

(** A read after a write or a delete returns what was written, and other
    keys are untouched. *)
Theorem kv_read_your_writes k v k' s :
  (Set_ k v >>! Get k') s =
    ((Set_ k v s).1, Ok (if decide (k' = k) then Some v else kv_get (view s) k')) ∧
  (Delete k >>! Get k') s =
    ((Delete k s).1, Ok (if decide (k' = k) then None else kv_get (view s) k')).
Proof.
  split; unfold Set_, Delete.
  - destruct (CurrentStore (cl_set k v) s) as [s' o] eqn:E. assert (o = Ok tt) as -> by by inversion E.
    erewrite bind_Ok by exact E. unfold Get, gets. cbn.
    destruct (view_write _ _ _ E) as (l & kv & -> & ->). by rewrite flush_set.
  - destruct (CurrentStore (cl_delete k) s) as [s' o] eqn:E. assert (o = Ok tt) as -> by by inversion E.
    erewrite bind_Ok by exact E. unfold Get, gets. cbn.
    destruct (view_write _ _ _ E) as (l & kv & -> & ->). by rewrite flush_delete.
Qed.
End kv.

(** * All stores *)

Section multi.
Context `{CacheKVLaws K V KV L}.
Import SnapshotMulti.
Implicit Types (s : Store KV L) (st : SnapshotKV.Store KV L).

Abbreviation depth st := (length (SnapshotKV.cacheStores st)).

(** Every registered key has a store, and all stacks have the height of the
    head. *)
Record aligned s : Prop := {
  al_nodup : NoDup (storeKeys s);
  al_keys : ∀ key, key ∈ storeKeys s ↔ is_Some (stores s !! key);
  al_depth : ∀ key st, stores s !! key = Some st → Z.of_nat (depth st) = head s;
  al_head : 0 ≤ head s
}.

Lemma for_each_store (op : M (SnapshotKV.Store KV L) unit) (f : SnapshotKV.Store KV L → SnapshotKV.Store KV L)
    keys s :
  NoDup keys → (∀ key, key ∈ keys → is_Some (stores s !! key)) →
  (∀ key st, key ∈ keys → stores s !! key = Some st → op st = (f st, Ok tt)) →
  ∃ m, for_each keys (λ key, on_store key op) s = (mkStore m (storeKeys s) (head s), Ok tt) ∧
    ∀ key, m !! key = if decide (key ∈ keys) then f <$> (stores s !! key) else stores s !! key.
Proof.
  revert s. induction keys as [|key keys IH]; intros s Hnd Hsome Hop; cbn.
  { exists (stores s). split; [by destruct s|]. intros. by case_decide; [set_solver|]. }
  apply NoDup_cons in Hnd as [Hni Hnd].
  destruct (Hsome key ltac:(set_solver)) as [st Hst].
  rewrite (bind_Ok _ _ s (mkStore (<[key := f st]> (stores s)) (storeKeys s) (head s)) tt);
    [|unfold on_store; rewrite Hst; by rewrite (Hop key st) by set_solver].
  destruct (IH (mkStore (<[key := f st]> (stores s)) (storeKeys s) (head s))) as (m & -> & Hm); [done|..].
  - intros k Hk. cbn. apply lookup_insert_is_Some'. right. apply Hsome. set_solver.
  - intros k st' Hk. cbn. rewrite lookup_insert_ne by set_solver. intros. apply (Hop k); [set_solver|done].
  - exists m. split; [done|]. intros k. rewrite Hm. cbn.
    destruct (decide (k = key)) as [->|Hk].
    + rewrite decide_False, decide_True, lookup_insert_eq, Hst by set_solver. done.
    + rewrite lookup_insert_ne by done. repeat case_decide; try done; set_solver.
Qed.

(** A loop over all keys maps every store. *)
Lemma each_store_run (op : M (SnapshotKV.Store KV L) unit) f s :
  aligned s → (∀ key st, stores s !! key = Some st → op st = (f st, Ok tt)) →
  each_store op s = (mkStore (f <$> stores s) (storeKeys s) (head s), Ok tt).
Proof.
  intros [Hnd Hk _ _] Hop. unfold each_store. rewrite (bind_Ok (gets _) _ s s _ eq_refl).
  destruct (for_each_store op f (storeKeys s) s) as (m & -> & Hm); [done|intros; by apply Hk|eauto|].
  do 2 f_equal. apply map_eq. intros key. rewrite Hm, lookup_fmap. case_decide as Hin; [done|].
  destruct (stores s !! key) eqn:E; [|done]. destruct Hin. apply Hk. by rewrite E.
Qed.

Definition snap st : SnapshotKV.Store KV L :=
  SnapshotKV.mkStore (SnapshotKV.parent st) (SnapshotKV.initialStore st) (SnapshotKV.cacheStores st ++ [cl_new]).
Definition cut (n : Z) st : SnapshotKV.Store KV L :=
  SnapshotKV.mkStore (SnapshotKV.parent st) (SnapshotKV.initialStore st)
    (take (Z.to_nat n) (SnapshotKV.cacheStores st)).

Lemma Snapshot_run s :
  aligned s → Snapshot s = (mkStore (snap <$> stores s) (storeKeys s) (head s + 1), Ok (head s)).
Proof.
  intros Ha. unfold Snapshot. erewrite bind_Ok.
  2:{ apply (each_store_run _ snap); [done|]. intros key st _.
      erewrite bind_Ok by apply snapshot_run. done. }
  rewrite (bind_Ok (gets _) _ _ _ _ eq_refl), (bind_Ok (set_head _) _ _ _ _ eq_refl). cbn.
  unfold ret. do 2 f_equal. lia.
Qed.

Lemma Revert_run t s :
  aligned s → 0 ≤ t < head s →
  RevertToSnapshot t s = (mkStore (cut t <$> stores s) (storeKeys s) t, Ok tt).
Proof.
  intros Ha Ht. unfold RevertToSnapshot. erewrite bind_Ok.
  2:{ apply (each_store_run _ (cut t)); [done|]. intros key st Hst.
      pose proof (al_depth _ Ha key st Hst). unfold SnapshotKV.RevertToSnapshot.
      destruct (Z.ltb_spec t 0); [lia|]. destruct (Z.geb_spec t (Z.of_nat (depth st))); [lia|]. done. }
  done.
Qed.

Lemma Revert_panics t s :
  aligned s → storeKeys s ≠ [] → ¬ (0 ≤ t < head s) →
  RevertToSnapshot t s = (s, Panic "snapshot index out of bound").
Proof.
  intros Ha Hne Ht. unfold RevertToSnapshot, each_store. apply bind_Panic.
  rewrite (bind_Ok (gets _) _ s s _ eq_refl).
  destruct s as [m keys h]. destruct keys as [|key keys]; [done|]. cbn [for_each storeKeys].
  apply bind_Panic. unfold on_store. cbn [stores].
  destruct (proj1 (al_keys _ Ha key)) as [st Hst]; [cbn; set_solver|]. cbn in Hst. rewrite Hst.
  pose proof (al_depth _ Ha _ _ Hst) as Hd. cbn in Hd. unfold SnapshotKV.RevertToSnapshot.
  assert ((t <? 0) || (t >=? Z.of_nat (depth st)) = true) as ->.
  { cbn in Ht. apply orb_true_iff. rewrite Z.ltb_lt, Z.geb_leb, Z.leb_le. lia. }
  cbn. by rewrite insert_id.
Qed.

Lemma NewStore_aligned (cms : gmap string (KV * L)) keys s :
  NoDup keys → NewStore cms keys = Ok s → aligned s.
Proof.
  intros Hnd. unfold NewStore.
  match goal with |- ?loop keys ∅ = _ → _ => enough (∀ ks (acc : gmap string (SnapshotKV.Store KV L)),
    loop ks acc = Ok s →
    (∀ key st, acc !! key = Some st → depth st = 0%nat) →
    storeKeys s = keys ∧ head s = 0 ∧
    (∀ key, is_Some (stores s !! key) ↔ key ∈ ks ∨ is_Some (acc !! key)) ∧
    (∀ key st, stores s !! key = Some st → depth st = 0%nat)) as Hloop end.
  { intros E. apply Hloop in E as (Hk & Hh & Hs & Hd); [|intros ??; by rewrite lookup_empty].
    split; [by rewrite Hk| |intros key st Hst; rewrite (Hd key st Hst), Hh; done|lia].
    intros key. rewrite Hk, Hs, lookup_empty. split; [auto|]. intros [?|[? [=]]]. done. }
  induction ks as [|key ks IH]; intros acc; cbn.
  - intros [= <-] Hacc. split_and!; try done. intros key. cbn. set_solver.
  - destruct (cms !! key) as [[p l]|]; [|done]. intros E Hacc.
    apply IH in E as (Hk & Hh & Hs & Hd).
    + split_and!; try done. intros k. rewrite Hs, lookup_insert_is_Some', elem_of_cons. naive_solver.
    + intros k st [[<- <-]|[_ ?]]%lookup_insert_Some; [done|eauto].
Qed.

Lemma aligned_fmap f s h :
  aligned s → 0 ≤ h → (∀ key st, stores s !! key = Some st → Z.of_nat (depth (f st)) = h) →
  aligned (mkStore (f <$> stores s) (storeKeys s) h).
Proof.
  intros [Hnd Hk Hd Hh] Hpos Hf. split; cbn; [done| |..|done].
  - intros key. rewrite lookup_fmap, fmap_is_Some. apply Hk.
  - intros key st. rewrite lookup_fmap. intros (st' & Hst & ->)%fmap_Some. eauto.
Qed.

(** What a transaction does to the multistore, including the cache contexts
    that precompiles open on it. *)
Inductive multi_op : Type :=
  | MPut (key : string) (k : K) (v : V)
  | MDel (key : string) (k : K)
  | MSnap
  | MCache
  | MRevert (target : Z).

Definition run_multi (op : multi_op) : M (Store KV L) unit :=
  match op with
  | MPut key k v => GetKVStore_write key (cl_set k v)
  | MDel key k => GetKVStore_write key (cl_delete k)
  | MSnap => let! _ := Snapshot in ret tt
  | MCache => CacheMultiStore
  | MRevert t => RevertToSnapshot t
  end.

Inductive multi_runs (above : Z) : list multi_op → Store KV L → Store KV L → Prop :=
  | multi_runs_nil s : multi_runs above [] s s
  | multi_runs_cons op ops s s1 s2 :
      match op with MRevert t => above < t < head s | _ => True end →
      run_multi op s = (s1, Ok tt) → multi_runs above ops s1 s2 → multi_runs above (op :: ops) s s2.

Record mkeeps (n : nat) s s' : Prop := {
  mk_aligned : aligned s';
  mk_keys : storeKeys s' = storeKeys s;
  mk_head : Z.of_nat n < head s';
  mk_stores : map_relation (λ _, keeps n) (λ _ _, False) (λ _ _, False) (stores s) (stores s')
}.

Lemma map_keeps n (m m' : gmap string (SnapshotKV.Store KV L)) :
  map_relation (λ _, keeps n) (λ _ _, False) (λ _ _, False) m m' ↔
  ∀ key, option_Forall2 (keeps n) (m !! key) (m' !! key).
Proof.
  unfold map_relation. apply forall_proper. intros key.
  destruct (m !! key), (m' !! key); cbn; split; intros Hk; try done;
    first [by constructor | by inversion Hk].
Qed.

Lemma mkeeps_trans n s1 s2 s3 : mkeeps n s1 s2 → mkeeps n s2 s3 → mkeeps n s1 s3.
Proof.
  intros [_ K1 _ S1] [A2 K2 H2 S2]. split; [done|congruence|done|].
  rewrite map_keeps in *. intros key. specialize (S1 key). specialize (S2 key).
  destruct S1; inversion S2; constructor. by eapply keeps_trans.
Qed.

Lemma mkeeps_fmap n f s h :
  aligned s → Z.of_nat n < h →
  (∀ key st, stores s !! key = Some st → Z.of_nat (depth (f st)) = h ∧ keeps n st (f st)) →
  mkeeps n s (mkStore (f <$> stores s) (storeKeys s) h).
Proof.
  intros Ha Hn Hf. split; cbn; [|done|done|].
  - apply aligned_fmap; [done|lia|]. intros key st Hst. by destruct (Hf key st Hst).
  - apply map_keeps. intros key. rewrite lookup_fmap.
    destruct (stores s !! key) as [st|] eqn:E; constructor. by destruct (Hf key st E).
Qed.

Lemma write_run key (f : L → L) s s' :
  GetKVStore_write key f s = (s', Ok tt) →
  ∃ st st', stores s !! key = Some st ∧ SnapshotKV.CurrentStore f st = (st', Ok tt) ∧
    s' = mkStore (<[key := st']> (stores s)) (storeKeys s) (head s).
Proof.
  unfold GetKVStore_write, registered, on_store, bind.
  destruct (stores s !! key) as [st|] eqn:E; [|done]. rewrite E.
  destruct (SnapshotKV.CurrentStore f st) as [st' o] eqn:Ew. intros [= <- ->]. eauto 6.
Qed.

Lemma write_depth (f : L → L) st st' :
  SnapshotKV.CurrentStore f st = (st', Ok tt) → depth st' = depth st.
Proof.
  intros [= <-]. destruct (last _) as [top|] eqn:Hl; cbn.
  - rewrite length_app, length_take. cbn. apply last_Some in Hl as [? ->]. rewrite length_app. cbn. lia.
  - apply last_None in Hl. by rewrite Hl.
Qed.

Lemma write_aligned key f s s' : aligned s → GetKVStore_write key f s = (s', Ok tt) → aligned s'.
Proof.
  intros [Hnd Hk Hd Hh] (st & st' & Hst & Ew & ->)%write_run. split; cbn; [done|..|done].
  - intros k. rewrite Hk, lookup_insert_is_Some'. naive_solver.
  - intros k st1 [[<- <-]|[_ ?]]%lookup_insert_Some; [|by eapply Hd].
    rewrite (write_depth _ _ _ Ew). by eapply Hd.
Qed.

Lemma mkeeps_write n key f s s' :
  aligned s → Z.of_nat n < head s → GetKVStore_write key f s = (s', Ok tt) → mkeeps n s s'.
Proof.
  intros Ha Hn E. pose proof (write_aligned _ _ _ _ Ha E) as Ha'.
  apply write_run in E as (st & st' & Hst & Ew & ->). split; cbn; [done..|].
  apply map_keeps. intros k. pose proof (al_depth _ Ha) as Hd.
  destruct (decide (k = key)) as [->|].
  - rewrite lookup_insert_eq, Hst. constructor. eapply keeps_write; [|done]. specialize (Hd _ _ Hst). lia.
  - rewrite lookup_insert_ne by done. destruct (stores s !! k) as [st1|] eqn:E1; constructor.
    specialize (Hd _ _ E1). split; done || lia.
Qed.

Lemma mkeeps_snapshot n s : aligned s → Z.of_nat n ≤ head s → mkeeps n s (Snapshot s).1.
Proof.
  intros Ha Hn. rewrite Snapshot_run by done. cbn. apply mkeeps_fmap; [done|lia|].
  intros key st Hst. pose proof (al_depth _ Ha _ _ Hst). split.
  - cbn. rewrite length_app. cbn. lia.
  - eapply keeps_snapshot; [|apply snapshot_run]. lia.
Qed.

Lemma mkeeps_op n op s s' :
  aligned s → Z.of_nat n < head s →
  match op with MRevert t => Z.of_nat n < t < head s | _ => True end →
  run_multi op s = (s', Ok tt) → mkeeps n s s'.
Proof.
  intros Ha Hn Ht E.
  assert (∀ s', (let! _ := Snapshot in ret tt) s = (s', Ok tt) → mkeeps n s s') as Hsnap.
  { intros s1 (s2 & i & E1 & [= ->])%bind_Ok_inv.
    pose proof (mkeeps_snapshot n s Ha ltac:(lia)) as Hk. by rewrite E1 in Hk. }
  destruct op as [key k v|key k| | |t]; cbn [run_multi] in E; try by apply Hsnap.
  - by eapply mkeeps_write.
  - by eapply mkeeps_write.
  - rewrite Revert_run in E by (done || lia). simplify_eq. apply mkeeps_fmap; [done|lia|].
    intros key st Hst. pose proof (al_depth _ Ha _ _ Hst). split.
    + cbn. rewrite length_take. lia.
    + eapply (keeps_revert _ t); [lia|]. unfold SnapshotKV.RevertToSnapshot.
      destruct (Z.ltb_spec t 0); [lia|]. by destruct (Z.geb_spec t (Z.of_nat (depth st))); [lia|].
Qed.

Lemma mkeeps_runs n ops s s' :
  aligned s → Z.of_nat n < head s → multi_runs (Z.of_nat n) ops s s' → mkeeps n s s'.
Proof.
  intros Ha Hn Hr. induction Hr as [s|op ops s s1 s2 Hop E Hr IH].
  - split; [done..|]. apply map_keeps. intros key.
    destruct (stores s !! key) as [st|] eqn:E; constructor.
    pose proof (al_depth _ Ha _ _ E). split; done || lia.
  - assert (mkeeps n s s1) as Hk by by eapply mkeeps_op.
    eapply mkeeps_trans; [done|]. apply IH; apply Hk.
Qed.

Lemma mkeeps_restore s s' :
  aligned s → mkeeps (Z.to_nat (head s)) s s' → RevertToSnapshot (head s) s' = (s, Ok tt).
Proof.
  intros Ha [Ha' Hk Hh Hst]. pose proof (al_head _ Ha). rewrite Revert_run by (done || lia).
  destruct s as [m keys h]. cbn in *. rewrite Hk. do 2 f_equal. apply map_eq. intros key.
  rewrite map_keeps in Hst. specialize (Hst key). rewrite lookup_fmap.
  destruct (m !! key) as [st|] eqn:E; inversion Hst as [? ? Hkp Hx Hy|]; [|done]. cbn. f_equal.
  pose proof (al_depth _ Ha _ _ E) as Hd. cbn in Hd. destruct Hkp as [Hp Hi Hl _].
  unfold cut. rewrite Hp, Hi, Hl, take_ge by lia. by destruct st.
Qed.

(** [NewStore] gives a multistore whose stacks all have the height of the
    head, and no operation lets them fall out of step. *)
Theorem multi_stays_aligned :
  (∀ cms keys s, NoDup keys → NewStore cms keys = Ok s → aligned s) ∧
  ∀ op s s', aligned s → match op with MRevert t => 0 ≤ t < head s | _ => True end →
    run_multi op s = (s', Ok tt) → aligned s'.
Proof.
  split; [apply NewStore_aligned|]. intros op s s' Ha Ht E.
  assert (∀ s', (let! _ := Snapshot in ret tt) s = (s', Ok tt) → aligned s') as Hsnap.
  { intros s1 (s2 & i & E1 & [= ->])%bind_Ok_inv. pose proof (al_head _ Ha).
    pose proof (mkeeps_snapshot 0 s Ha ltac:(lia)) as [Hk _ _ _]. by rewrite E1 in Hk. }
  destruct op as [key k v|key k| | |t]; cbn [run_multi] in E; try by apply Hsnap.
  - by eapply write_aligned.
  - by eapply write_aligned.
  - rewrite Revert_run in E by done. simplify_eq. apply aligned_fmap; [done|lia|].
    intros key st Hst. pose proof (al_depth _ Ha _ _ Hst). cbn. rewrite length_take. lia.
Qed.

(** C38: after the multistore's [Snapshot] returned [i], writes to any of its
    stores, further snapshots, cache contexts opened on it and reverts above
    [i] are all undone by [RevertToSnapshot(i)], which restores every store. *)
Theorem multi_snapshot_revert s s1 s2 i ops :
  aligned s → Snapshot s = (s1, Ok i) → multi_runs i ops s1 s2 →
  RevertToSnapshot i s2 = (s, Ok tt).
Proof.
  intros Ha E Hr. pose proof (Snapshot_run s Ha) as E'. rewrite E in E'. injection E' as Hs1 ->.
  pose proof (al_head _ Ha). apply mkeeps_restore; [done|].
  assert (mkeeps (Z.to_nat (head s)) s s1) as Hk
    by (pose proof (mkeeps_snapshot (Z.to_nat (head s)) s Ha ltac:(lia)) as Hk; by rewrite E in Hk).
  eapply mkeeps_trans; [done|]. apply (mkeeps_runs _ ops); [apply Hk|apply Hk|].
  by rewrite Z2Nat.id by lia.
Qed.

(** A revert to an index that is not a live snapshot panics before any
    store is touched, and no other revert panics. *)
Theorem multi_revert_bounds t s :
  aligned s → storeKeys s ≠ [] →
  RevertToSnapshot t s =
    if decide (0 ≤ t < head s)
    then (mkStore (cut t <$> stores s) (storeKeys s) t, Ok tt)
    else (s, Panic "snapshot index out of bound").
Proof.
  intros Ha Hne. case_decide as Ht; [by apply Revert_run|].
  by apply Revert_panics.
Qed.

(** [Write] commits every store's whole stack, not only the layer of the
    cache context it was called for: each parent then reads as the store did,
    the head is back at zero and every earlier snapshot index is refused. *)
Theorem multi_Write_commits_everything s :
  aligned s → storeKeys s ≠ [] →
  ∃ s', Write s = (s', Ok tt) ∧ head s' = 0 ∧
    (∀ key st, stores s !! key = Some st → ∃ st', stores s' !! key = Some st' ∧
       kv_equiv (SnapshotKV.parent st') (SnapshotKV.view st) ∧ SnapshotKV.cacheStores st' = []) ∧
    ∀ t, RevertToSnapshot t s' = (s', Panic "snapshot index out of bound").
Proof.
  intros Ha Hne. pose (f := λ st, (SnapshotKV.Commit st).1).
  exists (mkStore (f <$> stores s) (storeKeys s) 0).
  assert (aligned (mkStore (f <$> stores s) (storeKeys s) 0)) as Ha'.
  { by apply aligned_fmap. }
  split_and!; [|done|..].
  - unfold Write. by erewrite bind_Ok by (by apply (each_store_run _ f)).
  - intros key st Hst. cbn. rewrite lookup_fmap, Hst. cbn. eexists. split; [done|].
    split; [apply commit_layers_view|done].
  - intros t. apply Revert_panics; cbn; [done|done|lia].
Qed.
End multi.
