(* ===== verification/SnapshotWit.v ===== *)
(** A concrete write-back cache, a finite map of pending writes, and the theorems
    of SnapshotThms.v applied at concrete runs on it. *)

From S2P Require Import Prelude.
From S2P Require Import SnapshotStore.
From S2P Require Import SnapshotThms.

Definition layer_over (w : option (option Z)) (v : option Z) : option Z :=
  match w with Some o => o | None => v end.

#[global] Instance c_cache : CacheKV string Z (gmap string Z) (gmap string (option Z)) := {
  kv_get kv k := kv !! k;
  cl_new := ∅;
  cl_set k v l := <[k := Some v]> l;
  cl_delete k l := <[k := None]> l;
  cl_flush l kv := merge layer_over l kv;
  cl_merge t b := t ∪ b
}.

Lemma c_lookup (l : gmap string (option Z)) (kv : gmap string Z) k :
  merge layer_over l kv !! k = layer_over (l !! k) (kv !! k).
Proof. rewrite lookup_merge. by destruct (l !! k), (kv !! k). Qed.

#[global] Instance c_cache_laws : CacheKVLaws string Z (gmap string Z) (gmap string (option Z)).
Proof.
  split; unfold kv_equiv; cbn.
  - intros kv k. rewrite c_lookup. by rewrite lookup_empty.
  - intros k v l kv k'. rewrite !c_lookup. case_decide; subst.
    + by rewrite lookup_insert_eq.
    + by rewrite lookup_insert_ne.
  - intros k l kv k'. rewrite !c_lookup. case_decide; subst.
    + by rewrite lookup_insert_eq.
    + by rewrite lookup_insert_ne.
  - intros t b kv k. rewrite !c_lookup, lookup_union. by destruct (t !! k), (b !! k).
  - intros l a b Hab k. by rewrite !c_lookup, Hab.
Qed.

Abbreviation cstore := (SnapshotKV.Store (gmap string Z) (gmap string (option Z))).
Abbreviation cmulti := (SnapshotMulti.Store (gmap string Z) (gmap string (option Z))).

Definition k0 : cstore := SnapshotKV.mkStore {["x" := 1]} {["y" := Some 2]} [].
Definition k1 : cstore := (SnapshotKV.Snapshot k0).1.
Definition k2 : cstore := (run_kv (KPut "x" 9) k1).1.

Lemma kv_snapshot_revert_witness : SnapshotKV.RevertToSnapshot 0 k2 = (k0, Ok tt).
Proof.
  apply (kv_snapshot_revert k0 k1 k2 0 [KPut "x" 9]); [reflexivity|].
  eapply kv_runs_cons; [done|reflexivity|]. constructor.
Defined.

Lemma kv_commit_persists_witness :
  ∃ s', SnapshotKV.Commit k2 = (s', Ok tt) ∧ kv_equiv (SnapshotKV.parent s') (SnapshotKV.view k2) ∧
    SnapshotKV.cacheStores s' = [] ∧ kv_equiv (SnapshotKV.view s') (SnapshotKV.view k2).
Proof. exact (kv_commit_persists k2). Defined.

Lemma kv_read_your_writes_witness :
  (SnapshotKV.Set_ "x" 7 >>! SnapshotKV.Get "x") k2 = ((SnapshotKV.Set_ "x" 7 k2).1, Ok (Some 7)) ∧
  (SnapshotKV.Delete "x" >>! SnapshotKV.Get "x") k2 = ((SnapshotKV.Delete "x" k2).1, Ok None).
Proof. exact (kv_read_your_writes "x" 7 "x" k2). Defined.

(** Two stores, as the bank's and the EVM's. *)
Definition m0 : cmulti :=
  SnapshotMulti.mkStore (list_to_map [("bank", k0); ("evm", k0)]) ["bank"; "evm"] 0.

Lemma m0_stores key st : SnapshotMulti.stores m0 !! key = Some st → (key = "bank" ∨ key = "evm") ∧ st = k0.
Proof.
  unfold m0. cbn. rewrite !lookup_insert_Some, lookup_empty. naive_solver.
Qed.

Lemma m0_aligned : aligned m0.
Proof.
  split; [|..|done].
  - by apply (bool_decide_unpack _).
  - intros key. split.
    + cbn. rewrite !elem_of_cons, elem_of_nil. intros [->|[->|[]]]; by eexists.
    + intros [st [[->| ->] _]%m0_stores]; cbn; set_solver.
  - intros key st [_ ->]%m0_stores. done.
Qed.

Definition m1 : cmulti := (SnapshotMulti.Snapshot m0).1.
Definition m2 : cmulti := (run_multi (MPut "bank" "x" 9) m1).1.
Definition m3 : cmulti := (run_multi MCache m2).1.

Lemma multi_stays_aligned_witness : aligned (SnapshotMulti.Snapshot m0).1.
Proof.
  apply (proj2 (multi_stays_aligned (K:=string) (V:=Z)) MSnap m0 _ m0_aligned I). reflexivity.
Defined.

Lemma multi_snapshot_revert_witness : SnapshotMulti.RevertToSnapshot 0 m3 = (m0, Ok tt).
Proof.
  apply (multi_snapshot_revert m0 m1 m3 0 [MPut "bank" "x" 9; MCache]);
    [apply m0_aligned|reflexivity|].
  eapply multi_runs_cons; [done|reflexivity|]. eapply multi_runs_cons; [done|reflexivity|]. constructor.
Defined.

Lemma multi_revert_bounds_witness :
  SnapshotMulti.RevertToSnapshot 0 m0 = (m0, Panic "snapshot index out of bound").
Proof. apply (multi_revert_bounds 0 m0 m0_aligned). discriminate. Defined.

Lemma multi_Write_commits_everything_witness :
  ∃ s', SnapshotMulti.Write m0 = (s', Ok tt) ∧ SnapshotMulti.head s' = 0 ∧
    (∀ key st, SnapshotMulti.stores m0 !! key = Some st →
       ∃ st', SnapshotMulti.stores s' !! key = Some st' ∧
       kv_equiv (SnapshotKV.parent st') (SnapshotKV.view st) ∧ SnapshotKV.cacheStores st' = []) ∧
    ∀ t, SnapshotMulti.RevertToSnapshot t s' = (s', Panic "snapshot index out of bound").
Proof. apply (multi_Write_commits_everything m0 m0_aligned). discriminate. Defined.
