(* ===== verification/AccessList.v ===== *)
(** The access list (x/vm/statedb/access_list.go) and the transient storage
    (transient_storage.go) of a transaction. *)

From S2P Require Import Prelude.

(** [common.Address] and [common.Hash] are fixed-width byte arrays; they are their
    big-endian values, whose order is [bytes.Compare]'s. *)
Abbreviation Address := Z (only parsing).
Abbreviation Hash := Z (only parsing).

Definition zero_hash : Hash := 0.

(** * The access list *)

Module AccessList.

Record accessList : Type := mkAccessList {
  addresses : gmap Address Z;
  slots : list (gset Hash)
}.

Definition newAccessList : accessList := mkAccessList ∅ [].

Definition ContainsAddress (al : accessList) (address : Address) : bool :=
  bool_decide (is_Some (addresses al !! address)).

(** [al.slots[idx]]; an index out of range panics. *)
Definition slot_at (al : accessList) (idx : Z) : option (gset Hash) :=
  if idx <? 0 then None else slots al !! Z.to_nat idx.

Definition Contains (al : accessList) (address : Address) (slot : Hash) : outcome (bool * bool) :=
  match addresses al !! address with
  | None => Ok (false, false)
  | Some idx =>
      if idx =? -1 then Ok (true, false)
      else match slot_at al idx with
           | None => Panic "index out of range"
           | Some m => Ok (true, bool_decide (slot ∈ m))
           end
  end.

Definition AddAddress (address : Address) : M accessList bool := λ al,
  match addresses al !! address with
  | Some _ => (al, Ok false)
  | None => (mkAccessList (<[address := -1]> (addresses al)) (slots al), Ok true)
  end.

Definition AddSlot (address : Address) (slot : Hash) : M accessList (bool * bool) := λ al,
  let fresh (addrChange : bool) :=
    (mkAccessList (<[address := Z.of_nat (length (slots al))]> (addresses al)) (slots al ++ [{[slot]}]),
     Ok (addrChange, true)) in
  match addresses al !! address with
  | None => fresh true
  | Some idx =>
      if idx =? -1 then fresh false
      else match slot_at al idx with
           | None => (al, Panic "index out of range")
           | Some m =>
               if decide (slot ∈ m) then (al, Ok (false, false))
               else (mkAccessList (addresses al) (<[Z.to_nat idx := {[slot]} ∪ m]> (slots al)),
                     Ok (false, true))
           end
  end.

Definition DeleteSlot (address : Address) (slot : Hash) : M accessList unit := λ al,
  match addresses al !! address with
  | None => (al, Panic "reverting slot change, address not present in list")
  | Some idx =>
      match slot_at al idx with
      | None => (al, Panic "index out of range")
      | Some m =>
          let m' := m ∖ {[slot]} in
          if decide (m' = ∅)
          then (mkAccessList (<[address := -1]> (addresses al)) (take (Z.to_nat idx) (slots al)), Ok tt)
          else (mkAccessList (addresses al) (<[Z.to_nat idx := m']> (slots al)), Ok tt)
      end
  end.

Definition DeleteAddress (address : Address) : M accessList unit :=
  modify (λ al, mkAccessList (delete address (addresses al)) (slots al)).

(** Every index points to a non-empty set of slots. *)
Definition wf (al : accessList) : Prop :=
  ∀ address idx, addresses al !! address = Some idx →
    idx = -1 ∨ (0 ≤ idx ∧ ∃ m, slots al !! Z.to_nat idx = Some m ∧ m ≠ ∅).

Lemma wf_new : wf newAccessList.
Proof. intros a idx Ha. cbn in Ha. by rewrite lookup_empty in Ha. Qed.

Lemma AddAddress_undo address al al' :
  AddAddress address al = (al', Ok true) → DeleteAddress address al' = (al, Ok tt).
Proof.
  unfold AddAddress. destruct (addresses al !! address) eqn:E; [done|]. intros [= <-].
  unfold DeleteAddress, modify. cbn. rewrite delete_insert_id by done. by destruct al.
Qed.

Lemma AddAddress_false address al al' : AddAddress address al = (al', Ok false) → al' = al.
Proof. unfold AddAddress. destruct (addresses al !! address); by intros [= <-]. Qed.

Lemma AddAddress_wf address al al' b : wf al → AddAddress address al = (al', Ok b) → wf al'.
Proof.
  intros Hwf. unfold AddAddress. destruct (addresses al !! address); intros [= <- _]; [done|].
  intros a idx. cbn. rewrite lookup_insert_Some. intros [[_ <-]|[_ ?]]; [by left|eauto].
Qed.

(** Deleting the slot just added restores the list, up to the address entry the
    same call may have added. *)
Lemma AddSlot_undo address slot al al' ac :
  wf al → AddSlot address slot al = (al', Ok (ac, true)) →
  ∃ al1, DeleteSlot address slot al' = (al1, Ok tt) ∧
    (if ac then addresses al !! address = None ∧ DeleteAddress address al1 = (al, Ok tt) else al1 = al).
Proof.
  intros Hwf. unfold AddSlot.
  assert (∀ b, (b = false → addresses al !! address = Some (-1)) →
    ∃ al1, DeleteSlot address slot
      (mkAccessList (<[address := Z.of_nat (length (slots al))]> (addresses al)) (slots al ++ [{[slot]}]))
      = (al1, Ok tt) ∧ al1 = mkAccessList (<[address := -1]> (addresses al)) (slots al)) as Hfresh.
  { intros b _. unfold DeleteSlot, slot_at. cbn. rewrite lookup_insert_eq.
    destruct (Z.ltb_spec (Z.of_nat (length (slots al))) 0); [lia|].
    rewrite Nat2Z.id, lookup_app_r, Nat.sub_diag by lia. cbn.
    rewrite decide_True by set_solver. rewrite insert_insert_eq, take_app_length. eauto. }
  destruct (addresses al !! address) as [idx|] eqn:Ha.
  - destruct (Z.eqb_spec idx (-1)) as [->|Hne].
    + intros [= <- <-]. destruct (Hfresh false) as (al1 & HD & ->); [done|].
      eexists. split; [done|]. cbn. rewrite insert_id by done. by destruct al.
    + destruct (slot_at al idx) as [m|] eqn:Hm; [|done]. case_decide as Hs; [done|].
      intros [= <- <-]. unfold DeleteSlot, slot_at in *. cbn. rewrite Ha.
      destruct (Z.ltb_spec idx 0); [done|].
      destruct (Hwf address idx Ha) as [?|[_ (m' & Hm' & Hm0)]]; [lia|]. simplify_eq.
      rewrite list_lookup_insert_eq by (by apply lookup_lt_Some in Hm).
      rewrite decide_False by set_solver. eexists. split; [done|].
      rewrite list_insert_insert_eq. replace (({[slot]} ∪ m) ∖ {[slot]}) with m by set_solver.
      rewrite list_insert_id by done. by destruct al.
  - intros [= <- <-]. destruct (Hfresh true) as (al1 & HD & ->); [done|].
    eexists. split; [done|]. split; [done|]. unfold DeleteAddress, modify. cbn.
    rewrite delete_insert_eq, delete_id by done. by destruct al.
Qed.

Lemma AddSlot_false address slot al al' ac :
  AddSlot address slot al = (al', Ok (ac, false)) → al' = al ∧ ac = false.
Proof.
  unfold AddSlot. destruct (addresses al !! address) as [idx|]; [|done].
  destruct (idx =? -1); [done|]. destruct (slot_at al idx); [|done]. case_decide; [|done].
  by intros [= <- <-].
Qed.

Lemma AddSlot_wf address slot al al' r : wf al → AddSlot address slot al = (al', Ok r) → wf al'.
Proof.
  intros Hwf. unfold AddSlot.
  assert (wf (mkAccessList (<[address := Z.of_nat (length (slots al))]> (addresses al)) (slots al ++ [{[slot]}]))) as Hf.
  { intros a idx. cbn. rewrite lookup_insert_Some. intros [[_ <-]|[_ Ha]].
    - right. split; [lia|]. exists {[slot]}. split; [|set_solver].
      rewrite Nat2Z.id, lookup_app_r, Nat.sub_diag by lia. done.
    - destruct (Hwf a idx Ha) as [?|[? (m & Hm & ?)]]; [by left|right]. split; [done|].
      exists m. by rewrite lookup_app_l by (by apply lookup_lt_Some in Hm). }
  destruct (addresses al !! address) as [idx|] eqn:Ha; [|by intros [= <- _]].
  destruct (idx =? -1); [by intros [= <- _]|].
  destruct (slot_at al idx) as [m|] eqn:Hm; [|done]. case_decide; intros [= <- _]; [done|].
  intros a idx' Ha'. cbn in *. destruct (Hwf a idx' Ha') as [?|[? (m' & Hm' & ?)]]; [by left|right].
  split; [done|]. destruct (decide (Z.to_nat idx' = Z.to_nat idx)) as [->|].
  - exists ({[slot]} ∪ m). split; [|set_solver].
    unfold slot_at in Hm. destruct (idx <? 0); [done|]. by rewrite list_lookup_insert_eq by (by apply lookup_lt_Some in Hm).
  - exists m'. by rewrite list_lookup_insert_ne.
Qed.

(** ** The access list as two sets *)

(** Distinct addresses do not share a slot set. *)
Definition unshared (al : accessList) : Prop :=
  ∀ a a' idx, addresses al !! a = Some idx → addresses al !! a' = Some idx → idx ≠ -1 → a = a'.

(** The list stands for a set of warm addresses and a set of warm slots. *)
Record abs (al : accessList) (A : gset Address) (P : gset (Address * Hash)) : Prop := {
  abs_wf : wf al;
  abs_unshared : unshared al;
  abs_addr : ∀ a, ContainsAddress al a = bool_decide (a ∈ A);
  abs_slot : ∀ a k, Contains al a k = Ok (bool_decide (a ∈ A), bool_decide ((a, k) ∈ P))
}.

Lemma abs_new : abs newAccessList ∅ ∅.
Proof.
  split; [apply wf_new|..].
  - intros a a' idx Ha. cbn in Ha. by rewrite lookup_empty in Ha.
  - intros a. unfold ContainsAddress. cbn. by rewrite lookup_empty.
  - intros a k. unfold Contains. cbn. by rewrite lookup_empty.
Qed.

Lemma abs_view al A P : abs al A P ↔
  wf al ∧ unshared al ∧
  (∀ a, match addresses al !! a with
   | None => (a ∉ A) ∧ ∀ k, (a, k) ∉ P
   | Some idx => a ∈ A ∧ (if idx =? -1 then ∀ k, (a, k) ∉ P
                          else ∃ m, slot_at al idx = Some m ∧ ∀ k, k ∈ m ↔ (a, k) ∈ P)
   end).
Proof.
  split.
  - intros [Hwf Hun HA HP]. split_and!; [done..|]. intros a. specialize (HA a). symmetry in HA. specialize (HP a).
    unfold ContainsAddress, Contains in *. destruct (addresses al !! a) as [idx|].
    + rewrite (bool_decide_true (is_Some (Some idx))) in HA by by eexists. apply bool_decide_eq_true in HA.
      split; [done|]. destruct (idx =? -1).
      * intros k Hk. specialize (HP k). rewrite (bool_decide_true ((a, k) ∈ P)) in HP by done. congruence.
      * destruct (slot_at al idx) as [m|]; [|by specialize (HP 0)]. exists m. split; [done|]. intros k.
        specialize (HP k). injection HP as _ HP. by rewrite <-(bool_decide_eq_true ((a, k) ∈ P)), <-HP, bool_decide_eq_true.
    + rewrite (bool_decide_false (is_Some None)) in HA by (by intros []). apply bool_decide_eq_false in HA.
      split; [done|]. intros k Hk. specialize (HP k). rewrite (bool_decide_true ((a, k) ∈ P)) in HP by done.
      congruence.
  - intros (Hwf & Hun & Hv). split; [done|done|..].
    + intros a. specialize (Hv a). unfold ContainsAddress. apply bool_decide_ext.
      destruct (addresses al !! a); [|by split; [intros []|destruct Hv]].
      split; [intros _; apply Hv|by eexists].
    + intros a k. specialize (Hv a). unfold Contains. destruct (addresses al !! a) as [idx|].
      * destruct Hv as [HA Hv]. rewrite (bool_decide_true (a ∈ A)) by done. destruct (idx =? -1).
        -- by rewrite bool_decide_false by apply Hv.
        -- destruct Hv as (m & -> & Hm). do 2 f_equal. apply bool_decide_ext, Hm.
      * destruct Hv as [? Hk]. rewrite !bool_decide_false by auto. done.
Qed.

Lemma AddAddress_abs a al A P :
  abs al A P → ∃ al' b, AddAddress a al = (al', Ok b) ∧ abs al' ({[a]} ∪ A) P.
Proof.
  intros Habs. pose proof (proj1 (abs_view _ _ _) Habs) as (Hwf & Hun & Hv).
  unfold AddAddress. destruct (addresses al !! a) as [idx|] eqn:Ha.
  - eexists _, _. split; [done|]. specialize (Hv a). rewrite Ha in Hv.
    replace ({[a]} ∪ A) with A by set_solver. done.
  - eexists _, _. split; [done|]. apply abs_view. split_and!.
    + apply (AddAddress_wf a al _ true Hwf). unfold AddAddress. by rewrite Ha.
    + intros a1 a2 idx. cbn. rewrite !lookup_insert_Some. intros [[? ?]|[? ?]] [[? ?]|[? ?]] ?; try congruence.
      by eapply Hun.
    + intros x. cbn. destruct (decide (x = a)) as [->|Hne].
      * rewrite lookup_insert_eq. cbn. split; [set_solver|]. specialize (Hv a). rewrite Ha in Hv. apply Hv.
      * rewrite lookup_insert_ne by done. specialize (Hv x). unfold slot_at in *. cbn.
        destruct (addresses al !! x) as [idx|]; set_solver.
Qed.

(** A slot whose address has no set yet gets one of its own. *)
Lemma AddSlot_fresh_abs a k al A P :
  abs al A P → (addresses al !! a = None ∨ addresses al !! a = Some (-1)) →
  abs (mkAccessList (<[a := Z.of_nat (length (slots al))]> (addresses al)) (slots al ++ [{[k]}]))
    ({[a]} ∪ A) ({[(a, k)]} ∪ P).
Proof.
  intros Habs Ha. pose proof (proj1 (abs_view _ _ _) Habs) as (Hwf & Hun & Hv).
  assert (∀ x idx, addresses al !! x = Some idx → idx ≠ -1 → 0 ≤ idx < Z.of_nat (length (slots al))) as Hlt.
  { intros x idx Hx Hne. destruct (Hwf x idx Hx) as [|(? & m & Hm & _)]; [done|].
    apply lookup_lt_Some in Hm. lia. }
  apply abs_view. split_and!.
  - set (al' := mkAccessList _ _).
    assert (∃ ac, AddSlot a k al = (al', Ok (ac, true))) as [ac E].
    { unfold AddSlot. destruct Ha as [-> | ->]; by eexists. }
    by apply (AddSlot_wf _ _ _ _ _ Hwf E).
  - intros a1 a2 idx. cbn. rewrite !lookup_insert_Some.
    intros [[? <-]|[? H1]] [[? H2]|[? H2]] Hne; subst; try congruence.
    + apply Hlt in H2; [lia|done].
    + apply Hlt in H1; lia.
    + by eapply Hun.
  - intros x. cbn. unfold slot_at. cbn. destruct (decide (x = a)) as [->|Hne].
    + rewrite lookup_insert_eq. split; [set_solver|].
      destruct (Z.eqb_spec (Z.of_nat (length (slots al))) (-1)); [lia|].
      destruct (Z.ltb_spec (Z.of_nat (length (slots al))) 0); [lia|].
      exists {[k]}. rewrite Nat2Z.id, lookup_app_r, Nat.sub_diag by lia. split; [done|].
      intros k'. specialize (Hv a). assert ((a, k') ∉ P); [|set_solver].
      destruct Ha as [E|E]; rewrite E in Hv; by apply Hv.
    + rewrite lookup_insert_ne by done. specialize (Hv x).
      destruct (addresses al !! x) as [idx|] eqn:Hx; [|set_solver].
      destruct (Z.eqb_spec idx (-1)) as [->|Hi]; [set_solver|].
      destruct Hv as (HA & m & Hm & Hk). split; [set_solver|]. exists m. specialize (Hlt x idx Hx Hi).
      unfold slot_at in Hm. destruct (idx <? 0); [done|].
      rewrite lookup_app_l by lia. split; [done|]. set_solver.
Qed.

Lemma AddSlot_abs a k al A P :
  abs al A P → ∃ al' r, AddSlot a k al = (al', Ok r) ∧ abs al' ({[a]} ∪ A) ({[(a, k)]} ∪ P).
Proof.
  intros Habs. pose proof (proj1 (abs_view _ _ _) Habs) as (Hwf & Hun & Hv). unfold AddSlot.
  destruct (addresses al !! a) as [idx|] eqn:Ha;
    [|eexists _, _; split; [done|]; apply AddSlot_fresh_abs; auto].
  destruct (Z.eqb_spec idx (-1)) as [->|Hi];
    [eexists _, _; split; [done|]; apply AddSlot_fresh_abs; auto|].
  pose proof (Hv a) as Hva. rewrite Ha in Hva. destruct (Z.eqb_spec idx (-1)); [done|].
  destruct Hva as (HA & m & Hm & Hk). rewrite Hm. case_decide as Hin.
  - eexists _, _. split; [done|]. replace ({[a]} ∪ A) with A by set_solver.
    by replace ({[(a, k)]} ∪ P) with P by (apply Hk in Hin; set_solver).
  - eexists _, _. split; [done|]. apply abs_view. split_and!; [|done|].
    + apply (AddSlot_wf a k al _ (false, true) Hwf). unfold AddSlot. rewrite Ha, Hm.
      destruct (Z.eqb_spec idx (-1)); [done|]. by rewrite decide_False.
    + intros x. cbn. specialize (Hv x). destruct (addresses al !! x) as [i|] eqn:Hx; [|set_solver].
      destruct Hv as [HAx Hvx]. split; [set_solver|].
      destruct (Z.eqb_spec i (-1)) as [->|Hi']; [set_solver|]. destruct Hvx as (mx & Hmx & Hkx).
      unfold slot_at in *. cbn in *. destruct (Z.ltb_spec i 0); [done|]. destruct (Z.ltb_spec idx 0); [done|].
      destruct (decide (i = idx)) as [->|Hne].
      * assert (x = a) as -> by (by eapply Hun). exists ({[k]} ∪ m).
        rewrite list_lookup_insert_eq by (by apply lookup_lt_Some in Hm). split; [done|]. set_solver.
      * exists mx. rewrite list_lookup_insert_ne by lia. split; [done|].
        assert (x ≠ a) by congruence. set_solver.
Qed.
End AccessList.

(** * Transient storage *)

Module Transient.

Abbreviation transientStorage := (gmap Address (gmap Hash Hash)) (only parsing).

Definition Set_ (t : transientStorage) (addr : Address) (key value : Hash) : transientStorage :=
  if value =? zero_hash
  then match t !! addr with
       | None => t
       | Some storage =>
           let storage' := delete key storage in
           if decide (storage' = ∅) then delete addr t else <[addr := storage']> t
       end
  else <[addr := <[key := value]> (default ∅ (t !! addr))]> t.

Definition Get (t : transientStorage) (addr : Address) (key : Hash) : Hash :=
  match t !! addr with Some val => default zero_hash (val !! key) | None => zero_hash end.

(** No empty account map and no zero value is stored. *)
Definition wf (t : transientStorage) : Prop :=
  map_Forall (λ _ st, st ≠ ∅ ∧ map_Forall (λ _ v, v ≠ zero_hash) st) t.

Lemma Get_Set t a k v a' k' :
  wf t → Get (Set_ t a k v) a' k' = if decide (a' = a ∧ k' = k) then v else Get t a' k'.
Proof.
  intros Hwf. unfold Get, Set_. destruct (Z.eqb_spec v zero_hash) as [->|Hv].
  - destruct (t !! a) as [st|] eqn:Ha.
    + case_decide as He.
      * destruct (decide (a' = a)) as [->|].
        -- rewrite lookup_delete_eq, Ha. case_decide as Hk; [done|].
           assert (delete k st !! k' = None) as Hd by by rewrite He.
           rewrite lookup_delete_ne in Hd by naive_solver. by rewrite Hd.
        -- rewrite lookup_delete_ne by done. rewrite decide_False by naive_solver. done.
      * destruct (decide (a' = a)) as [->|].
        -- rewrite lookup_insert_eq, Ha. destruct (decide (k' = k)) as [->|].
           ++ by rewrite lookup_delete_eq, decide_True.
           ++ rewrite lookup_delete_ne, decide_False by naive_solver. done.
        -- rewrite lookup_insert_ne by done. rewrite decide_False by naive_solver. done.
    + case_decide as Hd; [|done]. destruct Hd as [-> ->]. by rewrite Ha.
  - destruct (decide (a' = a)) as [->|].
    + rewrite lookup_insert_eq. destruct (decide (k' = k)) as [->|].
      * by rewrite lookup_insert_eq, decide_True.
      * rewrite lookup_insert_ne, decide_False by naive_solver. by destruct (t !! a).
    + rewrite lookup_insert_ne by done. rewrite decide_False by naive_solver. done.
Qed.

Lemma wf_Set t a k v : wf t → wf (Set_ t a k v).
Proof.
  intros Hwf. unfold Set_. destruct (Z.eqb_spec v zero_hash) as [->|Hv].
  - destruct (t !! a) as [st|] eqn:Ha; [|done]. case_decide.
    + by apply map_Forall_delete.
    + apply map_Forall_insert_2; [|done]. split; [done|]. destruct (Hwf a st Ha) as [_ Hst].
      by apply map_Forall_delete.
  - apply map_Forall_insert_2; [|done]. split; [apply insert_non_empty|].
    apply map_Forall_insert_2; [done|]. destruct (t !! a) as [st|] eqn:Ha; cbn; [|apply map_Forall_empty].
    by destruct (Hwf a st Ha).
Qed.

(** Well-formed transient storages are equal when their reads are. *)
Lemma Get_ext t t' : wf t → wf t' → (∀ a k, Get t a k = Get t' a k) → t = t'.
Proof.
  assert (∀ t t' a st, wf t → (∀ a k, Get t a k = Get t' a k) → t !! a = Some st → is_Some (t' !! a)) as Hsome.
  { intros t1 t2 a st Hwf Heq Ha. destruct (Hwf a st Ha) as [Hne Hz].
    destruct (map_choose _ Hne) as (k & v & Hk). specialize (Heq a k). unfold Get in Heq.
    rewrite Ha, Hk in Heq. cbn in Heq. destruct (t2 !! a); [by eexists|].
    by specialize (Hz k v Hk). }
  intros Hwf Hwf' Heq. apply map_eq. intros a.
  destruct (t !! a) as [st|] eqn:Ha, (t' !! a) as [st'|] eqn:Ha'; [|..|done].
  - f_equal. apply map_eq. intros k. specialize (Heq a k). unfold Get in Heq. rewrite Ha, Ha' in Heq.
    destruct (Hwf a st Ha) as [_ Hz], (Hwf' a st' Ha') as [_ Hz'].
    destruct (st !! k) as [v|] eqn:E, (st' !! k) as [v'|] eqn:E'; cbn in Heq; subst; try done.
    + by specialize (Hz k _ E).
    + by specialize (Hz' k _ E').
  - destruct (Hsome t t' a st Hwf Heq Ha). congruence.
  - destruct (Hsome t' t a st' Hwf' (λ a k, eq_sym (Heq a k)) Ha'). congruence.
Qed.

(** Writing the previous value back undoes a write. *)
Lemma Set_undo t a k v : wf t → Set_ (Set_ t a k v) a k (Get t a k) = t.
Proof.
  intros Hwf. apply Get_ext; [by do 2 apply wf_Set|done|].
  intros a' k'. rewrite !Get_Set by (try apply wf_Set; done). repeat case_decide; naive_solver.
Qed.
End Transient.
