(* ===== verification/StateDB.v ===== *)
(** x/vm/statedb: the EVM's view of the chain during one transaction.

    State objects cache accounts and storage over the keeper; every journaled
    change can be undone; stateful precompiles run on a cached multistore that
    the journal can roll back too (statedb.go, state_object.go, journal.go). *)

From S2P Require Import Prelude.
From S2P Require Import AccessList.

Abbreviation bytes := string (only parsing).

(** Keccak is go-ethereum's. *)
Class Crypto : Type := { Keccak256Hash : bytes → Hash }.

Definition EmptyCodeHash `{Crypto} : Hash := Keccak256Hash EmptyString.
Definition IsEmptyCodeHash `{Crypto} (h : Hash) : bool := h =? EmptyCodeHash.

(** * Accounts *)

(** An [Account] as the keeper returns it or as [Account{}]: its pointers may be
    nil. *)
Record RawAccount : Type := mkRawAccount {
  raw_Nonce : Z;
  raw_Balance : option Z;
  raw_CodeHash : option Hash
}.

Definition zero_account : RawAccount := mkRawAccount 0 None None.

(** An [Account] inside a state object, where [newObject] has replaced nils. *)
Record Account : Type := mkAccount {
  Nonce : Z;
  Balance : Z;
  CodeHash : Hash
}.

Abbreviation Storage := (gmap Hash Hash) (only parsing).

(** [Storage.SortedKeys] and [journal.sortedDirties]. *)
Definition sorted_keys {A} (m : gmap Z A) : list Z := merge_sort Z.le (map_to_list m).*1.

(** * The keeper interface

    [St] is the content of a context's multistore. *)
Class Keeper (St : Type) : Type := {
  k_GetAccount : St → Address → option RawAccount;
  k_GetState : St → Address → Hash → Hash;
  k_GetCode : St → Hash → option bytes;
  k_SetAccount : Address → Account → M St unit;
  k_DeleteAccount : Address → M St unit;
  k_SetState : Address → Hash → Hash → St → St;
  k_DeleteState : Address → Hash → St → St;
  k_SetCode : Hash → bytes → St → St;
  k_DeleteCode : Hash → St → St;
  (** the stored slots of an account, in iteration order *)
  k_Storage : St → Address → list (Hash * Hash)
}.

(** * State objects *)

Record stateObject : Type := mkStateObject {
  so_address : Address;
  so_account : Account;
  so_code : option bytes;
  so_originStorage : Storage;
  so_dirtyStorage : Storage;
  so_overrideStorage : option Storage;
  so_dirtyCode : bool;
  so_selfDestructed : bool;
  so_newContract : bool
}.

Definition newObject `{Crypto} (address : Address) (account : RawAccount) : stateObject :=
  mkStateObject address
    (mkAccount (raw_Nonce account) (default 0 (raw_Balance account))
               (default EmptyCodeHash (raw_CodeHash account)))
    None ∅ ∅ None false false false.

Definition so_empty `{Crypto} (s : stateObject) : bool :=
  (Nonce (so_account s) =? 0) && (Balance (so_account s) =? 0)
  && IsEmptyCodeHash (CodeHash (so_account s)).

Definition with_account (a : Account) (s : stateObject) : stateObject :=
  mkStateObject (so_address s) a (so_code s) (so_originStorage s) (so_dirtyStorage s)
    (so_overrideStorage s) (so_dirtyCode s) (so_selfDestructed s) (so_newContract s).
Definition so_setBalance (amount : Z) (s : stateObject) : stateObject :=
  with_account (mkAccount (Nonce (so_account s)) amount (CodeHash (so_account s))) s.
Definition so_setNonce (nonce : Z) (s : stateObject) : stateObject :=
  with_account (mkAccount nonce (Balance (so_account s)) (CodeHash (so_account s))) s.
Definition so_setCode (codeHash : Hash) (code : option bytes) (s : stateObject) : stateObject :=
  mkStateObject (so_address s)
    (mkAccount (Nonce (so_account s)) (Balance (so_account s)) codeHash) code
    (so_originStorage s) (so_dirtyStorage s) (so_overrideStorage s) true
    (so_selfDestructed s) (so_newContract s).
Definition with_code (code : option bytes) (s : stateObject) : stateObject :=
  mkStateObject (so_address s) (so_account s) code (so_originStorage s) (so_dirtyStorage s)
    (so_overrideStorage s) (so_dirtyCode s) (so_selfDestructed s) (so_newContract s).
Definition with_storage (origin dirty : Storage) (override : option Storage) (s : stateObject) : stateObject :=
  mkStateObject (so_address s) (so_account s) (so_code s) origin dirty override
    (so_dirtyCode s) (so_selfDestructed s) (so_newContract s).
Definition with_selfDestructed (b : bool) (s : stateObject) : stateObject :=
  mkStateObject (so_address s) (so_account s) (so_code s) (so_originStorage s) (so_dirtyStorage s)
    (so_overrideStorage s) (so_dirtyCode s) b (so_newContract s).
Definition with_newContract (b : bool) (s : stateObject) : stateObject :=
  mkStateObject (so_address s) (so_account s) (so_code s) (so_originStorage s) (so_dirtyStorage s)
    (so_overrideStorage s) (so_dirtyCode s) (so_selfDestructed s) b.

(** The dirty marker is removed when a slot returns to its original value. *)
Definition so_setState (key value origin : Hash) (s : stateObject) : stateObject :=
  with_storage (so_originStorage s)
    (if value =? origin then delete key (so_dirtyStorage s) else <[key := value]> (so_dirtyStorage s))
    (so_overrideStorage s) s.

Definition so_SetStorage (storage : Storage) (s : stateObject) : stateObject :=
  with_storage ∅ ∅ (Some storage) s.

Definition so_SetStateOverride (key value : Hash) (s : stateObject) : stateObject :=
  with_storage (<[key := value]> (so_originStorage s)) (delete key (so_dirtyStorage s))
    (match so_overrideStorage s with None => None | Some o => Some (<[key := value]> o) end) s.

(** * The journal *)

(** An [sdk.Event]: its type and its attributes, a key and a value each. *)
Record Event : Type := mkEvent {
  ev_Type : string;
  ev_Attributes : list (string * string)
}.

Inductive JournalEntry : Type :=
  | createObjectChange (account : Address)
  | resetObjectChange (prev : stateObject)
  | selfDestructChange (account : Address) (prev : bool) (prevbalance : Z)
  | balanceChange (account : Address) (prev : Z)
  | nonceChange (account : Address) (prev : Z)
  | storageChange (account : Address) (key preValue origValue : Hash)
  | transientStorageChange (account : Address) (key prevalue : Hash)
  | codeChange (account : Address) (prevhash : Hash) (prevcode : option bytes)
  | refundChange (prev : Z)
  | addLogChange
  | accessListAddAccountChange (address : Address)
  | accessListAddSlotChange (address : Address) (slot : Hash)
  | precompileCallChange (snapshot : Z) (events : list Event)
  | createContractChange (account : Address).

Definition Dirtied (e : JournalEntry) : option Address :=
  match e with
  | createObjectChange a | selfDestructChange a _ _ | balanceChange a _ | nonceChange a _
  | storageChange a _ _ _ | codeChange a _ _ => Some a
  | _ => None
  end.

Record journal : Type := mkJournal {
  entries : list JournalEntry;
  dirties : gmap Address Z
}.

Definition newJournal : journal := mkJournal [] ∅.

Definition dirties_incr (e : JournalEntry) (d : gmap Address Z) : gmap Address Z :=
  match Dirtied e with None => d | Some a => <[a := default 0 (d !! a) + 1]> d end.

Definition dirties_decr (e : JournalEntry) (d : gmap Address Z) : gmap Address Z :=
  match Dirtied e with
  | None => d
  | Some a => let n := default 0 (d !! a) - 1 in if n =? 0 then delete a d else <[a := n]> d
  end.

Definition journal_append (e : JournalEntry) (j : journal) : journal :=
  mkJournal (entries j ++ [e]) (dirties_incr e (dirties j)).

(** [reset] truncates the entries and deletes every dirty address. *)
Definition journal_reset (j : journal) : journal :=
  mkJournal [] (foldl (λ d k, delete k d) (dirties j) (sorted_keys (dirties j))).

(** * The state *)

Record Log : Type := mkLog {
  log_Address : Address; log_Topics : list Hash; log_Data : string; log_TxIndex : Z; log_Index : Z
}.
Record revision : Type := mkRevision { rev_id : Z; rev_journalIndex : Z; rev_events : list Event }.
Record TxConfig : Type := mkTxConfig { TxHash : Hash; TxIndex : Z; LogIndex : Z }.

Definition NewTxConfig (thash : Hash) (txIndex logIndex : Z) : TxConfig := mkTxConfig thash txIndex logIndex.
Definition NewEmptyTxConfig : TxConfig := mkTxConfig zero_hash 0 0.

(** The cache context of precompile calls: the contents its snapshot store
    shows, one per layer with the initial store first, and its events. *)
Record CacheCtx (St : Type) : Type := mkCacheCtx { cc_views : list St; cc_events : list Event }.
Arguments mkCacheCtx {St}.
Arguments cc_views {St}.
Arguments cc_events {St}.

Record StateDB (St : Type) : Type := mkDB {
  db_ctx : St;
  db_events : list Event;
  db_cache : option (CacheCtx St);
  (** nil, the closure of [cache] that emits the cache context's events, or the
      closure of [RevertMultiStore] that emits the ones it was given *)
  db_writeCache : option (option (list Event));
  db_transient : gmap Address Storage;
  db_journal : journal;
  db_validRevisions : list revision;
  db_nextRevisionID : Z;
  db_stateObjects : gmap Address stateObject;
  db_txConfig : TxConfig;
  db_refund : Z;
  db_logs : list Log;
  db_accessList : AccessList.accessList;
  db_precompileCallsCounter : Z
}.
Arguments mkDB {St}.
Arguments db_ctx {St}.
Arguments db_events {St}.
Arguments db_cache {St}.
Arguments db_writeCache {St}.
Arguments db_transient {St}.
Arguments db_journal {St}.
Arguments db_validRevisions {St}.
Arguments db_nextRevisionID {St}.
Arguments db_stateObjects {St}.
Arguments db_txConfig {St}.
Arguments db_refund {St}.
Arguments db_logs {St}.
Arguments db_accessList {St}.
Arguments db_precompileCallsCounter {St}.

(** * Operations *)

Section statedb.
Context `{Crypto} {St : Type} `{!Keeper St}.

Abbreviation DB := (StateDB St).

(** Field updates. *)
Definition set_ctx (x : St) (s : DB) : DB :=
  mkDB x (db_events s) (db_cache s) (db_writeCache s) (db_transient s) (db_journal s) (db_validRevisions s) (db_nextRevisionID s) (db_stateObjects s) (db_txConfig s) (db_refund s) (db_logs s) (db_accessList s) (db_precompileCallsCounter s).
Definition set_events (x : list Event) (s : DB) : DB :=
  mkDB (db_ctx s) x (db_cache s) (db_writeCache s) (db_transient s) (db_journal s) (db_validRevisions s) (db_nextRevisionID s) (db_stateObjects s) (db_txConfig s) (db_refund s) (db_logs s) (db_accessList s) (db_precompileCallsCounter s).
Definition set_cache (x : option (CacheCtx St)) (s : DB) : DB :=
  mkDB (db_ctx s) (db_events s) x (db_writeCache s) (db_transient s) (db_journal s) (db_validRevisions s) (db_nextRevisionID s) (db_stateObjects s) (db_txConfig s) (db_refund s) (db_logs s) (db_accessList s) (db_precompileCallsCounter s).
Definition set_writeCache (x : option (option (list Event))) (s : DB) : DB :=
  mkDB (db_ctx s) (db_events s) (db_cache s) x (db_transient s) (db_journal s) (db_validRevisions s) (db_nextRevisionID s) (db_stateObjects s) (db_txConfig s) (db_refund s) (db_logs s) (db_accessList s) (db_precompileCallsCounter s).
Definition set_transient (x : gmap Address Storage) (s : DB) : DB :=
  mkDB (db_ctx s) (db_events s) (db_cache s) (db_writeCache s) x (db_journal s) (db_validRevisions s) (db_nextRevisionID s) (db_stateObjects s) (db_txConfig s) (db_refund s) (db_logs s) (db_accessList s) (db_precompileCallsCounter s).
Definition set_journal (x : journal) (s : DB) : DB :=
  mkDB (db_ctx s) (db_events s) (db_cache s) (db_writeCache s) (db_transient s) x (db_validRevisions s) (db_nextRevisionID s) (db_stateObjects s) (db_txConfig s) (db_refund s) (db_logs s) (db_accessList s) (db_precompileCallsCounter s).
Definition set_validRevisions (x : list revision) (s : DB) : DB :=
  mkDB (db_ctx s) (db_events s) (db_cache s) (db_writeCache s) (db_transient s) (db_journal s) x (db_nextRevisionID s) (db_stateObjects s) (db_txConfig s) (db_refund s) (db_logs s) (db_accessList s) (db_precompileCallsCounter s).
Definition set_nextRevisionID (x : Z) (s : DB) : DB :=
  mkDB (db_ctx s) (db_events s) (db_cache s) (db_writeCache s) (db_transient s) (db_journal s) (db_validRevisions s) x (db_stateObjects s) (db_txConfig s) (db_refund s) (db_logs s) (db_accessList s) (db_precompileCallsCounter s).
Definition set_stateObjects (x : gmap Address stateObject) (s : DB) : DB :=
  mkDB (db_ctx s) (db_events s) (db_cache s) (db_writeCache s) (db_transient s) (db_journal s) (db_validRevisions s) (db_nextRevisionID s) x (db_txConfig s) (db_refund s) (db_logs s) (db_accessList s) (db_precompileCallsCounter s).
Definition set_refund (x : Z) (s : DB) : DB :=
  mkDB (db_ctx s) (db_events s) (db_cache s) (db_writeCache s) (db_transient s) (db_journal s) (db_validRevisions s) (db_nextRevisionID s) (db_stateObjects s) (db_txConfig s) x (db_logs s) (db_accessList s) (db_precompileCallsCounter s).
Definition set_logs (x : list Log) (s : DB) : DB :=
  mkDB (db_ctx s) (db_events s) (db_cache s) (db_writeCache s) (db_transient s) (db_journal s) (db_validRevisions s) (db_nextRevisionID s) (db_stateObjects s) (db_txConfig s) (db_refund s) x (db_accessList s) (db_precompileCallsCounter s).
Definition set_accessList (x : AccessList.accessList) (s : DB) : DB :=
  mkDB (db_ctx s) (db_events s) (db_cache s) (db_writeCache s) (db_transient s) (db_journal s) (db_validRevisions s) (db_nextRevisionID s) (db_stateObjects s) (db_txConfig s) (db_refund s) (db_logs s) x (db_precompileCallsCounter s).
Definition set_precompileCallsCounter (x : Z) (s : DB) : DB :=
  mkDB (db_ctx s) (db_events s) (db_cache s) (db_writeCache s) (db_transient s) (db_journal s) (db_validRevisions s) (db_nextRevisionID s) (db_stateObjects s) (db_txConfig s) (db_refund s) (db_logs s) (db_accessList s) x.

Definition append (e : JournalEntry) : M DB unit :=
  modify (λ s, set_journal (journal_append e (db_journal s)) s).

(** A write through the pointer of a live state object. *)
Definition setStateObject (o : stateObject) : M DB unit :=
  modify (λ s, set_stateObjects (<[so_address o := o]> (db_stateObjects s)) s).

Definition nil_deref {A} : M DB A := panic "nil pointer dereference".

Definition New (ctx : St) (events : list Event) (txConfig : TxConfig) : DB :=
  mkDB ctx events None None ∅ newJournal [] 0 ∅ txConfig 0 [] AccessList.newAccessList 0.

(** ** Objects *)

Definition getStateObject (addr : Address) : M DB (option stateObject) :=
  let! live := gets (λ s, db_stateObjects s !! addr) in
  match live with
  | Some obj => ret (Some obj)
  | None =>
      let! account := gets (λ s, k_GetAccount (db_ctx s) addr) in
      match account with
      | None => ret None
      | Some acc =>
          let obj := newObject addr acc in
          setStateObject obj >>! ret (Some obj)
      end
  end.

Definition createObject (addr : Address) : M DB (stateObject * option stateObject) :=
  let! prev := getStateObject addr in
  let newobj := newObject addr zero_account in
  append (match prev with
          | None => createObjectChange addr
          | Some p => resetObjectChange p
          end) >>!
  setStateObject newobj >>!
  ret (newobj, prev).

Definition getOrNewStateObject (addr : Address) : M DB stateObject :=
  let! o := getStateObject addr in
  match o with
  | Some obj => ret obj
  | None => let! (obj, _) := createObject addr in ret obj
  end.

Definition CreateAccount (addr : Address) : M DB unit :=
  let! (newObj, prev) := createObject addr in
  match prev with
  | None => ret tt
  | Some p => setStateObject (so_setBalance (Balance (so_account p)) newObj)
  end.

Definition CreateContract (address : Address) : M DB unit :=
  let! o := getStateObject address in
  match o with
  | None => nil_deref
  | Some obj =>
      if so_newContract obj then ret tt
      else setStateObject (with_newContract true obj) >>! append (createContractChange address)
  end.

(** ** State object methods *)

Definition so_SetBalance (o : stateObject) (amount : Z) : M DB Z :=
  let prev := Balance (so_account o) in
  append (balanceChange (so_address o) prev) >>!
  setStateObject (so_setBalance amount o) >>!
  ret prev.

Definition so_AddBalance (o : stateObject) (amount : Z) : M DB Z :=
  if amount =? 0 then ret (Balance (so_account o))
  else so_SetBalance o (wrap u256_max (Balance (so_account o) + amount)).

Definition so_SubBalance (o : stateObject) (amount : Z) : M DB Z :=
  if amount =? 0 then ret (Balance (so_account o))
  else so_SetBalance o (wrap u256_max (Balance (so_account o) - amount)).

(** [Code] fills the object's code field; the object is returned with it. *)
Definition so_Code (o : stateObject) : M DB (stateObject * option bytes) :=
  match so_code o with
  | Some c => ret (o, Some c)
  | None =>
      if IsEmptyCodeHash (CodeHash (so_account o)) then ret (o, None)
      else
        let! code := gets (λ s, k_GetCode (db_ctx s) (CodeHash (so_account o))) in
        let o' := with_code code o in
        setStateObject o' >>! ret (o', code)
  end.

Definition so_SetCode (o : stateObject) (codeHash : Hash) (code : option bytes) : M DB unit :=
  let! (o1, prevcode) := so_Code o in
  append (codeChange (so_address o1) (CodeHash (so_account o1)) prevcode) >>!
  setStateObject (so_setCode codeHash code o1).

Definition so_SetNonce (o : stateObject) (nonce : Z) : M DB unit :=
  append (nonceChange (so_address o) (Nonce (so_account o))) >>!
  setStateObject (so_setNonce nonce o).

(** [GetCommittedState] caches what it loads in [originStorage]. *)
Definition so_GetCommittedState (o : stateObject) (key : Hash) : M DB (stateObject * Hash) :=
  match so_overrideStorage o with
  | Some ov => ret (o, default zero_hash (ov !! key))
  | None =>
      match so_originStorage o !! key with
      | Some value => ret (o, value)
      | None =>
          let! value := gets (λ s, k_GetState (db_ctx s) (so_address o) key) in
          let o' := with_storage (<[key := value]> (so_originStorage o)) (so_dirtyStorage o) None o in
          setStateObject o' >>! ret (o', value)
      end
  end.

Definition so_GetState (o : stateObject) (key : Hash) : M DB (stateObject * Hash) :=
  match so_dirtyStorage o !! key with
  | Some value => ret (o, value)
  | None => so_GetCommittedState o key
  end.

Definition so_SetState (o : stateObject) (key value : Hash) : M DB Hash :=
  let! (o1, prev) := so_GetState o key in
  if prev =? value then ret prev
  else
    let! (o2, origin) := so_GetCommittedState o1 key in
    append (storageChange (so_address o2) key prev origin) >>!
    setStateObject (so_setState key value origin o2) >>!
    ret prev.

(** ** Getters *)

(** A getter on the object of an address, or its value for no object. *)
Definition on_object {A} (addr : Address) (none : A) (f : stateObject → M DB A) : M DB A :=
  let! o := getStateObject addr in
  match o with None => ret none | Some obj => f obj end.

Definition Exist (addr : Address) : M DB bool :=
  on_object addr false (λ _, ret true).
Definition Empty (addr : Address) : M DB bool :=
  on_object addr true (λ so, ret (so_empty so)).
Definition GetBalance (addr : Address) : M DB Z :=
  on_object addr 0 (λ so, ret (Balance (so_account so))).
Definition GetNonce (addr : Address) : M DB Z :=
  on_object addr 0 (λ so, ret (Nonce (so_account so))).
Definition GetCode (addr : Address) : M DB (option bytes) :=
  on_object addr None (λ so, let! (_, code) := so_Code so in ret code).
Definition GetCodeSize (addr : Address) : M DB Z :=
  on_object addr 0 (λ so, let! (_, code) := so_Code so in
                          ret (Z.of_nat (String.length (default EmptyString code)))).
Definition GetCodeHash (addr : Address) : M DB Hash :=
  on_object addr zero_hash (λ so, ret (CodeHash (so_account so))).
Definition GetState (addr : Address) (hash : Hash) : M DB Hash :=
  on_object addr zero_hash (λ so, let! (_, v) := so_GetState so hash in ret v).
Definition GetCommittedState (addr : Address) (hash : Hash) : M DB Hash :=
  on_object addr zero_hash (λ so, let! (_, v) := so_GetCommittedState so hash in ret v).
Definition GetStateAndCommittedState (addr : Address) (hash : Hash) : M DB (Hash * Hash) :=
  on_object addr (zero_hash, zero_hash) (λ so,
    let! (so1, v) := so_GetState so hash in
    let! (_, c) := so_GetCommittedState so1 hash in ret (v, c)).
Definition HasSelfDestructed (addr : Address) : M DB bool :=
  on_object addr false (λ so, ret (so_selfDestructed so)).
Definition GetRefund : M DB Z := gets db_refund.
Definition Logs : M DB (list Log) := gets db_logs.
Definition GetTransientState (addr : Address) (key : Hash) : M DB Hash :=
  gets (λ s, Transient.Get (db_transient s) addr key).
Definition IsStorageEmpty (addr : Address) : M DB bool :=
  gets (λ s, match k_Storage (db_ctx s) addr with [] => true | _ => false end).

(** The callback threads an accumulator and says whether to go on; a stored
    slot that is dirty is reported with its dirty value. *)
Fixpoint for_each_storage {T} (dirty : Storage) (l : list (Hash * Hash))
    (cb : Hash → Hash → T → T * bool) (t : T) : T :=
  match l with
  | [] => t
  | (key, value) :: r =>
      let '(t', continue) := cb key (default value (dirty !! key)) t in
      if (continue : bool) then for_each_storage dirty r cb t' else t'
  end.
Definition ForEachStorage {T} (addr : Address) (cb : Hash → Hash → T → T * bool) (t : T) : M DB T :=
  on_object addr t (λ so,
    gets (λ s, for_each_storage (so_dirtyStorage so) (k_Storage (db_ctx s) addr) cb t)).

(** ** Setters *)

Definition AddBalance (addr : Address) (amount : Z) : M DB Z :=
  let! o := getOrNewStateObject addr in so_AddBalance o amount.
Definition SubBalance (addr : Address) (amount : Z) : M DB Z :=
  let! o := getOrNewStateObject addr in
  if amount =? 0 then ret (Balance (so_account o)) else so_SubBalance o amount.
Definition SetBalance (addr : Address) (amount : Z) : M DB unit :=
  let! o := getOrNewStateObject addr in so_SetBalance o amount >>! ret tt.
Definition SetNonce (addr : Address) (nonce : Z) : M DB unit :=
  let! o := getOrNewStateObject addr in so_SetNonce o nonce.
Definition SetCode (addr : Address) (code : option bytes) : M DB (option bytes) :=
  let! o := getOrNewStateObject addr in
  so_SetCode o (Keccak256Hash (default EmptyString code)) code >>!
  ret (so_code o).
Definition SetState (addr : Address) (key value : Hash) : M DB Hash :=
  let! o := getOrNewStateObject addr in so_SetState o key value.
Definition SetStorage (addr : Address) (storage : Storage) : M DB unit :=
  let! o := getOrNewStateObject addr in setStateObject (so_SetStorage storage o).
Definition SetStateOverride (addr : Address) (key value : Hash) : M DB unit :=
  let! o := getOrNewStateObject addr in setStateObject (so_SetStateOverride key value o).

Definition SelfDestruct (addr : Address) : M DB Z :=
  let! o := getStateObject addr in
  match o with
  | None => ret 0
  | Some obj =>
      let prevBalance := Balance (so_account obj) in
      append (selfDestructChange addr (so_selfDestructed obj) prevBalance) >>!
      setStateObject (so_setBalance 0 (with_selfDestructed true obj)) >>!
      ret prevBalance
  end.

Definition SelfDestruct6780 (addr : Address) : M DB (Z * bool) :=
  let! o := getStateObject addr in
  match o with
  | None => ret (0, false)
  | Some obj =>
      if so_newContract obj then let! b := SelfDestruct addr in ret (b, true)
      else ret (Balance (so_account obj), false)
  end.

Definition SetTransientState (addr : Address) (key value : Hash) : M DB unit :=
  let! prev := GetTransientState addr key in
  if prev =? value then ret tt
  else
    append (transientStorageChange addr key prev) >>!
    modify (λ s, set_transient (Transient.Set_ (db_transient s) addr key value) s).

Definition AddLog (addr : Address) (topics : list Hash) (data : string) : M DB unit :=
  append addLogChange >>!
  modify (λ s, set_logs (db_logs s ++ [mkLog addr topics data (TxIndex (db_txConfig s))
    (wrap u64_max (LogIndex (db_txConfig s) + Z.of_nat (length (db_logs s))))]) s).

Definition AddRefund (gas : Z) : M DB unit :=
  let! refund := gets db_refund in
  append (refundChange refund) >>!
  modify (λ s, set_refund (wrap u64_max (db_refund s + gas)) s).

Definition SubRefund (gas : Z) : M DB unit :=
  let! refund := gets db_refund in
  append (refundChange refund) >>!
  if gas >? refund then panic "Refund counter below zero"
  else modify (λ s, set_refund (db_refund s - gas) s).

(** ** Access list *)

Definition al {A} (m : M AccessList.accessList A) : M DB A := zoom db_accessList set_accessList m.

Definition AddAddressToAccessList (addr : Address) : M DB unit :=
  let! added := al (AccessList.AddAddress addr) in
  when added (append (accessListAddAccountChange addr)).

Definition AddSlotToAccessList (addr : Address) (slot : Hash) : M DB unit :=
  let! (addrMod, slotMod) := al (AccessList.AddSlot addr slot) in
  when addrMod (append (accessListAddAccountChange addr)) >>!
  when slotMod (append (accessListAddSlotChange addr slot)).

Definition AddressInAccessList (addr : Address) : M DB bool :=
  gets (λ s, AccessList.ContainsAddress (db_accessList s) addr).
Definition SlotInAccessList (addr : Address) (slot : Hash) : M DB (bool * bool) := λ s,
  (s, AccessList.Contains (db_accessList s) addr slot).

(** [params.Rules], the flags [Prepare] reads. *)
Record Rules : Type := mkRules { IsEIP2929 : bool; IsEIP4762 : bool; IsShanghai : bool }.

Definition Prepare (rules : Rules) (sender coinbase : Address) (dst : option Address)
    (precompiles : list Address) (list : list (Address * list Hash)) : M DB unit :=
  let add a : M DB unit := al (AccessList.AddAddress a) >>! ret tt in
  (if IsEIP2929 rules && IsEIP4762 rules then panic "eip2929 and eip4762 are both activated" else ret tt) >>!
  when (IsEIP2929 rules)
    (modify (set_accessList AccessList.newAccessList) >>!
     add sender >>!
     match dst with None => ret tt | Some d => add d end >>!
     for_each precompiles add >>!
     for_each list (λ '(a, keys),
       add a >>! for_each keys (λ key, al (AccessList.AddSlot a key) >>! ret tt)) >>!
     when (IsShanghai rules) (add coinbase)) >>!
  modify (set_transient ∅).

(** ** The multistore of precompile calls *)

Definition GetContext : M DB St := gets db_ctx.

Definition cache : M DB unit :=
  modify (λ s, set_writeCache (Some None)
                 (set_cache (Some (mkCacheCtx [db_ctx s] [])) s)).

Definition GetCacheContext : M DB unit :=
  let! w := gets db_writeCache in
  match w with None => cache | Some _ => ret tt end.

(** The contract of [Snapshotter]: a snapshot copies the top view, a revert
    drops the layers from its index on. *)
Definition MultiStoreSnapshot : M DB Z := λ s,
  match db_cache s with
  | None => (s, Panic "nil pointer dereference")
  | Some c =>
      match last (cc_views c) with
      | None => (s, Panic "nil pointer dereference")
      | Some top =>
          (set_cache (Some (mkCacheCtx (cc_views c ++ [top]) (cc_events c))) s,
           Ok (Z.of_nat (length (cc_views c)) - 1))
      end
  end.

Definition RevertMultiStore (snapshot : Z) (events : list Event) : M DB unit := λ s,
  match db_cache s with
  | None => (s, Panic "nil pointer dereference")
  | Some c =>
      if (snapshot <? 0) || (snapshot >=? Z.of_nat (length (cc_views c)) - 1)
      then (s, Panic "snapshot index out of bound")
      else (set_writeCache (Some (Some events))
              (set_cache (Some (mkCacheCtx (take (Z.to_nat snapshot + 1) (cc_views c)) (cc_events c))) s),
            Ok tt)
  end.

Definition MaxPrecompileCalls : Z := 20.

(** The counter is a [uint8]. *)
Definition AddPrecompileFn (snapshot : Z) (events : list Event) : M DB unit :=
  append (precompileCallChange snapshot events) >>!
  modify (λ s, set_precompileCallsCounter (wrap u8_max (db_precompileCallsCounter s + 1)) s) >>!
  let! n := gets db_precompileCallsCounter in
  if n >? MaxPrecompileCalls then throw (errorf ErrOther "max calls to precompiles reached")
  else ret tt.

(** ** Reverting *)

(** A write through [s.getStateObject(addr)], whose result may be nil. *)
Definition on_live (addr : Address) (f : stateObject → stateObject) : M DB unit :=
  let! o := getStateObject addr in
  match o with None => nil_deref | Some obj => setStateObject (f obj) end.

Definition Revert (e : JournalEntry) : M DB unit :=
  match e with
  | createContractChange a => on_live a (with_newContract false)
  | precompileCallChange snapshot events => RevertMultiStore snapshot events
  | createObjectChange a => modify (λ s, set_stateObjects (delete a (db_stateObjects s)) s)
  | resetObjectChange prev => setStateObject prev
  | selfDestructChange a prev prevbalance =>
      let! o := getStateObject a in
      match o with
      | None => ret tt
      | Some obj => setStateObject (so_setBalance prevbalance (with_selfDestructed prev obj))
      end
  | balanceChange a prev => on_live a (so_setBalance prev)
  | nonceChange a prev => on_live a (so_setNonce prev)
  | codeChange a prevhash prevcode => on_live a (so_setCode prevhash prevcode)
  | storageChange a key preValue origValue => on_live a (so_setState key preValue origValue)
  | transientStorageChange a key prevalue =>
      modify (λ s, set_transient (Transient.Set_ (db_transient s) a key prevalue) s)
  | refundChange prev => modify (set_refund prev)
  | addLogChange => λ s,
      match db_logs s with
      | [] => (s, Panic "slice bounds out of range")
      | _ => (set_logs (take (length (db_logs s) - 1) (db_logs s)) s, Ok tt)
      end
  | accessListAddAccountChange a => al (AccessList.DeleteAddress a)
  | accessListAddSlotChange a slot => al (AccessList.DeleteSlot a slot)
  end.

(** The loop of [journal.Revert], over the entries to undo, last first. *)
Fixpoint revert_entries (es : list JournalEntry) : M DB unit :=
  match es with
  | [] => ret tt
  | e :: r =>
      Revert e >>!
      modify (λ s, set_journal (mkJournal (entries (db_journal s)) (dirties_decr e (dirties (db_journal s)))) s) >>!
      revert_entries r
  end.

Definition journal_Revert (snapshot : Z) : M DB unit :=
  let! es := gets (λ s, entries (db_journal s)) in
  revert_entries (reverse (drop (Z.to_nat snapshot) es)) >>!
  modify (λ s, set_journal (mkJournal (take (Z.to_nat snapshot) (entries (db_journal s)))
                                      (dirties (db_journal s))) s).

Definition Snapshot : M DB Z :=
  let! id := gets db_nextRevisionID in
  modify (λ s, set_validRevisions
    (db_validRevisions s ++ [mkRevision id (Z.of_nat (length (entries (db_journal s)))) (db_events s)])
    (set_nextRevisionID (id + 1) s)) >>!
  ret id.

(** [sort.Search]: the least index in [[0, n)] at which [f] holds, by bisection.
    Each round halves [j - i], so [n] rounds are enough. *)
Fixpoint search_loop (fuel : nat) (i j : Z) (f : Z → bool) : Z :=
  match fuel with
  | O => i
  | S fuel' =>
      if i <? j then
        let h := (i + j) / 2 in
        if negb (f h) then search_loop fuel' (h + 1) j f else search_loop fuel' i h f
      else i
  end.
Definition Search (n : Z) (f : Z → bool) : Z := search_loop (Z.to_nat n) 0 n f.

Definition RevertToSnapshot (revid : Z) : M DB unit :=
  let! revs := gets db_validRevisions in
  let idx := Search (Z.of_nat (length revs)) (λ i,
    match revs !! Z.to_nat i with Some r => rev_id r >=? revid | None => false end) in
  match revs !! Z.to_nat idx with
  | None => panic "revision id cannot be reverted"
  | Some r =>
      if negb (rev_id r =? revid) then panic "revision id cannot be reverted"
      else
        modify (set_events (rev_events r)) >>!
        journal_Revert (rev_journalIndex r) >>!
        modify (set_validRevisions (take (Z.to_nat idx) revs))
  end.

Definition clearJournalAndRefund : M DB unit :=
  modify (λ s, set_refund 0 (set_nextRevisionID 0 (set_validRevisions []
    (set_journal (journal_reset (db_journal s)) s)))).

(** The loop over the [dirties] map; the addresses are distinct, so its order
    does not matter. *)
Definition Finalise (deleteEmptyObjects : bool) : M DB unit :=
  let! ds := gets (λ s, sorted_keys (dirties (db_journal s))) in
  for_each ds (λ addr,
    let! o := gets (λ s, db_stateObjects s !! addr) in
    match o with
    | None => ret tt
    | Some obj =>
        when (so_selfDestructed obj || (deleteEmptyObjects && so_empty obj))
          (modify (λ s, set_stateObjects (delete (so_address obj) (db_stateObjects s)) s))
    end) >>!
  clearJournalAndRefund.

(** ** Committing *)

(** [common.Hash.Bytes()] is the whole array. *)
Definition Hash_Bytes_len (_ : Hash) : Z := 32.

(** The context a commit writes to. *)
Inductive target : Type := ToCtx | ToCache.

Definition on_target {A} (t : target) (m : M St A) : M DB A := λ s,
  match t with
  | ToCtx => let '(st, o) := m (db_ctx s) in (set_ctx st s, o)
  | ToCache =>
      match db_cache s with
      | None => (s, Panic "nil pointer dereference")
      | Some c =>
          match last (cc_views c) with
          | None => (s, Panic "nil pointer dereference")
          | Some top =>
              let '(st, o) := m top in
              (set_cache (Some (mkCacheCtx (take (length (cc_views c) - 1) (cc_views c) ++ [st])
                                           (cc_events c))) s, o)
          end
      end
  end.

(** One slot: written to the store, recorded as the new origin, and no longer
    dirty when this is the final commit. *)
Definition commit_slot (t : target) (keepDirty : bool) (addr : Address) (key : Hash) : M DB unit :=
  let! o := gets (λ s, db_stateObjects s !! addr) in
  match o with
  | None => nil_deref
  | Some obj =>
      let value := default zero_hash (so_dirtyStorage obj !! key) in
      on_target t (modify (if Hash_Bytes_len value =? 0 then k_DeleteState addr key
                           else k_SetState addr key value)) >>!
      setStateObject (with_storage
        (if Hash_Bytes_len value =? 0 then delete key (so_originStorage obj)
         else <[key := value]> (so_originStorage obj))
        (if keepDirty then so_dirtyStorage obj else delete key (so_dirtyStorage obj))
        (so_overrideStorage obj) obj)
  end.

Definition commit_object (t : target) (keepDirty : bool) (addr : Address) : M DB unit :=
  let! o := gets (λ s, db_stateObjects s !! addr) in
  match o with
  | None => nil_deref
  | Some obj =>
      if so_selfDestructed obj
      then on_target t (k_DeleteAccount (so_address obj))
      else
        match so_code obj with
        | Some code =>
            when (so_dirtyCode obj)
              (on_target t (modify (if bool_decide (code = EmptyString)
                                    then k_DeleteCode (CodeHash (so_account obj))
                                    else k_SetCode (CodeHash (so_account obj)) code)))
        | None => ret tt
        end >>!
        on_target t (k_SetAccount (so_address obj) (so_account obj)) >>!
        for_each (sorted_keys (so_dirtyStorage obj)) (commit_slot t keepDirty addr)
  end.

Definition commitWithCtx (t : target) (keepDirty : bool) : M DB unit :=
  let! ds := gets (λ s, sorted_keys (dirties (db_journal s))) in
  for_each ds (commit_object t keepDirty).

(** The closure of [writeCache]: emit the events, then write the cache through
    to the transaction's context. *)
Definition run_writeCache (events : option (list Event)) : M DB unit := λ s,
  match db_cache s with
  | None => (s, Panic "nil pointer dereference")
  | Some c =>
      match last (cc_views c) with
      | None => (s, Panic "nil pointer dereference")
      | Some top =>
          (set_events (db_events s ++ default (cc_events c) events)
             (set_ctx top (set_cache (Some (mkCacheCtx [top] (cc_events c))) s)), Ok tt)
      end
  end.

Definition Commit : M DB unit :=
  let! w := gets db_writeCache in
  match w with None => ret tt | Some events => run_writeCache events end >>!
  commitWithCtx ToCtx false.

Definition CommitWithCacheCtx : M DB unit := commitWithCtx ToCache true.
End statedb.
