(* ===== verification/StateDBRevert.v ===== *)
(** Reverting the StateDB.

    Reads fill caches, so a reverted state is not the old state but one that
    shows the same: two states are compared by what each account looks like
    through its object or, without one, through the keeper.  Every operation
    appends journal entries whose reverts lead back to such a state, reverts
    respect the comparison, and so any nesting of snapshots and reverts works. *)

From S2P Require Import Prelude.
From S2P Require Import AccessList.
From S2P Require Import StateDB.

Section revert.
Context `{Crypto} {St : Type} `{!Keeper St}.

Abbreviation DB := (StateDB St).
Implicit Types (s t u b : DB) (o : stateObject) (a : Address) (e : JournalEntry).

(** ** What a state shows *)

(** The code an object stands for, loaded or not. *)
Definition code_of (st : St) o : option string :=
  match so_code o with
  | Some c => Some c
  | None => if IsEmptyCodeHash (CodeHash (so_account o)) then None
            else k_GetCode st (CodeHash (so_account o))
  end.

Record obj_view : Type := OV {
  ov_account : Account;
  ov_code : option string;
  ov_dirty : gmap Hash Hash;
  ov_selfDestructed : bool;
  ov_newContract : bool
}.

Definition view_obj (st : St) o : obj_view :=
  OV (so_account o) (code_of st o) (so_dirtyStorage o) (so_selfDestructed o) (so_newContract o).

(** The object an address has, or the one that would be loaded for it. *)
Definition lookup_obj s a : option stateObject :=
  match db_stateObjects s !! a with
  | Some o => Some o
  | None => newObject a <$> k_GetAccount (db_ctx s) a
  end.

Definition obs s a : option obj_view := view_obj (db_ctx s) <$> lookup_obj s a.

(** Everything but the caches, the journal's entries, the revisions and the
    events. *)
Record equiv s t : Prop := {
  eq_ctx : db_ctx s = db_ctx t;
  eq_cache : db_cache s = db_cache t;
  eq_write : db_writeCache s = db_writeCache t;
  eq_transient : db_transient s = db_transient t;
  eq_dirties : dirties (db_journal s) = dirties (db_journal t);
  eq_refund : db_refund s = db_refund t;
  eq_logs : db_logs s = db_logs t;
  eq_al : db_accessList s = db_accessList t;
  eq_tx : db_txConfig s = db_txConfig t;
  eq_obs : ∀ a, obs s a = obs t a
}.

#[global] Instance equiv_equivalence : Equivalence equiv.
Proof.
  split.
  - intros s. by split.
  - intros s t []. split; intros; symmetry; auto.
  - intros s t u [] []. split; intros; etrans; eauto.
Qed.

(** ** Well-formed states *)

(** An object is filed under its address, and what it cached as committed is
    what the keeper has. *)
Record so_ok (st : St) a o : Prop := {
  ok_address : so_address o = a;
  ok_override : so_overrideStorage o = None;
  ok_origin : ∀ k v, so_originStorage o !! k = Some v → v = k_GetState st a k
}.

Definition objs_ok s : Prop := ∀ a o, db_stateObjects s !! a = Some o → so_ok (db_ctx s) a o.

Definition entry_ok (st : St) e : Prop :=
  match e with
  | resetObjectChange prev => so_ok st (so_address prev) prev
  | createObjectChange a => k_GetAccount st a = None
  | _ => True
  end.

Definition live s a : Prop := is_Some (db_stateObjects s !! a).

(** A dirty slot differs from the committed one. *)
Definition dirty_ok s : Prop :=
  ∀ a v k x, obs s a = Some v → ov_dirty v !! k = Some x → x ≠ k_GetState (db_ctx s) a k.

Record db_wf s : Prop := {
  wf_objs : objs_ok s;
  wf_entries : Forall (entry_ok (db_ctx s)) (entries (db_journal s));
  wf_dirty : dirty_ok s;
  wf_al : AccessList.wf (db_accessList s);
  wf_transient : Transient.wf (db_transient s);
  wf_count : map_Forall (λ _ n, 0 < n) (dirties (db_journal s));
  wf_live : ∀ a, is_Some (dirties (db_journal s) !! a) → live s a;
  (** no precompile has run *)
  wf_write : db_writeCache s = None
}.

Lemma so_ok_new st a acc : so_ok st a (newObject a acc).
Proof. split; [done..|]. intros k v. cbn. by rewrite lookup_empty. Qed.

Lemma lookup_ok s a o : objs_ok s → lookup_obj s a = Some o → so_ok (db_ctx s) a o.
Proof.
  unfold lookup_obj. intros Hok. destruct (db_stateObjects s !! a) eqn:E; [intros [= <-]; by apply Hok|].
  destruct (k_GetAccount _ a); [|done]. intros [= <-]. apply so_ok_new.
Qed.

(** ** Writes of one object *)

Definition put o s : DB := set_stateObjects (<[so_address o := o]> (db_stateObjects s)) s.

Lemma lookup_put o s a :
  lookup_obj (put o s) a = if decide (a = so_address o) then Some o else lookup_obj s a.
Proof.
  unfold lookup_obj, put. cbn. case_decide as Ha; subst.
  - by rewrite lookup_insert_eq.
  - by rewrite lookup_insert_ne.
Qed.

Lemma obs_put o s a :
  obs (put o s) a = if decide (a = so_address o) then Some (view_obj (db_ctx s) o) else obs s a.
Proof. unfold obs. rewrite lookup_put. cbn. by case_decide. Qed.

Lemma objs_ok_put o s : objs_ok s → so_ok (db_ctx s) (so_address o) o → objs_ok (put o s).
Proof.
  intros Hok Ho a o'. cbn. rewrite lookup_insert_Some. intros [[<- <-]|[_ ?]]; [done|by apply Hok].
Qed.

Lemma put_equiv o s :
  obs s (so_address o) = Some (view_obj (db_ctx s) o) → equiv (put o s) s.
Proof. intros Ho. split; try done. intros a. rewrite obs_put. by case_decide; subst. Qed.

(** Loading an object changes nothing that shows. *)
Definition loaded s a : DB :=
  match lookup_obj s a with Some o => put o s | None => s end.

Lemma getStateObject_run s a :
  objs_ok s → getStateObject a s = (loaded s a, Ok (lookup_obj s a)).
Proof.
  intros Hok. unfold getStateObject, loaded, lookup_obj.
  rewrite (bind_Ok (gets _) _ s s _ eq_refl). destruct (db_stateObjects s !! a) as [o|] eqn:E.
  - unfold ret, put. rewrite (ok_address _ _ _ (Hok a o E)), insert_id by done. by destruct s.
  - rewrite (bind_Ok (gets _) _ s s _ eq_refl). by destruct (k_GetAccount (db_ctx s) a).
Qed.

Lemma loaded_equiv s a : objs_ok s → equiv (loaded s a) s.
Proof.
  intros Hok. unfold loaded. destruct (lookup_obj s a) as [o|] eqn:E; [|done].
  apply put_equiv. unfold obs. by rewrite (ok_address _ _ _ (lookup_ok s a o Hok E)), E.
Qed.

Lemma loaded_ok s a : objs_ok s → objs_ok (loaded s a).
Proof.
  intros Hok. unfold loaded. destruct (lookup_obj s a) as [o|] eqn:E; [|done].
  apply objs_ok_put; [done|]. pose proof (lookup_ok s a o Hok E) as Ho.
  by rewrite (ok_address _ _ _ Ho).
Qed.

Lemma loaded_lookup s a : objs_ok s → lookup_obj (loaded s a) a = lookup_obj s a.
Proof.
  intros Hok. unfold loaded. destruct (lookup_obj s a) as [o|] eqn:E; [|done].
  rewrite lookup_put, decide_True; [done|]. by rewrite (ok_address _ _ _ (lookup_ok s a o Hok E)).
Qed.

Lemma loaded_journal s a : db_journal (loaded s a) = db_journal s.
Proof. unfold loaded. by destruct (lookup_obj s a). Qed.

(** ** Reverts respect the comparison *)

(** Object writes that only depend on what the object shows. *)
Definition view_fn (f : stateObject → stateObject) : Prop :=
  ∀ st o o', view_obj st o = view_obj st o' → view_obj st (f o) = view_obj st (f o').

(** Object writes that keep address, override and origin. *)
Definition keeps_ok (f : stateObject → stateObject) : Prop :=
  ∀ o, so_address (f o) = so_address o ∧ so_overrideStorage (f o) = so_overrideStorage o ∧
       so_originStorage (f o) = so_originStorage o.

Lemma keeps_so_ok f st a o : keeps_ok f → so_ok st a o → so_ok st a (f o).
Proof. intros Hf [Ha Ho Hg]. destruct (Hf o) as (E1 & E2 & E3). split; rewrite ?E1, ?E2, ?E3; auto. Qed.

Lemma view_inj st o o' :
  view_obj st o = view_obj st o' ↔
  so_account o = so_account o' ∧ code_of st o = code_of st o' ∧
  so_dirtyStorage o = so_dirtyStorage o' ∧ so_selfDestructed o = so_selfDestructed o' ∧
  so_newContract o = so_newContract o'.
Proof. unfold view_obj. split; [by intros [=]|]. by intros (-> & -> & -> & -> & ->). Qed.

Lemma code_of_account st n bal o :
  code_of st (with_account (mkAccount n bal (CodeHash (so_account o))) o) = code_of st o.
Proof. done. Qed.

Lemma view_setBalance v : view_fn (so_setBalance v).
Proof.
  intros st o o' (Ha & Hc & Hd & Hs & Hn)%view_inj. apply view_inj. unfold so_setBalance.
  rewrite !code_of_account. cbn. by rewrite Ha.
Qed.

Lemma view_setNonce v : view_fn (so_setNonce v).
Proof.
  intros st o o' (Ha & Hc & Hd & Hs & Hn)%view_inj. apply view_inj. unfold so_setNonce.
  rewrite !code_of_account. cbn. by rewrite Ha.
Qed.

Lemma view_setCode h c : view_fn (so_setCode h c).
Proof.
  intros st o o' (Ha & Hc & Hd & Hs & Hn)%view_inj. apply view_inj. unfold code_of. cbn. by rewrite Ha.
Qed.

Lemma view_setState k v w : view_fn (so_setState k v w).
Proof.
  intros st o o' (Ha & Hc & Hd & Hs & Hn)%view_inj. apply view_inj. unfold so_setState. cbn.
  by rewrite Hd.
Qed.

Lemma view_newContract x : view_fn (with_newContract x).
Proof. intros st o o' (Ha & Hc & Hd & Hs & Hn)%view_inj. by apply view_inj. Qed.

Lemma view_destruct x v : view_fn (λ o, so_setBalance v (with_selfDestructed x o)).
Proof.
  intros st o o' Ho. apply view_setBalance. apply view_inj in Ho as (Ha & Hc & Hd & Hs & Hn).
  by apply view_inj.
Qed.

Lemma equiv_put o o' s t :
  equiv s t → so_address o = so_address o' → view_obj (db_ctx s) o = view_obj (db_ctx s) o' →
  equiv (put o s) (put o' t).
Proof.
  intros E Ha Hv. pose proof E as []. split; try done. intros a. rewrite !obs_put, <-Ha.
  case_decide; [|done]. rewrite Hv. by rewrite eq_ctx0.
Qed.

Lemma on_live_run a f s :
  objs_ok s → keeps_ok f →
  on_live a f s = match lookup_obj s a with
                  | Some o => (put (f o) s, Ok tt)
                  | None => (s, Panic "nil pointer dereference")
                  end.
Proof.
  intros Hok Hf. unfold on_live. erewrite bind_Ok by (by apply getStateObject_run).
  unfold loaded. destruct (lookup_obj s a) as [o|] eqn:E; [|done].
  unfold setStateObject, modify, put. cbn. destruct (Hf o) as (-> & _).
  by rewrite insert_insert_eq.
Qed.

(** Two runs from states that show the same. *)
Definition tracks (m : M DB unit) s t : Prop :=
  ∀ s', m s = (s', Ok tt) → ∃ t', m t = (t', Ok tt) ∧ equiv s' t' ∧ objs_ok s' ∧ objs_ok t' ∧
    db_journal s' = db_journal s ∧ db_journal t' = db_journal t ∧ db_ctx s' = db_ctx s.

Lemma obs_lookup s t a o :
  equiv s t → lookup_obj s a = Some o →
  ∃ o', lookup_obj t a = Some o' ∧ view_obj (db_ctx s) o = view_obj (db_ctx s) o'.
Proof.
  intros E Ho. pose proof (eq_obs _ _ E a) as Hob. unfold obs in Hob. rewrite Ho, <-(eq_ctx _ _ E) in Hob.
  destruct (lookup_obj t a) as [o'|]; [|done]. apply (inj Some) in Hob. eauto.
Qed.

Lemma on_live_tracks a f s t :
  equiv s t → objs_ok s → objs_ok t → view_fn f → keeps_ok f → tracks (on_live a f) s t.
Proof.
  intros E Hs Ht Hv Hk s'. rewrite !on_live_run by done.
  destruct (lookup_obj s a) as [o|] eqn:Ho; [|done]. intros [= <-].
  destruct (obs_lookup s t a o E Ho) as (o' & Ho' & Hvo). rewrite Ho'.
  pose proof (lookup_ok s a o Hs Ho) as Ok1. pose proof (lookup_ok t a o' Ht Ho') as Ok2.
  destruct (Hk o) as (A1 & _). destruct (Hk o') as (A2 & _).
  eexists. split_and!; [done|..|done|done|done].
  - apply equiv_put; [done| |by apply Hv].
    by rewrite A1, A2, (ok_address _ _ _ Ok1), (ok_address _ _ _ Ok2).
  - apply objs_ok_put; [done|]. rewrite A1, (ok_address _ _ _ Ok1). by apply keeps_so_ok.
  - apply objs_ok_put; [done|]. rewrite A2, (ok_address _ _ _ Ok2). by apply keeps_so_ok.
Qed.

Lemma objs_ok_same s t :
  db_stateObjects t = db_stateObjects s → db_ctx t = db_ctx s → objs_ok s → objs_ok t.
Proof. unfold objs_ok. intros -> ->. done. Qed.

Lemma obs_same s t :
  db_stateObjects t = db_stateObjects s → db_ctx t = db_ctx s → ∀ a, obs t a = obs s a.
Proof. unfold obs, lookup_obj. by intros -> ->. Qed.

(** A run that leaves the objects alone and acts on the rest alike. *)
Lemma other_tracks (m : M DB unit) s t :
  equiv s t → objs_ok s → objs_ok t →
  (∀ s', m s = (s', Ok tt) → ∃ t', m t = (t', Ok tt) ∧
     db_stateObjects s' = db_stateObjects s ∧ db_stateObjects t' = db_stateObjects t ∧
     db_ctx s' = db_ctx s ∧ db_ctx t' = db_ctx t ∧ db_cache s' = db_cache t' ∧
     db_writeCache s' = db_writeCache t' ∧ db_transient s' = db_transient t' ∧
     db_refund s' = db_refund t' ∧ db_logs s' = db_logs t' ∧ db_accessList s' = db_accessList t' ∧
     db_txConfig s' = db_txConfig t' ∧
     db_journal s' = db_journal s ∧ db_journal t' = db_journal t) →
  tracks m s t.
Proof.
  intros E Hs Ht Hm s' Es. destruct (Hm s' Es) as (t' & Et & O1 & O2 & C1 & C2 & R).
  destruct R as (? & ? & ? & ? & ? & ? & ? & J1 & J2). pose proof E as [].
  exists t'. split_and!; try done; [|by eapply objs_ok_same..].
  split; try done; [congruence|congruence|]. intros a.
  rewrite (obs_same s s') by done. rewrite (obs_same t t') by done. done.
Qed.

Lemma Revert_tracks e s t :
  equiv s t → objs_ok s → objs_ok t → entry_ok (db_ctx s) e → tracks (Revert e) s t.
Proof.
  intros E Hs Ht He. pose proof E as [Ec Eca Ew Etr Ed Er El Ea Etx _]. destruct e; cbn [Revert].
  - (* createObject *)
    intros s' [= <-]. eexists. split; [done|]. split_and!; try done.
    + split; try done. intros a. unfold obs, lookup_obj. cbn. rewrite <-Ec.
      destruct (decide (a = account)) as [->|Hne].
      * by rewrite !lookup_delete_eq.
      * rewrite !lookup_delete_ne by done. pose proof (eq_obs _ _ E a) as Hob.
        unfold obs, lookup_obj in Hob. by rewrite <-Ec in Hob.
    + intros a o. cbn. rewrite lookup_delete_Some. intros [_ ?]. by apply Hs.
    + intros a o. cbn. rewrite lookup_delete_Some. intros [_ ?]. by apply Ht.
  - (* resetObject *)
    intros s' [= <-]. exists (put prev t). split_and!; try done.
    + by apply equiv_put.
    + by apply objs_ok_put.
    + apply objs_ok_put; [done|]. by rewrite <-Ec.
  - (* selfDestruct *)
    pose proof (eq_obs _ _ E account) as Hob. unfold obs in Hob.
    set (m := bind _ _).
    assert (∀ u, objs_ok u → m u = match lookup_obj u account with
      | Some _ => on_live account (λ o, so_setBalance prevbalance (with_selfDestructed prev o)) u
      | None => (u, Ok tt)
      end) as Hrun.
    { intros u Hu. subst m. unfold on_live.
      rewrite !(bind_Ok _ _ _ _ _ (getStateObject_run u account Hu)).
      destruct (lookup_obj u account) eqn:Hl; [done|]. unfold loaded. by rewrite Hl. }
    intros s'. rewrite !Hrun by done.
    destruct (lookup_obj s account), (lookup_obj t account); try done.
    + apply on_live_tracks; try done. by apply view_destruct.
    + intros [= <-]. by exists t.
  - apply on_live_tracks; try done. apply view_setBalance.
  - apply on_live_tracks; try done. apply view_setNonce.
  - apply on_live_tracks; try done. apply view_setState.
  - apply other_tracks; try done. intros s' [= <-]. eexists. split_and!; try done. cbn. by rewrite Etr.
  - apply on_live_tracks; try done. apply view_setCode.
  - apply other_tracks; try done. intros s' [= <-]. by eexists.
  - apply other_tracks; try done. intros s' Es. rewrite <-El.
    destruct (db_logs s) as [|l ls]; [done|]. simplify_eq. by eexists.
  - apply other_tracks; try done. intros s' [= <-]. eexists. split_and!; try done. cbn. by rewrite Ea.
  - apply other_tracks; try done. intros s' Es. unfold al, zoom in *. rewrite <-Ea.
    destruct (AccessList.DeleteSlot address slot (db_accessList s)) as [al' r]. simplify_eq. by eexists.
  - apply other_tracks; try done. intros s' Es. unfold RevertMultiStore in *. rewrite <-Eca.
    destruct (db_cache s) as [c|]; [|done]. destruct (_ || _); [done|]. simplify_eq. by eexists.
  - apply on_live_tracks; try done. apply view_newContract.
Qed.

Definition drop_dirty e s : DB :=
  set_journal (mkJournal (entries (db_journal s)) (dirties_decr e (dirties (db_journal s)))) s.

Lemma revert_entries_cons e es s :
  revert_entries (e :: es) s = (Revert e >>! (λ s, revert_entries es (drop_dirty e s))) s.
Proof. done. Qed.

Lemma equiv_drop_dirty e s t : equiv s t → equiv (drop_dirty e s) (drop_dirty e t).
Proof. intros []. split; try done. cbn. by rewrite eq_dirties0. Qed.

Lemma revert_entries_tracks es s t s' :
  equiv s t → objs_ok s → objs_ok t → Forall (entry_ok (db_ctx s)) es →
  revert_entries es s = (s', Ok tt) →
  ∃ t', revert_entries es t = (t', Ok tt) ∧ equiv s' t' ∧ objs_ok s' ∧ objs_ok t' ∧
    entries (db_journal s') = entries (db_journal s) ∧
    entries (db_journal t') = entries (db_journal t).
Proof.
  revert s t. induction es as [|e es IH]; intros s t E Hs Ht Hes.
  { intros [= <-]. by exists t. }
  apply Forall_cons in Hes as [He Hes]. rewrite !revert_entries_cons.
  intros (s1 & [] & E1 & E2)%bind_Ok_inv.
  destruct (Revert_tracks e s t E Hs Ht He s1 E1) as (t1 & F1 & Eq1 & O1 & O2 & J1 & J2 & C1).
  erewrite bind_Ok by exact F1.
  destruct (IH (drop_dirty e s1) (drop_dirty e t1)) as (t' & F & Eq & O1' & O2' & J1' & J2'); try done.
  - by apply equiv_drop_dirty.
  - cbn. by rewrite C1.
  - exists t'. split_and!; try done.
    + rewrite J1'. cbn. by rewrite J1.
    + rewrite J2'. cbn. by rewrite J2.
Qed.

Lemma revert_entries_app es1 es2 s :
  revert_entries (es1 ++ es2) s = (revert_entries es1 >>! revert_entries es2) s.
Proof.
  revert s. induction es1 as [|e es1 IH]; intros s; [done|].
  cbn [app]. rewrite revert_entries_cons. unfold bind.
  rewrite revert_entries_cons. unfold bind.
  destruct (Revert e s) as [s1 []]; done.
Qed.

(** Undoing the count of the last entry. *)
Lemma dirties_undo e (d : gmap Address Z) :
  map_Forall (λ _ n, 0 < n) d → dirties_decr e (dirties_incr e d) = d.
Proof.
  intros Hd. unfold dirties_decr, dirties_incr. destruct (Dirtied e) as [a|]; [|done].
  rewrite lookup_insert_eq. cbn. rewrite Z.add_simpl_r.
  destruct (d !! a) as [n|] eqn:E; cbn.
  - assert (0 < n) by exact (Hd a n E). destruct (Z.eqb_spec n 0); [lia|]. by rewrite insert_insert_eq, insert_id.
  - by rewrite delete_insert_eq, delete_id.
Qed.

Lemma dirties_pos e (d : gmap Address Z) :
  map_Forall (λ _ n, 0 < n) d → map_Forall (λ _ n, 0 < n) (dirties_incr e d).
Proof.
  intros Hd. unfold dirties_incr. destruct (Dirtied e) as [a|]; [|done].
  apply map_Forall_insert_2; [|done]. destruct (d !! a) as [n|] eqn:E; cbn; [|lia].
  assert (0 < n) by exact (Hd a n E). lia.
Qed.

(** ** Steps that can be undone *)

Record step s s' (es : list JournalEntry) : Prop := {
  sp_wf : db_wf s';
  sp_ctx : db_ctx s' = db_ctx s;
  sp_revs : db_validRevisions s' = db_validRevisions s;
  sp_next : db_nextRevisionID s' = db_nextRevisionID s;
  sp_events : db_events s' = db_events s;
  sp_entries : entries (db_journal s') = entries (db_journal s) ++ es;
  sp_undo : ∃ t, revert_entries (reverse es) s' = (t, Ok tt) ∧ equiv t s;
  sp_live : ∀ a, live s a → live s' a
}.

Lemma step_refl s : db_wf s → step s s [].
Proof. intros. split; try done; [by rewrite app_nil_r|by exists s]. Qed.

Lemma entries_ok_reverse s es es0 :
  db_wf s → entries (db_journal s) = es0 ++ es → Forall (entry_ok (db_ctx s)) (reverse es).
Proof.
  intros Hwf Hes. pose proof (wf_entries _ Hwf) as Hall. rewrite Hes in Hall.
  apply Forall_app in Hall as [_ ?]. by apply Forall_reverse.
Qed.

(** An undo from a state carries over to every state that shows the same. *)
Lemma undo_transfer s t b es es0 :
  db_wf s → objs_ok t → equiv s t → entries (db_journal s) = es0 ++ es →
  (∃ u, revert_entries (reverse es) s = (u, Ok tt) ∧ equiv u b) →
  ∃ u, revert_entries (reverse es) t = (u, Ok tt) ∧ equiv u b.
Proof.
  intros Hwf Ht E Hes (u & Hu & Eu).
  destruct (revert_entries_tracks (reverse es) s t u) as (u' & Hu' & E' & _); try done.
  - apply Hwf.
  - by eapply entries_ok_reverse.
  - exists u'. split; [done|]. by rewrite <-E'.
Qed.

Lemma undo_objs_ok s es es0 u :
  db_wf s → entries (db_journal s) = es0 ++ es →
  revert_entries (reverse es) s = (u, Ok tt) → objs_ok u.
Proof.
  intros Hwf Hes Hu. pose proof (entries_ok_reverse s es es0 Hwf Hes).
  destruct Hwf. destruct (revert_entries_tracks (reverse es) s s u) as (? & _ & _ & ? & _); try done.
Qed.

Lemma live_put s o a : live s a → live (put o s) a.
Proof. intros Ha. unfold live, put. cbn. by apply lookup_insert_is_Some'; right. Qed.

Lemma live_put_eq s o : live (put o s) (so_address o).
Proof. unfold live, put. cbn. by rewrite lookup_insert_eq. Qed.

Lemma dirtied_live s s' e :
  (∀ a, is_Some (dirties (db_journal s) !! a) → live s a) → (∀ a, live s a → live s' a) →
  (∀ a, Dirtied e = Some a → live s' a) →
  ∀ a, is_Some (dirties_incr e (dirties (db_journal s)) !! a) → live s' a.
Proof.
  intros Hs Hm He a. unfold dirties_incr. destruct (Dirtied e) as [b|]; [|by eauto].
  rewrite lookup_insert_is_Some'. intros [<-|?]; eauto.
Qed.

Lemma step_trans s1 s2 s3 es1 es2 :
  step s1 s2 es1 → step s2 s3 es2 → step s1 s3 (es1 ++ es2).
Proof.
  intros [W1 C1 R1 N1 V1 E1 U1 L1] [W2 C2 R2 N2 V2 E2 (t2 & U2 & Eq2) L2].
  split; [done|congruence..|by rewrite E2, E1, app_assoc| |by auto].
  rewrite reverse_app, revert_entries_app. erewrite bind_Ok by exact U2.
  eapply undo_transfer;
    [exact W1|eapply undo_objs_ok; [exact W2|exact E2|exact U2]|by symmetry|exact E1|done].
Qed.

(** Filling caches. *)
Lemma step_silent s s' :
  db_wf s → equiv s' s → objs_ok s' → db_journal s' = db_journal s →
  db_validRevisions s' = db_validRevisions s → db_nextRevisionID s' = db_nextRevisionID s →
  db_events s' = db_events s → (∀ a, live s a → live s' a) → step s s' [].
Proof.
  intros [] E Ho J R N V L. pose proof E as []. split; try done.
  - split; rewrite ?J, ?eq_ctx0, ?eq_al0, ?eq_transient0; try done; [|by auto|by rewrite eq_write0].
    intros a v k x Hv. rewrite eq_obs0 in Hv. rewrite eq_ctx0. by eapply wf_dirty0.
  - by rewrite J, app_nil_r.
  - by exists s'.
Qed.

(** One journaled change. *)
Lemma step_journal s s' t e :
  db_wf s → db_journal s' = journal_append e (db_journal s) → db_ctx s' = db_ctx s →
  db_validRevisions s' = db_validRevisions s → db_nextRevisionID s' = db_nextRevisionID s →
  db_events s' = db_events s →
  objs_ok s' → dirty_ok s' → AccessList.wf (db_accessList s') → Transient.wf (db_transient s') →
  entry_ok (db_ctx s) e →
  (∀ a, live s a → live s' a) → (∀ a, Dirtied e = Some a → live s' a) →
  db_writeCache s' = db_writeCache s →
  Revert e s' = (t, Ok tt) → db_journal t = db_journal s' →
  equiv (set_journal (db_journal s) t) s → step s s' [e].
Proof.
  intros Hwf J C R N V Ho Hd Ha Ht He Hl Hle Hw Hrev Jt Eq. pose proof Hwf as [].
  split; try done; [..|by rewrite J|].
  - split; try done; rewrite ?J, ?Hw; cbn; [|by apply dirties_pos|by apply dirtied_live|done].
    rewrite C. apply Forall_app. by split; [|constructor].
  - exists (drop_dirty e t). split.
    + change (reverse [e]) with [e]. rewrite revert_entries_cons. by erewrite bind_Ok by exact Hrev.
    + destruct Eq. split; try done. cbn. rewrite Jt, J. cbn. by apply dirties_undo.
Qed.

Lemma load_step s a : db_wf s → step s (loaded s a) [].
Proof.
  intros Hwf. pose proof (wf_objs _ Hwf). apply step_silent; try done.
  - by apply loaded_equiv.
  - by apply loaded_ok.
  - apply loaded_journal.
  - unfold loaded. by destruct (lookup_obj s a).
  - unfold loaded. by destruct (lookup_obj s a).
  - unfold loaded. by destruct (lookup_obj s a).
  - intros b Hb. unfold loaded. destruct (lookup_obj s a); [by apply live_put|done].
Qed.

Definition journaled e s : DB := set_journal (journal_append e (db_journal s)) s.

Lemma dirty_lookup s a o k x :
  db_wf s → lookup_obj s a = Some o → so_dirtyStorage o !! k = Some x → x ≠ k_GetState (db_ctx s) a k.
Proof.
  intros Hwf Ho Hx. apply (wf_dirty _ Hwf a (view_obj (db_ctx s) o)); [|done].
  unfold obs. by rewrite Ho.
Qed.

Lemma dirty_put s a o' :
  dirty_ok s → so_address o' = a →
  (∀ k x, so_dirtyStorage o' !! k = Some x → x ≠ k_GetState (db_ctx s) a k) → dirty_ok (put o' s).
Proof.
  intros Hd Ha Ho b v k x. rewrite obs_put. case_decide; [|by apply Hd].
  intros [= <-] Hx. cbn in *. subst. by apply Ho.
Qed.

(** A change of one live object, journaled by an entry that is undone by [f]. *)
Lemma step_object s a o o' e f :
  db_wf s → lookup_obj s a = Some o → so_ok (db_ctx s) a o' →
  (∀ k x, so_dirtyStorage o' !! k = Some x → x ≠ k_GetState (db_ctx s) a k) →
  Revert e = on_live a f → keeps_ok f → entry_ok (db_ctx s) e →
  default a (Dirtied e) = a →
  view_obj (db_ctx s) (f o') = view_obj (db_ctx s) o →
  step s (put o' (journaled e s)) [e].
Proof.
  intros Hwf Ho Hok' Hdirty Hrev Hf He Hde Hview. pose proof (ok_address _ _ _ Hok') as Ha.
  assert (objs_ok (put o' (journaled e s))) as Hob.
  { apply objs_ok_put; [by apply (objs_ok_same s), Hwf|by rewrite Ha]. }
  eapply (step_journal _ _ (put (f o') (put o' (journaled e s)))); try done; try apply Hwf.
  - apply (dirty_put (journaled e s) a); [|done|done].
    intros b v k x Hv. by apply (wf_dirty _ Hwf).
  - intros b Hb. by apply live_put.
  - intros b Hb. rewrite Hb in Hde. cbn in Hde. rewrite Hde, <-Ha. apply live_put_eq.
  - rewrite Hrev, on_live_run by done. by rewrite lookup_put, decide_True.
  - split; try done. intros b. destruct (Hf o') as (Ha' & _).
    change (obs (put (f o') (put o' (journaled e s))) b = obs s b).
    rewrite !obs_put, Ha', Ha. unfold obs. cbn. case_decide as Hb; [|done]. subst b.
    by rewrite Hview, Ho.
Qed.

(** Creating an object over a missing one or over an old one. *)
Lemma step_create s a prev o' :
  db_wf s → lookup_obj s a = prev → so_ok (db_ctx s) a o' → so_dirtyStorage o' = ∅ →
  let e := match prev with None => createObjectChange a | Some p => resetObjectChange p end in
  step s (put o' (journaled e s)) [e].
Proof.
  intros Hwf Hprev Hok' Hd e. pose proof (ok_address _ _ _ Hok') as Ha.
  assert (objs_ok (put o' (journaled e s))) as Hob.
  { apply objs_ok_put; [by apply (objs_ok_same s), Hwf|by rewrite Ha]. }
  assert (dirty_ok (put o' (journaled e s))) as Hdo.
  { apply (dirty_put (journaled e s) a); [|done|intros k x; by rewrite Hd, lookup_empty].
    intros b v k x Hv. by apply (wf_dirty _ Hwf). }
  assert (entry_ok (db_ctx s) e) as He.
  { subst e. destruct prev as [p|]; cbn;
      [|unfold lookup_obj in Hprev; by destruct (db_stateObjects s !! a), (k_GetAccount (db_ctx s) a)].
    pose proof (lookup_ok s a p (wf_objs _ Hwf) Hprev) as Hp. by rewrite (ok_address _ _ _ Hp). }
  subst e. destruct prev as [p|].
  - apply (step_journal _ _ (put p (put o' (journaled (resetObjectChange p) s)))); try done; try apply Hwf; [by intros; apply live_put|].
    split; try done. intros b. pose proof (lookup_ok s a p (wf_objs _ Hwf) Hprev) as Hp.
    change (obs (put p (put o' (journaled (resetObjectChange p) s))) b = obs s b).
    rewrite !obs_put, Ha, (ok_address _ _ _ Hp). unfold obs. cbn.
    case_decide; subst; [by rewrite Hprev|done].
  - apply (step_journal _ _ (set_stateObjects (delete a (<[so_address o' := o']> (db_stateObjects s)))
      (put o' (journaled (createObjectChange a) s)))); try done; try apply Hwf.
    { by intros; apply live_put. }
    { intros b [= <-]. rewrite <-Ha. apply live_put_eq. }
    split; try done. intros b. unfold obs, lookup_obj. cbn. rewrite Ha.
    unfold lookup_obj in Hprev. destruct (db_stateObjects s !! a) eqn:E; [done|].
    rewrite delete_insert_eq, delete_id by done. done.
Qed.

(** ** Every operation is undoable

    [undoable P m Q]: from a well-formed state with [P], a successful run of
    [m] is a step and ends with [Q]. *)
Definition undoable {A} (P : DB → Prop) (m : M DB A) (Q : A → DB → Prop) : Prop :=
  ∀ s s' r, db_wf s → P s → m s = (s', Ok r) → (∃ es, step s s' es) ∧ Q r s'.

Definition anything {A} (_ : A) (_ : DB) : Prop := True.

Lemma undoable_ret {A} (P : DB → Prop) (r : A) (Q : A → DB → Prop) :
  (∀ s, P s → Q r s) → undoable P (ret r) Q.
Proof. intros HQ s s' r' Hwf HP [= <- <-]. split; [exists []; by apply step_refl|auto]. Qed.

Lemma undoable_gets {A} (P : DB → Prop) (f : DB → A) (Q : A → DB → Prop) :
  (∀ s, P s → Q (f s) s) → undoable P (gets f) Q.
Proof. intros HQ s s' r' Hwf HP [= <- <-]. split; [exists []; by apply step_refl|auto]. Qed.

Lemma undoable_bind {A B} P (m : M DB A) Q (f : A → M DB B) R :
  undoable P m Q → (∀ r, undoable (Q r) (f r) R) → undoable P (bind m f) R.
Proof.
  intros Hm Hf s s' r Hwf HP (s1 & x & E1 & E2)%bind_Ok_inv.
  destruct (Hm s s1 x Hwf HP E1) as [[es1 S1] HQ].
  destruct (Hf x s1 s' r (sp_wf _ _ _ S1) HQ E2) as [[es2 S2] HR].
  split; [exists (es1 ++ es2); by eapply step_trans|done].
Qed.

Lemma undoable_weaken {A} (P P' : DB → Prop) (m : M DB A) (Q Q' : A → DB → Prop) :
  undoable P' m Q' → (∀ s, P s → P' s) → (∀ r s, Q' r s → Q r s) → undoable P m Q.
Proof. intros Hm HP HQ s s' r Hwf Hs E. destruct (Hm s s' r) as [? ?]; auto. Qed.

Lemma undoable_panic {A} P w (Q : A → DB → Prop) : undoable P (panic w) Q.
Proof. by intros s s' r _ _ [=]. Qed.

Abbreviation has a o := (λ s, lookup_obj s a = Some o).

Lemma getStateObject_undoable a :
  undoable (λ _, True) (getStateObject a) (λ r s, lookup_obj s a = r).
Proof.
  intros s s' r Hwf _ E. pose proof (wf_objs _ Hwf). rewrite getStateObject_run in E by done.
  simplify_eq. split; [exists []; by apply load_step|by apply loaded_lookup].
Qed.

Lemma createObject_undoable a :
  undoable (λ _, True) (createObject a) (λ r s, lookup_obj s a = Some r.1).
Proof.
  unfold createObject. eapply undoable_bind; [apply getStateObject_undoable|].
  intros prev s s' r Hwf Hprev [= <- <-]. cbn in Hprev. split.
  - eexists. apply (step_create s a prev (newObject a zero_account)); [done|done|apply so_ok_new|done].
  - unfold lookup_obj. cbn. by rewrite lookup_insert_eq.
Qed.

Lemma getOrNew_undoable a :
  undoable (λ _, True) (getOrNewStateObject a) (λ o, has a o).
Proof.
  unfold getOrNewStateObject. eapply undoable_bind; [apply getStateObject_undoable|].
  intros [o|]; [by apply undoable_ret|].
  eapply undoable_bind; [eapply undoable_weaken; [apply createObject_undoable|done|done]|].
  intros [o p]. by apply undoable_ret.
Qed.

(** A journaled write of one object, as the object's methods are written. *)
Lemma write_undoable {A} a o o' e f (r : A) (P : DB → Prop) (m : M DB A) :
  (∀ s, m s = (put o' (journaled e s), Ok r)) →
  (∀ s, P s → lookup_obj s a = Some o) →
  (∀ st, so_ok st a o → so_ok st a o') →
  (∀ s, db_wf s → P s → ∀ k x, so_dirtyStorage o' !! k = Some x → x ≠ k_GetState (db_ctx s) a k) →
  Revert e = on_live a f → keeps_ok f → (∀ st, entry_ok st e) →
  default a (Dirtied e) = a →
  (∀ s, db_wf s → P s → view_obj (db_ctx s) (f o') = view_obj (db_ctx s) o) →
  undoable P m anything.
Proof.
  intros Hm HP Hok Hd Hrev Hf He Hde Hv s s' r' Hwf Hs E. rewrite Hm in E. simplify_eq.
  specialize (HP s Hs). split; [|done]. exists [e]. apply (step_object s a o o' e f); auto.
  apply Hok. by apply lookup_ok; [apply Hwf|].
Qed.

Lemma has_address s a o : db_wf s → lookup_obj s a = Some o → so_address o = a.
Proof. intros Hwf Ho. eapply ok_address, lookup_ok; [apply Hwf|done]. Qed.

(** Objects with equal storage fields and address stay well formed. *)
Lemma so_ok_account st a o acc : so_ok st a o → so_ok st a (with_account acc o).
Proof. by intros []. Qed.

Lemma so_SetBalance_undoable a o v : so_address o = a → undoable (has a o) (so_SetBalance o v) anything.
Proof.
  intros <-. eapply (write_undoable _ o (so_setBalance v o) _ (so_setBalance (Balance (so_account o))));
    try done.
  - intros st. apply so_ok_account.
  - intros s Hwf Ho k x. by apply (dirty_lookup s _ o).
  - intros s _ _. apply view_inj. split_and!; [cbn; by destruct (so_account o)|done..].
Qed.

Lemma so_SetNonce_undoable a o v : so_address o = a → undoable (has a o) (so_SetNonce o v) anything.
Proof.
  intros <-. eapply (write_undoable _ o (so_setNonce v o) _ (so_setNonce (Nonce (so_account o))));
    try done.
  - intros st. apply so_ok_account.
  - intros s Hwf Ho k x. by apply (dirty_lookup s _ o).
  - intros s _ _. apply view_inj. split_and!; [cbn; by destruct (so_account o)|done..].
Qed.

Lemma so_Code_undoable a o :
  undoable (has a o) (so_Code o)
    (λ r s, lookup_obj s a = Some r.1 ∧ code_of (db_ctx s) r.1 = r.2 ∧ so_address r.1 = so_address o).
Proof.
  intros s s' r Hwf Ho. unfold so_Code.
  assert (so_code o ≠ None ∨ IsEmptyCodeHash (CodeHash (so_account o)) = true →
    (s, Ok (o, code_of (db_ctx s) o)) = (s', Ok r) →
    (∃ es, step s s' es) ∧ lookup_obj s' a = Some r.1 ∧ code_of (db_ctx s') r.1 = r.2 ∧
      so_address r.1 = so_address o) as Hsame.
  { intros _ [= <- <-]. split; [exists []; by apply step_refl|done]. }
  unfold code_of in Hsame. destruct (so_code o) as [c|] eqn:Hc; [by apply Hsame; left|].
  destruct (IsEmptyCodeHash _) eqn:He; [by apply Hsame; right|]. clear Hsame.
  rewrite (bind_Ok (gets _) _ s s _ eq_refl). set (c := k_GetCode (db_ctx s) (CodeHash (so_account o))).
  intros [= <- <-]. change (set_stateObjects _ s) with (put (with_code c o) s).
  pose proof (has_address s a o Hwf Ho) as Ha.
  assert (view_obj (db_ctx s) (with_code c o) = view_obj (db_ctx s) o) as Hv.
  { apply view_inj. split_and!; try done. unfold code_of. cbn. rewrite Hc, He. subst c. by case_match. }
  split; [exists []; apply step_silent; try done|].
  - apply put_equiv. cbn. rewrite Ha. unfold obs. by rewrite Ho, Hv.
  - apply objs_ok_put; [apply Hwf|]. cbn. rewrite Ha.
    destruct (lookup_ok s a o (wf_objs _ Hwf) Ho). by split.
  - by intros; apply live_put.
  - cbn. split_and!; [|by apply view_inj in Hv as (_ & -> & _); unfold code_of; rewrite Hc, He|done].
    rewrite lookup_put. cbn. by rewrite decide_True.
Qed.

Lemma so_SetCode_undoable a o h c : so_address o = a → undoable (has a o) (so_SetCode o h c) anything.
Proof.
  intros Ha. unfold so_SetCode. eapply undoable_bind; [apply so_Code_undoable|].
  intros [o1 prev]. cbn [fst snd].
  intros s s' r Hwf (Ho & Hcode & Ha1).
  eapply (write_undoable a o1 (so_setCode h c o1) (codeChange (so_address o1) (CodeHash (so_account o1)) prev)
    (so_setCode (CodeHash (so_account o1)) prev) tt
    (λ s, lookup_obj s a = Some o1 ∧ code_of (db_ctx s) o1 = prev)); try done.
  - by intros ? [? _].
  - intros st []. by split.
  - intros u Hu [Hou _] k x. by apply (dirty_lookup u _ o1).
  - cbn. by rewrite Ha1, Ha.
  - cbn. by rewrite Ha1, Ha.
  - intros u Hu [_ Hcu]. apply view_inj. split_and!; try done.
    + cbn. by destruct (so_account o1).
    + unfold code_of in *. cbn. destruct prev as [pc|]; [done|].
      destruct (so_code o1); [done|]. by rewrite Hcu.
Qed.

Lemma so_GetCommittedState_undoable a o k :
  undoable (has a o) (so_GetCommittedState o k)
    (λ r s, lookup_obj s a = Some r.1 ∧ r.2 = k_GetState (db_ctx s) a k ∧
            so_dirtyStorage r.1 = so_dirtyStorage o).
Proof.
  intros s s' r Hwf Ho. unfold so_GetCommittedState.
  pose proof (lookup_ok s a o (wf_objs _ Hwf) Ho) as Hok. destruct Hok as [Ha Hov Hor].
  rewrite Hov. destruct (so_originStorage o !! k) as [v|] eqn:Hk.
  { intros [= <- <-]. split; [exists []; by apply step_refl|]. cbn. by rewrite (Hor k v Hk). }
  rewrite (bind_Ok (gets _) _ s s _ eq_refl). set (v := k_GetState (db_ctx s) (so_address o) k).
  set (o' := with_storage _ _ _ o). intros [= <- <-]. change (set_stateObjects _ s) with (put o' s).
  split; [exists []; apply step_silent; try done|].
  - apply put_equiv. cbn. rewrite Ha. unfold obs. by rewrite Ho.
  - apply objs_ok_put; [apply Hwf|]. cbn. rewrite Ha. split; [done|done|]. cbn. intros k' w.
    rewrite lookup_insert_Some. intros [[<- <-]|[_ ?]]; [by subst v; rewrite Ha|by apply Hor].
  - by intros; apply live_put.
  - cbn. subst v. rewrite Ha. split_and!; [|done|done]. rewrite lookup_put. cbn. by rewrite decide_True.
Qed.

Lemma so_GetState_undoable a o k :
  undoable (has a o) (so_GetState o k)
    (λ r s, lookup_obj s a = Some r.1 ∧
            r.2 = default (k_GetState (db_ctx s) a k) (so_dirtyStorage r.1 !! k)).
Proof.
  unfold so_GetState. destruct (so_dirtyStorage o !! k) as [v|] eqn:Hk.
  - apply undoable_ret. intros s Ho. cbn. by rewrite Hk.
  - eapply undoable_weaken; [apply (so_GetCommittedState_undoable a o k)|done|].
    intros [o1 v] s (Ho & Hv & Hd). cbn in *. by rewrite Hd, Hk.
Qed.

Lemma so_SetState_undoable a o k v : so_address o = a → undoable (has a o) (so_SetState o k v) anything.
Proof.
  intros _. unfold so_SetState. eapply undoable_bind; [apply so_GetState_undoable|].
  intros [o1 prev]. cbn [fst snd]. destruct (Z.eqb_spec prev v) as [|Hne]; [by apply undoable_ret|].
  eapply (undoable_bind _ _ (λ r s, lookup_obj s a = Some r.1 ∧ r.2 = k_GetState (db_ctx s) a k ∧
    prev = default (k_GetState (db_ctx s) a k) (so_dirtyStorage r.1 !! k))).
  - intros s s' r Hwf [Ho Hp] E.
    destruct (so_GetCommittedState_undoable a o1 k s s' r Hwf Ho E) as [[es St1] (Ho' & Hr & Hd)].
    split; [eauto|]. split_and!; try done. by rewrite Hd, (sp_ctx _ _ _ St1).
  - intros [o2 origin] s s' r Hwf (Ho & Hor & Hp). cbn [fst snd] in *.
    pose proof (has_address s a o2 Hwf Ho) as Ha2.
    eapply (write_undoable a o2 (so_setState k v origin o2) _ (so_setState k prev origin) prev
      (λ u, lookup_obj u a = Some o2 ∧ origin = k_GetState (db_ctx u) a k ∧
            prev = default (k_GetState (db_ctx u) a k) (so_dirtyStorage o2 !! k))); try done.
    + by intros u (? & _).
    + intros st []. by split.
    + intros u Hu (Hou & -> & _) k' x. cbn. destruct (Z.eqb_spec v (k_GetState (db_ctx u) a k)).
      * rewrite lookup_delete_Some. intros [_ ?]. by eapply dirty_lookup.
      * rewrite lookup_insert_Some. intros [[<- <-]|[_ ?]]; [done|by eapply dirty_lookup].
    + cbn. by rewrite Ha2.
    + intros u Hu (Hou & Horu & Hpu). apply view_inj. split_and!; try done. cbn. rewrite Horu, Hpu.
      destruct (so_dirtyStorage o2 !! k) as [x|] eqn:Hx; cbn [default from_option id].
      * pose proof (dirty_lookup u a o2 k x Hu Hou Hx) as Hxne.
        destruct (Z.eqb_spec x (k_GetState (db_ctx u) a k)); [done|].
        destruct (v =? _); [rewrite insert_delete_eq|rewrite insert_insert_eq]; by apply insert_id.
      * rewrite Z.eqb_refl. destruct (v =? _); [rewrite delete_delete_eq|rewrite delete_insert_eq];
          by apply delete_id.
Qed.

Lemma CreateAccount_undoable a : undoable (λ _, True) (CreateAccount a) anything.
Proof.
  unfold CreateAccount, createObject. intros s s' r Hwf _ E.
  rewrite bind_assoc in E. pose proof (wf_objs _ Hwf) as Hob.
  erewrite bind_Ok in E by (by apply getStateObject_run).
  pose proof (load_step s a Hwf) as St0. pose proof (sp_wf _ _ _ St0) as Hwf0.
  pose proof (loaded_lookup s a Hob) as Hl. set (s0 := loaded s a) in *. clearbody s0.
  split; [|done]. pose (prev := lookup_obj s a). fold prev in E, Hl.
  pose (bal := match prev with Some p => Balance (so_account p) | None => 0 end).
  eexists. eapply step_trans; [exact St0|].
  pose proof (step_create s0 a prev (so_setBalance bal (newObject a zero_account)) Hwf0 Hl) as Hst.
  assert (s' = put (so_setBalance bal (newObject a zero_account))
    (journaled (match prev with None => createObjectChange a | Some p => resetObjectChange p end) s0)) as ->.
  { subst bal. destruct prev as [p|]; injection E as <- _; [|done].
    unfold put. cbn. by rewrite insert_insert_eq. }
  apply Hst; [apply so_ok_account, so_ok_new|done].
Qed.

Lemma CreateContract_undoable a : undoable (λ _, True) (CreateContract a) anything.
Proof.
  unfold CreateContract. eapply undoable_bind; [apply getStateObject_undoable|].
  intros [o|]; [|apply undoable_panic]. destruct (so_newContract o) eqn:Hn; [by apply undoable_ret|].
  intros s s' r Hwf Ho. pose proof (has_address s a o Hwf Ho) as Ha.
  eapply (write_undoable a o (with_newContract true o) (createContractChange a) (with_newContract false) tt
    (has a o)); try done.
  - intros st []. by split.
  - intros u Hu Hou k x. by apply (dirty_lookup u _ o).
  - intros u _ _. by apply view_inj.
Qed.

Lemma SelfDestruct_undoable a : undoable (λ _, True) (SelfDestruct a) anything.
Proof.
  unfold SelfDestruct. eapply undoable_bind; [apply getStateObject_undoable|].
  intros [o|]; [|by apply undoable_ret]. intros s s' r Hwf Ho [= <- _]. split; [|done].
  pose proof (has_address s a o Hwf Ho) as Ha.
  set (e := selfDestructChange a (so_selfDestructed o) (Balance (so_account o))).
  set (o' := so_setBalance 0 (with_selfDestructed true o)).
  set (f := λ o1, so_setBalance (Balance (so_account o)) (with_selfDestructed (so_selfDestructed o) o1)).
  change (set_stateObjects _ _) with (put o' (journaled e s)).
  assert (so_ok (db_ctx s) a o') as Hok'
    by (destruct (lookup_ok s a o (wf_objs _ Hwf) Ho); by split).
  assert (objs_ok (put o' (journaled e s))) as Hob.
  { apply objs_ok_put; [by apply (objs_ok_same s), Hwf|by cbn; rewrite Ha]. }
  exists [e]. apply (step_journal _ _ (put (f o') (put o' (journaled e s)))); try done; try apply Hwf.
  - apply (dirty_put (journaled e s) a); [|done|intros k x; by apply (dirty_lookup s _ o)].
    intros b v k x Hv. by apply (wf_dirty _ Hwf).
  - by intros; apply live_put.
  - intros b [= <-]. rewrite <-Ha. apply (live_put_eq _ o').
  - change (Revert e) with (Revert (selfDestructChange a (so_selfDestructed o) (Balance (so_account o)))).
    cbn [Revert]. rewrite (bind_Ok _ _ _ _ _ (getStateObject_run _ a Hob)).
    unfold loaded. rewrite !lookup_put. cbn [so_address o' so_setBalance with_account with_selfDestructed].
    rewrite Ha, decide_True by done. unfold setStateObject, modify, put. cbn. by rewrite insert_insert_eq.
  - split; try done. intros b. change (obs (put (f o') (put o' (journaled e s))) b = obs s b).
    rewrite !obs_put. cbn [so_address f o' so_setBalance with_account with_selfDestructed]. rewrite Ha.
    unfold obs. cbn. case_decide; [|done]. subst b. rewrite Ho. cbn. f_equal. apply view_inj.
    split_and!; try done. cbn. by destruct (so_account o).
Qed.

Lemma SelfDestruct6780_undoable a : undoable (λ _, True) (SelfDestruct6780 a) anything.
Proof.
  unfold SelfDestruct6780. eapply undoable_bind; [apply getStateObject_undoable|].
  intros [o|]; [|by apply undoable_ret]. destruct (so_newContract o); [|by apply undoable_ret].
  eapply undoable_bind; [eapply undoable_weaken; [apply SelfDestruct_undoable|done|done]|].
  intros r. by apply undoable_ret.
Qed.

(** A journaled change outside the objects. *)
Lemma field_step s s' t e :
  db_wf s → db_journal s' = journal_append e (db_journal s) → db_ctx s' = db_ctx s →
  db_validRevisions s' = db_validRevisions s → db_nextRevisionID s' = db_nextRevisionID s →
  db_events s' = db_events s → db_stateObjects s' = db_stateObjects s →
  AccessList.wf (db_accessList s') → Transient.wf (db_transient s') → (∀ st, entry_ok st e) →
  Dirtied e = None → db_writeCache s' = db_writeCache s → Revert e s' = (t, Ok tt) → db_journal t = db_journal s' →
  set_journal (db_journal s) t = s → step s s' [e].
Proof.
  intros Hwf J C R N V O Ha Ht He Hde Hw Hrev Jt Eq.
  apply (step_journal s s' t e); try done.
  - by apply (objs_ok_same s), Hwf.
  - intros a v k x. rewrite C, (obs_same s s') by done. apply Hwf.
  - intros a. unfold live. by rewrite O.
  - intros a. by rewrite Hde.
  - by rewrite Eq.
Qed.

Lemma db_eta (s : DB) : set_journal (db_journal s) s = s.
Proof. by destruct s. Qed.

Lemma SetTransientState_undoable a k v : undoable (λ _, True) (SetTransientState a k v) anything.
Proof.
  unfold SetTransientState, GetTransientState. intros s s' r Hwf _ E.
  rewrite (bind_Ok (gets _) _ s s _ eq_refl) in E. split; [|done].
  destruct (Z.eqb_spec (Transient.Get (db_transient s) a k) v).
  { injection E as <- _. exists []. by apply step_refl. }
  injection E as <- _. eexists. eapply field_step; try done; try apply Hwf.
  - apply Transient.wf_Set, Hwf.
  - cbn. rewrite Transient.Set_undo by apply Hwf. by destruct s.
Qed.

Lemma AddLog_undoable a ts d : undoable (λ _, True) (AddLog a ts d) anything.
Proof.
  intros s s' r Hwf _ [= <- _]. split; [|done]. eexists.
  apply (field_step _ _ (set_logs (db_logs s) (journaled addLogChange s))); try done; try apply Hwf.
  - set (l := mkLog _ _ _ _ _). cbn [Revert]. unfold set_logs at 1. cbn [db_logs].
    destruct (db_logs s ++ [l]) eqn:El; [by destruct (db_logs s)|]. rewrite <-El. cbn.
    rewrite length_app. cbn. by rewrite Nat.add_sub, take_app_length.
  - by destruct s.
Qed.

Lemma AddRefund_undoable g : undoable (λ _, True) (AddRefund g) anything.
Proof.
  intros s s' r Hwf _ [= <- _]. split; [|done]. eexists. eapply field_step; try done; try apply Hwf.
  by destruct s.
Qed.

Lemma SubRefund_undoable g : undoable (λ _, True) (SubRefund g) anything.
Proof.
  unfold SubRefund. intros s s' r Hwf _. rewrite (bind_Ok (gets _) _ s s _ eq_refl).
  rewrite (bind_Ok (append _) _ s (journaled (refundChange (db_refund s)) s) tt eq_refl).
  destruct (g >? db_refund s); [done|]. intros [= <- _]. split; [|done].
  eexists. eapply field_step; try done; try apply Hwf. by destruct s.
Qed.

Lemma AddAddress_undoable a : undoable (λ _, True) (AddAddressToAccessList a) anything.
Proof.
  unfold AddAddressToAccessList, al, zoom. intros s s' r Hwf _ (s1 & b & E1 & E2)%bind_Ok_inv.
  split; [|done]. destruct (AccessList.AddAddress a (db_accessList s)) as [l o] eqn:El. simplify_eq E1.
  intros <- ->. destruct b; cbn in E2; unfold append, modify, ret in E2; simplify_eq E2; intros <-.
  - eexists. apply (field_step _ _ (set_accessList (db_accessList s)
      (journaled (accessListAddAccountChange a) s))); try done; try apply Hwf.
    + eapply AccessList.AddAddress_wf; [apply Hwf|exact El].
    + cbn [Revert]. unfold al, zoom. cbn [db_accessList set_accessList set_journal].
      by rewrite (AccessList.AddAddress_undo _ _ _ El).
    + by destruct s.
  - apply AccessList.AddAddress_false in El as ->. exists [].
    assert (set_accessList (db_accessList s) s = s) as -> by by destruct s. by apply step_refl.
Qed.

Lemma AddSlot_undoable a k : undoable (λ _, True) (AddSlotToAccessList a k) anything.
Proof.
  unfold AddSlotToAccessList, al, zoom. intros s s' r Hwf _ (s1 & [am sm] & E1 & E2)%bind_Ok_inv.
  split; [|done]. destruct (AccessList.AddSlot a k (db_accessList s)) as [l x] eqn:El. simplify_eq E1.
  intros <- ->. pose proof (AccessList.AddSlot_wf _ _ _ _ _ (wf_al _ Hwf) El) as Hl. destruct sm.
  2:{ apply AccessList.AddSlot_false in El as [-> ->]. cbn in E2. unfold ret in E2. exists [].
      assert (s' = s) as -> by (simplify_eq E2; intros <-; by destruct s). by apply step_refl. }
  destruct (AccessList.AddSlot_undo _ _ _ _ _ (wf_al _ Hwf) El) as (l1 & Hdel & Hback).
  destruct am; cbn in E2; unfold append, modify, ret in E2; simplify_eq E2; intros <-.
  - (* the address is journaled first: an intermediate state with only the address added *)
    destruct Hback as [Hnone Hback].
    assert (AccessList.AddAddress a (db_accessList s) = (l1, Ok true)) as Hadd.
    { unfold AccessList.AddAddress. rewrite Hnone. do 2 f_equal.
      unfold AccessList.DeleteAddress, modify in Hback. simplify_eq Hback. intros Hs.
      clear -El Hdel Hnone Hs. unfold AccessList.AddSlot in El. rewrite Hnone in El. simplify_eq El. intros <-.
      unfold AccessList.DeleteSlot, AccessList.slot_at in Hdel. cbn in Hdel.
      rewrite lookup_insert_eq in Hdel.
      destruct (Z.ltb_spec (Z.of_nat (length (AccessList.slots (db_accessList s)))) 0); [lia|].
      rewrite Nat2Z.id, lookup_app_r, Nat.sub_diag in Hdel by lia. cbn in Hdel.
      rewrite decide_True in Hdel by set_solver.
      rewrite insert_insert_eq, take_app_length in Hdel. by simplify_eq Hdel. }
    set (sm := set_accessList l1 (journaled (accessListAddAccountChange a) s)).
    exists ([accessListAddAccountChange a] ++ [accessListAddSlotChange a k]).
    assert (step s sm [accessListAddAccountChange a]) as S1.
    { apply (field_step _ _ (set_accessList (db_accessList s)
        (journaled (accessListAddAccountChange a) s))); try done; try apply Hwf.
      - eapply AccessList.AddAddress_wf; [apply Hwf|exact Hadd].
      - cbn [Revert]. unfold al, zoom. cbn [db_accessList set_accessList set_journal sm].
        by rewrite (AccessList.AddAddress_undo _ _ _ Hadd).
      - by destruct s. }
    eapply step_trans; [exact S1|].
    apply (field_step _ _ (set_accessList l1 (journaled (accessListAddSlotChange a k) sm))); try done;
      try apply S1.
    cbn [Revert]. unfold al, zoom. cbn [db_accessList set_accessList set_journal sm]. by rewrite Hdel.
  - subst l1. eexists. apply (field_step _ _ (set_accessList (db_accessList s)
      (journaled (accessListAddSlotChange a k) s))); try done; try apply Hwf.
    + cbn [Revert]. unfold al, zoom. cbn [db_accessList set_accessList set_journal]. by rewrite Hdel.
    + by destruct s.
Qed.
End revert.
