(* ===== verification/StateDBHist.v ===== *)
(** Histories of a StateDB: the EVM's operations, snapshots and reverts in any
    nesting.  Every live snapshot can be reverted to, and shows the state it was
    taken in. *)

From S2P Require Import Prelude.
From S2P Require Import AccessList.
From S2P Require Import StateDB.
From S2P Require Import StateDBRevert.

(** * Bisection *)

Section search.
Context (f : Z → bool).

(** [f] is false up to some point and true after it. *)
Definition monotone (n : Z) : Prop := ∀ i j, 0 ≤ i ≤ j → j < n → f i = true → f j = true.

Lemma search_loop_spec n fuel i j :
  monotone n → 0 ≤ i ≤ j → j ≤ n → j - i ≤ Z.of_nat fuel →
  (∀ k, 0 ≤ k < i → f k = false) → (∀ k, j ≤ k < n → f k = true) →
  let r := search_loop fuel i j f in
  i ≤ r ≤ j ∧ (∀ k, 0 ≤ k < r → f k = false) ∧ (∀ k, r ≤ k < n → f k = true).
Proof.
  intros Hm. revert i j. induction fuel as [|fuel IH]; intros i j Hij Hjn Hfuel Hlo Hhi; cbn.
  { assert (i = j) as -> by lia. split_and!; auto; lia. }
  destruct (Z.ltb_spec i j) as [Hlt|]; [|assert (i = j) as -> by lia; split_and!; auto; lia].
  assert (i ≤ (i + j) / 2 < j) as Hh
    by (split; [apply Z.div_le_lower_bound|apply Z.div_lt_upper_bound]; lia).
  set (h := (i + j) / 2) in *. clearbody h. destruct (f h) eqn:Hf; cbn [negb].
  - destruct (IH i h) as (? & ? & ?); try done; try lia; [|split_and!; auto; lia].
    intros k Hk. apply (Hm h k); [lia|lia|done].
  - destruct (IH (h + 1) j) as (? & ? & ?); try done; try lia; [|split_and!; auto; lia].
    intros k Hk. destruct (f k) eqn:Hfk; [|done].
    rewrite (Hm k h) in Hf; [done|lia|lia|done].
Qed.

Lemma Search_spec n :
  monotone n → 0 ≤ n →
  let r := Search n f in
  0 ≤ r ≤ n ∧ (∀ k, 0 ≤ k < r → f k = false) ∧ (∀ k, r ≤ k < n → f k = true).
Proof. intros. apply search_loop_spec; try done; lia. Qed.

(** The least index at which [f] holds is found. *)
Lemma Search_least n i :
  monotone n → 0 ≤ i < n → f i = true → (∀ k, 0 ≤ k < i → f k = false) → Search n f = i.
Proof.
  intros Hm Hi Hf Hlo. destruct (Search_spec n Hm ltac:(lia)) as (Hr & Hlo' & Hhi').
  destruct (Z.lt_trichotomy (Search n f) i) as [Hlt|[|Hgt]]; [|done|].
  - specialize (Hlo (Search n f) ltac:(lia)). specialize (Hhi' (Search n f) ltac:(lia)). congruence.
  - specialize (Hlo' i ltac:(lia)). congruence.
Qed.
End search.

Section hist.
Context `{Crypto} {St : Type} `{!Keeper St}.

Abbreviation DB := (StateDB St).
Implicit Types (s t u b : DB) (cps : list (Z * DB)).

(** * The EVM's operations *)

Inductive evm_op : Type :=
  | OExist (a : Address) | OEmpty (a : Address) | OGetBalance (a : Address) | OGetNonce (a : Address)
  | OGetCode (a : Address) | OGetCodeSize (a : Address) | OGetCodeHash (a : Address)
  | OGetState (a : Address) (k : Hash) | OGetCommittedState (a : Address) (k : Hash)
  | OGetStateAndCommittedState (a : Address) (k : Hash) | OHasSelfDestructed (a : Address)
  | OAddBalance (a : Address) (v : Z) | OSubBalance (a : Address) (v : Z) | OSetBalance (a : Address) (v : Z)
  | OSetNonce (a : Address) (v : Z) | OSetCode (a : Address) (c : option string)
  | OSetState (a : Address) (k v : Hash) | OSetTransientState (a : Address) (k v : Hash)
  | OCreateAccount (a : Address) | OCreateContract (a : Address)
  | OSelfDestruct (a : Address) | OSelfDestruct6780 (a : Address)
  | OAddLog (addr : Address) (topics : list Hash) (data : string) | OAddRefund (gas : Z) | OSubRefund (gas : Z)
  | OAddAddress (a : Address) | OAddSlot (a : Address) (k : Hash).

Definition done_ {A} (m : M DB A) : M DB unit := m >>! ret tt.

Definition run_evm (op : evm_op) : M DB unit :=
  match op with
  | OExist a => done_ (Exist a) | OEmpty a => done_ (Empty a)
  | OGetBalance a => done_ (GetBalance a) | OGetNonce a => done_ (GetNonce a)
  | OGetCode a => done_ (GetCode a) | OGetCodeSize a => done_ (GetCodeSize a)
  | OGetCodeHash a => done_ (GetCodeHash a) | OGetState a k => done_ (GetState a k)
  | OGetCommittedState a k => done_ (GetCommittedState a k)
  | OGetStateAndCommittedState a k => done_ (GetStateAndCommittedState a k)
  | OHasSelfDestructed a => done_ (HasSelfDestructed a)
  | OAddBalance a v => done_ (AddBalance a v) | OSubBalance a v => done_ (SubBalance a v)
  | OSetBalance a v => SetBalance a v | OSetNonce a v => SetNonce a v
  | OSetCode a c => done_ (SetCode a c) | OSetState a k v => done_ (SetState a k v)
  | OSetTransientState a k v => SetTransientState a k v
  | OCreateAccount a => CreateAccount a | OCreateContract a => CreateContract a
  | OSelfDestruct a => done_ (SelfDestruct a) | OSelfDestruct6780 a => done_ (SelfDestruct6780 a)
  | OAddLog a t d => AddLog a t d | OAddRefund g => AddRefund g | OSubRefund g => SubRefund g
  | OAddAddress a => AddAddressToAccessList a | OAddSlot a k => AddSlotToAccessList a k
  end.

Abbreviation Undo m := (undoable (λ _, True) m anything).

Lemma done_undoable {A} (m : M DB A) : Undo m → Undo (done_ m).
Proof. intros Hm. eapply undoable_bind; [exact Hm|]. intros r. by apply undoable_ret. Qed.

Lemma on_object_undoable {A} a (none : A) f :
  (∀ o, undoable (λ s, lookup_obj s a = Some o) (f o) anything) → Undo (on_object a none f).
Proof.
  intros Hf. unfold on_object. eapply undoable_bind; [apply getStateObject_undoable|].
  intros [o|]; [apply Hf|by apply undoable_ret].
Qed.

Lemma code_undoable {A} a o (f : option string → A) :
  undoable (λ s, lookup_obj s a = Some o) (let! (_, c) := so_Code o in ret (f c)) anything.
Proof. eapply undoable_bind; [apply so_Code_undoable|]. intros [??]. by apply undoable_ret. Qed.

Lemma with_object_undoable {A} a (f : stateObject → M DB A) :
  (∀ o, so_address o = a → undoable (λ s, lookup_obj s a = Some o) (f o) anything) →
  Undo (let! o := getOrNewStateObject a in f o).
Proof.
  intros Hf. eapply undoable_bind; [apply getOrNew_undoable|]. intros o s s' r Hwf Ho.
  by apply (Hf o); [eapply has_address|..].
Qed.

#[local] Hint Resolve done_undoable on_object_undoable with_object_undoable code_undoable : core.
#[local] Hint Extern 1 (undoable _ (ret _) _) => (by apply undoable_ret) : core.

Lemma so_AddBalance_undoable a o v : so_address o = a →
  undoable (λ s, lookup_obj s a = Some o) (so_AddBalance o v) anything.
Proof. intros. unfold so_AddBalance. case_match; [auto|by apply so_SetBalance_undoable]. Qed.

Lemma so_SubBalance_undoable a o v : so_address o = a →
  undoable (λ s, lookup_obj s a = Some o) (so_SubBalance o v) anything.
Proof. intros. unfold so_SubBalance. case_match; [auto|by apply so_SetBalance_undoable]. Qed.

Lemma op_undoable op : Undo (run_evm op).
Proof.
  destruct op; cbn [run_evm]; try apply done_undoable;
    first [by apply on_object_undoable; auto | idtac].
  - apply on_object_undoable. intros o.
    eapply undoable_bind; [apply so_GetState_undoable|]. intros [??]. auto.
  - apply on_object_undoable. intros o.
    eapply undoable_bind; [apply so_GetCommittedState_undoable|]. intros [??]. auto.
  - apply on_object_undoable. intros o.
    eapply undoable_bind; [apply so_GetState_undoable|]. intros [o1 ?].
    eapply undoable_bind; [eapply undoable_weaken; [apply (so_GetCommittedState_undoable a o1)| |done]|].
    + by intros s [? _].
    + intros [??]. auto.
  - apply with_object_undoable. intros o Ho. by apply so_AddBalance_undoable.
  - apply with_object_undoable. intros o Ho. case_match; [auto|by apply so_SubBalance_undoable].
  - apply with_object_undoable. intros o Ho.
    eapply undoable_bind; [by apply so_SetBalance_undoable|]. intros. auto.
  - apply with_object_undoable. intros o Ho. by apply so_SetNonce_undoable.
  - apply with_object_undoable. intros o Ho.
    eapply undoable_bind; [by apply so_SetCode_undoable|]. intros. auto.
  - apply with_object_undoable. intros o Ho. by apply so_SetState_undoable.
  - apply SetTransientState_undoable.
  - apply CreateAccount_undoable.
  - apply CreateContract_undoable.
  - apply SelfDestruct_undoable.
  - apply SelfDestruct6780_undoable.
  - apply AddLog_undoable.
  - apply AddRefund_undoable.
  - apply SubRefund_undoable.
  - apply AddAddress_undoable.
  - apply AddSlot_undoable.
Qed.

(** * Histories *)

Abbreviation jlen s := (length (entries (db_journal s))).

(** [evm_run s cps]: [s] is reached in one transaction, and [cps] are the live
    snapshots, each with the state it was taken in. *)
Inductive evm_run : DB → list (Z * DB) → Prop :=
  | run_start ctx events tx rules sender coinbase dst precompiles list s :
      Prepare rules sender coinbase dst precompiles list (New ctx events tx) = (s, Ok tt) →
      evm_run s []
  | run_op op s cps s' :
      evm_run s cps → run_evm op s = (s', Ok tt) → evm_run s' cps
  | run_snapshot s cps s' id :
      evm_run s cps → Snapshot s = (s', Ok id) → evm_run s' (cps ++ [(id, s)])
  | run_revert s cps1 id b cps2 s' :
      evm_run s (cps1 ++ (id, b) :: cps2) → RevertToSnapshot id s = (s', Ok tt) → evm_run s' cps1.

Definition rev_of (c : Z * DB) : revision :=
  mkRevision c.1 (Z.of_nat (jlen c.2)) (db_events c.2).

(** From [s], reverting the entries after [b]'s leads to what [b] shows. *)
Definition leads_to s b : Prop :=
  ∃ es, entries (db_journal s) = entries (db_journal b) ++ es ∧
    ∃ u, revert_entries (reverse es) s = (u, Ok tt) ∧ equiv u b.

(** Objects of [b] are live in [s], but for those of accounts the keeper does
    not have. *)
Definition keeps_live b s : Prop := ∀ a, live b a → live s a ∨ k_GetAccount (db_ctx b) a = None.

Record inv s cps : Prop := {
  iv_wf : db_wf s;
  iv_revs : db_validRevisions s = rev_of <$> cps;
  iv_sorted : StronglySorted Z.lt cps.*1;
  iv_next : Forall (λ id, id < db_nextRevisionID s) cps.*1;
  iv_cps : Forall (λ c, db_wf c.2 ∧ db_ctx c.2 = db_ctx s ∧ leads_to s c.2 ∧ keeps_live c.2 s) cps;
  iv_chain : StronglySorted (λ c1 c2, entries (db_journal c1.2) `prefix_of` entries (db_journal c2.2)) cps
}.

Lemma inv_step s s' es cps : step s s' es → inv s cps → inv s' cps.
Proof.
  intros [W C R N V E (t & U & Eq) L] [Iw Ir Is In Ic Ich].
  split; [done|by rewrite R|done|by rewrite N| |done].
  eapply Forall_impl; [exact Ic|]. intros [id b] (Wb & Cb & (es0 & E0 & U0) & Hl).
  split_and!; [done|by rewrite C| |intros a Ha; destruct (Hl a Ha); auto]. exists (es0 ++ es). split; [by rewrite E, E0, app_assoc|].
  rewrite reverse_app. setoid_rewrite revert_entries_app. cbn [snd] in *.
  destruct (undo_transfer s t b es0 (entries (db_journal b)) Iw) as (u & Hu & Eu);
    [|by symmetry|exact E0|done|].
  - eapply (undo_objs_ok s'); [exact W|exact E|exact U].
  - exists u. by erewrite bind_Ok by exact U.
Qed.

Lemma StronglySorted_app_1 {A} (R : A → A → Prop) l1 l2 :
  StronglySorted R (l1 ++ l2) → StronglySorted R l1.
Proof.
  induction l1 as [|x l1 IH]; cbn; [constructor|]. inversion 1 as [|?? Hs Hf]; subst.
  constructor; [auto|]. by apply Forall_app in Hf as [? _].
Qed.

Lemma StronglySorted_snoc {A} (R : A → A → Prop) l x :
  StronglySorted R l → Forall (λ y, R y x) l → StronglySorted R (l ++ [x]).
Proof.
  induction 1 as [|y l Hs IH Hy]; cbn; intros Hx; [by repeat constructor|].
  apply Forall_cons in Hx as [? ?]. constructor; [auto|]. apply Forall_app. by split; [|constructor].
Qed.

Lemma inv_snapshot s cps s' id : inv s cps → Snapshot s = (s', Ok id) → inv s' (cps ++ [(id, s)]).
Proof.
  intros [Iw Ir Is In Ic Ich] [= <- <-].
  assert (objs_ok (set_validRevisions
    (db_validRevisions s ++ [mkRevision (db_nextRevisionID s) (Z.of_nat (jlen s)) (db_events s)])
    (set_nextRevisionID (db_nextRevisionID s + 1) s))) as Hok by by apply (objs_ok_same s), Iw.
  split; cbn.
  - destruct Iw. by split.
  - rewrite Ir, fmap_app. done.
  - rewrite fmap_app. apply StronglySorted_snoc; [done|]. exact In.
  - rewrite fmap_app. apply Forall_app. split; [|constructor; [cbn; lia|constructor]].
    eapply Forall_impl; [exact In|]. cbn. lia.
  - apply Forall_app. split.
    + eapply Forall_impl; [exact Ic|]. intros [id b] (Wb & Cb & (es0 & E0 & U0) & Hl).
      split_and!; [done..| |exact Hl]. exists es0. split; [done|].
      eapply (undo_transfer s); [done|exact Hok|by split|exact E0|done].
    + constructor; [|constructor]. split_and!; [done|done| |by left].
      exists []. split; [by rewrite app_nil_r|]. eexists. split; [done|]. by split.
  - apply StronglySorted_snoc; [done|]. eapply Forall_impl; [exact Ic|].
    intros [id b] (_ & _ & (es0 & E0 & _) & _). by exists es0.
Qed.

(** The bisection finds the revision. *)
Lemma search_rev cps1 id b cps2 :
  StronglySorted Z.lt (cps1 ++ (id, b) :: cps2).*1 →
  let revs := rev_of <$> (cps1 ++ (id, b) :: cps2) in
  Search (Z.of_nat (length revs)) (λ i,
    match revs !! Z.to_nat i with Some r => rev_id r >=? id | None => false end)
  = Z.of_nat (length cps1).
Proof.
  intros Hs revs.
  assert (∀ i j x y, (i < j)%nat → (cps1 ++ (id, b) :: cps2) !! i = Some x →
    (cps1 ++ (id, b) :: cps2) !! j = Some y → x.1 < y.1) as Hlt.
  { clear revs. generalize dependent (cps1 ++ (id, b) :: cps2). induction l as [|z l IH]; [done|].
    cbn. inversion 1 as [|?? Hs' Hf]; subst. intros [|i] [|j] x y Hij Hx Hy; try lia.
    - simplify_eq Hx. intros <-. cbn in Hy. rewrite Forall_fmap, Forall_lookup in Hf. by apply (Hf j y).
    - cbn in *. apply (IH Hs' i j x y); [lia|done|done]. }
  assert ((cps1 ++ (id, b) :: cps2) !! length cps1 = Some (id, b)) as Hmid
    by by apply list_lookup_middle.
  apply Search_least; unfold revs.
  - intros i j Hij Hj. rewrite length_fmap in Hj. rewrite !list_lookup_fmap.
    destruct (lookup_lt_is_Some_2 (cps1 ++ (id, b) :: cps2) (Z.to_nat i)) as [x Hx]; [lia|].
    destruct (lookup_lt_is_Some_2 (cps1 ++ (id, b) :: cps2) (Z.to_nat j)) as [y Hy]; [lia|].
    rewrite Hx, Hy. cbn. rewrite !Z.geb_le.
    destruct (decide (i = j)) as [->|]; [rewrite Hx in Hy; by simplify_eq|].
    specialize (Hlt (Z.to_nat i) (Z.to_nat j) x y ltac:(lia) Hx Hy). lia.
  - rewrite length_fmap, length_app. cbn. lia.
  - rewrite Nat2Z.id, list_lookup_fmap, Hmid. cbn. apply Z.geb_le. lia.
  - intros k Hk. rewrite list_lookup_fmap.
    destruct ((cps1 ++ (id, b) :: cps2) !! Z.to_nat k) as [x|] eqn:Hx; [|done]. cbn.
    specialize (Hlt (Z.to_nat k) (length cps1) x (id, b) ltac:(lia) Hx Hmid). cbn in Hlt.
    destruct (Z.geb_spec x.1 id); lia.
Qed.

(** Reverts leave the revisions and the events alone. *)
Definition frame (c : list revision * Z * list Event) t : Prop :=
  (db_validRevisions t, db_nextRevisionID t, db_events t) = c.

Lemma getStateObject_frame c a : preserves (frame c) (getStateObject a).
Proof.
  unfold getStateObject. apply preserves_bind; [apply preserves_gets|].
  intros [o|]; [apply preserves_ret|]. apply preserves_bind; [apply preserves_gets|].
  intros [acc|]; [|apply preserves_ret].
  apply preserves_bind; [by apply preserves_modify|intros; apply preserves_ret].
Qed.

Lemma Revert_frame c e : preserves (frame c) (Revert e).
Proof.
  assert (∀ a f, preserves (frame c) (on_live a f)) as Hlive.
  { intros a f. apply preserves_bind; [apply getStateObject_frame|].
    intros [o|]; [by apply preserves_modify|apply preserves_panic]. }
  destruct e; cbn [Revert]; first [apply Hlive | by apply preserves_modify | idtac].
  - apply preserves_bind; [apply getStateObject_frame|].
    intros [o|]; [by apply preserves_modify|apply preserves_ret].
  - intros s Hs. by destruct (db_logs s).
  - intros s Hs. unfold al, zoom. by destruct (AccessList.DeleteSlot _ _ _).
  - intros s Hs. unfold RevertMultiStore. destruct (db_cache s); [|done]. by destruct (_ || _).
Qed.

Lemma revert_entries_frame c es : preserves (frame c) (revert_entries es).
Proof.
  induction es as [|e es IH]; [apply preserves_ret|].
  cbn [revert_entries]. apply preserves_bind; [apply Revert_frame|]. intros _.
  apply preserves_bind; [by apply preserves_modify|done].
Qed.

(** Reverts delete only the objects of accounts the keeper does not have. *)
Definition alive (c : St) a t : Prop := db_ctx t = c ∧ (live t a ∨ k_GetAccount c a = None).

Lemma alive_put c a o : preserves (alive c a) (setStateObject o).
Proof. apply preserves_modify. intros s [Hc [|]]; split; auto. left. by apply (live_put s o). Qed.

Lemma getStateObject_alive c a a' : preserves (alive c a) (getStateObject a').
Proof.
  unfold getStateObject. apply preserves_bind; [apply preserves_gets|].
  intros [o|]; [apply preserves_ret|]. apply preserves_bind; [apply preserves_gets|].
  intros [acc|]; [|apply preserves_ret].
  apply preserves_bind; [apply alive_put|intros; apply preserves_ret].
Qed.

Lemma Revert_alive c a e : entry_ok c e → preserves (alive c a) (Revert e).
Proof.
  intros He. assert (∀ a' f, preserves (alive c a) (on_live a' f)) as Hlive.
  { intros a' f. apply preserves_bind; [apply getStateObject_alive|].
    intros [o|]; [apply alive_put|apply preserves_panic]. }
  destruct e; cbn [Revert]; first [apply Hlive | apply alive_put | by apply preserves_modify | idtac].
  - apply preserves_modify. intros s [Hc Hl]. split; [done|]. cbn in He.
    destruct (decide (a = account)) as [->|Hne]; [by right|].
    destruct Hl; [left|by right]. unfold live. cbn. by rewrite lookup_delete_ne.
  - apply preserves_bind; [apply getStateObject_alive|].
    intros [o|]; [apply alive_put|apply preserves_ret].
  - intros s Hs. by destruct (db_logs s).
  - intros s Hs. unfold al, zoom. by destruct (AccessList.DeleteSlot _ _ _).
  - intros s Hs. unfold RevertMultiStore. destruct (db_cache s); [|done]. by destruct (_ || _).
Qed.

Lemma revert_entries_alive c a es :
  Forall (entry_ok c) es → preserves (alive c a) (revert_entries es).
Proof.
  induction 1 as [|e es He _ IH]; [apply preserves_ret|].
  cbn [revert_entries]. apply preserves_bind; [by apply Revert_alive|]. intros _.
  apply preserves_bind; [by apply preserves_modify|done].
Qed.

Lemma equiv_fields s t j rs :
  equiv s t → dirties j = dirties (db_journal s) → equiv (set_validRevisions rs (set_journal j s)) t.
Proof. intros [? ? ? ? Hd ? ? ? ? ?] Hj. split; try done. cbn. by rewrite Hj. Qed.

(** A state that shows what a well-formed one does is well formed. *)
Lemma wf_equiv s t :
  db_wf t → equiv s t → objs_ok s → keeps_live t s →
  entries (db_journal s) = entries (db_journal t) → db_wf s.
Proof.
  intros [_ We Wd Wa Wt Wc Wl Ww] E Ho Hl Hes. pose proof E as [Ec _ Ew Et Ed _ _ Ea _ Eo].
  split; [done|by rewrite Hes, Ec| |by rewrite Ea|by rewrite Et|by rewrite Ed| |by rewrite Ew].
  - intros a v k x Hv. rewrite Eo in Hv. rewrite Ec. by eapply Wd.
  - intros a Ha. rewrite Ed in Ha. apply Wl in Ha as [o Ht]. destruct (Hl a (ex_intro _ o Ht)) as [|Hn]; [done|].
    specialize (Eo a). unfold obs, lookup_obj in Eo. rewrite Ht, Ec, Hn in Eo.
    unfold live. by destruct (db_stateObjects s !! a).
Qed.

(** Undoing in two stages. *)
Lemma leads_to_split s t b b1 es es1 :
  db_wf s → db_wf b → objs_ok t → equiv t b →
  entries (db_journal s) = entries (db_journal b) ++ es →
  entries (db_journal b) = entries (db_journal b1) ++ es1 →
  (∃ u, revert_entries (reverse es) s = (u, Ok tt) ∧ equiv u b) →
  leads_to s b1 →
  ∃ u, revert_entries (reverse es1) t = (u, Ok tt) ∧ equiv u b1.
Proof.
  intros Ws Wb Ht Et Ees Ees1 (u & Hu & Eu) (es2 & Ees2 & v & Hv & Ev).
  assert (es2 = es1 ++ es) as ->.
  { rewrite Ees, Ees1, <-app_assoc in Ees2. by apply app_inv_head in Ees2. }
  rewrite reverse_app, revert_entries_app in Hv. erewrite bind_Ok in Hv by exact Hu.
  assert (objs_ok u) as Hou by (eapply (undo_objs_ok s); [exact Ws|exact Ees|exact Hu]).
  assert (Forall (entry_ok (db_ctx b)) (reverse es1)) as Hes1
    by (eapply entries_ok_reverse; [exact Wb|exact Ees1]).
  destruct (revert_entries_tracks (reverse es1) u t v) as (w & Hw & Ew & _); try done.
  - by rewrite Et.
  - by rewrite (eq_ctx _ _ Eu).
  - exists w. split; [done|]. by rewrite <-Ew.
Qed.

(** The state after [RevertToSnapshot] of a live snapshot. *)
Lemma revert_run s cps1 id b cps2 :
  inv s (cps1 ++ (id, b) :: cps2) →
  ∃ s', RevertToSnapshot id s = (s', Ok tt) ∧ equiv s' b ∧
    entries (db_journal s') = entries (db_journal b) ∧ db_events s' = db_events b ∧ inv s' cps1.
Proof.
  intros [Iw Ir Is In Ic Ich]. unfold RevertToSnapshot.
  rewrite (bind_Ok (gets _) _ s s _ eq_refl), Ir, search_rev by done.
  rewrite Nat2Z.id, list_lookup_fmap, list_lookup_middle by done.
  cbn [fmap option_fmap option_map rev_of rev_id rev_events rev_journalIndex fst snd].
  rewrite Z.eqb_refl. cbn [negb].
  rewrite (bind_Ok (modify _) _ s (set_events (db_events b) s) tt eq_refl).
  pose proof Ic as Ic'. apply Forall_app in Ic' as [Ic1 [(Wb & Cb & (es & Ees & u & Hu & Eu) & Lb) _]%Forall_cons].
  cbn [snd] in *. set (s0 := set_events (db_events b) s).
  assert (objs_ok s0) as Hok0 by by apply (objs_ok_same s), Iw.
  destruct (revert_entries_tracks (reverse es) s s0 u) as (u0 & Hu0 & E0 & _ & Ou0 & _ & J0);
    [by split|apply Iw|done|eapply entries_ok_reverse; [exact Iw|exact Ees]|done|].
  assert (frame (db_validRevisions s, db_nextRevisionID s, db_events b) u0) as Hframe.
  { pose proof (revert_entries_frame (db_validRevisions s, db_nextRevisionID s, db_events b)
      (reverse es) s0 eq_refl) as Hf. by rewrite Hu0 in Hf. }
  injection Hframe as Ru Nu Vu.
  assert (∀ b1, db_ctx b1 = db_ctx s → keeps_live b1 s → keeps_live b1 u0) as Hkeep.
  { intros b1 C1 L1 a Ha. destruct (revert_entries_alive (db_ctx s) a (reverse es)
      (entries_ok_reverse _ _ _ Iw Ees) s0) as [_ Hal].
    - split; [done|]. rewrite <-C1. exact (L1 a Ha).
    - rewrite Hu0 in Hal. by rewrite C1. }
  set (j := mkJournal (entries (db_journal b)) (dirties (db_journal u0))).
  set (rs := take (length cps1) (rev_of <$> (cps1 ++ (id, b) :: cps2))).
  assert (journal_Revert (Z.of_nat (jlen b)) s0 = (set_journal j u0, Ok tt)) as Hrev.
  { unfold journal_Revert. rewrite (bind_Ok (gets _) _ s0 s0 _ eq_refl). rewrite Nat2Z.id.
    change (entries (db_journal s0)) with (entries (db_journal s)). rewrite Ees, drop_app_length.
    erewrite bind_Ok by exact Hu0. unfold modify. rewrite J0. cbn [db_journal s0 set_events].
    by rewrite Ees, take_app_length. }
  erewrite bind_Ok by exact Hrev. exists (set_validRevisions rs (set_journal j u0)).
  assert (equiv u0 b) as Eub by by rewrite <-E0.
  assert (equiv (set_validRevisions rs (set_journal j u0)) b) as Efin by by apply equiv_fields.
  assert (objs_ok (set_validRevisions rs (set_journal j u0))) as Ofin by by apply (objs_ok_same u0).
  split_and!; try done. split.
  - apply (wf_equiv _ b); try done. by apply Hkeep.
  - cbn. subst rs. rewrite fmap_app. by rewrite take_app_length' by by rewrite length_fmap.
  - rewrite fmap_app in Is. by eapply StronglySorted_app_1.
  - cbn. rewrite Nu. rewrite fmap_app in In. by apply Forall_app in In as [? _].
  - apply Forall_forall. intros [id1 b1] Hin. rewrite Forall_forall in Ic1.
    destruct (Ic1 _ Hin) as (Wb1 & Cb1 & L1 & K1). cbn [snd] in *. split_and!; [done| | |by apply Hkeep].
    + rewrite (eq_ctx _ _ Efin). congruence.
    + assert (entries (db_journal b1) `prefix_of` entries (db_journal b)) as [es1 Hes1].
      { clear -Ich Hin. induction cps1 as [|c l IH]; [set_solver|]. cbn in Ich.
        inversion Ich as [|?? Hs Hf]; subst. apply elem_of_cons in Hin as [<-|Hin]; [|auto].
        rewrite Forall_app, Forall_cons in Hf. by destruct Hf as (_ & ? & _). }
      exists es1. split; [done|]. eapply (leads_to_split s _ b b1 es); eauto.
  - by eapply StronglySorted_app_1.
Qed.

(** What [Prepare] may do to a new state. *)
Definition fresh (ctx : St) t : Prop :=
  db_wf t ∧ db_stateObjects t = ∅ ∧ db_journal t = newJournal ∧ db_validRevisions t = [] ∧ db_ctx t = ctx.

Lemma fresh_al ctx t l :
  fresh ctx t → AccessList.wf l → fresh ctx (set_accessList l t).
Proof. intros (Hwf & ?) Hl. split; [|done]. destruct Hwf. by split. Qed.

Lemma al_fresh {A} ctx (m : M AccessList.accessList A) :
  (∀ l, AccessList.wf l → AccessList.wf (m l).1) → preserves (fresh ctx) (al m).
Proof.
  intros Hm t Ht. unfold al, zoom. specialize (Hm (db_accessList t)).
  destruct (m (db_accessList t)) as [l o]. apply fresh_al; [done|]. apply Hm, Ht.
Qed.

Lemma AddAddress_keeps a l : AccessList.wf l → AccessList.wf (AccessList.AddAddress a l).1.
Proof.
  intros Hl. destruct (AccessList.AddAddress a l) as [l' o] eqn:E.
  unfold AccessList.AddAddress in E. destruct (AccessList.addresses l !! a) eqn:Ea; [by simplify_eq|].
  apply (AccessList.AddAddress_wf a l l' true Hl). unfold AccessList.AddAddress. rewrite Ea. by simplify_eq.
Qed.

Lemma AddSlot_keeps a k l : AccessList.wf l → AccessList.wf (AccessList.AddSlot a k l).1.
Proof.
  intros Hl. destruct (AccessList.AddSlot a k l) as [l' [r|e|w]] eqn:E; cbn.
  - by eapply AccessList.AddSlot_wf.
  - unfold AccessList.AddSlot in E. repeat case_match; simplify_eq.
  - unfold AccessList.AddSlot in E. repeat case_match; by simplify_eq.
Qed.

Lemma prepare_fresh ctx rules sender coinbase dst precompiles list :
  preserves (fresh ctx) (Prepare rules sender coinbase dst precompiles list).
Proof.
  assert (∀ a, preserves (fresh ctx) (al (AccessList.AddAddress a) >>! ret tt)) as Hadd.
  { intros a. apply preserves_bind; [|intros; apply preserves_ret].
    apply al_fresh. intros. by apply AddAddress_keeps. }
  unfold Prepare.
  apply preserves_bind; [destruct (_ && _); [apply preserves_panic|apply preserves_ret]|intros _].
  apply preserves_bind.
  - apply preserves_when.
    apply preserves_bind; [apply preserves_modify; intros; apply fresh_al; [done|apply AccessList.wf_new]|intros _].
    apply preserves_bind; [apply Hadd|intros _].
    apply preserves_bind; [destruct dst; [apply Hadd|apply preserves_ret]|intros _].
    apply preserves_bind; [by apply preserves_for_each|intros _].
    apply preserves_bind; [|intros _; by apply preserves_when].
    apply preserves_for_each. intros [a keys].
    apply preserves_bind; [apply Hadd|intros _]. apply preserves_for_each. intros k.
    apply preserves_bind; [|intros; apply preserves_ret]. apply al_fresh. intros. by apply AddSlot_keeps.
  - intros _. apply preserves_modify. intros t (Hwf & ?). split; [|done].
    destruct Hwf. split; try done; try (apply map_Forall_empty).
Qed.

Lemma new_fresh ctx events tx : fresh ctx (New ctx events tx).
Proof.
  split; [|done]. split; cbn; try done.
  - intros a v k x. unfold obs, lookup_obj. cbn. rewrite lookup_empty.
    destruct (k_GetAccount ctx a); [|done]. intros [= <-]. cbn. by rewrite lookup_empty.
  - intros a. rewrite lookup_empty. by intros [].
Qed.

Lemma run_inv s cps : evm_run s cps → inv s cps.
Proof.
  induction 1 as [ctx events tx rules sender coinbase dst precompiles list s E
                 |op s cps s' _ IH E|s cps s' id _ IH E|s cps1 id b cps2 s' _ IH E].
  - assert (fresh ctx s) as (Hwf & _ & _ & Hr & _).
    { pose proof (prepare_fresh ctx rules sender coinbase dst precompiles list _ (new_fresh ctx events tx)) as Hf.
      by rewrite E in Hf. }
    split; try done; constructor.
  - destruct (op_undoable op s s' tt (iv_wf _ _ IH) I E) as [[es Hst] _]. by eapply inv_step.
  - by apply inv_snapshot.
  - destruct (revert_run _ _ _ _ _ IH) as (t & Et & _ & _ & _ & Hinv). congruence.
Qed.

(** C3: in any history of one transaction, with snapshots and reverts nested in
    any way between the EVM's reads and writes, every live snapshot can be
    reverted to without a panic, and the state then shows what it did when the
    snapshot was taken: every account's nonce, balance, code, storage and
    flags, the logs, the refund, the access list, the transient storage, the
    set of dirty accounts, the events and the journal. *)
Theorem RevertToSnapshot_restores s cps1 id b cps2 :
  evm_run s (cps1 ++ (id, b) :: cps2) →
  ∃ s', RevertToSnapshot id s = (s', Ok tt) ∧ equiv s' b ∧
    entries (db_journal s') = entries (db_journal b) ∧ db_events s' = db_events b.
Proof.
  intros Hr%run_inv. destruct (revert_run _ _ _ _ _ Hr) as (s' & E & Eq & Hj & Hv & _). eauto.
Qed.

(** A revert to an id that is not a live snapshot (never given out, or
    invalidated by a revert to an earlier one) panics and changes nothing. *)
Theorem RevertToSnapshot_unknown s cps id :
  evm_run s cps → id ∉ cps.*1 →
  RevertToSnapshot id s = (s, Panic "revision id cannot be reverted").
Proof.
  intros Hr%run_inv Hid. unfold RevertToSnapshot.
  rewrite (bind_Ok (gets _) _ s s _ eq_refl), (iv_revs _ _ Hr).
  destruct (_ !! Z.to_nat _) as [r|] eqn:E; [|done].
  rewrite list_lookup_fmap in E. apply fmap_Some in E as (c & Hc & ->). cbn.
  destruct (Z.eqb_spec c.1 id) as [<-|]; [|done].
  destruct Hid. apply list_elem_of_lookup_2 in Hc. by apply list_elem_of_fmap_2.
Qed.
End hist.
