(* ===== verification/StateDBCommit.v ===== *)
(** Committing the StateDB: every dirty account and every dirty slot reaches the
    keeper, and nothing else changes there. *)

From S2P Require Import Prelude.
From S2P Require Import AccessList.
From S2P Require Import StateDB.
From S2P Require Import StateDBRevert.
From S2P Require Import StateDBHist.

(** What the StateDB relies on of the keeper: a read sees the last write, and a
    write to one account or slot leaves the others alone.  A keeper promises this
    in the states it calls good, which every write keeps good, and for the
    addresses a transaction may write; a balance is a [uint256]. *)
Class KeeperLaws (St : Type) `{!Keeper St} : Type := {
  k_good : St → Prop;
  k_user : Address → Prop;
  set_account_good : ∀ a acc st st', k_good st → k_user a → 0 ≤ Balance acc < u256_max →
    k_SetAccount a acc st = (st', Ok tt) → k_good st';
  set_account_get : ∀ a acc st st', k_good st → k_user a → 0 ≤ Balance acc < u256_max →
    k_SetAccount a acc st = (st', Ok tt) →
    k_GetAccount st' a = Some (mkRawAccount (Nonce acc) (Some (Balance acc)) (Some (CodeHash acc)));
  set_account_frame : ∀ a acc st st' b, k_good st → k_user a → 0 ≤ Balance acc < u256_max →
    k_SetAccount a acc st = (st', Ok tt) → b ≠ a → k_GetAccount st' b = k_GetAccount st b;
  set_account_state : ∀ a acc st st' b k, k_SetAccount a acc st = (st', Ok tt) →
    k_GetState st' b k = k_GetState st b k;
  delete_account_good : ∀ a st st', k_good st → k_user a →
    k_DeleteAccount a st = (st', Ok tt) → k_good st';
  delete_account_get : ∀ a st st', k_good st → k_user a →
    k_DeleteAccount a st = (st', Ok tt) → k_GetAccount st' a = None;
  delete_account_frame : ∀ a st st' b, k_good st → k_user a →
    k_DeleteAccount a st = (st', Ok tt) → b ≠ a →
    k_GetAccount st' b = k_GetAccount st b ∧ ∀ k, k_GetState st' b k = k_GetState st b k;
  set_state_good : ∀ a k v st, k_good st → k_good (k_SetState a k v st);
  set_state_get : ∀ a k v st, k_GetState (k_SetState a k v st) a k = v;
  set_state_frame : ∀ a k v st b k', (b, k') ≠ (a, k) →
    k_GetState (k_SetState a k v st) b k' = k_GetState st b k';
  set_state_account : ∀ a k v st b, k_GetAccount (k_SetState a k v st) b = k_GetAccount st b;
  set_code_good : ∀ h c st, k_good st → k_good (k_SetCode h c st);
  set_code_frame : ∀ h c st b, k_GetAccount (k_SetCode h c st) b = k_GetAccount st b ∧
    ∀ k, k_GetState (k_SetCode h c st) b k = k_GetState st b k;
  delete_code_good : ∀ h st, k_good st → k_good (k_DeleteCode h st);
  delete_code_frame : ∀ h st b, k_GetAccount (k_DeleteCode h st) b = k_GetAccount st b ∧
    ∀ k, k_GetState (k_DeleteCode h st) b k = k_GetState st b k
}.

Lemma NoDup_sorted_keys {A} (m : gmap Z A) : NoDup (sorted_keys m).
Proof. unfold sorted_keys. rewrite merge_sort_Permutation. apply NoDup_fst_map_to_list. Qed.

Lemma elem_of_sorted_keys {A} (m : gmap Z A) k : k ∈ sorted_keys m ↔ is_Some (m !! k).
Proof.
  unfold sorted_keys. rewrite merge_sort_Permutation, list_elem_of_fmap. split.
  - intros ([k' v] & -> & Hin). apply elem_of_map_to_list in Hin. by exists v.
  - intros [v Hv]. exists (k, v). split; [done|]. by apply elem_of_map_to_list.
Qed.

Section commit.
Context `{Crypto} {St : Type} `{!Keeper St} `{!KeeperLaws St}.

Abbreviation DB := (StateDB St).
Implicit Types (s t : DB) (st : St) (o : stateObject) (a : Address) (k : Hash).

(** [st'] has what [st] has of the account [a]. *)
Definition same_at a st st' : Prop :=
  k_GetAccount st' a = k_GetAccount st a ∧ ∀ k, k_GetState st' a k = k_GetState st a k.

Lemma same_at_refl a st : same_at a st st.
Proof. done. Qed.

Lemma same_at_trans a st1 st2 st3 : same_at a st1 st2 → same_at a st2 st3 → same_at a st1 st3.
Proof. intros [Ha Hk] [Ha' Hk']. split; [congruence|]. intros k. by rewrite Hk'. Qed.

(** A run that writes the store of [a] and the object of [a] only. *)
Record local a s s' : Prop := {
  lc_good : k_good (db_ctx s) → k_good (db_ctx s');
  lc_store : ∀ a', a' ≠ a → same_at a' (db_ctx s) (db_ctx s');
  lc_objs : ∀ a', a' ≠ a → db_stateObjects s' !! a' = db_stateObjects s !! a'
}.

Lemma local_trans a s1 s2 s3 : local a s1 s2 → local a s2 s3 → local a s1 s3.
Proof.
  intros [G1 S1 O1] [G2 S2 O2]. split; [auto|..]; intros a' Ha.
  - eapply same_at_trans; eauto.
  - by rewrite O2, O1.
Qed.

Lemma local_ctx a s st :
  (k_good (db_ctx s) → k_good st) → (∀ a', a' ≠ a → same_at a' (db_ctx s) st) → local a s (set_ctx st s).
Proof. by split. Qed.

(** ** Slots *)

Lemma commit_slot_run a k o s :
  db_stateObjects s !! a = Some o → so_address o = a →
  let v := default zero_hash (so_dirtyStorage o !! k) in
  let o' := with_storage (<[k := v]> (so_originStorage o)) (delete k (so_dirtyStorage o)) (so_overrideStorage o) o in
  commit_slot ToCtx false a k s = (put o' (set_ctx (k_SetState a k v (db_ctx s)) s), Ok tt).
Proof.
  intros Ho Ha. unfold commit_slot. rewrite (bind_Ok (gets _) _ s s _ eq_refl), Ho. cbn.
  done.
Qed.

Lemma commit_slots_run a l o s :
  NoDup l → db_stateObjects s !! a = Some o → so_address o = a →
  ∃ s', for_each l (commit_slot ToCtx false a) s = (s', Ok tt) ∧ local a s s' ∧
    k_GetAccount (db_ctx s') a = k_GetAccount (db_ctx s) a ∧
    ∀ k, k_GetState (db_ctx s') a k =
      if decide (k ∈ l) then default zero_hash (so_dirtyStorage o !! k) else k_GetState (db_ctx s) a k.
Proof.
  revert o s. induction l as [|k l IH]; intros o s Hnd Ho Ha.
  { exists s. split_and!; try done. }
  apply NoDup_cons in Hnd as [Hk Hnd]. cbn [for_each].
  pose proof (commit_slot_run a k o s Ho Ha) as Hrun. cbv zeta in Hrun.
  set (v := default zero_hash (so_dirtyStorage o !! k)) in *.
  set (o1 := with_storage _ _ _ o) in Hrun. set (s1 := put o1 _) in Hrun.
  erewrite bind_Ok by exact Hrun.
  destruct (IH o1 s1) as (s' & E & L & Hacc & Hst); [done| |done|].
  { subst s1. unfold put. cbn. rewrite Ha. by rewrite lookup_insert_eq. }
  exists s'. split_and!; [done| | |].
  - eapply local_trans; [|exact L]. subst s1. split.
    + apply set_state_good.
    + intros a' Hne. split; [apply set_state_account|]. intros k'. apply set_state_frame. by intros [= ->].
    + intros a' Hne. unfold put. cbn. rewrite Ha. by rewrite lookup_insert_ne.
  - rewrite Hacc. apply set_state_account.
  - intros k'. rewrite Hst. subst s1. cbn. destruct (decide (k' ∈ l)) as [Hin|Hnin].
    + rewrite decide_True by set_solver. rewrite lookup_delete_ne by (intros ->; done). done.
    + destruct (decide (k' = k)) as [->|Hne].
      * rewrite decide_True by set_solver. apply set_state_get.
      * rewrite decide_False by set_solver. apply set_state_frame. congruence.
Qed.

(** ** Objects *)

(** What the keeper has of an account once its object was committed. *)
Definition committed a o st st' : Prop :=
  if so_selfDestructed o then k_GetAccount st' a = None
  else k_GetAccount st' a = Some (mkRawAccount (Nonce (so_account o)) (Some (Balance (so_account o)))
                                               (Some (CodeHash (so_account o)))) ∧
       ∀ k, k_GetState st' a k = default (k_GetState st a k) (so_dirtyStorage o !! k).

(** The write of the object to the keeper. *)
Definition written a o : M St unit :=
  if so_selfDestructed o then k_DeleteAccount a else k_SetAccount a (so_account o).

(** A transaction may write the object: its address is a user's and its balance
    is a [uint256]. *)
Definition writable a o : Prop := k_user a ∧ 0 ≤ Balance (so_account o) < u256_max.

(** The code of an object is written before its account. *)
Lemma commit_code_run o s :
  ∃ st1, match so_code o with
    | Some code => when (so_dirtyCode o)
        (on_target ToCtx (modify (if bool_decide (code = EmptyString)
                                  then k_DeleteCode (CodeHash (so_account o))
                                  else k_SetCode (CodeHash (so_account o)) code)))
    | None => ret tt
    end s = (set_ctx st1 s, Ok tt) ∧ (k_good (db_ctx s) → k_good st1) ∧ ∀ a', same_at a' (db_ctx s) st1.
Proof.
  assert (set_ctx (db_ctx s) s = s) as Eta by by destruct s.
  destruct (so_code o) as [code|]; [|exists (db_ctx s); by rewrite Eta].
  destruct (so_dirtyCode o); [|exists (db_ctx s); by rewrite Eta].
  cbn. eexists. split; [done|]. case_bool_decide; split.
  - apply delete_code_good.
  - intros. apply delete_code_frame.
  - apply set_code_good.
  - intros. apply set_code_frame.
Qed.

Lemma commit_object_run a o s :
  db_stateObjects s !! a = Some o → so_address o = a → writable a o → k_good (db_ctx s) →
  (is_ok (commit_object ToCtx false a s).2 = true ∧ ∃ s', commit_object ToCtx false a s = (s', Ok tt) ∧
     local a s s' ∧ committed a o (db_ctx s) (db_ctx s')) ∨
  (is_ok (commit_object ToCtx false a s).2 = false ∧
   ∃ st, k_good st ∧ same_at a (db_ctx s) st ∧ is_ok (written a o st).2 = false).
Proof.
  intros Ho Ha [Hu Hb] Hg. unfold commit_object, committed, written.
  rewrite (bind_Ok (gets _) _ s s _ eq_refl), Ho, Ha.
  destruct (so_selfDestructed o) eqn:Hsd.
  - unfold on_target. destruct (k_DeleteAccount a (db_ctx s)) as [st' [[]|e|w]] eqn:E; cbn.
    2,3: right; split; [done|]; exists (db_ctx s); by rewrite E.
    left. split; [done|]. exists (set_ctx st' s). split_and!; [done| |by eapply delete_account_get].
    apply local_ctx; [intros; by eapply delete_account_good|]. intros. by eapply delete_account_frame.
  - destruct (commit_code_run o s) as (st1 & E1 & G1 & H1). erewrite bind_Ok by exact E1.
    unfold on_target, bind. cbn [db_ctx set_ctx].
    destruct (k_SetAccount a (so_account o) st1) as [st2 [[]|e|w]] eqn:E2; cbn [fst snd is_ok].
    2,3: right; split; [done|]; exists st1; rewrite E2; auto.
    set (s2 := set_ctx st2 (set_ctx st1 s)). left.
    destruct (commit_slots_run a (sorted_keys (so_dirtyStorage o)) o s2) as (s' & E3 & L3 & A3 & K3);
      [apply NoDup_sorted_keys|done|done|].
    rewrite E3. split; [done|]. exists s'. split_and!; [done| | |].
    + eapply local_trans; [|exact L3]. apply (local_ctx a s st2); [eauto using set_account_good|].
      intros a' Hne. eapply same_at_trans; [apply H1|].
      split; [by eapply set_account_frame; eauto|intros; by eapply set_account_state].
    + rewrite A3. apply (set_account_get _ _ st1); auto.
    + intros k. rewrite K3. destruct (decide (k ∈ _)) as [Hin|Hnin].
      * apply elem_of_sorted_keys in Hin as [v Hv]. by rewrite Hv.
      * rewrite elem_of_sorted_keys in Hnin. destruct (so_dirtyStorage o !! k); [by destruct Hnin|]. cbn.
        erewrite set_account_state by exact E2. apply H1.
Qed.

(** ** The whole commit *)

Lemma commit_objects_run l s :
  NoDup l → k_good (db_ctx s) →
  (∀ a, a ∈ l → ∃ o, db_stateObjects s !! a = Some o ∧ so_address o = a ∧ writable a o) →
  (is_ok (for_each l (commit_object ToCtx false) s).2 = true ∧
   ∃ s', for_each l (commit_object ToCtx false) s = (s', Ok tt) ∧ k_good (db_ctx s') ∧
    (∀ a, a ∉ l → same_at a (db_ctx s) (db_ctx s')) ∧
    (∀ a o, a ∈ l → db_stateObjects s !! a = Some o → committed a o (db_ctx s) (db_ctx s'))) ∨
  (is_ok (for_each l (commit_object ToCtx false) s).2 = false ∧
   ∃ a o st, a ∈ l ∧ db_stateObjects s !! a = Some o ∧ k_good st ∧ same_at a (db_ctx s) st ∧
     is_ok (written a o st).2 = false).
Proof.
  revert s. induction l as [|a l IH]; intros s Hnd Hg Hl.
  { left. split; [done|]. exists s. split_and!; try done. set_solver. }
  apply NoDup_cons in Hnd as [Ha Hnd].
  destruct (Hl a) as (o & Ho & Hao & Hw); [set_solver|]. cbn [for_each].
  destruct (commit_object_run a o s Ho Hao Hw Hg) as [(_ & s1 & E1 & [G1 L1 O1] & C1)|(Ef & st & ? & ? & ?)].
  2: { right. split; [|exists a, o, st; split_and!; try done; set_solver].
       unfold bind. by destruct (commit_object ToCtx false a s) as [s1 []]. }
  erewrite bind_Ok by exact E1. destruct (IH s1 Hnd) as [(Eok & s' & E & G' & Hout & Hin)|(Ef & a' & o' & st & Ha' & Ho' & Hst)].
  { auto. }
  { intros a' Ha'. destruct (Hl a') as (o' & Ho' & ?); [set_solver|]. exists o'.
    rewrite O1 by (intros ->; done). done. }
  2: { right. split; [done|]. assert (a' ≠ a) as Hne by (intros ->; done). exists a', o', st.
       rewrite <-(O1 a') by done. destruct Hst as (? & Hs & ?). split_and!; [set_solver|done..| |done].
       eapply same_at_trans; [by apply L1|done]. }
  left. split; [done|]. exists s'. split_and!; [done..| |].
  - intros a' Ha'. apply not_elem_of_cons in Ha' as [? ?].
    eapply same_at_trans; [by apply L1|by apply Hout].
  - intros a' o' Ha' Ho'. destruct (decide (a' = a)) as [->|Hne].
    + rewrite Ho in Ho'. simplify_eq Ho'. intros <-. destruct (Hout a Ha) as [Hacc' Hk]. unfold committed in *.
      destruct (so_selfDestructed o); [congruence|]. destruct C1 as [C1 C2].
      split; [congruence|]. intros k. by rewrite Hk.
    + apply elem_of_cons in Ha' as [|Ha']; [done|]. rewrite <-(O1 a' Hne) in Ho'.
      specialize (Hin a' o' Ha' Ho'). destruct (L1 a' Hne) as [_ Hk]. unfold committed in *.
      destruct (so_selfDestructed o'); [done|]. destruct Hin as [? Hin]. split; [done|].
      intros k. by rewrite Hin, Hk.
Qed.

(** What the getters return of an account. *)
Lemma getters_show s a o k :
  db_wf s → db_stateObjects s !! a = Some o →
  (HasSelfDestructed a s).2 = Ok (so_selfDestructed o) ∧
  (GetNonce a s).2 = Ok (Nonce (so_account o)) ∧ (GetBalance a s).2 = Ok (Balance (so_account o)) ∧
  (GetCodeHash a s).2 = Ok (CodeHash (so_account o)) ∧
  (GetState a k s).2 = Ok (default (k_GetState (db_ctx s) a k) (so_dirtyStorage o !! k)).
Proof.
  intros Hwf Ho. pose proof (wf_objs _ Hwf a o Ho) as [Ha Hov Hor].
  assert (∀ {A} (none : A) f, on_object a none f s = f o s) as Hon.
  { intros A none f. unfold on_object, getStateObject. rewrite bind_assoc.
    rewrite (bind_Ok (gets _) _ s s _ eq_refl). by rewrite Ho. }
  unfold HasSelfDestructed, GetNonce, GetBalance, GetCodeHash, GetState. rewrite !Hon.
  split_and!; try done. unfold so_GetState. destruct (so_dirtyStorage o !! k) as [v|]; [done|].
  unfold so_GetCommittedState. rewrite Hov. cbn [default from_option id].
  destruct (so_originStorage o !! k) as [v|] eqn:Ev; cbn; [by rewrite (Hor k v Ev)|by rewrite Ha].
Qed.

Lemma Commit_run s cps :
  evm_run s cps → k_good (db_ctx s) →
  (∀ a o, is_Some (dirties (db_journal s) !! a) → db_stateObjects s !! a = Some o → writable a o) →
  ((∀ a o st, is_Some (dirties (db_journal s) !! a) → db_stateObjects s !! a = Some o →
      k_good st → same_at a (db_ctx s) st → is_ok (written a o st).2 = true) →
   is_ok (Commit s).2 = true) ∧
  ∀ s', Commit s = (s', Ok tt) → k_good (db_ctx s') ∧
    ∀ a, match dirties (db_journal s) !! a with
    | None => same_at a (db_ctx s) (db_ctx s')
    | Some _ =>
        ((HasSelfDestructed a s).2 = Ok true ∧ k_GetAccount (db_ctx s') a = None) ∨
        ((HasSelfDestructed a s).2 = Ok false ∧
         (∃ n b h, k_GetAccount (db_ctx s') a = Some (mkRawAccount n (Some b) (Some h)) ∧
            (GetNonce a s).2 = Ok n ∧ (GetBalance a s).2 = Ok b ∧ (GetCodeHash a s).2 = Ok h) ∧
         ∀ k, (GetState a k s).2 = Ok (k_GetState (db_ctx s') a k))
    end.
Proof.
  intros Hr%run_inv Hg Hw. pose proof (iv_wf _ _ Hr) as Hwf. clear Hr.
  assert (Commit s = for_each (sorted_keys (dirties (db_journal s))) (commit_object ToCtx false) s) as ->.
  { unfold Commit. by rewrite (bind_Ok (gets _) _ s s _ eq_refl), (wf_write _ Hwf). }
  destruct (commit_objects_run (sorted_keys (dirties (db_journal s))) s)
    as [(-> & s1 & -> & G1 & Hout & Hin)|(Ef & a & o & st & Ha & Ho & Hst)].
  { apply NoDup_sorted_keys. }
  { done. }
  { intros a Ha%elem_of_sorted_keys. destruct (wf_live _ Hwf a Ha) as [o Ho]. exists o.
    split_and!; [done|by apply (ok_address _ _ _ (wf_objs _ Hwf a o Ho))|by apply Hw]. }
  2: { split; [|by intros s' E; rewrite E in Ef]. intros Hacc. apply elem_of_sorted_keys in Ha.
       destruct Hst as (? & ? & Hno). by rewrite (Hacc a o st) in Hno. }
  split; [done|]. intros s' [= <-]. split; [done|].
  intros a. destruct (dirties (db_journal s) !! a) as [n|] eqn:Hd.
  - assert (is_Some (dirties (db_journal s) !! a)) as Hs by by exists n.
    destruct (wf_live _ Hwf a Hs) as [o Ho].
    pose proof (Hin a o (proj2 (elem_of_sorted_keys _ _) Hs) Ho) as Hc. unfold committed in Hc.
    destruct (getters_show s a o zero_hash Hwf Ho) as (Hsd & Hn & Hb & Hh & _). rewrite Hsd.
    destruct (so_selfDestructed o); [by left|right]. destruct Hc as [Hc Hk]. split_and!; [done| |].
    + by eexists _, _, _.
    + intros k. destruct (getters_show s a o k Hwf Ho) as (_ & _ & _ & _ & ->). by rewrite Hk.
  - apply Hout. rewrite elem_of_sorted_keys, Hd. by intros [].
Qed.
(** C4: after any history of one transaction (operations, nested snapshots,
    reverts) over a good keeper state whose dirty accounts are users' and have
    [uint256] balances: [Commit] fails only if the keeper refuses one of the dirty
    accounts; when it returns nil each dirty account is gone from the keeper if
    it self-destructed, and otherwise the keeper has exactly the nonce, balance,
    code hash and storage slots the getters returned before the commit; accounts
    that are not dirty are untouched in the keeper, which is good again. *)
Theorem Commit_persists s cps :
  evm_run s cps → k_good (db_ctx s) →
  (∀ a o, is_Some (dirties (db_journal s) !! a) → db_stateObjects s !! a = Some o → writable a o) →
  ((∀ a o st, is_Some (dirties (db_journal s) !! a) → db_stateObjects s !! a = Some o →
      k_good st → same_at a (db_ctx s) st → is_ok (written a o st).2 = true) →
   is_ok (Commit s).2 = true) ∧
  ∀ s', Commit s = (s', Ok tt) → k_good (db_ctx s') ∧
    ∀ a, match dirties (db_journal s) !! a with
    | None => same_at a (db_ctx s) (db_ctx s')
    | Some _ =>
        ((HasSelfDestructed a s).2 = Ok true ∧ k_GetAccount (db_ctx s') a = None) ∨
        ((HasSelfDestructed a s).2 = Ok false ∧
         (∃ n b h, k_GetAccount (db_ctx s') a = Some (mkRawAccount n (Some b) (Some h)) ∧
            (GetNonce a s).2 = Ok n ∧ (GetBalance a s).2 = Ok b ∧ (GetCodeHash a s).2 = Ok h) ∧
         ∀ k, (GetState a k s).2 = Ok (k_GetState (db_ctx s') a k))
    end.
Proof. apply Commit_run. Qed.
End commit.
