(* ===== verification/StateDBPrepare.v ===== *)
(** The start of a transaction: [StateDB.Prepare] warms the addresses and slots
    that EIP-2929, EIP-2930 and EIP-3651 name, and no others. *)

From S2P Require Import Prelude.
From S2P Require Import AccessList.
From S2P Require Import StateDB.

Section prepare.
Context `{Crypto} {St : Type} `{!Keeper St}.

Abbreviation DB := (StateDB St).
Implicit Types (s t : DB) (A : gset Address) (P : gset (Address * Hash)).

(** [warms m A P]: [m] succeeds and adds the addresses [A] and the slots [P]. *)
Definition warms (m : M DB unit) A P : Prop :=
  ∀ s A0 P0, AccessList.abs (db_accessList s) A0 P0 →
    ∃ l, m s = (set_accessList l s, Ok tt) ∧ AccessList.abs l (A ∪ A0) (P ∪ P0).

Lemma set_al_same s : set_accessList (db_accessList s) s = s.
Proof. by destruct s. Qed.

Lemma warms_ret : warms (ret tt) ∅ ∅.
Proof.
  intros s A0 P0 Habs. exists (db_accessList s). rewrite set_al_same.
  split; [done|]. by rewrite !(left_id_L ∅ (∪)).
Qed.

Lemma warms_bind m1 m2 A1 A2 P1 P2 :
  warms m1 A1 P1 → warms m2 A2 P2 → warms (m1 >>! m2) (A1 ∪ A2) (P1 ∪ P2).
Proof.
  intros H1 H2 s A0 P0 Habs. destruct (H1 s A0 P0 Habs) as (l1 & E1 & Habs1).
  destruct (H2 (set_accessList l1 s) _ _ Habs1) as (l2 & E2 & Habs2). exists l2.
  erewrite bind_Ok by exact E1. split; [exact E2|].
  replace (A1 ∪ A2 ∪ A0) with (A2 ∪ (A1 ∪ A0)) by set_solver.
  by replace (P1 ∪ P2 ∪ P0) with (P2 ∪ (P1 ∪ P0)) by set_solver.
Qed.

Lemma warms_address a : warms (al (AccessList.AddAddress a) >>! ret tt) {[a]} ∅.
Proof.
  intros s A0 P0 Habs. destruct (AccessList.AddAddress_abs a _ _ _ Habs) as (l & b & E & Habs').
  exists l. unfold al, zoom, bind. rewrite E. split; [done|]. by rewrite (left_id_L ∅ (∪)).
Qed.

Lemma warms_slot a k : warms (al (AccessList.AddSlot a k) >>! ret tt) {[a]} {[(a, k)]}.
Proof.
  intros s A0 P0 Habs. destruct (AccessList.AddSlot_abs a k _ _ _ Habs) as (l & b & E & Habs').
  exists l. unfold al, zoom, bind. by rewrite E.
Qed.

Lemma warms_for_each {B} (l : list B) (f : B → M DB unit) (fA : B → gset Address)
    (fP : B → gset (Address * Hash)) :
  (∀ x, warms (f x) (fA x) (fP x)) → warms (for_each l f) (⋃ (fA <$> l)) (⋃ (fP <$> l)).
Proof. intros Hf. induction l as [|x l IH]; [apply warms_ret|]. cbn. by apply warms_bind. Qed.

Lemma warms_weaken m A A' P P' : warms m A P → A = A' → P = P' → warms m A' P'.
Proof. by intros ? <- <-. Qed.

Lemma union_singletons {B} `{Countable C} (g : B → C) (l : list B) :
  ⋃ ((λ x, {[g x]} : gset C) <$> l) = list_to_set (g <$> l).
Proof. induction l as [|x l IH]; [done|]. cbn. by rewrite IH. Qed.

(** One entry of the transaction's access list. *)
Lemma warms_entry a keys :
  warms ((al (AccessList.AddAddress a) >>! ret tt) >>!
         for_each keys (λ k, al (AccessList.AddSlot a k) >>! ret tt))
    {[a]} (list_to_set ((a,.) <$> keys)).
Proof.
  eapply warms_weaken; [apply warms_bind; [apply warms_address|apply warms_for_each, warms_slot]|..].
  - assert (⋃ ((λ _ : Hash, {[a]} : gset Address) <$> keys) ⊆ {[a]}); [|set_solver].
    induction keys as [|k keys IH]; cbn; set_solver.
  - rewrite union_singletons. set_solver.
Qed.

Lemma warms_opt {B} (d : option B) (f : B → M DB unit) (fA : B → gset Address) :
  (∀ x, warms (f x) (fA x) ∅) →
  warms (match d with None => ret tt | Some x => f x end) (match d with None => ∅ | Some x => fA x end) ∅.
Proof. intros Hf. destruct d; [apply Hf|apply warms_ret]. Qed.

Lemma warms_when (b : bool) m A : warms m A ∅ → warms (when b m) (if b then A else ∅) ∅.
Proof. intros Hm. destruct b; [done|apply warms_ret]. Qed.

(** The slots the transaction lists. *)
Definition listed_slots (list : list (Address * list Hash)) : gset (Address * Hash) :=
  ⋃ ((λ e, list_to_set ((e.1,.) <$> e.2)) <$> list).

(** Under EIP-2929 [Prepare] succeeds from any state; the warm addresses are
    then exactly the sender, the destination of a call, the precompiles, the
    addresses of the transaction's access list and, from Shanghai on, the
    coinbase; the warm slots are exactly those of the access list; and the
    transient storage is empty. *)
Theorem Prepare_warms rules sender coinbase dst precompiles list s :
  IsEIP2929 rules = true → IsEIP4762 rules = false →
  ∃ s', Prepare rules sender coinbase dst precompiles list s = (s', Ok tt) ∧ db_transient s' = ∅ ∧
    ∀ a k, SlotInAccessList a k s' =
      (s', Ok (bool_decide (a = sender ∨ dst = Some a ∨ a ∈ precompiles ∨ a ∈ list.*1 ∨
                            IsShanghai rules = true ∧ a = coinbase),
               bool_decide ((a, k) ∈ listed_slots list))).
Proof.
  intros H2929 H4762. unfold Prepare. rewrite H2929, H4762.
  rewrite (bind_Ok (ret tt) _ s s tt eq_refl). cbn [when].
  destruct (warms_bind _ _ _ _ _ _ (warms_address sender)
    (warms_bind _ _ _ _ _ _ (warms_opt dst _ _ warms_address)
    (warms_bind _ _ _ _ _ _ (warms_for_each precompiles _ _ _ warms_address)
    (warms_bind _ _ _ _ _ _
      (warms_for_each list (λ '(a, keys), (al (AccessList.AddAddress a) >>! ret tt) >>!
          for_each keys (λ k, al (AccessList.AddSlot a k) >>! ret tt)) (λ e, {[e.1]})
        (λ e, list_to_set ((e.1,.) <$> e.2)) (λ '(a, keys), warms_entry a keys))
      (warms_when (IsShanghai rules) _ _ (warms_address coinbase)))))
    (set_accessList AccessList.newAccessList s) ∅ ∅ AccessList.abs_new) as (l & E & Habs).
  rewrite bind_assoc, (bind_Ok (modify _) _ s _ tt eq_refl).
  erewrite bind_Ok by exact E. eexists. split; [done|]. split; [done|].
  intros a k. unfold SlotInAccessList. cbn. rewrite (AccessList.abs_slot _ _ _ Habs).
  assert (⋃ ((λ _ : Address, ∅ : gset (Address * Hash)) <$> precompiles) = ∅) as ->.
  { clear. induction precompiles as [|x l IH]; [done|]. cbn. by rewrite IH, (left_id_L ∅ (∪)). }
  assert (⋃ (singleton <$> precompiles) = (list_to_set precompiles : gset Address)) as Hp.
  { rewrite <-(list_fmap_id precompiles) at 2. apply (union_singletons id). }
  rewrite Hp, (union_singletons fst). fold (listed_slots list).
  f_equal. f_equal. f_equal; apply bool_decide_ext; [|set_solver].
  destruct dst, (IsShanghai rules); set_solver.
Qed.
End prepare.
