(* ===== verification/StateDBWit.v ===== *)
(** A concrete keeper for the StateDB, the histories that exercise its theorems,
    and what happens when a precompile call is reverted. *)

From S2P Require Import Prelude.
From S2P Require Import AccessList.
From S2P Require Import StateDB.
From S2P Require Import StateDBRevert.
From S2P Require Import StateDBHist.
From S2P Require Import StateDBCommit.
From S2P Require Import StateDBPrepare.

(** * A keeper in memory *)

Record Mem : Type := mkMem {
  m_accounts : gmap Address RawAccount;
  m_storage : gmap (Address * Hash) Hash;
  m_code : gmap Hash string
}.

(** Any function of the code will do for the hash. *)
#[global] Instance mem_crypto : Crypto := {| Keccak256Hash c := Z.of_nat (String.length c) + 1000 |}.

Definition mem_set_account (a : Address) (acc : Account) (m : Mem) : Mem :=
  mkMem (<[a := mkRawAccount (Nonce acc) (Some (Balance acc)) (Some (CodeHash acc))]> (m_accounts m))
        (m_storage m) (m_code m).
Definition mem_delete_account (a : Address) (m : Mem) : Mem :=
  mkMem (delete a (m_accounts m)) (filter (λ kv, kv.1.1 ≠ a) (m_storage m)) (m_code m).
Definition mem_set_state (a : Address) (k v : Hash) (m : Mem) : Mem :=
  mkMem (m_accounts m) (<[(a, k) := v]> (m_storage m)) (m_code m).
Definition mem_delete_state (a : Address) (k : Hash) (m : Mem) : Mem :=
  mkMem (m_accounts m) (delete (a, k) (m_storage m)) (m_code m).
Definition mem_set_code (h : Hash) (c : string) (m : Mem) : Mem :=
  mkMem (m_accounts m) (m_storage m) (<[h := c]> (m_code m)).
Definition mem_delete_code (h : Hash) (m : Mem) : Mem :=
  mkMem (m_accounts m) (m_storage m) (delete h (m_code m)).
Definition mem_slots (m : Mem) (a : Address) : list (Hash * Hash) :=
  (λ kv, (kv.1.2, kv.2)) <$> filter (λ kv, kv.1.1 = a) (map_to_list (m_storage m)).

#[global] Instance mem_keeper : Keeper Mem := {|
  k_GetAccount m a := m_accounts m !! a;
  k_GetState m a k := default zero_hash (m_storage m !! (a, k));
  k_GetCode m h := m_code m !! h;
  k_SetAccount a acc := modify (mem_set_account a acc);
  k_DeleteAccount a := modify (mem_delete_account a);
  k_SetState := mem_set_state;
  k_DeleteState := mem_delete_state;
  k_SetCode := mem_set_code;
  k_DeleteCode := mem_delete_code;
  k_Storage := mem_slots
|}.

#[global] Instance mem_keeper_laws : KeeperLaws Mem.
Proof.
  refine {| k_good _ := True; k_user _ := True |}; cbn; try done.
  - intros a acc m m' _ _ _ [= <-]. cbn. by rewrite lookup_insert_eq.
  - intros a acc m m' b _ _ _ [= <-] Hne. cbn. by rewrite lookup_insert_ne.
  - by intros a acc m m' b k [= <-].
  - intros a m m' _ _ [= <-]. cbn. by rewrite lookup_delete_eq.
  - intros a m m' b _ _ [= <-] Hne. cbn. split; [by rewrite lookup_delete_ne|].
    intros k. rewrite map_lookup_filter. destruct (m_storage m !! (b, k)) as [v|]; [|done]. cbn.
    by rewrite option_guard_True.
  - intros a k v m. cbn. by rewrite lookup_insert_eq.
  - intros a k v m b k' Hne. cbn. by rewrite lookup_insert_ne.
Defined.

(** * Witnesses *)

Definition contract : Address := 7.
Definition slot : Hash := 3.

(** One account with a balance, no storage. *)
Definition genesis_mem : Mem := mkMem {[ contract := mkRawAccount 1 (Some 50) (Some EmptyCodeHash) ]} ∅ ∅.
Definition rules : Rules := mkRules true false true.

Definition run_all (ms : list (M (StateDB Mem) unit)) (s : StateDB Mem) : StateDB Mem := (for_each ms id s).1.

Definition started : StateDB Mem :=
  (Prepare rules 1 2 (Some contract) [9] [] (New genesis_mem [] NewEmptyTxConfig)).1.

Definition before_revert : StateDB Mem :=
  run_all [done_ Snapshot; done_ (SetState contract slot 5); done_ (AddBalance contract 8);
           done_ (AddBalance 44 1); done_ Snapshot; done_ (SelfDestruct contract); AddLog contract [] "log"] started.

Definition second : StateDB Mem :=
  run_all [done_ Snapshot; done_ (SetState contract slot 5); done_ (AddBalance contract 8);
           done_ (AddBalance 44 1)] started.

Lemma before_revert_run : evm_run before_revert [(0, started); (1, second)].
Proof.
  apply (run_op (OAddLog contract [] "log") (run_all [done_ (SelfDestruct contract)] (run_all [done_ Snapshot] second)));
    [|vm_compute; reflexivity].
  apply (run_op (OSelfDestruct contract) (run_all [done_ Snapshot] second)); [|vm_compute; reflexivity].
  apply (run_snapshot second [(0, started)] _ 1); [|vm_compute; reflexivity].
  apply (run_op (OAddBalance 44 1) (run_all [done_ Snapshot; done_ (SetState contract slot 5);
    done_ (AddBalance contract 8)] started)); [|vm_compute; reflexivity].
  apply (run_op (OAddBalance contract 8) (run_all [done_ Snapshot; done_ (SetState contract slot 5)] started));
    [|vm_compute; reflexivity].
  apply (run_op (OSetState contract slot 5) (run_all [done_ Snapshot] started)); [|vm_compute; reflexivity].
  apply (run_snapshot started [] _ 0); [|vm_compute; reflexivity].
  by apply (run_start genesis_mem [] NewEmptyTxConfig rules 1 2 (Some contract) [9] []).
Qed.

Lemma RevertToSnapshot_restores_witness :
  ∃ s', RevertToSnapshot 0 before_revert = (s', Ok tt) ∧ equiv s' started ∧
    entries (db_journal s') = entries (db_journal started) ∧ db_events s' = db_events started.
Proof.
  apply (RevertToSnapshot_restores before_revert [] 0 started [(1, second)]). exact before_revert_run.
Defined.

Lemma RevertToSnapshot_unknown_witness :
  RevertToSnapshot 2 before_revert = (before_revert, Panic "revision id cannot be reverted").
Proof.
  apply (RevertToSnapshot_unknown before_revert [(0, started); (1, second)] 2).
  - exact before_revert_run.
  - set_solver.
Defined.

Lemma Commit_persists_witness :
  ∃ s', Commit before_revert = (s', Ok tt) ∧
    k_GetAccount (db_ctx s') contract = None ∧
    k_GetAccount (db_ctx s') 44 = Some (mkRawAccount 0 (Some 1) (Some EmptyCodeHash)).
Proof.
  destruct (Commit_persists before_revert [(0, started); (1, second)]) as [Hok Hs].
  - exact before_revert_run.
  - exact I.
  - intros a o _ Ho. split; [exact I|].
    assert (map_Forall (λ _ o, 0 ≤ Balance (so_account o) < u256_max) (db_stateObjects before_revert)) as Hall
      by (apply (bool_decide_unpack _); vm_compute; exact I).
    exact (Hall a o Ho).
  - specialize (Hok ltac:(intros a o st _ _ _ _; unfold written; by destruct (so_selfDestructed o))).
    destruct (Commit before_revert) as [s' [[]| |]] eqn:E; try discriminate Hok. exists s'.
    destruct (Hs s' eq_refl) as [_ Ha]. split; [reflexivity|].
    pose proof (Ha contract) as Hc. pose proof (Ha 44) as H44. clear Hs Ha.
    vm_compute in E. injection E as <-. split; vm_compute; reflexivity.
Defined.

Lemma Prepare_warms_witness :
  ∃ s', Prepare rules 1 2 (Some contract) [9] [(4, [11])] (New genesis_mem [] NewEmptyTxConfig) = (s', Ok tt) ∧
    SlotInAccessList 4 11 s' = (s', Ok (true, true)) ∧ SlotInAccessList 2 11 s' = (s', Ok (true, false)).
Proof.
  destruct (Prepare_warms rules 1 2 (Some contract) [9] [(4, [11])] (New genesis_mem [] NewEmptyTxConfig))
    as (s' & E & _ & Hw); [reflexivity|reflexivity|].
  exists s'. split; [exact E|]. split; [rewrite (Hw 4 11)|rewrite (Hw 2 11)]; vm_compute; reflexivity.
Defined.

(** * Precompile calls and reverts *)

(** The counter of precompile calls is a byte: the 21st call in a transaction
    is refused, but refused attempts are counted too, so the 256th attempt wraps
    the counter to 0 and is accepted again. *)
Theorem precompile_limit_wraps :
  let call : M (StateDB Mem) unit := AddPrecompileFn 0 [] in
  let after n := Nat.iter n (λ s, (call s).1) started in
  is_ok (call (after 19%nat)).2 = true ∧ is_ok (call (after 20%nat)).2 = false ∧
  is_ok (call (after 255%nat)).2 = true ∧ is_ok (call (after 256%nat)).2 = true.
Proof. vm_compute. repeat split. Qed.

(** A slot set back to zero is stored as a zero word; the delete branch of
    the commit is never taken. *)
Theorem zero_slot_is_stored :
  let m := mem_set_state contract slot 5 genesis_mem in
  let s := run_all [done_ (SetState contract slot 0)] (New m [] NewEmptyTxConfig) in
  is_ok (Commit s).2 = true ∧
  m_storage (db_ctx (Commit s).1) !! (contract, slot) = Some 0 ∧
  (IsStorageEmpty contract (Commit s).1).2 = Ok false.
Proof. vm_compute. repeat split. Qed.
