(* ===== verification/VmKeeper.v ===== *)
(** x/vm's keeper as the StateDB sees it: accounts, balances, code and storage
    (x/vm/keeper/statedb.go, keeper.go, utils.go), over the bank wrapper that
    hands 18-decimal amounts to x/precisebank (x/vm/wrappers/bank.go), with the
    payment and the refund of fees (fees.go, gas.go). *)

From S2P Require Import Prelude.
From S2P Require Import Sdk.
From S2P Require Import SdkAuth.
From S2P Require Import EvmDenom.
From S2P Require Import PreciseBank.
From S2P Require Import AccessList.
From S2P Require Import StateDB.

(** [common.Address.Bytes()], and whether code is an EIP-7702 delegation. *)
Class GethAddress : Type := {
  Address_Bytes : Address → addr;
  ParseDelegation : bytes → bool
}.

Class GethAddressLaws `{GethAddress} : Prop := {
  Address_Bytes_inj a b : Address_Bytes a = Address_Bytes b → a = b;
  Address_Bytes_nonempty a : Address_Bytes a ≠ EmptyString
}.

Definition EvmModuleName : string := "evm".
Definition FeeCollectorName : string := "fee_collector".

(** [utils.Uint256FromBigInt]. *)
Definition Uint256FromBigInt (i : Z) : outcome Z :=
  if i <? 0 then Err (errorf ErrOther "trying to convert negative *big.Int to uint256.Int")
  else if i >=? u256_max then Err (errorf ErrOther "overflow trying to convert *big.Int to uint256.Int")
  else Ok i.

(** [errors.Wrap]: the code and the printed coins stay. *)
Definition wrap_error {S} (t : string) (e : error) : M S error :=
  ret (mkError (err_code e) t (err_coins e)).

(** * The bank wrapper *)

Module BankWrapper.
Section wrapper.
Context `{SdkTypes, AccountKeeper} {B : Type} `{!BankKeeper B}.
(** the configured EVM coin, and the sort of [sdk.Coins] *)
Context (info : EvmCoinInfo) (sort : Coins → Coins).

Definition MintAmountToAccount (recipientAddr : addr) (amt : Z) : M (PState B) unit :=
  let! n := ichk amt in
  let! convertedCoin :=
    on_error (of_outcome (ConvertEvmCoinDenomToExtendedDenom info (mkCoin (eci_Denom info) n)))
             (wrap_error "failed to mint coin to account in bank wrapper") in
  let coinsToMint := [convertedCoin] in
  on_error (MintCoins info EvmModuleName coinsToMint)
           (wrap_error "failed to mint coins to account in bank wrapper") >>!
  SendCoinsFromModuleToAccount info EvmModuleName recipientAddr coinsToMint.

Definition BurnAmountFromAccount (account : addr) (amt : Z) : M (PState B) unit :=
  let! n := ichk amt in
  let! convertedCoin :=
    on_error (of_outcome (ConvertEvmCoinDenomToExtendedDenom info (mkCoin (eci_Denom info) n)))
             (wrap_error "failed to burn coins from account in bank wrapper") in
  let coinsToBurn := [convertedCoin] in
  on_error (SendCoinsFromAccountToModule info account EvmModuleName coinsToBurn)
           (wrap_error "failed to burn coins from account in bank wrapper") >>!
  BurnCoins info EvmModuleName coinsToBurn.

Definition GetBalance (a : addr) (d : denom) : M (PState B) Coin :=
  if bool_decide (d ≠ eci_Denom info) then panic "expected evm denom"
  else PreciseBank.GetBalance info a (eci_ExtendedDenom info).

Definition SpendableCoin (a : addr) (d : denom) : M (PState B) Coin :=
  if bool_decide (d ≠ eci_Denom info) then panic "expected evm denom"
  else PreciseBank.SpendableCoin info a (eci_ExtendedDenom info).

(** [Coins.IsZero]. *)
Definition coins_zero (cs : Coins) : bool := forallb (λ c, Amount c =? 0) cs.

Definition SendCoinsFromAccountToModule (senderAddr : addr) (recipientModule : string) (coins : Coins)
    : M (PState B) unit :=
  let convertedCoins := ConvertCoinsDenomToExtendedDenom info sort coins in
  if coins_zero convertedCoins then ret tt
  else PreciseBank.SendCoinsFromAccountToModule info senderAddr recipientModule convertedCoins.

Definition SendCoinsFromModuleToAccount (senderModule : string) (recipientAddr : addr) (coins : Coins)
    : M (PState B) unit :=
  let convertedCoins := ConvertCoinsDenomToExtendedDenom info sort coins in
  if coins_zero convertedCoins then ret tt
  else PreciseBank.SendCoinsFromModuleToAccount info senderModule recipientAddr convertedCoins.
End wrapper.
End BankWrapper.

(** * The keeper *)

(** The state of x/precisebank with the SDK state below it, and the three key
    ranges of x/vm's store. *)
Record VmState (B : Type) : Type := mkVmState {
  vs_pb : PState B;
  vs_codeHash : gmap Address Hash;
  vs_code : gmap Hash bytes;
  vs_storage : gmap Address (gmap Hash Hash)
}.
Arguments mkVmState {B}.
Arguments vs_pb {B}.
Arguments vs_codeHash {B}.
Arguments vs_code {B}.
Arguments vs_storage {B}.

Module VmKeeper.
Section keeper.
Context `{SdkTypes, AccountKeeper} {B : Type} `{!BankKeeper B, AuthKeeper B}.
Context `{Crypto, GethAddress}.
Context (info : EvmCoinInfo) (sort : Coins → Coins).

Abbreviation VS := (VmState B).

Definition set_pb (p : PState B) (s : VS) : VS :=
  mkVmState p (vs_codeHash s) (vs_code s) (vs_storage s).
Definition set_codeHash (m : gmap Address Hash) (s : VS) : VS :=
  mkVmState (vs_pb s) m (vs_code s) (vs_storage s).
Definition set_code (m : gmap Hash bytes) (s : VS) : VS :=
  mkVmState (vs_pb s) (vs_codeHash s) m (vs_storage s).
Definition set_storage (m : gmap Address (gmap Hash Hash)) (s : VS) : VS :=
  mkVmState (vs_pb s) (vs_codeHash s) (vs_code s) m.

(** Calls into x/precisebank, and into x/auth below it. *)
Definition pb {A} (m : M (PState B) A) : M VS A := zoom vs_pb set_pb m.
Definition auth {A} (m : M B A) : M VS A := pb (bank m).

(** ** Reads *)

Definition GetCodeHash (a : Address) : M VS Hash :=
  gets (λ s, default EmptyCodeHash (vs_codeHash s !! a)).

Definition GetCode (codeHash : Hash) : M VS (option bytes) := gets (λ s, vs_code s !! codeHash).

Definition slots (s : VS) (a : Address) : gmap Hash Hash := default ∅ (vs_storage s !! a).

Definition GetState (a : Address) (key : Hash) : M VS Hash :=
  gets (λ s, default zero_hash (slots s a !! key)).

(** The slots of an account in the order of the store's iterator. *)
Definition slot_list (s : VS) (a : Address) : list (Hash * Hash) :=
  omap (λ k, (λ v, (k, v)) <$> slots s a !! k) (sorted_keys (slots s a)).

(** The callback threads an accumulator and says whether to go on. *)
Fixpoint iterate_slots {T} (l : list (Hash * Hash)) (cb : Hash → Hash → T → T * bool) (t : T) : T :=
  match l with
  | [] => t
  | (k, v) :: r => let '(t', continue) := cb k v t in
                   if (continue : bool) then iterate_slots r cb t' else t'
  end.
Definition ForEachStorage {T} (a : Address) (cb : Hash → Hash → T → T * bool) (t : T) : M VS T :=
  gets (λ s, iterate_slots (slot_list s a) cb t).

Definition IsContract (a : Address) : M VS bool :=
  let! codeHash := GetCodeHash a in
  let! code := GetCode codeHash in
  let code := default EmptyString code in
  ret (negb (bool_decide (code = EmptyString)) && negb (ParseDelegation code)).

Definition GetAccountWithoutBalance (a : Address) : M VS (option RawAccount) :=
  let! acct := gets (λ s, ak_GetAccount (ps_bank (vs_pb s)) (Address_Bytes a)) in
  match acct with
  | None => ret None
  | Some acct =>
      let! codeHashBz := GetCodeHash a in
      ret (Some (mkRawAccount (GetSequence acct) None (Some codeHashBz)))
  end.

(** A balance that does not fit is the nil pointer. *)
Definition to_uint256 (amount : Z) : option Z :=
  match Uint256FromBigInt amount with Ok n => Some n | _ => None end.

Definition SpendableCoin (a : Address) : M VS (option Z) :=
  let! coin := pb (BankWrapper.SpendableCoin info (Address_Bytes a) (eci_Denom info)) in
  ret (to_uint256 (Amount coin)).

Definition GetBalance (a : Address) : M VS (option Z) :=
  let! coin := pb (BankWrapper.GetBalance info (Address_Bytes a) (eci_Denom info)) in
  ret (to_uint256 (Amount coin)).

Definition GetAccount (a : Address) : M VS (option RawAccount) :=
  let! acct := GetAccountWithoutBalance a in
  match acct with
  | None => ret None
  | Some acct =>
      let! balance := SpendableCoin a in
      ret (Some (mkRawAccount (raw_Nonce acct) balance (raw_CodeHash acct)))
  end.

Definition GetAccountOrEmpty (a : Address) : M VS RawAccount :=
  let! acct := GetAccount a in
  ret (default (mkRawAccount 0 (Some 0) (Some EmptyCodeHash)) acct).

Definition GetNonce (a : Address) : M VS Z :=
  let! acct := gets (λ s, ak_GetAccount (ps_bank (vs_pb s)) (Address_Bytes a)) in
  ret (match acct with None => 0 | Some acct => GetSequence acct end).

(** ** Writes *)

(** A nil amount leaves the balance alone. *)
Definition SetBalance (a : Address) (amount : option Z) : M VS unit :=
  match amount with
  | None => ret tt
  | Some amount =>
      let cosmosAddr := Address_Bytes a in
      let! coin := pb (BankWrapper.SpendableCoin info cosmosAddr (eci_Denom info)) in
      let delta := amount - Amount coin in
      if 0 <? delta then pb (BankWrapper.MintAmountToAccount info cosmosAddr delta)
      else if delta <? 0 then pb (BankWrapper.BurnAmountFromAccount info cosmosAddr (- delta))
      else ret tt
  end.

Definition SetCodeHash (a : Address) (h : Hash) : M VS unit :=
  modify (λ s, set_codeHash (<[a := h]> (vs_codeHash s)) s).
Definition DeleteCodeHash (a : Address) : M VS unit :=
  modify (λ s, set_codeHash (delete a (vs_codeHash s)) s).
Definition SetCode (h : Hash) (code : bytes) (s : VS) : VS := set_code (<[h := code]> (vs_code s)) s.
Definition DeleteCode (h : Hash) (s : VS) : VS := set_code (delete h (vs_code s)) s.
Definition SetState (a : Address) (key value : Hash) (s : VS) : VS :=
  set_storage (<[a := <[key := value]> (slots s a)]> (vs_storage s)) s.
Definition DeleteState (a : Address) (key : Hash) (s : VS) : VS :=
  set_storage (<[a := delete key (slots s a)]> (vs_storage s)) s.

(** The store refuses the nil slice a nil code hash is. *)
Definition SetAccount (a : Address) (account : RawAccount) : M VS unit :=
  let! acct0 := gets (λ s, ak_GetAccount (ps_bank (vs_pb s)) (Address_Bytes a)) in
  let! acct :=
    match acct0 with
    | Some acct => ret acct
    | None => auth (ak_NewAccountWithAddress (Address_Bytes a))
    end in
  let! acct := of_outcome (SetSequence (raw_Nonce account) acct) in
  match raw_CodeHash account with
  | None => panic "value is nil"
  | Some h => if IsEmptyCodeHash h then DeleteCodeHash a else SetCodeHash a h
  end >>!
  auth (ak_SetAccount acct) >>!
  SetBalance a (raw_Balance account).

Definition DeleteAccount (a : Address) : M VS unit :=
  let cosmosAddr := Address_Bytes a in
  let! acct := gets (λ s, ak_GetAccount (ps_bank (vs_pb s)) cosmosAddr) in
  match acct with
  | None => ret tt
  | Some acct =>
      let! contract := IsContract a in
      if negb contract then throw (errorf ErrOther "only smart contracts can be self-destructed")
      else
        auth (ak_SetAccount (NewBaseAccount cosmosAddr (GetPubKey acct) (GetAccountNumber acct) (GetSequence acct))) >>!
        SetBalance a (Some 0) >>!
        let! keys := ForEachStorage a (λ key _ keys, (keys ++ [key], true)) [] in
        for_each keys (λ key, modify (DeleteState a key)) >>!
        DeleteCodeHash a >>!
        auth (ak_RemoveAccount acct)
  end.

(** ** Fees *)

(** [authante.DeductFees] is SDK code: it moves valid fees to the fee collector
    through the keeper it is given. *)
Definition DeductTxCostsFromUserBalance (DeductFees : AccountI → Coins → M (PState B) unit)
    (fees : Coins) (from : Address) : M VS unit :=
  let! signerAcc := gets (λ s, ak_GetAccount (ps_bank (vs_pb s)) (Address_Bytes from)) in
  match signerAcc with
  | None => throw (errorf ErrUnknownAddress "account not found for sender")
  | Some signerAcc =>
      on_error (pb (DeductFees signerAcc fees)) (wrap_error "failed to deduct full gas cost from the user balance")
  end.

Definition RefundGas (from : Address) (gasPrice leftoverGas : Z) (d : denom) : M VS unit :=
  let remaining := leftoverGas * gasPrice in
  if remaining <? 0 then throw (errorf ErrInvalidRefund "refunded amount value cannot be negative")
  else if 0 <? remaining then
    let! n := ichk remaining in
    let! c := newCoin d n in
    on_error (pb (BankWrapper.SendCoinsFromModuleToAccount info sort FeeCollectorName (Address_Bytes from) [c]))
      (λ _, ret (errorf ErrInsufficientFunds "fee collector account failed to refund fees"))
  else ret tt.
(** What the StateDB asks of the keeper.  A read that panics shows no account. *)
Definition keeper : Keeper VS := {|
  k_GetAccount s a := match (GetAccount a s).2 with Ok r => r | _ => None end;
  k_GetState s a k := default zero_hash (slots s a !! k);
  k_GetCode s h := vs_code s !! h;
  k_SetAccount a acc :=
    SetAccount a (mkRawAccount (Nonce acc) (Some (Balance acc)) (Some (CodeHash acc)));
  k_DeleteAccount := DeleteAccount;
  k_SetState := SetState;
  k_DeleteState := DeleteState;
  k_SetCode := SetCode;
  k_DeleteCode := DeleteCode;
  k_Storage := slot_list
|}.

End keeper.
End VmKeeper.
