(* ===== verification/Precompile.v ===== *)
(** The frame every stateful precompile runs in: call data dispatch, the cached
    multistore, gas, and the balance handler that mirrors bank events into the
    StateDB (precompiles/common/precompile.go, balance_handler.go, utils.go,
    revert.go). *)

From S2P Require Import Prelude.
From S2P Require Import Sdk.
From S2P Require Import EvmDenom.
From S2P Require Import AccessList.
From S2P Require Import StateDB.
From S2P Require Import PreciseBank.
From S2P Require Import PreciseBankGenesis.
From S2P Require Import VmKeeper.

(** * The SDK and go-ethereum code it calls *)

(** Events and the text of their attributes; addresses are printed and parsed by
    [AddrCodec]. *)
Class SdkEvents : Type := {
  GetAttribute : Event → string → option string;
  ParseCoinsNormalized : string → outcome Coins;
  Coins_String : Coins → string;
  NewIntFromString : string → option Z;
  Int_String : Z → string;
  BytesToAddress : addr → Address
}.

(** The gas meter of a context; a meter without gas left panics with
    [ErrorOutOfGas]. *)
Definition ErrorOutOfGas : string := "storetypes.ErrorOutOfGas".

Class GasMeters : Type := {
  GasMeter : Type;
  NewGasMeter : Z → GasMeter;
  GasConsumed : GasMeter → Z;
  ConsumeGas : Z → M GasMeter unit
}.

Class GethContract : Type := {
  (** [Contract.UseGas] on [Contract.Gas] *)
  UseGas : Z → Z → Z * bool
}.

(** The encoding of a revert reason, and [err.Error()]. *)
Class GethRevert : Type := {
  PackString : string → outcome bytes;
  RevertSelector : bytes;
  Error_String : error → string
}.

(** An [abi.ABI] and the methods it has. *)
Class GethABI : Type := {
  ABI : Type;
  Method : Type;
  HasReceive : ABI → bool;
  HasFallback : ABI → bool;
  Receive : ABI → Method;
  Fallback : ABI → Method;
  MethodById : ABI → bytes → outcome Method;
  (** [method.Type == abi.Function] *)
  IsFunction : Method → bool;
  Argument : Type;
  Inputs_Unpack : Method → bytes → outcome (list Argument)
}.

(** * Call data *)

(** [Sign] of a [uint256.Int], which reads its highest bit as the sign. *)
Definition uint256_Sign (v : Z) : Z := if v =? 0 then 0 else if v <? 2 ^ 255 then 1 else -1.

Section abi.
Context `{GethABI}.

Definition reverted {A} : outcome A := Err (errorf ErrExecutionReverted "execution reverted").

Definition emptyCallData (api : ABI) (value : Z) : outcome Method :=
  if (0 <? uint256_Sign value) && HasReceive api then Ok (Receive api)
  else if HasFallback api then Ok (Fallback api)
  else reverted.

Definition methodIDCallData (api : ABI) : outcome Method :=
  if negb (HasFallback api) then reverted else Ok (Fallback api).

Definition standardCallData (api : ABI) (input : bytes) : outcome Method :=
  match MethodById api (String.substring 0 4 input) with
  | Ok m => Ok m
  | Err e => if negb (HasFallback api) then Err e else Ok (Fallback api)
  | Panic w => Panic w
  end.

(** A method that is not a function has no arguments. *)
Definition SetupABI (api : ABI) (input : bytes) (value : Z) (readOnly : bool) (isTransaction : Method → bool)
    : outcome (Method * option (list Argument)) :=
  let len := String.length input in
  let method :=
    if Nat.eqb len 0 then emptyCallData api value
    else if Nat.ltb len 4 then methodIDCallData api
    else standardCallData api input in
  match method with
  | Err e => Err e
  | Panic w => Panic w
  | Ok m =>
      if readOnly && isTransaction m then Err (errorf ErrWriteProtection "write protection")
      else if IsFunction m then
        (* [contract.Input[4:]] *)
        if Nat.ltb len 4 then Panic "slice bounds out of range"
        else match Inputs_Unpack m (String.substring 4 (len - 4) input) with
             | Ok args => Ok (m, Some args)
             | Err e => Err e
             | Panic w => Panic w
             end
      else Ok (m, None)
  end.
End abi.

(** [storetypes.GasConfig], as far as it is used here. *)
Record GasConfig : Type := mkGasConfig {
  WriteCostFlat : Z;
  WriteCostPerByte : Z;
  ReadCostFlat : Z;
  ReadCostPerByte : Z
}.

Definition RequiredGas (c : GasConfig) (input : bytes) (isTransaction : bool) : Z :=
  let len := Z.of_nat (String.length input) in
  if isTransaction
  then wrap u64_max (WriteCostFlat c + wrap u64_max (WriteCostPerByte c * len))
  else wrap u64_max (ReadCostFlat c + wrap u64_max (ReadCostPerByte c * len)).

(** * The balance handler *)

Definition EventTypeCoinSpent : string := "coin_spent".
Definition EventTypeCoinReceived : string := "coin_received".
Definition EventTypeFractionalBalanceChange : string := "fractional_balance_change".
Definition AttributeKeySpender : string := "spender".
Definition AttributeKeyReceiver : string := "receiver".
Definition AttributeKeyAmount : string := "amount".
Definition AttributeKeyAddress : string := "address".
Definition AttributeKeyDelta : string := "delta".

Section handler.
Context `{SdkTypes, AddrCodec, SdkEvents}.
Context (info : EvmCoinInfo).

(** The events of x/precisebank as the event manager holds them. *)
Definition frac_event (e : FracEvent) : Event :=
  mkEvent EventTypeFractionalBalanceChange
    [(AttributeKeyAddress, AccAddress_String (ev_address e)); (AttributeKeyDelta, Int_String (ev_delta e))].

Definition ParseAddress (event : Event) (key : string) : outcome addr :=
  match GetAttribute event key with
  | None => Err (errorf ErrOther "event missing attribute")
  | Some v => match AccAddressFromBech32 v with
              | Ok a => Ok a
              | Err _ => Err (errorf ErrOther "invalid address")
              | Panic w => Panic w
              end
  end.

Definition ParseAmount (event : Event) : outcome Z :=
  match GetAttribute event AttributeKeyAmount with
  | None => Err (errorf ErrOther "event missing attribute")
  | Some v => match ParseCoinsNormalized v with
              | Ok coins =>
                  let amountBigInt := Coins_AmountOf coins (eci_Denom info) in
                  match Uint256FromBigInt (ConvertAmountTo18DecimalsBigInt info amountBigInt) with
                  | Ok amount => Ok amount
                  | Err _ => Err (errorf ErrOther "failed to convert coin amount to Uint256")
                  | Panic w => Panic w
                  end
              | Err _ => Err (errorf ErrOther "failed to parse coins")
              | Panic w => Panic w
              end
  end.

Definition ParseFractionalAmount (event : Event) : outcome Z :=
  match GetAttribute event AttributeKeyDelta with
  | None => Err (errorf ErrOther "event missing attribute")
  | Some v => match NewIntFromString v with
              | None => Err (errorf ErrOther "failed to parse coins")
              | Some delta => Ok delta
              end
  end.

Context `{Crypto} {St : Type} `{!Keeper St} {B : Type} `{!BankKeeper B}.
Abbreviation DB := (StateDB St).

(** [fmt.Errorf] around a parser's error. *)
Definition parsed {A} (o : outcome A) : M DB A :=
  on_error (of_outcome o) (λ _, ret (errorf ErrOther "failed to parse event")).

(** One round of the loop of [AfterBalanceChange]. *)
Definition handle_event (event : Event) : M DB unit :=
  if bool_decide (ev_Type event = EventTypeCoinSpent) then
    let! spenderAddr := parsed (ParseAddress event AttributeKeySpender) in
    if bk_BlockedAddr spenderAddr then ret tt
    else
      let! amount := parsed (ParseAmount event) in
      SubBalance (BytesToAddress spenderAddr) amount >>! ret tt
  else if bool_decide (ev_Type event = EventTypeCoinReceived) then
    let! receiverAddr := parsed (ParseAddress event AttributeKeyReceiver) in
    if bk_BlockedAddr receiverAddr then ret tt
    else
      let! amount := parsed (ParseAmount event) in
      AddBalance (BytesToAddress receiverAddr) amount >>! ret tt
  else if bool_decide (ev_Type event = EventTypeFractionalBalanceChange) then
    let! a := parsed (ParseAddress event AttributeKeyAddress) in
    if bk_BlockedAddr a then ret tt
    else
      let! delta := parsed (ParseFractionalAmount event) in
      let! deltaAbs := parsed (Uint256FromBigInt (Z.abs delta)) in
      if 0 <? delta then AddBalance (BytesToAddress a) deltaAbs >>! ret tt
      else when (delta <? 0) (SubBalance (BytesToAddress a) deltaAbs >>! ret tt)
  else ret tt.

(** The events of the cache context. *)
Definition cache_events (s : DB) : list Event :=
  match db_cache s with Some c => cc_events c | None => [] end.

(** [BeforeBalanceChange]: the number of events so far. *)
Definition BeforeBalanceChange : M DB Z := gets (λ s, Z.of_nat (length (cache_events s))).

Definition AfterBalanceChange (prevEventsLen : Z) : M DB unit :=
  let! events := gets cache_events in
  if prevEventsLen >? Z.of_nat (length events) then panic "slice bounds out of range"
  else for_each (drop (Z.to_nat prevEventsLen) events) handle_event.
End handler.

(** * Native actions *)

Section native.
Context `{SdkTypes, AddrCodec, SdkEvents, GasMeters, GethContract, GethRevert}.
Context `{Crypto} {St : Type} `{!Keeper St} {B : Type} `{!BankKeeper B}.
Context (info : EvmCoinInfo).
Abbreviation DB := (StateDB St).

(** What a native action works on: the StateDB, whose cache context holds its
    multistore and its events, and the gas meter of its context. *)
Record Native : Type := mkNative { na_db : DB; na_meter : GasMeter }.

Definition NativeAction : Type := M Native bytes.

(** The frame of a call: the native context, the gas meter of the EVM's own
    context, the contract's gas and the interpreter's return data. *)
Record Frame : Type := mkFrame {
  fr_db : DB;
  fr_meter : GasMeter;
  fr_gas : Z;
  fr_returnData : option bytes
}.

Definition set_db (d : DB) (f : Frame) : Frame := mkFrame d (fr_meter f) (fr_gas f) (fr_returnData f).
Definition set_gas (g : Z) (f : Frame) : Frame := mkFrame (fr_db f) (fr_meter f) g (fr_returnData f).
Definition set_returnData (r : bytes) (f : Frame) : Frame := mkFrame (fr_db f) (fr_meter f) (fr_gas f) (Some r).

Definition db {A} (m : M DB A) : M Frame A := zoom fr_db set_db m.

Definition use_gas (gas : Z) : M Frame bool := λ f,
  let '(g, ok) := UseGas gas (fr_gas f) in (set_gas g f, Ok ok).

Definition out_of_gas : error := errorf ErrOutOfGas "out of gas".

(** The deferred function that [HandleGasError] returns, around the rest of the
    body.  The context it was given is the one before the new gas meter was set:
    [fr_meter] is that context's meter. *)
Definition HandleGasError {A} (initialGas : Z) (body : M Frame A) : M Frame A := λ f,
  match body f with
  | (f', Panic w) =>
      if bool_decide (w = ErrorOutOfGas) then
        let usedGas := wrap u64_max (GasConsumed (fr_meter f') - initialGas) in
        ((use_gas usedGas f').1, Err out_of_gas)
      else (f', Panic w)
  | r => r
  end.

(** A run on the native context, whose meter starts as [m]. *)
Definition native {A} (m : GasMeter) (act : M Native A) : M Frame (A * GasMeter) := λ f,
  let '(n, o) := act (mkNative (fr_db f) m) in
  (set_db (na_db n) f,
   match o with Ok a => Ok (a, na_meter n) | Err e => Err e | Panic w => Panic w end).

(** The body after the flush: the new meter, the action, the gas and the
    balance handler. *)
Definition metered_action (hasHandler : bool) (action : NativeAction) (initialGas : Z) : M Frame bytes :=
  let! gas := gets fr_gas in
  let '(meter, o) := ConsumeGas initialGas (NewGasMeter gas) in
  of_outcome o >>!
  let! prevEventsLen := (if hasHandler then db BeforeBalanceChange else ret 0) in
  let! (bz, meter') := native meter action in
  let cost := wrap u64_max (GasConsumed meter' - initialGas) in
  let! ok := use_gas cost in
  if negb ok then throw out_of_gas
  else
    when hasHandler (db (AfterBalanceChange info prevEventsLen)) >>!
    ret bz.

(** [isStateDB]: whether the EVM's state is a [*statedb.StateDB]. *)
Definition runNativeAction (isStateDB hasHandler : bool) (action : NativeAction) : M Frame bytes :=
  if negb isStateDB then throw (errorf ErrOther "not run in EVM")
  else
    db GetCacheContext >>!
    let! snapshot := db MultiStoreSnapshot in
    let! events := db (gets cache_events) in
    db (AddPrecompileFn snapshot events) >>!
    db CommitWithCacheCtx >>!
    let! initialGas := gets (λ f, GasConsumed (fr_meter f)) in
    HandleGasError initialGas (metered_action hasHandler action initialGas).

Definition RevertReasonBytes (reason : string) : outcome bytes :=
  match PackString reason with
  | Ok packed => Ok (RevertSelector +:+ packed)
  | Err e => Err e
  | Panic w => Panic w
  end.

(** The error is encoded as the return data; its kind becomes a revert. *)
Definition ReturnRevertError {A} (err : error) : M Frame A := λ f,
  match RevertReasonBytes (Error_String err) with
  | Ok bz => (set_returnData bz f, reverted)
  | Err _ => (f, reverted)
  | Panic w => (f, Panic w)
  end.

Definition RunNativeAction (isStateDB hasHandler : bool) (action : NativeAction) : M Frame bytes := λ f,
  match runNativeAction isStateDB hasHandler action f with
  | (f', Err err) => ReturnRevertError err f'
  | r => r
  end.
End native.
