(* ===== verification/VmBank.v ===== *)
(** What the bank wrapper does to x/precisebank and to the accounts of x/auth:
    minting to an account and burning from one move exactly the amount, and no
    account is created or changed on the way. *)

From S2P Require Import Prelude.
From S2P Require Import Sdk.
From S2P Require Import SdkAuth.
From S2P Require Import EvmDenom.
From S2P Require Import PreciseBank.
From S2P Require Import PreciseBankInv.
From S2P Require Import PreciseBankOps.
From S2P Require Import PreciseBankLive.
From S2P Require Import AccessList.
From S2P Require Import StateDB.
From S2P Require Import VmKeeper.

(** * Accounts under x/precisebank *)

Section accounts.
Context `{SdkTypes, AccountKeeperLaws} {B : Type} `{!BankKeeper B, !BankKeeperLaws B}.
Context `{!AuthAccounts, !AuthKeeper B, !AuthKeeperLaws B}.
Context (info : EvmCoinInfo) (Hreserve : reserve ≠ EmptyString).

(** x/auth has the accounts [G]. *)
Definition kept (G : addr → option AccountI) (p : PState B) : Prop :=
  ∀ x, ak_GetAccount (ps_bank p) x = G x.

Context (G : addr → option AccountI) (HGr : is_Some (G reserve)).

(** A bank call that can only create an account that is already there. *)
Lemma kept_bank (op : M B unit) a0 :
  is_Some (G a0) → (∀ b b', op b = (b', Ok tt) → accounts_but a0 b b') → ok_keeps (kept G) (bank op).
Proof.
  intros [g Hg] Hop p p' [] Hp. unfold bank, zoom. destruct (op (ps_bank p)) as [b' o] eqn:E.
  intros [= <- ->]. intros x. destruct (Hop _ _ E x) as [Hx|[-> Hx]]; cbn.
  - by rewrite Hx.
  - rewrite Hp in Hx. congruence.
Qed.

Lemma kept_send src dst cs : is_Some (G dst) → ok_keeps (kept G) (bank (bk_SendCoins src dst cs)).
Proof. intros HG. eapply kept_bank; [done|]. apply send_accounts. Qed.

Lemma kept_mint m cs : is_Some (G (GetModuleAddress m)) → ok_keeps (kept G) (bank (bk_MintCoins m cs)).
Proof. intros HG. eapply kept_bank; [done|]. apply mint_accounts. Qed.

Lemma kept_burn m cs : is_Some (G (GetModuleAddress m)) → ok_keeps (kept G) (bank (bk_BurnCoins m cs)).
Proof. intros HG. eapply kept_bank; [done|]. apply burn_accounts. Qed.

Lemma kept_modules m1 m2 cs :
  GetModuleAddress m1 ≠ EmptyString → GetModuleAddress m2 ≠ EmptyString → is_Some (G (GetModuleAddress m2)) →
  ok_keeps (kept G) (bank (bk_SendCoinsFromModuleToModule m1 m2 cs)).
Proof. intros ???. rewrite bk_send_module_to_module by done. by apply kept_send. Qed.

Lemma kept_to_reserve src cs :
  ok_keeps (kept G) (bank (bk_SendCoinsFromAccountToModule src ModuleName cs)).
Proof. rewrite bk_send_to_module by done. by apply kept_send. Qed.

Lemma kept_frac a v : ok_keeps (kept G) (SetFractionalBalance info a v).
Proof.
  unfold SetFractionalBalance, DeleteFractionalBalance. repeat ok_keeps_step; by apply ok_keeps_modify.
Qed.

Lemma kept_rem v : ok_keeps (kept G) (SetRemainderAmount info v).
Proof. unfold SetRemainderAmount, DeleteRemainderAmount. repeat ok_keeps_step; by apply ok_keeps_modify. Qed.

Lemma kept_emit a x y : ok_keeps (kept G) (EmitEventFractionalBalanceChange a x y).
Proof.
  unfold EmitEventFractionalBalanceChange, NewEventFractionalBalanceChange, isub, ichk.
  repeat ok_keeps_step; by apply ok_keeps_modify.
Qed.

(** Takes apart what x/precisebank does down to its bank calls. *)
Ltac kept_steps :=
  repeat first
    [ ok_keeps_step
    | apply kept_frac | apply kept_rem | apply kept_emit
    | apply kept_to_reserve
    | progress unfold integerCoins, newCoin, ichk, iadd, isub, iquo, imod, GetFractionalBalance,
        GetRemainderAmount, split_coins, subFromFractionalBalance, addToFractionalBalance ].

Lemma kept_sendExtended from to amt :
  is_Some (G to) → ok_keeps (kept G) (sendExtendedCoins info from to amt).
Proof. intros HG. unfold sendExtendedCoins. kept_steps; by apply kept_send. Qed.

Lemma kept_SendCoins from to cs : is_Some (G to) → ok_keeps (kept G) (SendCoins info from to cs).
Proof.
  intros HG. unfold SendCoins. kept_steps; [by apply kept_send|by apply kept_sendExtended].
Qed.

Lemma kept_mintExtended m amt :
  GetModuleAddress m ≠ EmptyString → is_Some (G (GetModuleAddress m)) →
  ok_keeps (kept G) (mintExtendedCoin info m amt).
Proof. intros Hm HG. unfold mintExtendedCoin. kept_steps; (by apply kept_mint) || by apply kept_modules. Qed.

Lemma kept_burnExtended m amt :
  GetModuleAddress m ≠ EmptyString → is_Some (G (GetModuleAddress m)) →
  ok_keeps (kept G) (burnExtendedCoin info m amt).
Proof. intros Hm HG. unfold burnExtendedCoin. kept_steps; (by apply kept_burn) || by apply kept_modules. Qed.

Lemma kept_MintCoins m cs :
  is_Some (G (GetModuleAddress m)) → ok_keeps (kept G) (MintCoins info m cs).
Proof.
  intros HG. unfold MintCoins. destruct (bool_decide _); [apply ok_keeps_panic|].
  destruct (GetModuleAccount m) as [acc|] eqn:Hacc; [|apply ok_keeps_panic].
  apply module_registered in Hacc. kept_steps; [by apply kept_mint|by apply kept_mintExtended].
Qed.

Lemma kept_BurnCoins m cs :
  is_Some (G (GetModuleAddress m)) → ok_keeps (kept G) (BurnCoins info m cs).
Proof.
  intros HG. unfold BurnCoins. destruct (bool_decide _); [apply ok_keeps_panic|].
  destruct (GetModuleAccount m) as [acc|] eqn:Hacc; [|apply ok_keeps_panic].
  apply module_registered in Hacc. kept_steps; [by apply kept_burn|by apply kept_burnExtended].
Qed.

Lemma kept_to_module from m cs :
  is_Some (G (GetModuleAddress m)) → ok_keeps (kept G) (SendCoinsFromAccountToModule info from m cs).
Proof.
  intros HG. unfold SendCoinsFromAccountToModule.
  destruct (GetModuleAccount m) as [acc|] eqn:Hacc; [|apply ok_keeps_panic].
  apply module_account_address in Hacc as [Hacc _]. rewrite Hacc in HG.
  repeat ok_keeps_step. by apply kept_SendCoins.
Qed.

Lemma kept_from_module m to cs :
  is_Some (G to) → ok_keeps (kept G) (SendCoinsFromModuleToAccount info m to cs).
Proof. intros HG. unfold SendCoinsFromModuleToAccount. repeat ok_keeps_step. by apply kept_SendCoins. Qed.
End accounts.

(** * Balances *)

Section balances.
Context `{SdkTypesLaws, AccountKeeperLaws} {B : Type} `{!BankKeeper B, !BankKeeperLaws B}.
Context `{!AuthAccounts, !AuthKeeper B, !AuthKeeperLaws B}.
Context (info : EvmCoinInfo) (Hinfo : valid_coin_info info) (Hreserve : reserve ≠ EmptyString).

Abbreviation CF := (ConversionFactor info).
Abbreviation xdenom := (ExtendedCoinDenom info).
Abbreviation evm := (GetModuleAddress EvmModuleName).
Implicit Types (p : PState B) (a : addr) (n : Z).

(** The states of x/precisebank the EVM runs in: the stores are well formed and
    backed, no account owes locked coins it does not have, spendable balances
    fit the EVM's word, and the two module accounts exist. *)
Record funded p : Prop := {
  fd_wf : pb_wf info p;
  fd_solvent : solvent info p;
  fd_locked : ∀ a, a ≠ reserve → ilocked info p a ≤ ibal info p a;
  fd_range : ∀ a, a ≠ reserve → ext_spend info p a < u256_max;
  fd_reserve : is_Some (ak_GetAccount (ps_bank p) reserve);
  fd_evm : is_Some (ak_GetAccount (ps_bank p) evm)
}.

(** The sets the wrapper builds hold one coin of the extended denomination. *)
Lemma one_coin n :
  0 < n → int_ok n = true → Coins_IsValid [mkCoin xdenom n] = true ∧ in_range [mkCoin xdenom n] ∧
    ext_value info [mkCoin xdenom n] = n.
Proof.
  intros Hn Hok. assert (valid_denom xdenom = true) as Hd by apply Hinfo.
  rewrite <-(NewCoins_single xdenom n) by done. split_and!.
  - by apply NewCoins_valid.
  - intros d. rewrite NewCoins_amount by done. case_decide; [done|]. by apply int_ok_spec.
  - unfold ext_value. rewrite !NewCoins_amount by done. rewrite (decide_True (P := xdenom = xdenom)) by done.
    repeat case_decide; congruence || lia.
Qed.

Lemma spend_nonneg p a : pb_wf info p → 0 ≤ ext_spend info p a.
Proof.
  intros Hwf. pose proof (CF_bounds info Hinfo). pose proof (frac_range info Hinfo p a Hwf).
  unfold ext_spend. rewrite ispend_spec. nia.
Qed.

Lemma spend_ext p a :
  a ≠ reserve → ilocked info p a ≤ ibal info p a → ext_spend info p a = ext info p a - ilocked info p a * CF.
Proof. intros Ha Hl. unfold ext_spend, ext. rewrite decide_False, ispend_spec, Z.max_r by (done || lia). lia. Qed.

Lemma spendable_run p a :
  funded p →
  BankWrapper.SpendableCoin info a (eci_Denom info) p
  = (p, Ok (mkCoin xdenom (if decide (a = reserve) then 0 else ext_spend info p a))).
Proof.
  intros Hf. unfold BankWrapper.SpendableCoin, PreciseBank.SpendableCoin. fold xdenom.
  rewrite bool_decide_eq_false_2, (bool_decide_eq_true_2 (xdenom = xdenom)) by (done || by intros []).
  cbn [andb negb]. pose proof (CF_bounds info Hinfo). destruct (decide (a = reserve)) as [->|Ha].
  - rewrite bool_decide_eq_true_2 by done. apply newCoin_run; [apply Hinfo|done].
  - rewrite bool_decide_eq_false_2 by done. pose proof (frac_range info Hinfo p a (fd_wf _ Hf)).
    pose proof (fd_range _ Hf a Ha) as Hr. unfold ext_spend, ispend in *.
    pose proof (bk_spendable_spec (ps_bank p) a (IntegerCoinDenom info)).
    rewrite (bind_Ok (gets _) _ p p _ eq_refl), (bind_Ok (GetFractionalBalance a) _ p p _ eq_refl).
    erewrite bind_Ok by (apply ichk_run; nia). erewrite bind_Ok by (apply iadd_run; nia).
    apply newCoin_run; [apply Hinfo|nia].
Qed.

(** What a change of one account's balance owes. *)
Record moves p p' a n : Prop := {
  mv_effect : effect info p p' (point a n) n;
  mv_accounts : ∀ x, ak_GetAccount (ps_bank p') x = ak_GetAccount (ps_bank p) x
}.

Lemma convert_run {S} n t (s s' : S) c :
  on_error (of_outcome (ConvertEvmCoinDenomToExtendedDenom info (mkCoin (eci_Denom info) n))) (wrap_error t) s
  = (s', Ok c) → s' = s ∧ c = mkCoin xdenom n.
Proof.
  intros E%on_error_Ok_inv. unfold ConvertEvmCoinDenomToExtendedDenom in E.
  rewrite bool_decide_eq_true_2 in E by done. by injection E as <- <-.
Qed.

Lemma to_module_moves from m n p p' u :
  pb_wf info p → 0 < n → int_ok n = true → from ≠ EmptyString → from ≠ reserve →
  SendCoinsFromAccountToModule info from m [mkCoin xdenom n] p = (p', Ok u) →
  effect info p p' (λ x, point (GetModuleAddress m) n x - point from n x) 0.
Proof.
  intros Hwf Hn Hok Hne Hr E. destruct (one_coin n Hn Hok) as (Hv & Hir & Hx).
  unfold SendCoinsFromAccountToModule in E. destruct (GetModuleAccount m) as [acc|] eqn:Hacc; [|done].
  case_bool_decide as Hm; [done|]. destruct (module_account_address _ _ Hacc) as [Hadr Hne'].
  apply (SendCoins_effect info Hinfo Hreserve) in E; try done.
  2: { rewrite <-Hadr. apply module_not_reserve; [congruence|done]. }
  by rewrite Hx, <-Hadr in E.
Qed.

Lemma from_module_moves m to n p p' u :
  pb_wf info p → 0 < n → int_ok n = true → to ≠ EmptyString → to ≠ reserve →
  SendCoinsFromModuleToAccount info m to [mkCoin xdenom n] p = (p', Ok u) →
  effect info p p' (λ x, point to n x - point (GetModuleAddress m) n x) 0.
Proof.
  intros Hwf Hn Hok Hne Hr E. destruct (one_coin n Hn Hok) as (Hv & Hir & Hx).
  unfold SendCoinsFromModuleToAccount in E. case_bool_decide as Hm; [done|].
  case_bool_decide as Hmn; [done|]. destruct (bk_BlockedAddr to); [done|].
  apply (SendCoins_effect info Hinfo Hreserve) in E; try done; [by rewrite Hx in E|by apply module_not_reserve].
Qed.

Lemma MintAmount_moves a n p p' u :
  funded p → 0 < n → a ≠ EmptyString → a ≠ reserve → is_Some (ak_GetAccount (ps_bank p) a) →
  BankWrapper.MintAmountToAccount info a n p = (p', Ok u) → moves p p' a n.
Proof.
  intros Hf Hn Hne Har Ha E. unfold BankWrapper.MintAmountToAccount in E.
  apply bind_Ok_inv in E as (p0 & n' & E0 & E). unfold ichk in E0.
  destruct (int_ok n) eqn:Hok; [|done]. injection E0 as <- <-.
  apply bind_Ok_inv in E as (p0 & c & [-> ->]%convert_run & E).
  apply bind_Ok_inv in E as (p1 & [] & E1%on_error_Ok_inv & E2).
  destruct (one_coin n Hn Hok) as (Hv & Hr & Hx).
  pose proof (kept_MintCoins info Hreserve (ak_GetAccount (ps_bank p)) (fd_reserve _ Hf) EvmModuleName
    [mkCoin xdenom n] (fd_evm _ Hf) p p1 tt (λ _, eq_refl) E1) as K1.
  pose proof (kept_from_module info Hreserve (ak_GetAccount (ps_bank p)) (fd_reserve _ Hf) EvmModuleName
    a [mkCoin xdenom n] Ha p1 p' u K1 E2) as K2.
  apply (MintCoins_effect info Hinfo Hreserve) in E1; [|apply Hf|done]. rewrite Hx in E1.
  apply from_module_moves in E2; try done; [|apply E1]. split; [|done].
  eapply effect_proper, effect_trans; [| |exact E1|exact E2]; [|lia]. intros. cbn. lia.
Qed.

Lemma BurnAmount_moves a n p p' u :
  funded p → 0 < n → a ≠ EmptyString → a ≠ reserve →
  BankWrapper.BurnAmountFromAccount info a n p = (p', Ok u) → moves p p' a (- n).
Proof.
  intros Hf Hn Hne Har E. unfold BankWrapper.BurnAmountFromAccount in E.
  apply bind_Ok_inv in E as (p0 & n' & E0 & E). unfold ichk in E0.
  destruct (int_ok n) eqn:Hok; [|done]. injection E0 as <- <-.
  apply bind_Ok_inv in E as (p0 & c & [-> ->]%convert_run & E).
  apply bind_Ok_inv in E as (p1 & [] & E1%on_error_Ok_inv & E2).
  destruct (one_coin n Hn Hok) as (Hv & Hr & Hx).
  pose proof (kept_to_module info Hreserve (ak_GetAccount (ps_bank p)) (fd_reserve _ Hf) a EvmModuleName
    [mkCoin xdenom n] (fd_evm _ Hf) p p1 tt (λ _, eq_refl) E1) as K1.
  pose proof (kept_BurnCoins info Hreserve (ak_GetAccount (ps_bank p)) (fd_reserve _ Hf) EvmModuleName
    [mkCoin xdenom n] (fd_evm _ Hf) p1 p' u K1 E2) as K2.
  apply to_module_moves in E1; try done; [|apply Hf].
  apply (BurnCoins_effect info Hinfo Hreserve) in E2; [|apply E1|done]. rewrite Hx in E2. split; [|done].
  eapply effect_proper, effect_trans; [| |exact E1|exact E2]; [|lia].
  intros x. unfold point. repeat case_decide; lia.
Qed.
End balances.
