(* ===== verification/PrecompileThms.v ===== *)
(** Properties of the frame of stateful precompiles: the balance handler keeps
    the StateDB in step with x/bank and x/precisebank, a native call is paid by
    the gas it consumed and can be undone, and read-only calls cannot reach a
    transaction. *)

From S2P Require Import Prelude.
From S2P Require Import Sdk.
From S2P Require Import EvmDenom.
From S2P Require Import AccessList.
From S2P Require Import StateDB.
From S2P Require Import StateDBRevert.
From S2P Require Import PreciseBank.
From S2P Require Import PreciseBankGenesis.
From S2P Require Import PreciseBankInv.
From S2P Require Import PreciseBankOps.
From S2P Require Import VmKeeper.
From S2P Require Import VmBank.
From S2P Require Import Precompile.

(** * What the SDK and go-ethereum code promises *)

Class SdkEventsLaws `{SdkTypes, SdkEvents, GethAddress} : Prop := {
  (** the first attribute with the key *)
  GetAttribute_eq t k v r : GetAttribute (mkEvent t ((k, v) :: r)) k = Some v;
  GetAttribute_ne t k k' v r :
    k' ≠ k → GetAttribute (mkEvent t ((k', v) :: r)) k = GetAttribute (mkEvent t r) k;
  (** printing and parsing *)
  int_roundtrip z : int_ok z = true → NewIntFromString (Int_String z) = Some z;
  coins_roundtrip cs : Coins_IsValid cs = true → ParseCoinsNormalized (Coins_String cs) = Ok cs;
  (** an address of twenty bytes is not cropped *)
  BytesToAddress_Bytes a : BytesToAddress (Address_Bytes a) = a
}.

Class GasMetersLaws `{GasMeters} : Type := {
  GasLimit : GasMeter → Z;
  new_consumed l : GasConsumed (NewGasMeter l) = 0;
  new_limit l : GasLimit (NewGasMeter l) = l;
  consume_ok g m :
    0 ≤ g → GasConsumed m + g ≤ GasLimit m →
    ∃ m', ConsumeGas g m = (m', Ok tt) ∧ GasConsumed m' = GasConsumed m + g ∧ GasLimit m' = GasLimit m;
  consume_out g m :
    0 ≤ g → GasLimit m < GasConsumed m + g < u64_max → (ConsumeGas g m).2 = Panic ErrorOutOfGas
}.

Class GethContractLaws `{GethContract} : Prop := {
  UseGas_spec gas have : UseGas gas have = if have <? gas then (have, false) else (have - gas, true)
}.

(** * Balances of the StateDB *)

Section balances.
Context `{Crypto} {St : Type} `{!Keeper St}.
Abbreviation DB := (StateDB St).
Implicit Types (s : DB) (a x : Address) (n : Z).

(** The balance an address shows. *)
Definition bal s x : Z := match lookup_obj s x with Some o => Balance (so_account o) | None => 0 end.

(** Objects are filed under their address, and balances are 256-bit words. *)
Record bal_ok s : Prop := {
  bo_filed : ∀ a o, db_stateObjects s !! a = Some o → so_address o = a;
  bo_word : ∀ x, 0 ≤ bal s x < u256_max
}.

Lemma lookup_filed s a o : bal_ok s → lookup_obj s a = Some o → so_address o = a.
Proof.
  intros Hok. unfold lookup_obj. destruct (db_stateObjects s !! a) eqn:E; [intros [= <-]; by apply Hok|].
  destruct (k_GetAccount _ _); [|done]. by intros [= <-].
Qed.

(** Filing an object changes the balance of its address to the object's. *)
Lemma bal_put o s x : bal (put o s) x = if decide (x = so_address o) then Balance (so_account o) else bal s x.
Proof. unfold bal. rewrite lookup_put. by case_decide. Qed.

Lemma put_bal_ok o s : bal_ok s → 0 ≤ Balance (so_account o) < u256_max → bal_ok (put o s).
Proof.
  intros [Hf Hw] Ho. split.
  - intros a o'. cbn. destruct (decide (so_address o = a)) as [<-|].
    + rewrite lookup_insert_eq. by intros [= <-].
    + rewrite lookup_insert_ne by done. apply Hf.
  - intros x. rewrite bal_put. by case_decide.
Qed.

Lemma journaled_bal_ok e s : bal_ok s → bal_ok (journaled e s).
Proof. intros [Hf Hw]. by split. Qed.

(** An object to write to can always be had, and having it changes no balance. *)
Lemma getOrNew_bal s a :
  bal_ok s → ∃ s' o, getOrNewStateObject a s = (s', Ok o) ∧ so_address o = a ∧ Balance (so_account o) = bal s a ∧
    bal_ok s' ∧ db_cache s' = db_cache s ∧ (∀ x, bal s' x = bal s x).
Proof.
  intros Hok. pose proof Hok as [Hf Hw]. unfold getOrNewStateObject, createObject.
  assert (∀ o, lookup_obj s a = Some o → bal_ok (put o s) ∧ ∀ x, bal (put o s) x = bal s x) as Hput.
  { intros o Ho. pose proof (lookup_filed s a o Hok Ho) as Ha. assert (bal s a = Balance (so_account o)) as Hb
      by (unfold bal; by rewrite Ho). split.
    - apply put_bal_ok; [done|]. rewrite <-Hb. apply Hw.
    - intros x. rewrite bal_put, Ha. by case_decide; subst. }
  unfold getStateObject. rewrite !bind_assoc, (bind_Ok (gets _) _ s s _ eq_refl).
  destruct (db_stateObjects s !! a) as [o|] eqn:E.
  { rewrite bind_ret. exists s, o. split_and!; try done; [by apply Hf|]. unfold bal, lookup_obj. by rewrite E. }
  rewrite !bind_assoc, (bind_Ok (gets _) _ s s _ eq_refl).
  destruct (k_GetAccount (db_ctx s) a) as [acc|] eqn:Ek.
  - rewrite bind_assoc, (bind_Ok (setStateObject _) _ s (put (newObject a acc) s) _ eq_refl), !bind_ret.
    destruct (Hput (newObject a acc)) as [? ?]; [unfold lookup_obj; by rewrite E, Ek|].
    eexists _, (newObject a acc). split_and!; try done. unfold bal, lookup_obj. by rewrite E, Ek.
  - rewrite bind_ret, !bind_assoc, (bind_Ok (gets _) _ s s _ eq_refl), E.
    rewrite !bind_assoc, (bind_Ok (gets _) _ s s _ eq_refl), Ek, bind_ret. cbn beta iota.
    rewrite !bind_assoc, (bind_Ok (append _) _ s (journaled (createObjectChange a) s) _ eq_refl).
    rewrite bind_assoc, (bind_Ok (setStateObject _) _ _ (put (newObject a zero_account) (journaled (createObjectChange a) s)) _ eq_refl), !bind_ret.
    assert (bal s a = 0) as Hz by (unfold bal, lookup_obj; by rewrite E, Ek).
    eexists _, (newObject a zero_account). split_and!; try done.
    + apply put_bal_ok; [by apply journaled_bal_ok|]. by cbn.
    + intros x. rewrite bal_put. cbn. case_decide; [by subst|done].
Qed.

(** A change by [δ] of one balance, modulo the word. *)
Record credited s s' a δ : Prop := {
  cr_ok : bal_ok s';
  cr_cache : db_cache s' = db_cache s;
  cr_bal : ∀ x, bal s' x = (bal s x + if decide (x = a) then δ else 0) mod u256_max
}.

Lemma bal_word s x : bal_ok s → bal s x = bal s x mod u256_max.
Proof. intros Hok. by rewrite Z.mod_small by apply Hok. Qed.

Lemma so_SetBalance_bal s o δ a :
  bal_ok s → so_address o = a → Balance (so_account o) = bal s a →
  ∃ s', so_SetBalance o (wrap u256_max (Balance (so_account o) + δ)) s = (s', Ok (bal s a)) ∧ credited s s' a δ.
Proof.
  intros Hok Ha Hb. eexists. split; [unfold so_SetBalance; rewrite Hb; done|].
  set (o' := so_setBalance _ _). change (credited s (put o' (journaled (balanceChange (so_address o) (bal s a)) s)) a δ).
  split; [|done|].
  - apply put_bal_ok; [by apply journaled_bal_ok|]. apply wrap_bound. done.
  - intros x. rewrite bal_put. change (so_address o') with (so_address o). rewrite Ha. case_decide as Hx.
    + by subst x.
    + rewrite Z.add_0_r. exact (bal_word s x Hok).
Qed.

Lemma credited_zero s s' a :
  bal_ok s → bal_ok s' → db_cache s' = db_cache s → (∀ x, bal s' x = bal s x) → credited s s' a 0.
Proof.
  intros Hok Hok' Hc Hx. split; [done..|]. intros x. rewrite Hx. case_decide; rewrite Z.add_0_r; by apply bal_word.
Qed.

Lemma credited_after s s1 s2 a δ :
  (∀ x, bal s1 x = bal s x) → db_cache s1 = db_cache s → credited s1 s2 a δ → credited s s2 a δ.
Proof. intros Hb Hc [Hok Hc2 Hx]. split; [done|congruence|]. intros x. by rewrite Hx, Hb. Qed.

Lemma AddBalance_credits s a n :
  bal_ok s → ∃ s', (AddBalance a n >>! ret tt) s = (s', Ok tt) ∧ credited s s' a n.
Proof.
  intros Hok. destruct (getOrNew_bal s a Hok) as (s1 & o & E & Ha & Hb & Hok1 & Hc & Hx).
  unfold AddBalance. rewrite bind_assoc. setoid_rewrite (bind_Ok _ _ _ _ _ E). unfold so_AddBalance.
  destruct (Z.eqb_spec n 0) as [->|Hn].
  - rewrite bind_ret. exists s1. split; [done|]. by apply credited_zero.
  - rewrite <-Hx in Hb. destruct (so_SetBalance_bal s1 o n a Hok1 Ha Hb) as (s2 & E2 & Hcr).
    exists s2. rewrite (bind_Ok _ _ _ _ _ E2). split; [done|]. by eapply credited_after.
Qed.

Lemma SubBalance_credits s a n :
  bal_ok s → ∃ s', (SubBalance a n >>! ret tt) s = (s', Ok tt) ∧ credited s s' a (- n).
Proof.
  intros Hok. destruct (getOrNew_bal s a Hok) as (s1 & o & E & Ha & Hb & Hok1 & Hc & Hx).
  unfold SubBalance. rewrite bind_assoc. setoid_rewrite (bind_Ok _ _ _ _ _ E). unfold so_SubBalance.
  destruct (Z.eqb_spec n 0) as [->|Hn].
  - rewrite bind_ret. exists s1. split; [done|]. by apply credited_zero.
  - rewrite <-Hx in Hb. destruct (so_SetBalance_bal s1 o (- n) a Hok1 Ha Hb) as (s2 & E2 & Hcr).
    rewrite Z.add_opp_r in E2. exists s2. rewrite (bind_Ok _ _ _ _ _ E2). split; [done|]. by eapply credited_after.
Qed.

(** The getter returns it. *)
Lemma GetBalance_bal s x : (StateDB.GetBalance x s).2 = Ok (bal s x).
Proof.
  unfold StateDB.GetBalance, on_object, getStateObject, bal, lookup_obj.
  rewrite !bind_assoc, (bind_Ok (gets _) _ s s _ eq_refl). destruct (db_stateObjects s !! x); [done|].
  rewrite bind_assoc, (bind_Ok (gets _) _ s s _ eq_refl). by destruct (k_GetAccount _ _).
Qed.
End balances.

(** * The balance handler *)

Section handler.
Context `{SdkTypesLaws, AccountKeeperLaws} {B : Type} `{!BankKeeper B, !BankKeeperLaws B}.
Context `{AddrCodecLaws, GethAddressLaws, !SdkEvents, !SdkEventsLaws, Crypto} {St : Type} `{!Keeper St}.
Context (info : EvmCoinInfo) (Hinfo : valid_coin_info info) (Hreserve : reserve ≠ EmptyString).
Abbreviation DB := (StateDB St).
Abbreviation CF := (ConversionFactor info).
Implicit Types (s : DB) (x : Address) (a : addr) (n : Z) (p : PState B).

(** The events of a native action: x/bank's two, x/precisebank's, and others. *)
Inductive money : Type :=
  | Spent (a : addr) (cs : Coins)
  | Received (a : addr) (cs : Coins)
  | Fraction (e : FracEvent)
  | Note (e : Event).

Definition event_of (m : money) : Event :=
  match m with
  | Spent a cs => mkEvent EventTypeCoinSpent [(AttributeKeySpender, AccAddress_String a); (AttributeKeyAmount, Coins_String cs)]
  | Received a cs => mkEvent EventTypeCoinReceived [(AttributeKeyReceiver, AccAddress_String a); (AttributeKeyAmount, Coins_String cs)]
  | Fraction e => frac_event e
  | Note e => e
  end.

Definition party (m : money) : option addr :=
  match m with Spent a _ | Received a _ => Some a | Fraction e => Some (ev_address e) | Note _ => None end.

(** The account's whole coins and its fractional units the event reports. *)
Definition coins_of (m : money) a : Z :=
  match m with
  | Spent b cs => - point b (Coins_AmountOf cs (eci_Denom info)) a
  | Received b cs => point b (Coins_AmountOf cs (eci_Denom info)) a
  | _ => 0
  end.
Definition fraction_of (m : money) a : Z :=
  match m with Fraction e => point (ev_address e) (ev_delta e) a | _ => 0 end.

Definition total (f : money → addr → Z) (ms : list money) a : Z := foldr (λ m n, f m a + n) 0 ms.
Definition units (m : money) a : Z := coins_of m a * CF + fraction_of m a.

(** Amounts fit the word, a party has a text, and one that is not blocked has a
    twenty-byte address. *)
Definition readable (m : money) : Prop :=
  match m with
  | Spent _ cs | Received _ cs =>
      Coins_IsValid cs = true ∧ Coins_AmountOf cs (eci_Denom info) * CF < u256_max
  | Fraction e => Z.abs (ev_delta e) < u256_max
  | Note e => ev_Type e ∉ [EventTypeCoinSpent; EventTypeCoinReceived; EventTypeFractionalBalanceChange]
  end ∧
  ∀ a, party m = Some a →
    (∃ t, AccAddressFromBech32 t = Ok a) ∧ (bk_BlockedAddr a = false → ∃ x, a = Address_Bytes x).

(** Blocked accounts are bypassed. *)
Definition shown_units (m : money) x : Z :=
  if bk_BlockedAddr (Address_Bytes x) then 0 else units m (Address_Bytes x).

Lemma parsed_run {A} (r : A) s : parsed (Ok r) s = (s, Ok r).
Proof. done. Qed.

Lemma ParseAddress_first t k a r :
  (∃ t, AccAddressFromBech32 t = Ok a) → ParseAddress (mkEvent t ((k, AccAddress_String a) :: r)) k = Ok a.
Proof. intros [x Ha]. unfold ParseAddress. by rewrite GetAttribute_eq, (bech32_roundtrip x). Qed.

Lemma ParseAmount_second t k v cs :
  k ≠ AttributeKeyAmount → Coins_IsValid cs = true → Coins_AmountOf cs (eci_Denom info) * CF < u256_max →
  ParseAmount info (mkEvent t [(k, v); (AttributeKeyAmount, Coins_String cs)])
  = Ok (Coins_AmountOf cs (eci_Denom info) * CF).
Proof.
  intros Hk Hv Hlt. pose proof (CF_bounds info Hinfo). pose proof (AmountOf_nonneg cs (eci_Denom info) Hv).
  unfold ParseAmount. rewrite GetAttribute_ne, GetAttribute_eq, coins_roundtrip by done.
  unfold Uint256FromBigInt, ConvertAmountTo18DecimalsBigInt. fold CF.
  set (n := Coins_AmountOf cs (eci_Denom info)) in *. change (coin_factor info) with CF.
  destruct (Z.ltb_spec (n * CF) 0); [nia|]. rewrite Z.geb_leb. by destruct (Z.leb_spec u256_max (n * CF)); [lia|].
Qed.

(** ** One event *)

Definition applied s s' (δ : Address → Z) : Prop :=
  bal_ok s' ∧ db_cache s' = db_cache s ∧ ∀ x, bal s' x = (bal s x + δ x) mod u256_max.

Lemma applied_refl s : bal_ok s → applied s s (λ _, 0).
Proof. intros Hok. split_and!; try done. intros x. rewrite Z.add_0_r. by apply bal_word. Qed.

Lemma applied_trans s1 s2 s3 δ1 δ2 :
  applied s1 s2 δ1 → applied s2 s3 δ2 → applied s1 s3 (λ x, δ1 x + δ2 x).
Proof.
  intros (_ & Hc1 & Hb1) (Hok & Hc2 & Hb2). split_and!; [done|congruence|].
  intros x. rewrite Hb2, Hb1, Z.add_mod_idemp_l by done. f_equal. lia.
Qed.

Lemma applied_proper s s' δ δ' : (∀ x, δ x = δ' x) → applied s s' δ → applied s s' δ'.
Proof. intros Hd (? & ? & Hb). split_and!; try done. intros x. by rewrite Hb, Hd. Qed.

Lemma credited_applied s s' x n : credited s s' x n → applied s s' (λ y, if decide (y = x) then n else 0).
Proof. intros []. by split_and!. Qed.

(** What a change of one unblocked twenty-byte account adds to each address. *)
Lemma point_bytes x y n :
  bk_BlockedAddr (Address_Bytes x) = false →
  (if decide (y = x) then n else 0)
  = if bk_BlockedAddr (Address_Bytes y) then 0 else point (Address_Bytes x) n (Address_Bytes y).
Proof.
  intros Hx. unfold point. destruct (decide (y = x)) as [->|Hne]; [by rewrite Hx, decide_True|].
  rewrite decide_False; [by destruct (bk_BlockedAddr (Address_Bytes y))|]. by intros ->%Address_Bytes_inj.
Qed.

Lemma applied_blocked s a n :
  bal_ok s → bk_BlockedAddr a = true →
  applied s s (λ y, if bk_BlockedAddr (Address_Bytes y) then 0 else point a n (Address_Bytes y)).
Proof.
  intros Hok Ha. eapply applied_proper, applied_refl; [|done]. intros y. unfold point.
  destruct (bk_BlockedAddr (Address_Bytes y)) eqn:Hy; [done|]. rewrite decide_False; [done|]. congruence.
Qed.

(** A blocked party's event is bypassed; another's is read and applied. *)
Lemma party_step s a n (op : M DB unit) :
  bal_ok s → (bk_BlockedAddr a = false → ∃ x, a = Address_Bytes x) →
  (∀ x, a = Address_Bytes x → ∃ s', op s = (s', Ok tt) ∧ credited s s' x n) →
  ∃ s', (if bk_BlockedAddr a then ret tt else op) s = (s', Ok tt) ∧
    applied s s' (λ y, if bk_BlockedAddr (Address_Bytes y) then 0 else point a n (Address_Bytes y)).
Proof.
  intros Hok Hx Hop. destruct (bk_BlockedAddr a) eqn:Hb; [exists s; split; [done|by apply applied_blocked]|].
  destruct (Hx eq_refl) as [x ->]. destruct (Hop x eq_refl) as (s' & E & Hc). exists s'. split; [done|].
  eapply applied_proper, credited_applied; [|exact Hc]. intros y. by apply point_bytes.
Qed.

Lemma handle_money m s :
  bal_ok s → readable m → ∃ s', handle_event info (event_of m) s = (s', Ok tt) ∧ applied s s' (shown_units m).
Proof.
  intros Hok [Hm Ha]. destruct m as [a cs|a cs|e|e]; cbn [event_of].
  - destruct Hm as [Hv Hlt]. destruct (Ha a eq_refl) as [Hne Hx]. unfold handle_event. cbn [ev_Type].
    rewrite bool_decide_eq_true_2, ParseAddress_first by done. erewrite bind_Ok by apply parsed_run.
    eapply (party_step s a (- (Coins_AmountOf cs (eci_Denom info) * CF))) in Hx as (s' & E & Hap); [|done|].
    + exists s'. split; [exact E|]. eapply applied_proper, Hap. intros y. unfold shown_units, units, point. cbn.
      unfold point. destruct (bk_BlockedAddr (Address_Bytes y)); [done|]. case_decide; lia.
    + intros x ->. rewrite ParseAmount_second by done. erewrite bind_Ok by apply parsed_run.
      rewrite BytesToAddress_Bytes. by apply SubBalance_credits.
  - destruct Hm as [Hv Hlt]. destruct (Ha a eq_refl) as [Hne Hx]. unfold handle_event. cbn [ev_Type].
    rewrite bool_decide_eq_false_2, bool_decide_eq_true_2, ParseAddress_first by done.
    erewrite bind_Ok by apply parsed_run.
    eapply (party_step s a (Coins_AmountOf cs (eci_Denom info) * CF)) in Hx as (s' & E & Hap); [|done|].
    + exists s'. split; [exact E|]. eapply applied_proper, Hap. intros y. unfold shown_units, units, point. cbn.
      unfold point. destruct (bk_BlockedAddr (Address_Bytes y)); [done|]. case_decide; lia.
    + intros x ->. rewrite ParseAmount_second by done. erewrite bind_Ok by apply parsed_run.
      rewrite BytesToAddress_Bytes. by apply AddBalance_credits.
  - destruct (Ha (ev_address e) eq_refl) as [Hne Hx]. unfold handle_event, frac_event. cbn [ev_Type].
    rewrite 2!bool_decide_eq_false_2, bool_decide_eq_true_2, ParseAddress_first by done.
    erewrite bind_Ok by apply parsed_run.
    eapply (party_step s (ev_address e) (ev_delta e)) in Hx as (s' & E & Hap); [|done|].
    + exists s'. split; [exact E|]. eapply applied_proper, Hap. intros y. unfold shown_units, units. cbn.
      destruct (bk_BlockedAddr (Address_Bytes y)); lia.
    + intros x ->. unfold ParseFractionalAmount.
      rewrite GetAttribute_ne, GetAttribute_eq, int_roundtrip by (done || by apply int_ok_spec).
      erewrite bind_Ok by apply parsed_run. unfold Uint256FromBigInt.
      destruct (Z.ltb_spec (Z.abs (ev_delta e)) 0); [lia|]. rewrite Z.geb_leb.
      destruct (Z.leb_spec u256_max (Z.abs (ev_delta e))); [lia|]. erewrite bind_Ok by apply parsed_run.
      rewrite BytesToAddress_Bytes. destruct (Z.ltb_spec 0 (ev_delta e)).
      * rewrite Z.abs_eq by lia. by apply AddBalance_credits.
      * unfold when. destruct (Z.ltb_spec (ev_delta e) 0).
        -- rewrite Z.abs_neq by lia. destruct (SubBalance_credits s x (- ev_delta e) Hok) as (s' & E & Hc).
           rewrite Z.opp_involutive in Hc. by exists s'.
        -- exists s. split; [done|]. replace (ev_delta e) with 0 by lia. by apply credited_zero.
  - exists s. rewrite !not_elem_of_cons in Hm. destruct Hm as (? & ? & ? & _). unfold handle_event.
    rewrite !bool_decide_eq_false_2 by done. split; [done|]. eapply applied_proper, applied_refl; [|done].
    intros y. unfold shown_units, units. cbn. by destruct (bk_BlockedAddr (Address_Bytes y)).
Qed.

Lemma handle_all ms s :
  bal_ok s → Forall readable ms →
  ∃ s', for_each (event_of <$> ms) (handle_event info) s = (s', Ok tt) ∧
    applied s s' (λ x, foldr (λ m n, shown_units m x + n) 0 ms).
Proof.
  intros Hok Hms. revert s Hok. induction Hms as [|m ms Hm _ IH]; intros s Hok; cbn.
  - exists s. split; [done|by apply applied_refl].
  - destruct (handle_money m s Hok Hm) as (s1 & E1 & Ha1). destruct (IH s1) as (s2 & E2 & Ha2); [apply Ha1|].
    exists s2. rewrite (bind_Ok _ _ _ _ _ E1). split; [done|]. by eapply applied_trans.
Qed.

Lemma shown_total ms x :
  foldr (λ m n, shown_units m x + n) 0 ms
  = if bk_BlockedAddr (Address_Bytes x) then 0 else total units ms (Address_Bytes x).
Proof.
  unfold shown_units, total. induction ms as [|m ms IH]; cbn; [|rewrite IH];
    by destruct (bk_BlockedAddr (Address_Bytes x)).
Qed.

Lemma total_units ms a : total units ms a = total coins_of ms a * CF + total fraction_of ms a.
Proof. unfold total, units. induction ms as [|m ms IH]; cbn; [done|]. rewrite IH. lia. Qed.

Lemma total_fractions ms a :
  total fraction_of ms a = ev_sum (omap (λ m, match m with Fraction e => Some e | _ => None end) ms) a.
Proof. unfold total, ev_sum. induction ms as [|[] ms IH]; cbn; [done|..]; rewrite IH; cbn; lia. Qed.

(** The balance handler mirrors what happened in the bank.  If the events a
    native action added are the ones of x/bank, of x/precisebank and others, in any
    order, [AfterBalanceChange] succeeds, and every address that is not blocked then
    shows its old balance plus everything the events report of it, whole coins at
    18 decimals and fractions; a blocked address shows what it did. *)
Lemma AfterBalanceChange_run ms old c s :
  bal_ok s → Forall readable ms → db_cache s = Some c → cc_events c = old ++ (event_of <$> ms) →
  ∃ s', AfterBalanceChange info (Z.of_nat (length old)) s = (s', Ok tt) ∧
    ∀ x, (StateDB.GetBalance x s').2 = Ok (wrap u256_max (bal s x +
      if bk_BlockedAddr (Address_Bytes x) then 0 else total units ms (Address_Bytes x))).
Proof.
  intros Hok Hms Hc He. destruct (handle_all ms s Hok Hms) as (s' & E & _ & _ & Hb). exists s'. split.
  - unfold AfterBalanceChange. rewrite (bind_Ok (gets _) _ s s _ eq_refl). unfold cache_events. rewrite Hc, He.
    rewrite length_app, Z.gtb_ltb, (proj2 (Z.ltb_ge _ _)), Nat2Z.id, drop_app_length by lia. exact E.
  - intros x. by rewrite GetBalance_bal, Hb, shown_total.
Qed.

(** * Properties *)

(** C29: a transfer of extended coins by a native action is mirrored exactly.  When
    x/precisebank moved [amt] between two users, its own events are the fractional
    ones emitted and x/bank's events report how the whole coins moved, then after the
    balance handler the StateDB shows [amt] less for the sender, [amt] more for the
    recipient, and the same as before for every other account that is not blocked
    and not the reserve, although the transfer carried or borrowed through the
    reserve. *)
Theorem native_send_mirrored f t amt p p' ms old c s :
  pb_wf info p → 0 < amt → int_ok amt = true →
  Address_Bytes f ≠ reserve → Address_Bytes t ≠ reserve →
  SendCoins info (Address_Bytes f) (Address_Bytes t) [mkCoin (ExtendedCoinDenom info) amt] p = (p', Ok tt) →
  ps_events p' = ps_events p ++ omap (λ m, match m with Fraction e => Some e | _ => None end) ms →
  (∀ a, total coins_of ms a = ibal info p' a - ibal info p a) →
  bal_ok s → Forall readable ms → db_cache s = Some c → cc_events c = old ++ (event_of <$> ms) →
  ∃ s', AfterBalanceChange info (Z.of_nat (length old)) s = (s', Ok tt) ∧
    ∀ x, Address_Bytes x ≠ reserve → bk_BlockedAddr (Address_Bytes x) = false →
      (StateDB.GetBalance x s').2
      = Ok (wrap u256_max (bal s x + (if decide (x = t) then amt else 0) - (if decide (x = f) then amt else 0))).
Proof.
  intros Hwf Hamt Hint Hf Ht E Hev Hco Hok Hms Hc He.
  destruct (one_coin info Hinfo amt Hamt Hint) as (_ & Hr & Hval).
  apply (SendCoins_effect info Hinfo Hreserve) in E as [_ _ Hext _ _ (evs & Hev' & Hfr)];
    try done; try apply Address_Bytes_nonempty. rewrite Hval in Hext.
  rewrite Hev in Hev'. apply app_inv_head in Hev' as <-.
  destruct (AfterBalanceChange_run ms old c s Hok Hms Hc He) as (s' & Es & Hs). exists s'. split; [done|].
  intros x Hx Hb. rewrite Hs, Hb, total_units, Hco, total_fractions, Hfr. do 2 f_equal.
  specialize (Hext (Address_Bytes x) Hx). unfold ext in Hext. rewrite !(decide_False (P := Address_Bytes x = reserve)) in Hext by done.
  assert (∀ y, point (Address_Bytes y) amt (Address_Bytes x) = if decide (x = y) then amt else 0) as Hp.
  { intros y. unfold point. destruct (decide (x = y)) as [->|Hne]; [by rewrite decide_True|].
    rewrite decide_False; [done|]. by intros ?%Address_Bytes_inj. }
  rewrite !Hp in Hext. lia.
Qed.
End handler.

(** * Native actions *)

Section native.
Context `{SdkTypes, AddrCodec, SdkEvents, GasMeters, GethContract, !GethContractLaws, GethRevert}.
Context `{Crypto} {St : Type} `{!Keeper St} {B : Type} `{!BankKeeper B}.
Context (info : EvmCoinInfo).
Abbreviation DB := (StateDB St).
Abbreviation Frame := (Frame (St := St)).
Implicit Types (s : DB) (f : Frame) (act : NativeAction (St := St)).

(** ** The multistore *)

(** The layers below the snapshot and the journal up to the call's entry stay. *)
Definition below (vs : list St) (es : list JournalEntry) s : Prop :=
  (∃ top evs, db_cache s = Some (mkCacheCtx (vs ++ [top]) evs)) ∧ ∃ more, entries (db_journal s) = es ++ more.

Lemma below_target {A} vs es (m : M St A) : preserves (below vs es) (on_target ToCache m).
Proof.
  intros s [(top & evs & Hc) He]. unfold on_target. rewrite Hc. cbn [cc_views]. rewrite last_snoc.
  destruct (m top) as [st o]. split; [|done]. exists st, evs. cbn.
  rewrite length_app, Nat.add_sub, take_app_length. done.
Qed.

Lemma below_put vs es o : preserves (below vs es) (setStateObject o).
Proof. apply preserves_modify. by intros s []. Qed.

Lemma below_append vs es e : preserves (below vs es) (append e).
Proof.
  apply preserves_modify. intros s [Hc [more He]]. split; [done|]. exists (more ++ [e]). cbn.
  by rewrite He, app_assoc.
Qed.

Lemma below_parsed {A} vs es (o : outcome A) : preserves (below vs es) (parsed o).
Proof. intros s Hs. by destruct o. Qed.

Create HintDb below.
#[local] Hint Resolve below_target below_put below_append below_parsed : below.
Ltac below_steps := repeat (preserves_step || solve [auto with below nocore]).

Lemma below_getOrNew vs es a : preserves (below vs es) (getOrNewStateObject a).
Proof. unfold getOrNewStateObject, createObject, getStateObject. below_steps. Qed.
#[local] Hint Resolve below_getOrNew : below.

Lemma below_AddBalance vs es a n : preserves (below vs es) (AddBalance a n).
Proof. unfold AddBalance, so_AddBalance, so_SetBalance. below_steps. Qed.

Lemma below_SubBalance vs es a n : preserves (below vs es) (SubBalance a n).
Proof. unfold SubBalance, so_SubBalance, so_SetBalance. below_steps. Qed.
#[local] Hint Resolve below_AddBalance below_SubBalance : below.

Lemma below_after vs es n : preserves (below vs es) (AfterBalanceChange info n).
Proof. unfold AfterBalanceChange, handle_event. below_steps. Qed.

Lemma below_flush vs es : preserves (below vs es) CommitWithCacheCtx.
Proof. unfold CommitWithCacheCtx, commitWithCtx, commit_object, commit_slot, StateDB.nil_deref. below_steps. Qed.

(** ** The frame of a call *)

Definition in_db (I : DB → Prop) f : Prop := I (fr_db f).

Lemma db_preserves {A} I (m : M DB A) : preserves I m → preserves (in_db I) (db m).
Proof. intros Hm f Hf. unfold db, zoom. specialize (Hm (fr_db f) Hf). by destruct (m (fr_db f)). Qed.

Lemma use_gas_preserves I n : preserves (in_db I) (use_gas n).
Proof. intros f Hf. unfold use_gas. by destruct (UseGas n (fr_gas f)). Qed.

Lemma HandleGasError_preserves {A} I n (m : M Frame A) : preserves (in_db I) m → preserves (in_db I) (HandleGasError n m).
Proof.
  intros Hm f Hf. specialize (Hm f Hf). unfold HandleGasError. destruct (m f) as [f' [| |w]]; try done.
  case_bool_decide; [|done]. by apply use_gas_preserves.
Qed.

(** An action that only touches the top layer of the multistore and adds to the
    journal, as one that works on its context and emits logs does. *)
Definition confined act : Prop :=
  ∀ vs es n, below vs es (na_db n) → below vs es (na_db (act n).1).

Lemma native_preserves vs es m act :
  confined act → preserves (in_db (below vs es)) (native m act).
Proof.
  intros Hc f Hf. unfold native. specialize (Hc vs es (mkNative (fr_db f) m) Hf).
  by destruct (act (mkNative (fr_db f) m)).
Qed.

Lemma metered_preserves vs es h act g :
  confined act → preserves (in_db (below vs es)) (metered_action info h act g).
Proof.
  intros Hc. unfold metered_action.
  repeat (preserves_step || apply use_gas_preserves || (apply native_preserves; done)
          || (apply db_preserves; apply below_after || apply preserves_gets)).
Qed.

Lemma GetCacheContext_entries s s1 :
  GetCacheContext s = (s1, Ok tt) → entries (db_journal s1) = entries (db_journal s).
Proof.
  unfold GetCacheContext. rewrite (bind_Ok (gets _) _ _ _ _ eq_refl).
  destruct (db_writeCache s); by intros [= <-].
Qed.

(** The snapshot and the journal entry of a call, and what runs after them. *)
Lemma call_recorded {A} vs evs s f (rest : M Frame A) :
  fr_db f = s → db_cache s = Some (mkCacheCtx vs evs) → vs ≠ [] →
  let I := in_db (below vs (entries (db_journal s) ++ [precompileCallChange (Z.of_nat (length vs) - 1) evs])) in
  preserves I rest →
  I ((let! snapshot := db MultiStoreSnapshot in
      let! events := db (gets cache_events) in
      db (AddPrecompileFn snapshot events) >>! rest) f).1.
Proof.
  intros Hs Hc Hvs I Hrest. destruct (last vs) as [top|] eqn:Hlast; [|by apply last_None in Hlast].
  set (s2 := set_cache (Some (mkCacheCtx (vs ++ [top]) evs)) s).
  rewrite (bind_Ok (db MultiStoreSnapshot) _ f (set_db s2 f) (Z.of_nat (length vs) - 1))
    by (unfold db, zoom, MultiStoreSnapshot; by rewrite Hs, Hc; cbn [cc_views]; rewrite Hlast).
  rewrite (bind_Ok (db (gets _)) _ _ (set_db s2 f) evs) by done.
  set (call := precompileCallChange (Z.of_nat (length vs) - 1) evs) in *. set (n := wrap u8_max (db_precompileCallsCounter s + 1)).
  set (f3 := set_db (set_precompileCallsCounter n (journaled call s2)) f).
  assert (I f3) as Hf3 by (split; [by exists top, evs|]; exists []; cbn; by rewrite app_nil_r).
  assert (db (AddPrecompileFn (Z.of_nat (length vs) - 1) evs) (set_db s2 f)
          = (f3, if n >? MaxPrecompileCalls then Err (errorf ErrOther "max calls to precompiles reached") else Ok tt)) as E.
  { unfold db, zoom, AddPrecompileFn, bind. cbn. fold n. by destruct (n >? MaxPrecompileCalls). }
  unfold bind. rewrite E. destruct (n >? MaxPrecompileCalls); [done|]. by apply Hrest.
Qed.

(** C30: a native call can always be undone.  Whatever it ends in, success, an error,
    out of gas or a panic, the journal has one entry for it after the entries of
    before, and reverting that entry restores every layer of the cached multistore
    and the events the context had when the call began; so neither the flush of the
    StateDB nor any write of the action survives.  The action is confined: it touches
    the top layer only and adds to the journal. *)
Theorem native_call_undoable act h f f' o s1 vs evs :
  confined act → GetCacheContext (fr_db f) = (s1, Ok tt) → db_cache s1 = Some (mkCacheCtx vs evs) → vs ≠ [] →
  runNativeAction info true h act f = (f', o) →
  let call := precompileCallChange (Z.of_nat (length vs) - 1) evs in
  (∃ more, entries (db_journal (fr_db f')) = entries (db_journal (fr_db f)) ++ call :: more) ∧
  ∃ s', Revert call (fr_db f') = (s', Ok tt) ∧ cc_views <$> db_cache s' = Some vs ∧ db_writeCache s' = Some (Some evs).
Proof.
  intros Hact Hg Hc Hvs E call.
  assert (below vs (entries (db_journal (fr_db f)) ++ [call]) (fr_db f')) as [(top & evs' & Hc') [more Hm]].
  { unfold runNativeAction in E. cbn [negb] in E.
    rewrite (bind_Ok (db GetCacheContext) _ f (set_db s1 f) tt) in E by (unfold db, zoom; by rewrite Hg).
    rewrite <-(GetCacheContext_entries _ _ Hg). apply (f_equal fst) in E. cbn [fst] in E. rewrite <-E.
    apply (call_recorded vs evs s1); try done.
    repeat preserves_step; [apply db_preserves, below_flush|]. by apply HandleGasError_preserves, metered_preserves. }
  split; [exists more; by rewrite Hm, <-app_assoc|].
  unfold Revert, call, RevertMultiStore. rewrite Hc'. cbn [cc_views]. rewrite length_app.
  assert (0 < length vs)%nat by (destruct vs; [done|cbn; lia]). cbn [length].
  destruct (Z.ltb_spec (Z.of_nat (length vs) - 1) 0); [lia|]. rewrite Z.geb_leb.
  destruct (Z.leb_spec (Z.of_nat (length vs + 1) - 1) (Z.of_nat (length vs) - 1)); [lia|]. cbn [orb].
  eexists. split; [done|]. split; [|done]. cbn. f_equal.
  replace (Z.to_nat (Z.of_nat (length vs) - 1) + 1)%nat with (length vs) by lia. apply take_app_length.
Qed.

(** ** Gas *)

Definition frame_is (g : Z) (m : GasMeter) f : Prop := fr_gas f = g ∧ fr_meter f = m.

Lemma db_frame {A} g m (k : M DB A) : preserves (frame_is g m) (db k).
Proof. intros f Hf. unfold db, zoom. by destruct (k (fr_db f)). Qed.

Lemma native_frame {A} g m m0 (k : M Native A) : preserves (frame_is g m) (native m0 k).
Proof. intros f Hf. unfold native. by destruct (k _). Qed.

(** Everything before the metered part leaves gas and meter alone. *)
Lemma runNativeAction_inv h act f f' o :
  runNativeAction info true h act f = (f', o) →
  (fr_gas f' = fr_gas f ∧ is_ok o = false) ∨
  ∃ f1, frame_is (fr_gas f) (fr_meter f) f1 ∧
    HandleGasError (GasConsumed (fr_meter f)) (metered_action info h act (GasConsumed (fr_meter f))) f1 = (f', o).
Proof.
  set (P := db GetCacheContext >>!
    let! snapshot := db MultiStoreSnapshot in
    let! events := db (gets cache_events) in
    db (AddPrecompileFn snapshot events) >>! db CommitWithCacheCtx).
  assert (runNativeAction info true h act f
    = (P >>! let! g := gets (λ f, GasConsumed (fr_meter f)) in HandleGasError g (metered_action info h act g)) f) as ->.
  { unfold runNativeAction, P. cbn [negb]. rewrite !bind_assoc. apply bind_ext. intros s1 [] _.
    rewrite !bind_assoc. apply bind_ext. intros s2 a _. rewrite !bind_assoc. apply bind_ext. intros s3 b _.
    by rewrite bind_assoc. }
  assert (preserves (frame_is (fr_gas f) (fr_meter f)) P) as HP by (unfold P; repeat (preserves_step || apply db_frame)).
  specialize (HP f (conj eq_refl eq_refl)). unfold bind at 1. destruct (P f) as [f1 [[]|e|w]]; cbn in HP.
  - destruct HP as [Hg Hm]. intros E. right. exists f1. rewrite (bind_Ok (gets _) _ f1 f1 _ eq_refl), Hm in E.
    by split.
  - intros [= <- <-]. left. by destruct HP.
  - intros [= <- <-]. left. by destruct HP.
Qed.

Lemma use_gas_run n f :
  use_gas n f = if fr_gas f <? n then (f, Ok false) else (set_gas (fr_gas f - n) f, Ok true).
Proof. unfold use_gas. rewrite UseGas_spec. destruct f; cbn. by destruct (_ <? n). Qed.

Lemma db_gas {A} (k : M DB A) f f' o : db k f = (f', o) → fr_gas f' = fr_gas f.
Proof. intros E. pose proof (db_frame (fr_gas f) (fr_meter f) k f (conj eq_refl eq_refl)) as Hf. rewrite E in Hf. apply Hf. Qed.

Lemma metered_Ok_inv h act g f f' bz :
  metered_action info h act g f = (f', Ok bz) →
  ∃ m d n', ConsumeGas g (NewGasMeter (fr_gas f)) = (m, Ok tt) ∧ act (mkNative d m) = (n', Ok bz) ∧
    let cost := wrap u64_max (GasConsumed (na_meter n') - g) in
    cost ≤ fr_gas f ∧ fr_gas f' = fr_gas f - cost.
Proof.
  unfold metered_action. rewrite (bind_Ok (gets _) _ f f _ eq_refl).
  destruct (ConsumeGas g _) as [m [[]| |]] eqn:Ec; try done. rewrite (bind_Ok (of_outcome _) _ f f _ eq_refl).
  intros (f1 & len & E1 & (f2 & [b m'] & E2 & E)%bind_Ok_inv)%bind_Ok_inv.
  assert (fr_gas f1 = fr_gas f) as Hg1 by (destruct h; [by eapply db_gas|by injection E1 as <-]).
  unfold native in E2. destruct (act (mkNative (fr_db f1) m)) as [n' [a| |]] eqn:Ea; try done. injection E2 as <- <- <-.
  set (cost := wrap u64_max _) in E. apply bind_Ok_inv in E as (f3 & ok & E3 & E).
  rewrite use_gas_run in E3. cbn [set_db fr_gas] in E3. rewrite Hg1 in E3.
  destruct (Z.ltb_spec (fr_gas f) cost) as [|Hcost]; injection E3 as <- <-; [done|]. cbn [negb] in E.
  apply bind_Ok_inv in E as (f5 & [] & E5 & [= <- <-]). exists m, (fr_db f1), n'. split_and!; try done.
  apply when_Ok_inv in E5 as [[_ ->%db_gas]|[_ ->]]; done.
Qed.

Context `{!GasMetersLaws}.

(** C31: a native call that succeeds costs exactly the gas its action consumed: the
    action started with a meter limited by the contract's gas on which the gas of the
    context was already consumed, and the contract's gas shrinks by the difference and
    does not become negative.  The action only has to leave a meter that did not go
    back nor past its limit, as meters of the SDK do, and the two figures of gas have
    to fit a 64-bit word together. *)
Theorem native_action_charges act h f f' bz :
  0 ≤ GasConsumed (fr_meter f) → 0 ≤ fr_gas f < u64_max →
  (∀ n n' b, act n = (n', Ok b) → GasConsumed (na_meter n) ≤ GasConsumed (na_meter n') ≤ GasLimit (na_meter n)) →
  GasConsumed (fr_meter f) < u64_max - fr_gas f →
  runNativeAction info true h act f = (f', Ok bz) →
  ∃ n n', act n = (n', Ok bz) ∧ GasLimit (na_meter n) = fr_gas f ∧ GasConsumed (na_meter n) = GasConsumed (fr_meter f) ∧
    fr_gas f' = fr_gas f - (GasConsumed (na_meter n') - GasConsumed (na_meter n)) ∧ 0 ≤ fr_gas f'.
Proof.
  intros Hi Hg Hact Hov [[_ ?]|(f1 & [Hg1 Hm1] & E)]%runNativeAction_inv; [done|].
  set (g0 := GasConsumed (fr_meter f)) in *. unfold HandleGasError in E.
  destruct (metered_action info h act g0 f1) as [f2 [b| |w]] eqn:Em; [|done|case_bool_decide; done].
  injection E as <- <-. apply metered_Ok_inv in Em as (m & d & n' & Ec & Ea & Hcost & Hgas). rewrite Hg1 in *.
  destruct (decide (g0 ≤ fr_gas f)) as [Hle|Hgt].
  2: { pose proof (consume_out g0 (NewGasMeter (fr_gas f)) Hi) as Ho. rewrite new_consumed, new_limit, Ec in Ho.
       by specialize (Ho ltac:(lia)). }
  destruct (consume_ok g0 (NewGasMeter (fr_gas f)) Hi) as (m' & Ec' & Hc & Hl); [rewrite new_consumed, new_limit; lia|].
  rewrite Ec in Ec'. injection Ec' as <-. rewrite new_consumed in Hc. rewrite new_limit in Hl.
  pose proof (Hact _ _ _ Ea) as Hmono. cbn [na_meter] in Hmono. rewrite wrap_small in * by lia.
  exists (mkNative d m), n'. cbn [na_meter]. split_and!; try done; lia.
Qed.

(** A native action that fails is free.  If the action ends in an error or runs out
    of its gas, whatever it consumed by then, the call is reported as reverted and the
    contract has all of its gas left: the deferred handler measures the meter of the
    context before the call, which the action does not use, and an error returns
    before the gas is charged. *)
Theorem failed_native_action_is_free act h f f' o :
  0 ≤ fr_gas f → (∀ n, match (act n).2 with Ok _ => False | Err _ => True | Panic w => w = ErrorOutOfGas end) →
  (ConsumeGas (GasConsumed (fr_meter f)) (NewGasMeter (fr_gas f))).2 = Ok tt →
  (∀ e, ∃ bz, PackString (Error_String e) = Ok bz) →
  RunNativeAction info true h act f = (f', o) → is_panic o = false →
  fr_gas f' = fr_gas f ∧ o = reverted.
Proof.
  intros Hg Hact Hmeter Hpack E Hp. unfold RunNativeAction in E.
  destruct (runNativeAction info true h act f) as [f1 o1] eqn:E1.
  assert (fr_gas f1 = fr_gas f ∧ is_ok o1 = false) as [Hg1 Ho1].
  { apply runNativeAction_inv in E1 as [?|(f2 & [Hg2 Hm2] & E1)]; [done|]. unfold HandleGasError, metered_action in E1.
    rewrite (bind_Ok (gets _) _ f2 f2 _ eq_refl), Hg2 in E1.
    destruct (ConsumeGas _ _) as [m [[]| |]]; try done. rewrite (bind_Ok (of_outcome _) _ f2 f2 _ eq_refl) in E1.
    destruct ((if h then db BeforeBalanceChange else ret 0) f2) as [f3 o3] eqn:E3.
    assert (fr_gas f3 = fr_gas f ∧ fr_meter f3 = fr_meter f ∧ ∃ n, o3 = Ok n) as (Hg3 & Hm3 & n & ->)
      by (destruct h; injection E3 as <- <-; eauto).
    rewrite (bind_Ok _ _ _ _ _ E3) in E1. unfold native, bind at 1 in E1. specialize (Hact (mkNative (fr_db f3) m)).
    destruct (act _) as [n' [a|e|w]]; cbn in Hact, E1; [done|by injection E1 as <- <-|]. subst w.
    rewrite bool_decide_eq_true_2, Hm3, Z.sub_diag in E1 by done. change (wrap u64_max 0) with 0 in E1.
    rewrite use_gas_run in E1. cbn [set_db fr_gas] in E1. rewrite Hg3 in E1.
    destruct (Z.ltb_spec (fr_gas f) 0); [lia|]. injection E1 as <- <-. cbn. split; [lia|done]. }
  destruct o1 as [|e|w]; [done| |by injection E as <- <-]. unfold ReturnRevertError, RevertReasonBytes in E.
  destruct (Hpack e) as [bz Hbz]. rewrite Hbz in E. by injection E as <- <-.
Qed.
End native.

(** * Call data *)

(** A read-only call never reaches a transaction: when [SetupABI] returns a method
    in a read-only call, the method is not a transaction; and when it returns one that is
    not a function (a fallback or a receive method), no arguments are decoded. *)
Theorem SetupABI_read_only `{GethABI} api input value (isTransaction : Method → bool) (readOnly : bool) m args :
  SetupABI api input value readOnly isTransaction = Ok (m, args) →
  (readOnly = true → isTransaction m = false) ∧ (IsFunction m = false ↔ args = None).
Proof.
  unfold SetupABI. destruct (if Nat.eqb _ _ then _ else _) as [m'| |]; try done.
  destruct (readOnly && isTransaction m') eqn:Hr; [done|].
  destruct (IsFunction m') eqn:Hf; [destruct (Nat.ltb _ _); [done|]; destruct (Inputs_Unpack _ _); try done|];
    intros [= <- <-]; (split; [intros ->; by destruct (isTransaction m')|by rewrite Hf]).
Qed.
