(* ===== verification/VmKeeperThms.v ===== *)
(** x/vm's keeper keeps what the StateDB asks of it: [SetAccount] and
    [DeleteAccount] write one account and leave the others alone, with balances
    held by x/precisebank.  The keeper is an instance of [Keeper], so that the
    properties of the StateDB hold of it. *)

From S2P Require Import Prelude.
From S2P Require Import Sdk.
From S2P Require Import SdkAuth.
From S2P Require Import EvmDenom.
From S2P Require Import PreciseBank.
From S2P Require Import PreciseBankInv.
From S2P Require Import PreciseBankOps.
From S2P Require Import PreciseBankLive.
From S2P Require Import AccessList.
From S2P Require Import StateDB.
From S2P Require Import StateDBRevert.
From S2P Require Import StateDBHist.
From S2P Require Import StateDBCommit.
From S2P Require Import VmKeeper.
From S2P Require Import VmBank.

Section keeper.
Context `{SdkTypesLaws, AccountKeeperLaws} {B : Type} `{!BankKeeper B, !BankKeeperLaws B}.
Context `{!AuthAccounts, !AuthKeeper B, !AuthKeeperLaws B} `{Crypto, GethAddressLaws}.
Context (info : EvmCoinInfo) (Hinfo : valid_coin_info info) (Hreserve : reserve ≠ EmptyString).

Abbreviation CF := (ConversionFactor info).
Abbreviation xdenom := (ExtendedCoinDenom info).
Abbreviation evm := (GetModuleAddress EvmModuleName).
Abbreviation VS := (VmState B).
Implicit Types (p : PState B) (s : VS) (a : Address) (x : addr) (n : Z).

(** ** Spendable balances *)

Definition spendable p x : Z := if decide (x = reserve) then 0 else ext_spend info p x.

(** A state with everything [funded] asks for, but for one account whose
    balance may not fit the word. *)
Definition funded_but x0 p : Prop :=
  pb_wf info p ∧ solvent info p ∧
  (∀ x, x ≠ reserve → ilocked info p x ≤ ibal info p x) ∧
  (∀ x, x ≠ reserve → x ≠ x0 → ext_spend info p x < u256_max) ∧
  is_Some (ak_GetAccount (ps_bank p) reserve) ∧ is_Some (ak_GetAccount (ps_bank p) evm).

Lemma funded_split p x0 :
  funded info p ↔ funded_but x0 p ∧ (x0 ≠ reserve → ext_spend info p x0 < u256_max).
Proof.
  split; [intros []; by unfold funded_but; split_and!; auto|].
  intros [(? & ? & ? & Hr & ? & ?) Hx]. split; auto. intros x Hxr.
  destruct (decide (x = x0)) as [->|]; auto.
Qed.

(** A read of the balance succeeds only if it fits. *)
Lemma spendable_fits p p' x c :
  x ≠ reserve → BankWrapper.SpendableCoin info x (eci_Denom info) p = (p', Ok c) →
  ext_spend info p x < u256_max.
Proof.
  intros Hx. unfold BankWrapper.SpendableCoin, PreciseBank.SpendableCoin. fold xdenom.
  rewrite bool_decide_eq_false_2, (bool_decide_eq_true_2 (xdenom = xdenom)), bool_decide_eq_false_2
    by (done || by intros []). cbn [andb negb].
  rewrite (bind_Ok (gets _) _ p p _ eq_refl), (bind_Ok (GetFractionalBalance x) _ p p _ eq_refl).
  intros (p1 & t & [-> ->]%ichk_inv & (p2 & f & Hadd & _)%bind_Ok_inv)%bind_Ok_inv.
  unfold iadd, ichk in Hadd. destruct (int_ok _) eqn:Hok; [|done]. apply int_ok_spec in Hok.
  unfold ext_spend, ispend. lia.
Qed.

(** One account's balance moves and every other stays. *)
Lemma moved_funded p p' x n :
  funded info p → x ≠ reserve → moves info p p' x n → 0 ≤ ext_spend info p x + n < u256_max →
  funded info p' ∧ (∀ y, spendable p' y = spendable p y + point x n y).
Proof.
  intros Hf Hx [E Hacc] Hr. pose proof (CF_bounds info Hinfo) as HCF. destruct E as [Hwf Hsur He Hs Hl] eqn:HE.
  assert (∀ y, y ≠ reserve → ilocked info p' y ≤ ibal info p' y ∧
            ext_spend info p' y = ext_spend info p y + point x n y) as Hy.
  { intros y Hyr. pose proof (He y Hyr) as Hext. pose proof (fd_locked _ _ Hf y Hyr) as Hly.
    pose proof (spend_ext info p y Hyr Hly) as Hsp. pose proof (frac_range info Hinfo p' y Hwf).
    pose proof (spend_nonneg info Hinfo p y (fd_wf _ _ Hf)).
    assert (0 ≤ ext_spend info p y + point x n y) by (unfold point; case_decide; subst; lia).
    assert (ilocked info p' y ≤ ibal info p' y) as Hl'.
    { rewrite Hl. unfold ext at 1 in Hext. rewrite decide_False in Hext by done. nia. }
    split; [done|]. rewrite (spend_ext info p' y Hyr Hl'), Hl. lia. }
  split.
  - destruct Hf as [Hw Hsol Hlk Hrg Hre Hev]. split; [done|by eapply effect_solvent|..].
    + intros y Hyr. by apply Hy.
    + intros y Hyr. rewrite (proj2 (Hy y Hyr)). specialize (Hrg y Hyr). unfold point.
      case_decide; subst; lia.
    + by rewrite Hacc.
    + by rewrite Hacc.
  - intros y. unfold spendable. case_decide as Hyr; [|by apply Hy]. unfold point.
    case_decide; [congruence|lia].
Qed.

(** Writing x/auth moves no coins. *)
Lemma auth_funded p b' x0 :
  funded_but x0 p → same_coins (ps_bank p) b' →
  (∀ x, x ≠ x0 → ilocked info (mkPState b' (ps_frac p) (ps_rem p) (ps_events p)) x = ilocked info p x) →
  ilocked info (mkPState b' (ps_frac p) (ps_rem p) (ps_events p)) x0 ≤ ilocked info p x0 →
  is_Some (ak_GetAccount b' reserve) → is_Some (ak_GetAccount b' evm) →
  let p' := mkPState b' (ps_frac p) (ps_rem p) (ps_events p) in
  funded_but x0 p' ∧ (∀ x, x ≠ x0 → spendable p' x = spendable p x) ∧
  (ilocked info p' x0 = ilocked info p x0 → spendable p' x0 = spendable p x0).
Proof.
  intros (Hwf & [Hs1 Hs2] & Hlk & Hr & _ & _) [Hb Hsup] Hl Hl0 Hre Hev p'.
  assert (∀ x, ibal info p' x = ibal info p x) as Hib by (intros; apply Hb).
  assert (∀ x, ilocked info p' x = ilocked info p x → ext_spend info p' x = ext_spend info p x) as Hsp.
  { intros x Hx. unfold ext_spend. rewrite !ispend_spec, Hib, Hx. done. }
  split_and!.
  - unfold funded_but. split_and!; try done.
    + by destruct Hwf; split.
    + split; [|done]. unfold surplus in *. rewrite Hib. done.
    + intros x Hx. rewrite Hib. destruct (decide (x = x0)) as [->|Hne]; [|rewrite Hl by done; auto].
      specialize (Hlk x0 Hx). fold p' in Hl0. lia.
    + intros x Hx Hne. rewrite Hsp by by apply Hl. auto.
  - intros x Hne. unfold spendable. case_decide; [done|]. by apply Hsp, Hl.
  - intros E. unfold spendable. case_decide; [done|]. by apply Hsp.
Qed.
(** ** Running the keeper *)

Definition with_bank (b : B) s : VS :=
  VmKeeper.set_pb (mkPState b (ps_frac (vs_pb s)) (ps_rem (vs_pb s)) (ps_events (vs_pb s))) s.

Lemma pb_Ok_inv {A} (m : M (PState B) A) s s' v :
  VmKeeper.pb m s = (s', Ok v) → ∃ p', m (vs_pb s) = (p', Ok v) ∧ s' = VmKeeper.set_pb p' s.
Proof. unfold VmKeeper.pb, zoom. destruct (m (vs_pb s)) as [p' o]. intros [= <- ->]. eauto. Qed.

Lemma auth_Ok_inv {A} (m : M B A) s s' v :
  VmKeeper.auth m s = (s', Ok v) → ∃ b', m (ps_bank (vs_pb s)) = (b', Ok v) ∧ s' = with_bank b' s.
Proof.
  intros (p' & E & ->)%pb_Ok_inv. unfold bank, zoom in E. destruct (m _) as [b' o] eqn:Em.
  injection E as <- ->. eauto.
Qed.

Abbreviation account s x := (ak_GetAccount (ps_bank (vs_pb s)) x).

(** What the StateDB reads of an account. *)
Definition shown s a : option RawAccount :=
  (λ acct, mkRawAccount (GetSequence acct) (Some (spendable (vs_pb s) (Address_Bytes a)))
             (Some (default EmptyCodeHash (vs_codeHash s !! a)))) <$> account s (Address_Bytes a).

Lemma GetAccount_run a s :
  funded info (vs_pb s) → VmKeeper.GetAccount info a s = (s, Ok (shown s a)).
Proof.
  intros Hf. unfold VmKeeper.GetAccount, VmKeeper.GetAccountWithoutBalance, shown. rewrite bind_assoc.
  rewrite (bind_Ok (gets _) _ s s _ eq_refl). destruct (account s _) as [acct|]; [|done].
  rewrite bind_assoc, (bind_Ok (VmKeeper.GetCodeHash a) _ s s _ eq_refl), bind_ret.
  unfold VmKeeper.SpendableCoin. rewrite bind_assoc.
  assert (VmKeeper.pb (BankWrapper.SpendableCoin info (Address_Bytes a) (eci_Denom info)) s
          = (s, Ok (mkCoin xdenom (spendable (vs_pb s) (Address_Bytes a))))) as Hsp.
  { unfold VmKeeper.pb, zoom. rewrite (spendable_run info Hinfo) by done. by destruct s. }
  erewrite bind_Ok by exact Hsp. rewrite bind_ret. cbn. unfold ret. do 5 f_equal. unfold VmKeeper.to_uint256, Uint256FromBigInt, spendable.
  pose proof (spend_nonneg info Hinfo (vs_pb s) (Address_Bytes a) (fd_wf _ _ Hf)).
  case_decide as Hr; [done|]. pose proof (fd_range _ _ Hf _ Hr).
  destruct (Z.ltb_spec (ext_spend info (vs_pb s) (Address_Bytes a)) 0); [lia|].
  by destruct (Z.geb_spec (ext_spend info (vs_pb s) (Address_Bytes a)) u256_max); [lia|].
Qed.

Lemma SetBalance_moves a n s s' :
  funded_but (Address_Bytes a) (vs_pb s) → Address_Bytes a ≠ reserve → is_Some (account s (Address_Bytes a)) →
  0 ≤ n < u256_max → VmKeeper.SetBalance info a (Some n) s = (s', Ok tt) →
  funded info (vs_pb s) ∧ funded info (vs_pb s') ∧ s' = VmKeeper.set_pb (vs_pb s') s ∧
  (∀ x, account s' x = account s x) ∧
  (∀ x, spendable (vs_pb s') x = if decide (x = Address_Bytes a) then n else spendable (vs_pb s) x) ∧
  (∀ x, ilocked info (vs_pb s') x = ilocked info (vs_pb s) x) ∧
  ext_supply info (vs_pb s') = ext_supply info (vs_pb s) + n - spendable (vs_pb s) (Address_Bytes a).
Proof.
  intros Hfb Ha Hacc Hn E. set (x0 := Address_Bytes a) in *. unfold VmKeeper.SetBalance in E. fold x0 in E.
  apply bind_Ok_inv in E as (s1 & c & (p1 & Ec & ->)%pb_Ok_inv & E).
  assert (funded info (vs_pb s)) as Hf.
  { apply (funded_split _ x0). split; [done|]. intros _. by eapply spendable_fits. }
  rewrite (spendable_run info Hinfo) in Ec by done. injection Ec as <- <-.
  rewrite decide_False in E by done. cbn [Amount] in E.
  assert (VmKeeper.set_pb (vs_pb s) s = s) as Es by by destruct s. rewrite Es in E.
  set (δ := n - ext_spend info (vs_pb s) x0) in E. split; [done|].
  assert (∀ p', moves info (vs_pb s) p' x0 δ → s' = VmKeeper.set_pb p' s →
    funded info (vs_pb s') ∧ s' = VmKeeper.set_pb (vs_pb s') s ∧ (∀ x, account s' x = account s x) ∧
    (∀ x, spendable (vs_pb s') x = if decide (x = x0) then n else spendable (vs_pb s) x) ∧
    (∀ x, ilocked info (vs_pb s') x = ilocked info (vs_pb s) x) ∧
    ext_supply info (vs_pb s') = ext_supply info (vs_pb s) + n - spendable (vs_pb s) x0) as Hfin.
  { intros p' Hm ->. cbn [vs_pb VmKeeper.set_pb].
    destruct (moved_funded (vs_pb s) p' x0 δ Hf Ha Hm ltac:(subst δ; lia)) as [Hf' Hsp].
    pose proof (mv_effect _ _ _ _ _ Hm) as He. split_and!; [done..|by apply Hm| |apply He|].
    - intros x. rewrite Hsp. unfold point. case_decide as Hx; [subst x|lia].
      unfold spendable. rewrite decide_False by done. subst δ. lia.
    - rewrite (ef_supply _ _ _ _ _ He). unfold spendable. rewrite decide_False by done. subst δ. lia. }
  destruct (Z.ltb_spec 0 δ) as [Hpos|Hpos].
  - apply pb_Ok_inv in E as (p' & E & Es'). apply (Hfin p'); [|done].
    eapply MintAmount_moves; eauto. apply Address_Bytes_nonempty.
  - destruct (Z.ltb_spec δ 0) as [Hneg|Hneg].
    + apply pb_Ok_inv in E as (p' & E & Es'). apply (Hfin p'); [|done].
      replace δ with (- - δ) by lia. eapply BurnAmount_moves; eauto; [lia|apply Address_Bytes_nonempty].
    + injection E as <-. apply (Hfin (vs_pb s)); [|by rewrite Es].
      replace δ with 0 by lia. split; [|done]. eapply effect_proper, effect_refl; [|done|apply Hf].
      intros. unfold point. by case_decide.
Qed.
(** ** Writing accounts *)

(** An account is read or created, gets its sequence and is stored: no coins move
    and no locks change. *)
Lemma account_written x0 n s s1 acct0 acct b' :
  match account s x0 with
  | Some acct => ret acct
  | None => VmKeeper.auth (ak_NewAccountWithAddress x0)
  end s = (s1, Ok acct0) →
  SetSequence n acct0 = Ok acct → ak_SetAccount acct (ps_bank (vs_pb s1)) = (b', Ok tt) →
  s1 = with_bank (ps_bank (vs_pb s1)) s ∧ GetSequence acct = n ∧
  (∀ x, ak_GetAccount b' x = if decide (x = x0) then Some acct else account s x) ∧
  same_coins (ps_bank (vs_pb s)) b' ∧ (∀ x d, bk_LockedCoin b' x d = bk_LockedCoin (ps_bank (vs_pb s)) x d).
Proof.
  intros E1 E2 E4. destruct (set_sequence_spec _ _ _ E2) as [Hq Hadr].
  destruct (ak_set_spec _ _ _ E4) as (Hg & [Hb1 Hs1] & Hl1). rewrite Hadr in Hg, Hl1.
  destruct (account s x0) as [old|] eqn:Hold.
  - injection E1 as <- <-. rewrite (ak_address _ _ _ Hold) in Hg, Hl1. split_and!; try done; [by destruct s as [[]]|].
    intros x d. destruct (decide (x = x0)) as [->|Hne]; [|by apply Hl1]. by eapply set_sequence_locked.
  - apply auth_Ok_inv in E1 as (b1 & E1 & ->). destruct (ak_new_spec _ _ _ _ E1) as (Hn & _ & Hg2 & [Hb2 Hs2] & Hl2).
    rewrite Hn in Hg, Hl1. cbn [vs_pb with_bank VmKeeper.set_pb ps_bank] in *. split_and!; try done.
    + intros x. rewrite Hg. case_decide; [done|apply Hg2].
    + split; intros; [by rewrite Hb1|by rewrite Hs1].
    + intros x d. destruct (decide (x = x0)) as [->|Hne]; [|by rewrite Hl1, Hl2].
      rewrite (no_account_locked _ _ _ Hold). by eapply new_account_locked.
Qed.

(** The first half of [SetAccount]: x/auth and the code hash are written, and
    no balance moves. *)
Lemma SetAccount_split a acc s s' :
  funded info (vs_pb s) →
  VmKeeper.SetAccount info a acc s = (s', Ok tt) →
  ∃ s1 acct h, raw_CodeHash acc = Some h ∧ VmKeeper.SetBalance info a (raw_Balance acc) s1 = (s', Ok tt) ∧
    GetSequence acct = raw_Nonce acc ∧
    (∀ x, account s1 x = if decide (x = Address_Bytes a) then Some acct else account s x) ∧
    vs_codeHash s1 = (if IsEmptyCodeHash h then delete a (vs_codeHash s) else <[a := h]> (vs_codeHash s)) ∧
    vs_code s1 = vs_code s ∧ vs_storage s1 = vs_storage s ∧
    funded_but (Address_Bytes a) (vs_pb s1) ∧ (∀ x, spendable (vs_pb s1) x = spendable (vs_pb s) x).
Proof.
  intros Hf E. set (x0 := Address_Bytes a) in *. unfold VmKeeper.SetAccount in E. fold x0 in E.
  rewrite (bind_Ok (gets _) _ s s _ eq_refl) in E.
  apply bind_Ok_inv in E as (s1 & acct0 & E1 & E).
  apply bind_Ok_inv in E as (s2 & acct & E2 & E). injection E2 as <- E2.
  apply bind_Ok_inv in E as (s3 & [] & E3 & E). destruct (raw_CodeHash acc) as [h|]; [|done].
  apply bind_Ok_inv in E as (s4 & [] & (b' & E4 & ->)%auth_Ok_inv & E).
  assert (s3 = VmKeeper.set_codeHash (if IsEmptyCodeHash h then delete a (vs_codeHash s1)
    else <[a := h]> (vs_codeHash s1)) s1) as -> by (destruct (IsEmptyCodeHash h); by injection E3).
  destruct (account_written _ _ _ _ _ _ _ E1 E2 E4) as (Es1 & Hq & Hacc & Hco & Hlk).
  destruct (auth_funded (vs_pb s) b' x0) as (Hfb & Hsp & Hsp0).
  { by apply (funded_split _ x0). }
  { done. }
  { intros x _. apply Hlk. }
  { unfold ilocked. cbn. by rewrite Hlk. }
  { rewrite Hacc. case_decide; [by eexists|apply (fd_reserve _ _ Hf)]. }
  { rewrite Hacc. case_decide; [by eexists|apply (fd_evm _ _ Hf)]. }
  eexists _, acct, h. split; [done|]. split; [exact E|]. rewrite Es1. cbn. split_and!; try done.
  intros x. destruct (decide (x = x0)) as [->|Hne]; [|by apply Hsp]. apply Hsp0, Hlk.
Qed.

(** [SetAccount] writes one account: its sequence, its code hash and its
    balance. *)
Lemma SetAccount_writes a nonce n h s s' :
  funded info (vs_pb s) → Address_Bytes a ≠ reserve → 0 ≤ n < u256_max →
  VmKeeper.SetAccount info a (mkRawAccount nonce (Some n) (Some h)) s = (s', Ok tt) →
  funded info (vs_pb s') ∧ shown s' a = Some (mkRawAccount nonce (Some n) (Some h)) ∧
  (∀ b, b ≠ a → shown s' b = shown s b) ∧ vs_code s' = vs_code s ∧ vs_storage s' = vs_storage s.
Proof.
  intros Hf Ha Hn (s1 & acct & h' & [= <-] & E & Hq & Hacc & Eh & Ec & Est & Hfb & Hsp)%SetAccount_split; [|done].
  cbn in E, Hq. apply SetBalance_moves in E as (_ & Hf' & Es & Hacc' & Hsp' & _); try done.
  2: { rewrite Hacc, decide_True by done. by eexists. }
  assert (vs_codeHash s' = vs_codeHash s1 ∧ vs_code s' = vs_code s1 ∧ vs_storage s' = vs_storage s1)
    as (Eh' & Ec' & Est') by (rewrite Es; done).
  split_and!; [done| | |congruence|congruence].
  - unfold shown. rewrite Hacc', Hacc, Hsp', !decide_True, Eh', Eh by done. cbn. rewrite Hq. do 3 f_equal.
    unfold IsEmptyCodeHash. destruct (Z.eqb_spec h EmptyCodeHash) as [->|].
    + by rewrite lookup_delete_eq.
    + by rewrite lookup_insert_eq.
  - intros b Hb. assert (Address_Bytes b ≠ Address_Bytes a) by by intros ?%Address_Bytes_inj.
    unfold shown. rewrite Hacc', Hacc, Hsp', Hsp, !decide_False, Eh', Eh by done.
    destruct (IsEmptyCodeHash h); [by rewrite lookup_delete_ne|by rewrite lookup_insert_ne].
Qed.
(** ** Deleting accounts *)

Lemma iterate_keys (l : list (Hash * Hash)) ks :
  VmKeeper.iterate_slots l (λ key _ keys, (keys ++ [key], true)) ks = ks ++ l.*1.
Proof.
  revert ks. induction l as [|[k v] l IH]; intros ks; cbn; [by rewrite app_nil_r|].
  by rewrite IH, <-app_assoc.
Qed.

Lemma slot_list_keys s a k : k ∈ (VmKeeper.slot_list s a).*1 ↔ is_Some (VmKeeper.slots s a !! k).
Proof.
  unfold VmKeeper.slot_list. rewrite list_elem_of_fmap. split.
  - intros ([k' v] & -> & (k0 & _ & (w & Hw & [= <- <-])%fmap_Some)%list_elem_of_omap). by eexists.
  - intros [v Hv]. exists (k, v). split; [done|]. apply list_elem_of_omap. exists k.
    split; [by apply elem_of_sorted_keys; eexists|]. by rewrite Hv.
Qed.

Lemma delete_states_run a l s :
  ∃ s', for_each l (λ key, modify (VmKeeper.DeleteState a key)) s = (s', Ok tt) ∧
    vs_pb s' = vs_pb s ∧ vs_codeHash s' = vs_codeHash s ∧ vs_code s' = vs_code s ∧
    (∀ b, b ≠ a → VmKeeper.slots s' b = VmKeeper.slots s b) ∧
    (∀ k, VmKeeper.slots s' a !! k = if decide (k ∈ l) then None else VmKeeper.slots s a !! k).
Proof.
  revert s. induction l as [|k l IH]; intros s; [by exists s|]. cbn [for_each].
  rewrite (bind_Ok (modify _) _ s (VmKeeper.DeleteState a k s) tt eq_refl).
  destruct (IH (VmKeeper.DeleteState a k s)) as (s' & E & Hp & Hh & Hc & Hb & Hk). exists s'.
  assert (VmKeeper.slots (VmKeeper.DeleteState a k s) a = delete k (VmKeeper.slots s a)) as Hs.
  { unfold VmKeeper.slots at 1. cbn. by rewrite lookup_insert_eq. }
  split_and!; [done..| |].
  - intros b Hne. rewrite Hb by done. unfold VmKeeper.slots. cbn. by rewrite lookup_insert_ne.
  - intros k'. rewrite Hk, Hs. destruct (decide (k' ∈ l)) as [Hin|Hin].
    + rewrite decide_True; [done|]. by right.
    + destruct (decide (k' = k)) as [->|Hne].
      * rewrite decide_True by left. apply lookup_delete_eq.
      * rewrite decide_False, lookup_delete_ne; [done..|]. by intros [|]%elem_of_cons.
Qed.
(** Replacing an account by a base account unlocks its coins. *)
Lemma base_account_set k num q s b1 x0 :
  funded info (vs_pb s) → x0 ≠ reserve → x0 ≠ evm →
  ak_SetAccount (NewBaseAccount x0 k num q) (ps_bank (vs_pb s)) = (b1, Ok tt) →
  let s1 := with_bank b1 s in
  is_Some (account s1 x0) ∧ (∀ x, x ≠ x0 → account s1 x = account s x) ∧ ilocked info (vs_pb s1) x0 = 0 ∧
  funded_but x0 (vs_pb s1) ∧ (∀ x, x ≠ x0 → spendable (vs_pb s1) x = spendable (vs_pb s) x).
Proof.
  intros Hf Hr He E s1. destruct (ak_set_spec _ _ _ E) as (Hg & Hco & Hl). rewrite base_account_address in Hg, Hl.
  pose proof (base_account_locked _ _ _ _ _ _ (IntegerCoinDenom info) E) as Hl0.
  assert (∀ x, x ≠ x0 → ak_GetAccount b1 x = account s x) as Hne by (intros; by rewrite Hg, decide_False).
  destruct (auth_funded (vs_pb s) b1 x0) as (Hfb & Hsp & _).
  - by apply (funded_split _ x0).
  - done.
  - intros x Hx. by apply Hl.
  - unfold ilocked at 1. cbn. rewrite Hl0. apply bk_locked_nonneg.
  - rewrite Hne by done. apply (fd_reserve _ _ Hf).
  - rewrite Hne by done. apply (fd_evm _ _ Hf).
  - split_and!; try done. cbn. rewrite Hg, decide_True by done. by eexists.
Qed.

(** Removing an account without locked coins moves nothing. *)
Lemma account_removed acct s b5 x0 :
  funded info (vs_pb s) → x0 ≠ reserve → x0 ≠ evm → GetAddress acct = x0 → ilocked info (vs_pb s) x0 = 0 →
  ak_RemoveAccount acct (ps_bank (vs_pb s)) = (b5, Ok tt) →
  let s5 := with_bank b5 s in
  funded info (vs_pb s5) ∧ account s5 x0 = None ∧ (∀ x, x ≠ x0 → account s5 x = account s x) ∧
  (∀ x, spendable (vs_pb s5) x = spendable (vs_pb s) x).
Proof.
  intros Hf Hr He Hadr Hl0 E s5. destruct (ak_remove_spec _ _ _ E) as (Hg & Hco & Hl). rewrite Hadr in Hg, Hl.
  assert (account s5 x0 = None) as Hn by (cbn; by rewrite Hg, decide_True).
  assert (∀ x, x ≠ x0 → ak_GetAccount b5 x = account s x) as Hne by (intros; by rewrite Hg, decide_False).
  assert (∀ x, ilocked info (vs_pb s5) x = ilocked info (vs_pb s) x) as Hlk.
  { intros x. destruct (decide (x = x0)) as [->|Hx]; [|by apply Hl]. rewrite Hl0. by apply no_account_locked. }
  destruct (auth_funded (vs_pb s) b5 x0) as (Hfb & Hsp & Hsp0).
  - by apply (funded_split _ x0).
  - done.
  - intros x _. apply Hlk.
  - specialize (Hlk x0). cbn in Hlk. by rewrite Hlk.
  - rewrite Hne by done. apply (fd_reserve _ _ Hf).
  - rewrite Hne by done. apply (fd_evm _ _ Hf).
  - specialize (Hsp0 (Hlk x0)). split_and!; try done.
    + apply (funded_split _ x0). split; [done|]. intros _. unfold spendable in Hsp0.
      rewrite !decide_False in Hsp0 by done. unfold s5, with_bank. cbn. rewrite Hsp0.
      by apply (fd_range _ _ Hf).
    + intros x. destruct (decide (x = x0)) as [->|Hx]; [done|by apply Hsp].
Qed.

(** [DeleteAccount] removes one account with its balance, its code hash and its
    storage; without an account it does nothing. *)
Lemma DeleteAccount_writes a s s' :
  funded info (vs_pb s) → Address_Bytes a ≠ reserve → Address_Bytes a ≠ evm →
  VmKeeper.DeleteAccount info a s = (s', Ok tt) →
  funded info (vs_pb s') ∧ shown s' a = None ∧ (∀ b, b ≠ a → shown s' b = shown s b) ∧
  (∀ b, b ≠ a → VmKeeper.slots s' b = VmKeeper.slots s b) ∧
  (is_Some (account s (Address_Bytes a)) →
   spendable (vs_pb s') (Address_Bytes a) = 0 ∧ ∀ k, VmKeeper.slots s' a !! k = None).
Proof.
  intros Hf Ha Hevm E. set (x0 := Address_Bytes a) in *. unfold VmKeeper.DeleteAccount in E. fold x0 in E.
  rewrite (bind_Ok (gets _) _ s s _ eq_refl) in E.
  destruct (account s x0) as [acct|] eqn:Hacct; cbn beta iota in E.
  2: { injection E as <-. split_and!; try done. unfold shown. fold x0. by rewrite Hacct. }
  assert (∃ c, VmKeeper.IsContract a s = (s, Ok c)) as [c Hc] 
    by (unfold VmKeeper.IsContract; rewrite (bind_Ok (VmKeeper.GetCodeHash a) _ s s _ eq_refl); by eexists).
  erewrite bind_Ok in E by exact Hc. destruct c; [|done]. cbn [negb] in E.
  apply bind_Ok_inv in E as (s1 & [] & (b1 & E1 & ->)%auth_Ok_inv & E).
  destruct (base_account_set _ _ _ _ _ _ Hf Ha Hevm E1) as (Hs1 & Hg1 & Hl1 & Hfb1 & Hsp1).
  apply bind_Ok_inv in E as (s2 & [] & E2 & E).
  apply SetBalance_moves in E2 as (_ & Hf2 & Es2 & Hg2 & Hsp2 & Hl2 & _); try done.
  rewrite (bind_Ok (VmKeeper.ForEachStorage a _ _) _ s2 s2 _ eq_refl), iterate_keys in E.
  destruct (delete_states_run a ([] ++ (VmKeeper.slot_list s2 a).*1) s2) as (s3 & E3 & Hp3 & Hh3 & _ & Hb3 & Hk3).
  erewrite bind_Ok in E by exact E3.
  rewrite (bind_Ok (VmKeeper.DeleteCodeHash a) _ s3 _ tt eq_refl) in E.
  apply auth_Ok_inv in E as (b5 & E5 & ->). set (s4 := VmKeeper.set_codeHash _ s3) in *.
  assert (vs_pb s4 = vs_pb s2) as Hp4 by done.
  destruct (account_removed acct s4 b5 x0) as (Hf5 & Hn5 & Hg5 & Hsp5).
  { by rewrite Hp4. }
  { done. }
  { done. }
  { by apply (ak_address _ _ _ Hacct). }
  { by rewrite Hp4, Hl2. }
  { done. }
  rewrite Hp4 in Hg5, Hsp5. split_and!; [done|unfold shown; fold x0; by rewrite Hn5|..].
  - intros b Hb. assert (Address_Bytes b ≠ x0) by by intros ?%Address_Bytes_inj.
    assert (vs_codeHash s2 = vs_codeHash s) as Eh2 by by rewrite Es2.
    unfold shown. rewrite Hsp5, Hg5, Hg2, Hg1, Hsp2, decide_False, Hsp1 by done.
    cbn. by rewrite lookup_delete_ne, Hh3, Eh2.
  - intros b Hb. assert (vs_storage s2 = vs_storage s) as Est by by rewrite Es2.
    etrans; [by apply Hb3|]. unfold VmKeeper.slots. by rewrite Est.
  - intros _. split; [by rewrite Hsp5, Hsp2, decide_True|]. intros k. etrans; [apply Hk3|]. cbn [app].
    case_decide as Hk; [done|]. rewrite slot_list_keys in Hk.
    destruct (VmKeeper.slots s2 a !! k); [by destruct Hk|done].
Qed.
(** ** The interface of the StateDB *)

Abbreviation vm_keeper := (VmKeeper.keeper info).

Lemma vm_get s a : funded info (vs_pb s) → k_GetAccount (Keeper := vm_keeper) s a = shown s a.
Proof. intros Hf. cbn. by rewrite GetAccount_run. Qed.

(** Code and storage have no part in it. *)
Lemma vm_get_ext s t a :
  vs_pb t = vs_pb s → vs_codeHash t = vs_codeHash s →
  k_GetAccount (Keeper := vm_keeper) t a = k_GetAccount (Keeper := vm_keeper) s a.
Proof.
  intros Hp Hh. cbn. unfold VmKeeper.GetAccount, VmKeeper.GetAccountWithoutBalance. rewrite !bind_assoc.
  rewrite !(bind_Ok (gets _) _ _ _ _ eq_refl), Hp. destruct (account s _) as [acct|]; [|done].
  rewrite !bind_assoc, !(bind_Ok (VmKeeper.GetCodeHash a) _ _ _ _ eq_refl), !bind_ret, Hh.
  unfold VmKeeper.SpendableCoin. rewrite !bind_assoc. unfold VmKeeper.pb, zoom, bind. rewrite Hp.
  by destruct (BankWrapper.SpendableCoin _ _ _ _) as [p' []].
Qed.

(** A transaction may write any account but the two modules'. *)
Definition user a : Prop := Address_Bytes a ≠ reserve ∧ Address_Bytes a ≠ evm.

Lemma SetAccount_storage a acc s s' :
  k_SetAccount (Keeper := vm_keeper) a acc s = (s', Ok tt) → vs_storage s' = vs_storage s.
Proof.
  assert (∀ q, ok_keeps (λ t, vs_storage t = q) (k_SetAccount (Keeper := vm_keeper) a acc)) as Hk.
  { intros q. cbn. unfold VmKeeper.SetAccount, VmKeeper.SetBalance, VmKeeper.DeleteCodeHash, VmKeeper.SetCodeHash.
    repeat ok_keeps_step; try (apply ok_keeps_modify; done);
      intros t t' v Ht; (intros (? & _ & ->)%auth_Ok_inv || intros (? & _ & ->)%pb_Ok_inv); done. }
  intros E. by eapply Hk.
Qed.

Definition vm_keeper_laws : @KeeperLaws VS vm_keeper.
Proof.
  refine (@Build_KeeperLaws VS vm_keeper (λ s, funded info (vs_pb s)) user _ _ _ _ _ _ _ _ _ _ _ _ _ _ _).
  - intros a acc s s' Hf [Hr _] Hb E. by apply SetAccount_writes in E as (? & _).
  - intros a acc s s' Hf [Hr _] Hb E. apply SetAccount_writes in E as (Hf' & Hs & _); try done. by rewrite vm_get.
  - intros a acc s s' b Hf [Hr _] Hb E Hne. apply SetAccount_writes in E as (Hf' & _ & Hs & _); try done.
    rewrite !vm_get by done. by apply Hs.
  - intros a acc s s' b k E%SetAccount_storage. cbn. unfold VmKeeper.slots. by rewrite E.
  - intros a s s' Hf [Hr He] E. by apply DeleteAccount_writes in E as (? & _).
  - intros a s s' Hf [Hr He] E. apply DeleteAccount_writes in E as (Hf' & Hs & _); try done. by rewrite vm_get.
  - intros a s s' b Hf [Hr He] E Hne. apply DeleteAccount_writes in E as (Hf' & _ & Hs & Hst & _); try done.
    rewrite !vm_get by done. split; [by apply Hs|]. intros k. cbn. by rewrite Hst.
  - done.
  - intros a k v s. cbn. unfold VmKeeper.slots at 1. cbn. by rewrite lookup_insert_eq; cbn; rewrite lookup_insert_eq.
  - intros a k v s b k' Hne. cbn. unfold VmKeeper.slots at 1. cbn. destruct (decide (b = a)) as [->|Hb].
    + rewrite lookup_insert_eq. cbn. by rewrite lookup_insert_ne by congruence.
    + by rewrite lookup_insert_ne.
  - intros. by apply vm_get_ext.
  - done.
  - intros. split; [by apply vm_get_ext|done].
  - done.
  - intros. split; [by apply vm_get_ext|done].
Defined.
(** * Properties *)

(** Setting the balance of an account mints or burns the difference: the
    account can then spend exactly the amount, no other account's spendable
    balance changes, the circulating supply grows by exactly the difference and
    the reserve of x/precisebank still covers every fraction. *)
Theorem SetBalance_exact a n s s' :
  funded info (vs_pb s) → user a → is_Some (account s (Address_Bytes a)) → 0 ≤ n < u256_max →
  VmKeeper.SetBalance info a (Some n) s = (s', Ok tt) →
  ext_spend info (vs_pb s') (Address_Bytes a) = n ∧
  (∀ x, x ≠ reserve → x ≠ Address_Bytes a → ext_spend info (vs_pb s') x = ext_spend info (vs_pb s) x) ∧
  ext_supply info (vs_pb s')
    = ext_supply info (vs_pb s) + n - ext_spend info (vs_pb s) (Address_Bytes a) ∧
  funded info (vs_pb s').
Proof.
  intros Hf [Ha _] Hacc Hn E. apply SetBalance_moves in E as (_ & Hf' & _ & _ & Hsp & _ & Hsup); try done.
  2: { by apply (funded_split _ (Address_Bytes a)). }
  unfold spendable in Hsp, Hsup. rewrite decide_False in Hsup by done. split_and!; try done.
  - specialize (Hsp (Address_Bytes a)). by rewrite decide_False, decide_True in Hsp.
  - intros x Hx Hne. specialize (Hsp x). by rewrite !decide_False in Hsp.
Qed.

(** What [SetAccount] stores [GetAccount] returns: the sequence, the balance
    and the code hash; every other address reads as before, code and storage are
    untouched and the state stays funded. *)
Theorem SetAccount_GetAccount a nonce n h s s' :
  funded info (vs_pb s) → user a → 0 ≤ n < u256_max →
  VmKeeper.SetAccount info a (mkRawAccount nonce (Some n) (Some h)) s = (s', Ok tt) →
  VmKeeper.GetAccount info a s' = (s', Ok (Some (mkRawAccount nonce (Some n) (Some h)))) ∧
  (∀ b, b ≠ a → (VmKeeper.GetAccount info b s').2 = (VmKeeper.GetAccount info b s).2) ∧
  vs_code s' = vs_code s ∧ vs_storage s' = vs_storage s ∧ funded info (vs_pb s').
Proof.
  intros Hf [Ha _] Hn E. apply SetAccount_writes in E as (Hf' & Hs & Hne & Hc & Hst); try done.
  rewrite GetAccount_run, Hs by done. split_and!; try done.
  intros b Hb. rewrite !GetAccount_run by done. cbn. by rewrite Hne.
Qed.

(** C32: self-destruction clears an account: it is gone from x/auth, can spend
    nothing, even what a vesting schedule had locked, and every storage slot
    reads zero; every other account reads as before. *)
Theorem DeleteAccount_clears a s s' :
  funded info (vs_pb s) → user a → is_Some (account s (Address_Bytes a)) →
  VmKeeper.DeleteAccount info a s = (s', Ok tt) →
  VmKeeper.GetAccount info a s' = (s', Ok None) ∧ ext_spend info (vs_pb s') (Address_Bytes a) = 0 ∧
  (∀ k, VmKeeper.GetState a k s' = (s', Ok zero_hash)) ∧
  (∀ b, b ≠ a → (VmKeeper.GetAccount info b s').2 = (VmKeeper.GetAccount info b s).2 ∧
     ∀ k, (VmKeeper.GetState b k s').2 = (VmKeeper.GetState b k s).2) ∧
  funded info (vs_pb s').
Proof.
  intros Hf [Ha He] Hacc E. apply DeleteAccount_writes in E as (Hf' & Hs & Hne & Hst & Hz); try done.
  destruct (Hz Hacc) as [Hsp Hk]. unfold spendable in Hsp. rewrite decide_False in Hsp by done.
  rewrite GetAccount_run, Hs by done. split_and!; try done.
  - intros k. unfold VmKeeper.GetState, gets. by rewrite Hk.
  - intros b Hb. rewrite !GetAccount_run by done. split; [cbn; by rewrite Hne|].
    intros k. cbn. by rewrite Hst.
Qed.

#[local] Instance keeper_instance : Keeper VS := vm_keeper.

Lemma commit_settles (s s' : StateDB VS) cps :
  evm_run s cps → funded info (vs_pb (db_ctx s)) →
  (∀ a o, is_Some (dirties (db_journal s) !! a) → db_stateObjects s !! a = Some o →
     user a ∧ 0 ≤ Balance (so_account o) < u256_max) →
  Commit s = (s', Ok tt) →
  funded info (vs_pb (db_ctx s')) ∧
  ∀ a, match dirties (db_journal s) !! a with
  | None => ∀ acct, account (db_ctx s) (Address_Bytes a) = Some acct → Address_Bytes a ≠ reserve →
      ext_spend info (vs_pb (db_ctx s')) (Address_Bytes a) = ext_spend info (vs_pb (db_ctx s)) (Address_Bytes a)
  | Some _ =>
      ((HasSelfDestructed a s).2 = Ok true ∧ account (db_ctx s') (Address_Bytes a) = None) ∨
      ((HasSelfDestructed a s).2 = Ok false ∧ ∃ acct, account (db_ctx s') (Address_Bytes a) = Some acct ∧
        (GetNonce a s).2 = Ok (GetSequence acct) ∧
        (GetBalance a s).2 = Ok (ext_spend info (vs_pb (db_ctx s')) (Address_Bytes a)))
  end.
Proof.
  intros Hr Hf Hw E. destruct (Commit_run (KeeperLaws0 := vm_keeper_laws) s cps Hr Hf Hw) as [_ Hc].
  destruct (Hc s' E) as [Hf' Ha]. split; [exact Hf'|]. intros a. specialize (Ha a).
  destruct (dirties (db_journal s) !! a) as [d|] eqn:Hd.
  - assert (is_Some (dirties (db_journal s) !! a)) as Hsome by by eexists.
    destruct (wf_live _ (iv_wf _ _ (run_inv _ _ Hr)) a Hsome) as [o Ho].
    destruct (Hw a o Hsome Ho) as [[Hra _] _].
    destruct Ha as [[Hsd Hg]|(Hsd & (n & b & h & Hg & Hn & Hb & _) & _)]; [left|right]; (split; [done|]);
      rewrite vm_get in Hg by exact Hf'; unfold shown in Hg; destruct (account (db_ctx s') _) as [acct|]; try done.
    injection Hg as <- <- _. exists acct. split_and!; try done. unfold spendable in Hb.
    by rewrite decide_False in Hb.
  - intros acct Hacct Hra. destruct Ha as [Hg _]. rewrite !vm_get in Hg by done. unfold shown in Hg.
    rewrite Hacct in Hg. destruct (account (db_ctx s') _) as [acct'|]; [|done]. injection Hg as _ Hsp _.
    unfold spendable in Hsp. by rewrite !decide_False in Hsp.
Qed.

(** C5: the EVM settles in x/precisebank.  After any history of a transaction over
    the keeper, once [Commit] returned nil: a dirty account that did not
    self-destruct can spend exactly the balance the EVM showed and has its nonce;
    one that did is gone; an account the transaction did not dirty can spend
    what it could before; and the reserve still covers every fraction. *)
Theorem evm_commit_settles (s s' : StateDB VS) cps :
  evm_run s cps → funded info (vs_pb (db_ctx s)) →
  (∀ a o, is_Some (dirties (db_journal s) !! a) → db_stateObjects s !! a = Some o →
     user a ∧ 0 ≤ Balance (so_account o) < u256_max) →
  Commit s = (s', Ok tt) →
  funded info (vs_pb (db_ctx s')) ∧
  ∀ a, match dirties (db_journal s) !! a with
  | None => ∀ acct, account (db_ctx s) (Address_Bytes a) = Some acct → Address_Bytes a ≠ reserve →
      ext_spend info (vs_pb (db_ctx s')) (Address_Bytes a) = ext_spend info (vs_pb (db_ctx s)) (Address_Bytes a)
  | Some _ =>
      ((HasSelfDestructed a s).2 = Ok true ∧ account (db_ctx s') (Address_Bytes a) = None) ∨
      ((HasSelfDestructed a s).2 = Ok false ∧ ∃ acct, account (db_ctx s') (Address_Bytes a) = Some acct ∧
        (GetNonce a s).2 = Ok (GetSequence acct) ∧
        (GetBalance a s).2 = Ok (ext_spend info (vs_pb (db_ctx s')) (Address_Bytes a)))
  end.
Proof. apply commit_settles. Qed.

(** ** Fees *)

(** [Coins.Sort] leaves a single coin, and [authante.DeductFees] sends valid fees
    to the fee collector through the bank wrapper. *)
Context (sort : Coins → Coins) (Hsort : ∀ c, sort [c] = [c]).
Context (DeductFees : AccountI → Coins → M (PState B) unit).
Context (HDeduct : ∀ acc fees, DeductFees acc fees =
  if negb (Coins_IsValid fees) then throw (errorf ErrInsufficientFee "invalid fee amount")
  else on_error (BankWrapper.SendCoinsFromAccountToModule info sort (GetAddress acc) FeeCollectorName fees)
         (λ _, ret (errorf ErrInsufficientFunds "failed to deduct fees"))).

Abbreviation collector := (GetModuleAddress FeeCollectorName).

Lemma converted n :
  ConvertCoinsDenomToExtendedDenom info sort [mkCoin (eci_Denom info) n] = [mkCoin xdenom n].
Proof.
  unfold ConvertCoinsDenomToExtendedDenom. cbn [map]. rewrite Hsort. unfold convert_coin, ConvertEvmCoinDenomToExtendedDenom.
  cbn [Denom]. by rewrite bool_decide_eq_true_2.
Qed.

Lemma Deduct_moves a n s s1 :
  pb_wf info (vs_pb s) → Address_Bytes a ≠ reserve → 0 < n → int_ok n = true →
  VmKeeper.DeductTxCostsFromUserBalance DeductFees [mkCoin (eci_Denom info) n] a s = (s1, Ok tt) →
  effect info (vs_pb s) (vs_pb s1) (λ x, point collector n x - point (Address_Bytes a) n x) 0.
Proof.
  intros Hwf Ha Hn Hok E. unfold VmKeeper.DeductTxCostsFromUserBalance in E.
  rewrite (bind_Ok (gets _) _ s s _ eq_refl) in E. destruct (account s _) as [acct|] eqn:Hacct; [|done].
  apply on_error_Ok_inv, pb_Ok_inv in E as (p' & E & ->). rewrite HDeduct in E.
  destruct (Coins_IsValid _); [|done]. cbn [negb] in E. apply on_error_Ok_inv in E.
  unfold BankWrapper.SendCoinsFromAccountToModule in E. rewrite converted in E. cbn in E.
  destruct (Z.eqb_spec n 0); [lia|]. cbn in E. rewrite (ak_address _ _ _ Hacct) in E.
  eapply to_module_moves; eauto. apply Address_Bytes_nonempty.
Qed.

Lemma RefundGas_moves a price leftover s s1 :
  pb_wf info (vs_pb s) → Address_Bytes a ≠ reserve → 0 ≤ leftover * price →
  VmKeeper.RefundGas info sort a price leftover (eci_Denom info) s = (s1, Ok tt) →
  effect info (vs_pb s) (vs_pb s1)
    (λ x, point (Address_Bytes a) (leftover * price) x - point collector (leftover * price) x) 0.
Proof.
  intros Hwf Ha Hn E. unfold VmKeeper.RefundGas in E. destruct (Z.ltb_spec (leftover * price) 0); [lia|].
  destruct (Z.ltb_spec 0 (leftover * price)) as [Hpos|Hz].
  - apply bind_Ok_inv in E as (s2 & n & En & E). unfold ichk in En.
    destruct (int_ok (leftover * price)) eqn:Hok; [|done]. injection En as <- <-.
    erewrite bind_Ok in E by (apply newCoin_run; [apply Hinfo|lia]).
    apply on_error_Ok_inv, pb_Ok_inv in E as (p' & E & ->).
    unfold BankWrapper.SendCoinsFromModuleToAccount in E. rewrite converted in E. cbn [BankWrapper.coins_zero forallb Amount] in E.
    destruct (Z.eqb_spec (leftover * price) 0); [lia|]. cbn [andb] in E.
    eapply from_module_moves; eauto. apply Address_Bytes_nonempty.
  - injection E as <-. eapply effect_proper, effect_refl; [|done|done].
    intros x. unfold point. repeat case_decide; lia.
Qed.

(** A transaction pays for the gas it used.  When the fee for its gas limit was
    deducted and the leftover gas refunded at the same price, the sender has paid
    exactly the used gas times the price, the fee collector has received exactly
    that, no other balance and not the supply changed, and the backing of the
    reserve is what it was. *)
Theorem transaction_pays_used_gas a price gasLimit leftover s s1 s2 :
  pb_wf info (vs_pb s) → Address_Bytes a ≠ reserve →
  0 < price → 0 ≤ leftover ≤ gasLimit → 0 < gasLimit → int_ok (gasLimit * price) = true →
  VmKeeper.DeductTxCostsFromUserBalance DeductFees [mkCoin (eci_Denom info) (gasLimit * price)] a s = (s1, Ok tt) →
  VmKeeper.RefundGas info sort a price leftover (eci_Denom info) s1 = (s2, Ok tt) →
  let paid := (gasLimit - leftover) * price in
  (∀ x, x ≠ reserve → ext info (vs_pb s2) x
     = ext info (vs_pb s) x + (if decide (x = collector) then paid else 0)
       - (if decide (x = Address_Bytes a) then paid else 0)) ∧
  ext_supply info (vs_pb s2) = ext_supply info (vs_pb s) ∧
  surplus info (vs_pb s2) = surplus info (vs_pb s) ∧ pb_wf info (vs_pb s2).
Proof.
  intros Hwf Ha Hp Hl Hg Hok E1 E2 paid. apply Deduct_moves in E1; [|done|done|nia|done].
  apply RefundGas_moves in E2; [|apply E1|done|nia].
  destruct (effect_trans info _ _ _ _ _ _ _ E1 E2) as [Hw Hs He Hsup _].
  split_and!; [|by rewrite Hsup; lia|done|done]. intros x Hx. rewrite He by done.
  unfold point, paid. repeat case_decide; lia.
Qed.
End keeper.
