(* ===== verification/SdkAuthModel.v ===== *)
(** A concrete x/auth beside the bank of SdkModel.v: accounts as a finite map, some
    of them vesting, one SDK state for both modules.  It satisfies the laws of
    x/auth, of x/bank and of their interplay. *)

From S2P Require Import Prelude.
From S2P Require Import Sdk.
From S2P Require Import SdkAuth.
From S2P Require Import SdkModel.

(** Account number, sequence and the amount a vesting schedule locks. *)
Record acct_data : Type := mkAcct { ad_number : Z; ad_sequence : Z; ad_vest : Z }.

Record AuthBank : Type := mkAuthBank {
  ab_bank : gmap string (gmap string Z);
  ab_accounts : gmap string acct_data
}.

#[global] Instance ab_auth_accounts : AuthAccounts := {
  AccountI := string * acct_data;
  PubKey := unit;
  GetAddress acc := acc.1;
  GetPubKey _ := tt;
  GetAccountNumber acc := ad_number acc.2;
  GetSequence acc := ad_sequence acc.2;
  SetSequence n acc := Ok (acc.1, mkAcct (ad_number acc.2) n (ad_vest acc.2));
  NewBaseAccount a _ number sequence := (a, mkAcct number sequence 0)
}.

Definition vest_of (d : option acct_data) : Z := default 0 (Z.max 0 ∘ ad_vest <$> d).
Definition ab_locked (b : AuthBank) (a : string) : Z := vest_of (ab_accounts b !! a).

Lemma ab_locked_nonneg b a : 0 ≤ ab_locked b a.
Proof. unfold ab_locked, vest_of. destruct (ab_accounts b !! a); cbn; lia. Qed.

(** x/bank creates the account of a recipient that has none. *)
Definition ab_create (a : string) (m : gmap string acct_data) : gmap string acct_data :=
  match m !! a with
  | Some _ => m
  | None => <[a := mkAcct (Z.of_nat (size m)) 0 0]> m
  end.

(** A call of the bank, with the account it may create. *)
Definition ab_lift (op : M (gmap string (gmap string Z)) unit) (created : option string) : M AuthBank unit := λ b,
  match op (ab_bank b) with
  | (m, Ok _) => (mkAuthBank m (match created with Some a => ab_create a (ab_accounts b) | None => ab_accounts b end), Ok tt)
  | (m, o) => (mkAuthBank m (ab_accounts b), o)
  end.

Definition ab_send (src dst : string) (cs : list Coin) : M AuthBank unit := λ b,
  ab_lift (m_send (ab_locked b) src dst cs) (Some dst) b.

#[global] Instance ab_keeper : BankKeeper AuthBank := {
  bk_GetBalance b := m_bal (ab_bank b);
  bk_SpendableCoin b := m_spendable (ab_locked b) (ab_bank b);
  bk_LockedCoin b a _ := ab_locked b a;
  bk_GetSupply b := m_supply (ab_bank b);
  bk_IsSendEnabledCoin _ c := negb (bool_decide (Denom c = "frozen"));
  bk_BlockedAddr a := bool_decide (a = m_module_address "precisebank");
  bk_SendCoins := ab_send;
  bk_SendCoinsFromAccountToModule src m cs := ab_send src (m_module_address m) cs;
  bk_SendCoinsFromModuleToModule m1 m2 cs := ab_send (m_module_address m1) (m_module_address m2) cs;
  bk_MintCoins m cs := ab_lift (m_mint m cs) None;
  bk_BurnCoins m cs b := ab_lift (m_burn (ab_locked b) m cs) None b
}.

#[global] Instance ab_auth : AuthKeeper AuthBank := {
  ak_GetAccount b a := pair a <$> ab_accounts b !! a;
  ak_NewAccountWithAddress a := gets (λ b, (a, mkAcct (Z.of_nat (size (ab_accounts b))) 0 0));
  ak_SetAccount acc := modify (λ b, mkAuthBank (ab_bank b) (<[acc.1 := acc.2]> (ab_accounts b)));
  ak_RemoveAccount acc := modify (λ b, mkAuthBank (ab_bank b) (delete acc.1 (ab_accounts b)))
}.

Lemma ab_lift_inv op c b b' :
  ab_lift op c b = (b', Ok tt) → ∃ m, op (ab_bank b) = (m, Ok tt) ∧
    b' = mkAuthBank m (match c with Some a => ab_create a (ab_accounts b) | None => ab_accounts b end).
Proof. unfold ab_lift. destruct (op (ab_bank b)) as [m [[]| |]]; [|done..]. intros [= <-]. eauto. Qed.

Lemma ab_lift_ok op c b m : op (ab_bank b) = (m, Ok tt) → ∃ b', ab_lift op c b = (b', Ok tt).
Proof. intros E. unfold ab_lift. rewrite E. by eexists. Qed.

Lemma ab_lift_err op c b e : op (ab_bank b) = (ab_bank b, Err e) → ab_lift op c b = (b, Err e).
Proof. intros E. unfold ab_lift. rewrite E. by destruct b. Qed.

Lemma ab_create_lookup a m x :
  ab_create a m !! x = m !! x ∨ (x = a ∧ m !! x = None ∧ vest_of (ab_create a m !! x) = 0).
Proof.
  unfold ab_create. destruct (m !! a) as [d|] eqn:Ha; [by left|].
  destruct (decide (x = a)) as [->|Hne]; [|rewrite lookup_insert_ne by done; by left].
  right. by rewrite lookup_insert_eq.
Qed.

Lemma ab_create_vest a m x : vest_of (ab_create a m !! x) = vest_of (m !! x).
Proof. destruct (ab_create_lookup a m x) as [->|(-> & -> & ->)]; done. Qed.

#[global] Instance ab_keeper_laws : BankKeeperLaws AuthBank.
Proof.
  split; cbn [bk_GetBalance bk_SpendableCoin bk_LockedCoin bk_GetSupply bk_SendCoins
    bk_SendCoinsFromAccountToModule bk_SendCoinsFromModuleToModule bk_MintCoins bk_BurnCoins ab_keeper].
  - intros. apply m_bal_range.
  - intros b a d. cbn. pose proof (m_bal_range (ab_bank b) a d). apply Z.ltb_lt. lia.
  - intros. apply ab_locked_nonneg.
  - intros. apply m_supply_nonneg.
  - done.
  - intros src dst cs b b' Hok (m & E & ->)%ab_lift_inv.
    destruct (m_send_effect _ (ab_locked_nonneg b) src dst cs _ _ Hok E). split_and!; try done.
    intros. apply ab_create_vest.
  - intros src dst cs b Hok Hsp Hroom. unfold ab_send. eapply ab_lift_ok.
    unfold m_send. rewrite (m_affordable (ab_locked b) cs (ab_bank b) src Hok Hsp). cbn [negb].
    rewrite (proj2 (m_forallb _ cs)); [done|]. intros c Hin. apply Z.ltb_lt.
    rewrite <-(m_amount_elem cs c) by done. by apply m_int_ok.
  - intros src dst d n b _ Hn Hlt. rewrite m_single by done. eexists. split.
    + unfold ab_send. apply ab_lift_err. unfold m_send. by rewrite m_unaffordable.
    + done.
  - done.
  - done.
  - intros m cs b b' Hok (q & E & ->)%ab_lift_inv. by destruct (m_mint_effect m cs _ _ Hok E).
  - intros m cs b Hok [Hp _]%m_has_perm Hb Hs. eapply ab_lift_ok. unfold m_mint. rewrite Hp. cbn [negb].
    rewrite (proj2 (m_forallb _ cs)); [done|]. intros c Hin.
    assert (0 < m_amount_of cs (Denom c)) as Hpos by (rewrite m_amount_elem by done; by eapply m_positive).
    apply andb_true_iff. rewrite !Z.ltb_lt, <-(m_amount_elem cs c) by done.
    split; apply m_int_ok; auto.
  - intros m cs b b' Hok (q & E & ->)%ab_lift_inv. by destruct (m_burn_effect _ (ab_locked_nonneg b) m cs _ _ Hok E).
  - intros m cs b Hok [Hp _]%m_has_perm Hsp. eapply ab_lift_ok. unfold m_burn. rewrite Hp. cbn [negb].
    by rewrite (m_affordable (ab_locked b) cs (ab_bank b) (m_module_address m)).
  - intros m d n b _ Hn [Hp _]%m_has_perm Hlt. rewrite m_single by done. eexists. split.
    + apply ab_lift_err. unfold m_burn. rewrite Hp. cbn [negb]. by rewrite m_unaffordable.
    + done.
Qed.

#[global] Instance ab_auth_laws : AuthKeeperLaws AuthBank.
Proof.
  split; cbn [ak_GetAccount ak_NewAccountWithAddress ak_SetAccount ak_RemoveAccount bk_LockedCoin bk_GetBalance
    bk_GetSupply bk_SendCoins bk_MintCoins bk_BurnCoins ab_keeper ab_auth GetAddress GetSequence SetSequence
    NewBaseAccount ab_auth_accounts].
  - intros b a acc. by destruct (ab_accounts b !! a); intros [= <-].
  - by intros n acc acc' [= <-].
  - done.
  - by intros a b b' acc [= <- <-].
  - intros acc b b' [= <-]. split_and!; [|done|].
    + intros x. cbn. case_decide; [subst; rewrite lookup_insert_eq; by destruct acc|by rewrite lookup_insert_ne].
    + intros x d Hx. unfold ab_locked. cbn. by rewrite lookup_insert_ne.
  - intros acc b b' [= <-]. split_and!; [|done|].
    + intros x. cbn. case_decide; [subst; by rewrite lookup_delete_eq|by rewrite lookup_delete_ne].
    + intros x d Hx. unfold ab_locked. cbn. by rewrite lookup_delete_ne.
  - intros b a d. unfold ab_locked. by destruct (ab_accounts b !! a).
  - intros a k n q b b' d [= <-]. unfold ab_locked. cbn. by rewrite lookup_insert_eq.
  - intros a b b1 acc n acc' b' d [= <- <-] [= <-] [= <-]. unfold ab_locked. cbn. by rewrite lookup_insert_eq.
  - intros a b b1 acc b' d [= <- <-] [= <-]. unfold ab_locked. cbn. by rewrite lookup_insert_eq.
  - intros a b acc n acc' b' d. destruct (ab_accounts b !! a) as [x|] eqn:E; intros [= <-] [= <-] [= <-].
    unfold ab_locked. cbn. by rewrite lookup_insert_eq, E.
  - intros src dst cs b b' (m & _ & ->)%ab_lift_inv x. cbn.
    destruct (ab_create_lookup dst (ab_accounts b) x) as [->|(-> & -> & _)]; auto.
  - intros m cs b b' (q & _ & ->)%ab_lift_inv x. by left.
  - intros m cs b b' (q & _ & ->)%ab_lift_inv x. by left.
Qed.
