(* ===== verification/VmKeeperWit.v ===== *)
(** Concrete runs of x/vm's keeper over x/precisebank and the SDK of
    SdkAuthModel.v, one for each theorem of VmKeeperThms.v. *)

From Stdlib Require Import Ascii.
From S2P Require Import Prelude.
From S2P Require Import Sdk.
From S2P Require Import SdkAuth.
From S2P Require Import EvmDenom.
From S2P Require Import PreciseBank.
From S2P Require Import PreciseBankInv.
From S2P Require Import SdkModel.
From S2P Require Import PreciseBankWit.
From S2P Require Import AccessList.
From S2P Require Import StateDB.
From S2P Require Import StateDBRevert.
From S2P Require Import StateDBHist.
From S2P Require Import StateDBWit.
From S2P Require Import VmKeeper.
From S2P Require Import VmBank.
From S2P Require Import VmKeeperThms.
From S2P Require Import SdkAuthModel.

(** A twenty-byte address starts with an [a]; one of thirty-two bytes has twelve
    more in front, which are cropped. *)
#[global] Instance w_address : GethAddress := {
  Address_Bytes a := String "a"%char (print a);
  ParseDelegation _ := false
}.

#[global] Instance w_address_laws : GethAddressLaws.
Proof.
  split; [|done]. cbn. intros a b [= E]. apply (f_equal (parse (A := Z))) in E. rewrite !parse_print in E. by injection E.
Qed.

Definition crop (b : string) : string :=
  match b with String "a"%char r => r | _ => String.substring 13 (String.length b - 13) b end.
Definition w_BytesToAddress (b : string) : Z := default 0 (parse (crop b)).

Lemma w_bytes a : w_BytesToAddress (Address_Bytes a) = a.
Proof. unfold w_BytesToAddress. cbn. by rewrite parse_print. Qed.

Definition bytes7 : string := Address_Bytes 7.
Definition bytes8 : string := Address_Bytes 8.

(** The account of the history contract, which has no coins. *)
Definition bytes_history : string := Address_Bytes 0x0000F90827F1C53a10cb7A02335B175320002935.

(** The account 7 is a contract with 5.6 coins, of which a schedule locks 2. *)
Definition v_uatom : gmap string Z := list_to_map [(bytes7, 5); ("module/evm", 1); (res, 1)].
Definition v_accounts : gmap string acct_data :=
  list_to_map [(bytes7, mkAcct 0 1 2); ("module/evm", mkAcct 1 0 0); (res, mkAcct 2 0 0);
               ("module/fee_collector", mkAcct 3 0 0); (bytes_history, mkAcct 4 0 0)].
Definition v_bank : AuthBank := mkAuthBank {["uatom" := v_uatom]} v_accounts.
Definition v_pb : PState AuthBank := mkPState v_bank {[bytes7 := 6 * 10 ^ 11]} (Some (4 * 10 ^ 11)) [].
Definition v_state : VmState AuthBank :=
  mkVmState v_pb {[7 := 99]} {[99 := "code"]} {[7 := {[3 := 5; 4 := 6]}]}.

Lemma v_balances x : bk_GetBalance v_bank x "uatom" ≤ 5.
Proof.
  change (default 0 (clamp <$> v_uatom !! x) ≤ 5).
  assert (map_Forall (λ _ v, clamp v ≤ 5) v_uatom) as Hm by (apply (bool_decide_unpack _); vm_compute; exact I).
  destruct (v_uatom !! x) as [z|] eqn:E; [exact (Hm x z E)|by cbn].
Qed.

Lemma v_locks x : bk_LockedCoin v_bank x "uatom" ≤ bk_GetBalance v_bank x "uatom".
Proof.
  destruct (decide (x = bytes7)) as [->|Hx]; [by vm_compute|].
  etrans; [|apply bk_balance_nonneg]. change (vest_of (v_accounts !! x) ≤ 0).
  assert (map_Forall (λ k v, k = bytes7 ∨ vest_of (Some v) ≤ 0) v_accounts) as Hm
    by (apply (bool_decide_unpack _); vm_compute; exact I).
  destruct (v_accounts !! x) as [d|] eqn:E; [by destruct (Hm x d E)|done].
Qed.

Lemma v_funded : funded info6 (vs_pb v_state).
Proof.
  split.
  - split; [|by intros r [= <-]; vm_compute]. apply (bool_decide_unpack _). vm_compute. exact I.
  - by split; vm_compute.
  - intros a _. apply v_locks.
  - intros a _. unfold ext_spend, ispend. rewrite bk_spendable_spec.
    pose proof (v_balances a). pose proof (bk_balance_nonneg v_bank a "uatom"). pose proof (bk_locked_nonneg v_bank a "uatom").
    assert (frac_of v_pb a ≤ 6 * 10 ^ 11) as Hfr.
    { unfold frac_of, v_pb. cbn [ps_frac]. destruct (decide (a = bytes7)) as [->|Ha]; [by rewrite lookup_singleton_eq|].
      by rewrite lookup_singleton_ne. }
    change (ConversionFactor info6) with (10 ^ 12). change (IntegerCoinDenom info6) with "uatom".
    change (vs_pb v_state) with v_pb. change (ps_bank v_pb) with v_bank.
    assert (10 ^ 14 < u256_max) by done. lia.
  - by eexists.
  - by eexists.
Qed.

Lemma user_not_module a : user a.
Proof. split; discriminate. Qed.

(** * The keeper *)

Definition v_set := (VmKeeper.SetBalance info6 7 (Some (45 * 10 ^ 11)) v_state).1.

Lemma SetBalance_exact_witness :
  VmKeeper.SetBalance info6 7 (Some (45 * 10 ^ 11)) v_state = (v_set, Ok tt) ∧
  ext_spend info6 (vs_pb v_set) bytes7 = 45 * 10 ^ 11 ∧
  ext_supply info6 (vs_pb v_set) = ext_supply info6 (vs_pb v_state) + 9 * 10 ^ 11.
Proof.
  assert (VmKeeper.SetBalance info6 7 (Some (45 * 10 ^ 11)) v_state = (v_set, Ok tt)) as E by (unfold v_set; run_ok).
  destruct (SetBalance_exact info6 info6_valid reserve_set 7 (45 * 10 ^ 11) v_state v_set) as (Hs & _ & Hsup & _).
  - exact v_funded.
  - apply user_not_module.
  - by eexists.
  - by split.
  - exact E.
  - split_and!; [exact E|exact Hs|]. rewrite Hsup. reflexivity.
Defined.

Definition v_account := mkRawAccount 4 (Some 10) (Some EmptyCodeHash).
Definition v_new := (VmKeeper.SetAccount info6 8 v_account v_state).1.

Lemma SetAccount_GetAccount_witness :
  VmKeeper.SetAccount info6 8 v_account v_state = (v_new, Ok tt) ∧
  VmKeeper.GetAccount info6 8 v_new = (v_new, Ok (Some v_account)).
Proof.
  assert (VmKeeper.SetAccount info6 8 v_account v_state = (v_new, Ok tt)) as E by (unfold v_new; run_ok).
  split; [exact E|].
  apply (SetAccount_GetAccount info6 info6_valid reserve_set 8 4 10 EmptyCodeHash v_state v_new).
  - exact v_funded.
  - apply user_not_module.
  - by split.
  - exact E.
Defined.

Definition v_gone := (VmKeeper.DeleteAccount info6 7 v_state).1.

Lemma DeleteAccount_clears_witness :
  VmKeeper.DeleteAccount info6 7 v_state = (v_gone, Ok tt) ∧
  ext_spend info6 (vs_pb v_gone) bytes7 = 0 ∧ VmKeeper.GetState 7 3 v_gone = (v_gone, Ok 0).
Proof.
  assert (VmKeeper.DeleteAccount info6 7 v_state = (v_gone, Ok tt)) as E by (unfold v_gone; run_ok).
  destruct (DeleteAccount_clears info6 info6_valid reserve_set 7 v_state v_gone) as (_ & Hs & Hk & _).
  - exact v_funded.
  - apply user_not_module.
  - by eexists.
  - exact E.
  - split_and!; [exact E|exact Hs|exact (Hk 3)].
Defined.

(** * A transaction *)

#[global] Instance v_keeper : Keeper (VmState AuthBank) := VmKeeper.keeper info6.

Definition v_started : StateDB (VmState AuthBank) :=
  (Prepare rules 1 2 (Some 7) [9] [] (New v_state [] NewEmptyTxConfig)).1.
Definition v_moved : StateDB (VmState AuthBank) :=
  (for_each [done_ (SubBalance 7 (25 * 10 ^ 11)); done_ (AddBalance 8 (25 * 10 ^ 11))] id v_started).1.
Definition v_committed : StateDB (VmState AuthBank) := (Commit v_moved).1.

Lemma v_moved_run : evm_run v_moved [].
Proof.
  apply (run_op (OAddBalance 8 (25 * 10 ^ 11)) (for_each [done_ (SubBalance 7 (25 * 10 ^ 11))] id v_started).1);
    [|vm_compute; reflexivity].
  apply (run_op (OSubBalance 7 (25 * 10 ^ 11)) v_started); [|vm_compute; reflexivity].
  by apply (run_start v_state [] NewEmptyTxConfig rules 1 2 (Some 7) [9] []).
Qed.

Lemma evm_commit_settles_witness :
  Commit v_moved = (v_committed, Ok tt) ∧ funded info6 (vs_pb (db_ctx v_committed)) ∧
  ext_spend info6 (vs_pb (db_ctx v_committed)) bytes8 = 25 * 10 ^ 11.
Proof.
  assert (Commit v_moved = (v_committed, Ok tt)) as E by (unfold v_committed; run_ok).
  destruct (evm_commit_settles info6 info6_valid reserve_set v_moved v_committed []) as [Hf _].
  - exact v_moved_run.
  - exact v_funded.
  - intros a o _ Ho. split; [apply user_not_module|].
    assert (map_Forall (λ _ o, 0 ≤ Balance (so_account o) < u256_max) (db_stateObjects v_moved)) as Hall
      by (apply (bool_decide_unpack _); vm_compute; exact I).
    exact (Hall a o Ho).
  - exact E.
  - split_and!; [exact E|exact Hf|vm_compute; reflexivity].
Defined.

(** * Fees *)

Definition v_deduct (acc : AccountI) (fees : list Coin) : M (PState AuthBank) unit :=
  if negb (Coins_IsValid fees) then throw (errorf ErrInsufficientFee "invalid fee amount")
  else on_error (BankWrapper.SendCoinsFromAccountToModule info6 id (GetAddress acc) FeeCollectorName fees)
         (λ _, ret (errorf ErrInsufficientFunds "failed to deduct fees")).

Definition v_paid := (VmKeeper.DeductTxCostsFromUserBalance v_deduct [mkCoin "uatom" (21000 * 10 ^ 7)] 7 v_state).1.
Definition v_refunded := (VmKeeper.RefundGas info6 id 7 (10 ^ 7) 1000 "uatom" v_paid).1.

Lemma transaction_pays_used_gas_witness :
  ext info6 (vs_pb v_refunded) bytes7 = ext info6 (vs_pb v_state) bytes7 - 20000 * 10 ^ 7.
Proof.
  destruct (transaction_pays_used_gas info6 info6_valid reserve_set id (λ _, eq_refl) v_deduct (λ _ _, eq_refl)
    7 (10 ^ 7) 21000 1000 v_state v_paid v_refunded) as [Hx _].
  - exact (fd_wf _ _ v_funded).
  - discriminate.
  - done.
  - by split.
  - done.
  - reflexivity.
  - unfold v_paid. run_ok.
  - unfold v_refunded. run_ok.
  - specialize (Hx bytes7). rewrite Hx by discriminate. reflexivity.
Defined.
