(* ===== verification/PrecompileWit.v ===== *)
(** Concrete runs of native actions: the witnesses of PrecompileThms.v, and what
    happens when a call that flushed the StateDB is reverted. *)

From Stdlib Require Import Ascii.
From S2P Require Import Prelude.
From S2P Require Import Sdk.
From S2P Require Import EvmDenom.
From S2P Require Import PreciseBank.
From S2P Require Import PreciseBankInv.
From S2P Require Import PreciseBankGenesis.
From S2P Require Import SdkModel.
From S2P Require Import PreciseBankWit.
From S2P Require Import AccessList.
From S2P Require Import StateDB.
From S2P Require Import StateDBRevert.
From S2P Require Import StateDBHist.
From S2P Require Import StateDBWit.
From S2P Require Import VmKeeper.
From S2P Require Import Precompile.
From S2P Require Import PrecompileThms.
From S2P Require Import VmKeeperWit.

(** * Events, addresses, gas *)

#[global] Instance Coin_countable : Countable Coin.
Proof.
  apply (inj_countable (λ c, (Denom c, Amount c)) (λ '(d, n), Some (mkCoin d n))). by intros [].
Defined.

Fixpoint first_attribute (l : list (string * string)) (k : string) : option string :=
  match l with
  | [] => None
  | (k', v) :: r => if decide (k' = k) then Some v else first_attribute r k
  end.

#[global] Instance x_events : SdkEvents := {
  GetAttribute e := first_attribute (ev_Attributes e);
  ParseCoinsNormalized t := match parse t with Some cs => Ok cs | None => Err (errorf ErrOther "invalid coins") end;
  Coins_String cs := print cs;
  NewIntFromString t := parse t;
  Int_String z := print z;
  BytesToAddress := w_BytesToAddress
}.

#[global] Instance x_events_laws : SdkEventsLaws.
Proof.
  split; cbn.
  - intros t k v r. by rewrite decide_True.
  - intros t k k' v r Hk. by rewrite decide_False.
  - intros z _. apply parse_print.
  - intros cs _. by rewrite parse_print.
  - apply w_bytes.
Qed.

Record x_meter : Type := mkMeter { xm_limit : Z; xm_consumed : Z }.

#[global] Instance x_meters : GasMeters := {
  GasMeter := x_meter;
  NewGasMeter l := mkMeter l 0;
  GasConsumed := xm_consumed;
  ConsumeGas g m :=
    let c := xm_consumed m + g in
    (mkMeter (xm_limit m) c,
     if xm_limit m <? c then if c >=? u64_max then Panic "gas overflow" else Panic ErrorOutOfGas else Ok tt)
}.

#[global] Instance x_meters_laws : GasMetersLaws.
Proof.
  refine {| GasLimit := xm_limit |}; cbn; try done.
  - intros g m Hg Hle. rewrite (proj2 (Z.ltb_ge _ _)) by done. by eexists.
  - intros g m Hg [Hlt Hov]. rewrite (proj2 (Z.ltb_lt _ _)), Z.geb_leb, (proj2 (Z.leb_gt _ _)) by done. done.
Defined.

#[global] Instance x_contract : GethContract := {
  UseGas gas have := if have <? gas then (have, false) else (have - gas, true)
}.

#[global] Instance x_contract_laws : GethContractLaws.
Proof. done. Qed.

#[global] Instance x_revert : GethRevert := {
  PackString t := Ok t;
  RevertSelector := "08c379a0";
  Error_String := err_text
}.

Abbreviation Call := (Frame (St := Mem)).
Definition run_native (act : NativeAction (St := Mem)) : M Call bytes :=
  RunNativeAction (B := gmap string (gmap string Z)) info6 true true act.

(** * A transfer by a native action *)

Definition acc1 : string := Address_Bytes 1.
Definition acc2 : string := Address_Bytes 2.

(** The sender has 5.3 coins, the recipient 0.1, and the remainder is 0.6. *)
Definition x_pb : PState (gmap string (gmap string Z)) :=
  mkPState {["uatom" := {[acc1 := 5; reserve := 1]}]} {[acc1 := 3 * 10 ^ 11; acc2 := 10 ^ 11]} (Some (6 * 10 ^ 11)) [].
Definition x_amount : Z := 25 * 10 ^ 11.
Definition x_pb' := (SendCoins info6 acc1 acc2 [mkCoin "aatom" x_amount] x_pb).1.

Definition uatom (n : Z) : list Coin := [mkCoin "uatom" n].

(** Two whole coins to the recipient, one borrowed through the reserve, and the two
    fractions, after an event of something else. *)
Definition x_money : list money :=
  [Note (mkEvent "message" []); Spent acc1 (uatom 2); Received acc2 (uatom 2); Spent acc1 (uatom 1);
   Received reserve (uatom 1); Fraction (mkFracEvent acc1 (5 * 10 ^ 11)); Fraction (mkFracEvent acc2 (5 * 10 ^ 11))].

Definition x_old : list Event := [mkEvent "tx" []].
Definition x_db : StateDB Mem :=
  set_cache (Some (mkCacheCtx [genesis_mem] (x_old ++ (event_of <$> x_money))))
    (New (mkMem {[1 := mkRawAccount 0 (Some (53 * 10 ^ 11)) None; 2 := mkRawAccount 0 (Some (10 ^ 11)) None]} ∅ ∅) []
       NewEmptyTxConfig).

Lemma x_pb_wf : pb_wf info6 x_pb.
Proof. split; [|by intros r [= <-]; vm_compute]. apply (bool_decide_unpack _). vm_compute. exact I. Qed.

Abbreviation mbank := (gmap string (gmap string Z)).

Lemma x_party a :
  a ∈ [acc1; acc2; reserve] →
  (∃ t, AccAddressFromBech32 t = Ok a) ∧ (bk_BlockedAddr (B := mbank) a = false → ∃ x, a = Address_Bytes x).
Proof.
  intros Ha. split.
  - exists a. rewrite !elem_of_cons in Ha. destruct Ha as [->|[->|[->|?%elem_of_nil]]]; [run..|done].
  - rewrite !elem_of_cons in Ha. destruct Ha as [->|[->|[->|?%elem_of_nil]]];
      [by exists 1|by exists 2|by vm_compute|done].
Qed.

Lemma x_readable : Forall (readable (B := mbank) info6) x_money.
Proof.
  apply Forall_forall. intros m Hm. unfold x_money in Hm. split.
  - rewrite !elem_of_cons in Hm. destruct Hm as [->|[->|[->|[->|[->|[->|[->|?%elem_of_nil]]]]]]];
      [|by split; vm_compute..|by vm_compute|by vm_compute|done].
    cbn. set_solver.
  - intros a Ha. apply x_party.
    rewrite !elem_of_cons in Hm. destruct Hm as [->|[->|[->|[->|[->|[->|[->|?%elem_of_nil]]]]]]];
      [done|injection Ha as <-; set_solver..|done].
Qed.

Lemma x_db_bal : bal_ok x_db.
Proof.
  split; [done|]. intros x. unfold bal, lookup_obj, x_db. cbn.
  destruct (decide (x = 1)) as [->|H1]; [by vm_compute|]. rewrite lookup_insert_ne by done.
  destruct (decide (x = 2)) as [->|H2]; [by vm_compute|]. by rewrite lookup_singleton_ne by done.
Qed.

(** The whole coins moved as the events say. *)
Lemma x_coins a : total (coins_of info6) x_money a = ibal info6 x_pb' a - ibal info6 x_pb a.
Proof.
  assert (ps_bank x_pb' = {["uatom" := {[acc1 := 2; acc2 := 2; reserve := 2]}]}) as Hb by (vm_compute; reflexivity).
  unfold ibal. rewrite Hb. change (IntegerCoinDenom info6) with "uatom".
  cbn [bk_GetBalance m_keeper x_pb ps_bank]. unfold m_bal. rewrite !lookup_singleton_eq. cbn [default].
  destruct (decide (a = acc1)) as [->|H1]; [by vm_compute|].
  destruct (decide (a = acc2)) as [->|H2]; [by vm_compute|].
  destruct (decide (a = reserve)) as [->|H3]; [by vm_compute|].
  unfold id. rewrite !lookup_insert_ne by done. rewrite !lookup_singleton_ne by done.
  unfold total, x_money, coins_of, point. cbn [foldr]. rewrite !decide_False by done. done.
Qed.

Lemma native_send_mirrored_witness :
  ∃ s', AfterBalanceChange (B := mbank) info6 1 x_db = (s', Ok tt) ∧
    (StateDB.GetBalance 1 s').2 = Ok (28 * 10 ^ 11) ∧ (StateDB.GetBalance 2 s').2 = Ok (26 * 10 ^ 11).
Proof.
  destruct (native_send_mirrored (B := mbank) info6 info6_valid reserve_set 1 2 x_amount x_pb x_pb' x_money x_old
    (mkCacheCtx [genesis_mem] (x_old ++ (event_of <$> x_money))) x_db) as (s' & E & Hs);
    [exact x_pb_wf|done|done|by vm_compute|by vm_compute|unfold x_pb'; run_ok|by vm_compute|exact x_coins|exact x_db_bal|
     exact x_readable|done|done|].
  exists s'. split; [exact E|]. split; rewrite Hs by (by vm_compute); by vm_compute.
Defined.

(** * Gas and reverts of a call *)

Definition x_frame : Call := mkFrame started (mkMeter 100000 40) 90 None.

(** An action that writes a slot of the cached multistore, emits an event and uses
    30 units of gas. *)
Definition x_act (result : outcome bytes) : NativeAction (St := Mem) := λ n,
  let '(d, _) := on_target ToCache (modify (k_SetState contract slot 9)) (na_db n) in
  let '(m, o) := ConsumeGas 30 (na_meter n) in
  (mkNative d m, match o with Ok _ => result | Err e => Err e | Panic w => Panic w end).

Lemma x_act_confined r : confined (x_act r).
Proof.
  intros vs es n Hb. unfold x_act. pose proof (below_target vs es (modify (k_SetState contract slot 9)) (na_db n) Hb) as Hd.
  by destruct (on_target _ _ (na_db n)).
Qed.

Definition x_after := (runNativeAction (B := mbank) info6 true true (x_act (Ok "done")) x_frame).1.

Lemma run_to {S A} (r : S * outcome A) a : r.2 = Ok a → r = (r.1, Ok a).
Proof. destruct r. by intros [= ->]. Qed.

Lemma x_run : runNativeAction (B := mbank) info6 true true (x_act (Ok "done")) x_frame = (x_after, Ok "done").
Proof. unfold x_after. apply run_to. vm_compute. reflexivity. Qed.

Definition x_cached : StateDB Mem := (GetCacheContext started).1.

Lemma x_cached_run : GetCacheContext (fr_db x_frame) = (x_cached, Ok tt).
Proof. unfold x_cached. apply (run_to (GetCacheContext started)). vm_compute. reflexivity. Qed.

Lemma native_call_undoable_witness :
  ∃ s', Revert (precompileCallChange 0 []) (fr_db x_after) = (s', Ok tt) ∧
    cc_views <$> db_cache s' = Some [genesis_mem] ∧
    (length ∘ cc_views <$> db_cache (fr_db x_after)) = Some 2%nat.
Proof.
  assert (db_cache x_cached = Some (mkCacheCtx [genesis_mem] [])) as Hc by (vm_compute; reflexivity).
  destruct (native_call_undoable (B := mbank) info6 (x_act (Ok "done")) true x_frame x_after (Ok "done")
    x_cached [genesis_mem] [] (x_act_confined _) x_cached_run Hc ltac:(discriminate) x_run) as (_ & s' & E & Hv & _).
  exists s'. split_and!; [exact E|exact Hv|]. vm_compute. reflexivity.
Defined.

Lemma native_action_charges_witness : fr_gas x_after = 60.
Proof.
  destruct (native_action_charges (B := mbank) info6 (x_act (Ok "done")) true x_frame x_after "done")
    as (n & n' & E & Hl & Hc & Hg & _); [done|done| |done|exact x_run|].
  - intros n n' b. unfold x_act. destruct (on_target _ _ _) as [d o]. cbn.
    destruct (Z.ltb_spec (xm_limit (na_meter n)) (xm_consumed (na_meter n) + 30)); [by destruct (_ >=? _)|].
    intros [= <- <-]. cbn. lia.
  - vm_compute. reflexivity.
Defined.

(** An action that burns gas without end runs out of the 90 units it has. *)
Definition x_greedy : NativeAction (St := Mem) := λ n, (n, Panic ErrorOutOfGas).
Definition x_failed := (run_native x_greedy x_frame).1.

Lemma x_failed_run : run_native x_greedy x_frame = (x_failed, reverted).
Proof.
  assert ((run_native x_greedy x_frame).2 = reverted) as Ho by (vm_compute; reflexivity).
  unfold x_failed. destruct (run_native x_greedy x_frame). cbn in Ho. by rewrite Ho.
Qed.

Lemma failed_native_action_is_free_witness : fr_gas x_failed = 90 ∧ fr_gas x_frame = 90.
Proof.
  destruct (failed_native_action_is_free (B := mbank) info6 x_greedy true x_frame x_failed reverted) as [Hg _];
    [done|done|vm_compute; reflexivity|by eexists|exact x_failed_run|done|]. by split.
Defined.

(** * Call data *)

Inductive x_method : Type := MBalance | MTransfer | MFallback.

#[local] Instance x_abi : GethABI := {
  ABI := unit;
  Method := x_method;
  HasReceive _ := false;
  HasFallback _ := true;
  Receive _ := MFallback;
  Fallback _ := MFallback;
  MethodById _ id := if decide (id = "bala") then Ok MBalance else if decide (id = "tran") then Ok MTransfer
                     else Err (errorf ErrOther "no method with id");
  IsFunction m := match m with MFallback => false | _ => true end;
  Argument := string;
  Inputs_Unpack _ x := Ok [x]
}.

Definition x_is_tx (m : x_method) : bool := match m with MTransfer => true | _ => false end.

Lemma SetupABI_read_only_witness :
  SetupABI tt "balaalice" 0 true x_is_tx = Ok (MBalance, Some ["alice"]) ∧ x_is_tx MBalance = false ∧
  SetupABI tt "tranbob" 0 true x_is_tx = Err (errorf ErrWriteProtection "write protection").
Proof.
  split; [reflexivity|]. split; [|reflexivity].
  apply (SetupABI_read_only (H := x_abi) tt "balaalice" 0 x_is_tx true MBalance (Some ["alice"])); reflexivity.
Defined.

(** * Precompile calls and reverts *)

(** A call of a precompile that does nothing on the store. *)
Definition precompile_call : M (StateDB Mem) unit := λ s,
  let '(f, o) := run_native (ret "done") (mkFrame s (mkMeter 100000 40) 90 None) in
  (fr_db f, match o with Ok _ => Ok tt | Err e => Err e | Panic w => Panic w end).

(** The slot was 0 before the snapshot, was written after it and flushed to
    the cache context by a precompile call; after the revert of that snapshot
    both [GetState] and [GetCommittedState] show the written value, not 0.
    The flush moved [originStorage], which the journal does not restore. *)
Theorem revert_after_flush_is_stale :
  (StateDB.GetState contract slot started).2 = Ok 0 ∧
  let s := run_all [done_ Snapshot; done_ (StateDB.SetState contract slot 5); precompile_call; RevertToSnapshot 0] started in
  is_ok (for_each [done_ Snapshot; done_ (StateDB.SetState contract slot 5); precompile_call; RevertToSnapshot 0]
           id started).2 = true ∧
  (StateDB.GetState contract slot s).2 = Ok 5 ∧ (GetCommittedState contract slot s).2 = Ok 5 ∧
  k_GetState (db_ctx (run_all [Commit] s)) contract slot = 0.
Proof. vm_compute. repeat split. Qed.

Definition lost_write : list (M (StateDB Mem) unit) :=
  [done_ (StateDB.SetState contract slot 5); done_ Snapshot; precompile_call; done_ (StateDB.SetState contract slot 6);
   RevertToSnapshot 0].

(** A write made before the snapshot is lost.  The slot is set to 5; after a
    snapshot a precompile call flushes it, the slot is set to 6, and the snapshot
    is reverted.  The state then shows 5 (and the account is still dirty), but
    [Commit] succeeds and leaves the keeper with 0: the revert of the second
    write compared with the flushed origin and dropped the dirty slot. *)
Theorem revert_after_flush_loses_write :
  let s := run_all lost_write started in
  is_ok (for_each lost_write id started).2 = true ∧
  (StateDB.GetState contract slot s).2 = Ok 5 ∧ is_ok (Commit s).2 = true ∧
  k_GetState (db_ctx (Commit s).1) contract slot = 0.
Proof. vm_compute. repeat split. Qed.


(** * Cropped addresses *)

(** An account of thirty-two bytes whose last twenty are the address of account 1. *)
Definition long_account : string := "############" +:+ Address_Bytes 1.

(** The handler crops addresses.  An account of thirty-two bytes receives 3 coins;
    the StateDB credits them to the account whose twenty-byte address is the end of
    it, which received nothing, so that a later [Commit] mints them. *)
Theorem long_address_credits_another :
  let got := event_of (Received long_account (uatom 3)) in
  let s := set_cache (Some (mkCacheCtx [genesis_mem] [got])) (New genesis_mem [] NewEmptyTxConfig) in
  let s' := (AfterBalanceChange (B := mbank) info6 0 s).1 in
  long_account ≠ Address_Bytes 1 ∧ is_ok (AfterBalanceChange (B := mbank) info6 0 s).2 = true ∧
  (StateDB.GetBalance 1 s).2 = Ok 0 ∧ (StateDB.GetBalance 1 s').2 = Ok (3 * 10 ^ 12) ∧
  is_ok (Commit s').2 = true ∧
  k_GetAccount (db_ctx (Commit s').1) 1 = Some (mkRawAccount 0 (Some (3 * 10 ^ 12)) (Some EmptyCodeHash)).
Proof. split; [discriminate|]. vm_compute. repeat split. Qed.
