(* ===== verification/Dec.v ===== *)
(** [sdkmath.LegacyDec], the fixed-point decimals of the fee code.  The type is
    not in the repository: a decimal is the integer [BigInt()] gives, its value
    times 10^18, a nil one is [None], and the size check and the rounding of a
    product are operations with laws. *)

From S2P Require Import Prelude.

Definition dec_prec : Z := 10 ^ 18.

Class DecTypes : Type := {
  (** the bit-length check of the operations that can overflow *)
  dec_ok : Z → bool;
  (** the product of two scaled values, brought back to one scale *)
  dec_round : Z → Z
}.

Class DecLaws `{DecTypes} : Prop := {
  dec_ok_small z : Z.abs z < 2 ^ 315 → dec_ok z = true;
  (** to the nearest *)
  dec_round_near z : 2 * Z.abs (dec_round z * dec_prec - z) ≤ dec_prec
}.

Section dec.
Context `{DecTypes} {S : Type}.

(** A method call on a nil decimal dereferences its pointer. *)
Definition dval (d : option Z) : M S Z :=
  match d with Some z => ret z | None => panic "nil pointer dereference" end.

Definition dchk (z : Z) : M S Z := if dec_ok z then ret z else panic "Int overflow".
Definition dNew (n : Z) : Z := n * dec_prec.
Definition dadd (a b : Z) : M S Z := dchk (a + b).
Definition dsub (a b : Z) : M S Z := dchk (a - b).
Definition dmul (a b : Z) : M S Z := dchk (dec_round (a * b)).
Definition dmulInt (a n : Z) : M S Z := dchk (a * n).
(** [QuoInt] truncates. *)
Definition dquoInt (a n : Z) : M S Z :=
  if n =? 0 then panic "division by zero" else ret (Z.quot a n).
Definition dTruncate (a : Z) : Z := Z.quot a dec_prec.
(** [Ceil().RoundInt()]: the least integer that is not below. *)
Definition dCeil (a : Z) : Z := - (- a / dec_prec).

Context `{!DecLaws}.

Lemma dchk_run z s : Z.abs z < 2 ^ 315 → dchk z s = (s, Ok z).
Proof. intros ?%dec_ok_small. unfold dchk. by case_match. Qed.

(** A product with an integer is exact. *)
Lemma dec_round_exact n b : dec_round (dNew n * b) = n * b.
Proof.
  pose proof (dec_round_near (dNew n * b)) as Hr. unfold dNew, dec_prec in *.
  set (q := dec_round (n * 10 ^ 18 * b)) in *. clearbody q.
  replace (n * 10 ^ 18 * b) with (n * b * 10 ^ 18) in Hr by ring.
  rewrite <-Z.mul_sub_distr_r, Z.abs_mul in Hr. lia.
Qed.

Lemma dmul_int n b s : Z.abs (n * b) < 2 ^ 315 → dmul (dNew n) b s = (s, Ok (n * b)).
Proof. intros. unfold dmul. rewrite dec_round_exact. by apply dchk_run. Qed.

(** A product of two non-negative decimals is not negative. *)
Lemma dec_round_nonneg z : 0 ≤ z → 0 ≤ dec_round z.
Proof. intros. pose proof (dec_round_near z). unfold dec_prec in *. lia. Qed.

Lemma dec_round_le z n : z ≤ n * dec_prec → dec_round z ≤ n.
Proof. intros. pose proof (dec_round_near z). unfold dec_prec in *. lia. Qed.

Lemma dquoInt_run a n s : 0 < n → 0 ≤ a → dquoInt a n s = (s, Ok (a / n)).
Proof.
  intros. unfold dquoInt. destruct (Z.eqb_spec n 0); [lia|]. by rewrite Z.quot_div_nonneg.
Qed.

Lemma dTruncate_div a : 0 ≤ a → dTruncate a = a / dec_prec.
Proof. intros. apply Z.quot_div_nonneg; [done|]. unfold dec_prec. lia. Qed.
End dec.
