(* ===== verification/FeeMarket.v ===== *)
(** x/feemarket: the EIP-1559 base fee of the chain (keeper/eip1559.go, params.go,
    keeper.go, abci.go, msg_server.go, grpc_query.go, types/params.go,
    types/utils.go, genesis.go), the decorator that feeds it
    (ante/evm/10_gas_wanted.go, ante/types/block.go) and the EVM's view of it
    (x/vm/wrappers/feemarket.go). *)

From S2P Require Import Prelude.
From S2P Require Import Sdk.
From S2P Require Import EvmDenom.
From S2P Require Import Dec.

Definition u32_max : Z := 2 ^ 32.
Definition i64_max : Z := 2 ^ 63.

Definition IsInt64 (z : Z) : bool := (- i64_max <=? z) && (z <? i64_max).
Definition IsUint64 (z : Z) : bool := (0 <=? z) && (z <? u64_max).

(** * Parameters *)

(** Two constants of go-ethereum's params package. *)
Class GethParams : Type := {
  DefaultBaseFeeChangeDenominator : Z;
  DefaultElasticityMultiplier : Z
}.

Record Params : Type := mkParams {
  NoBaseFee : bool;
  BaseFeeChangeDenominator : Z;
  ElasticityMultiplier : Z;
  BaseFee : option Z;
  EnableHeight : Z;
  MinGasPrice : option Z;
  MinGasMultiplier : option Z
}.

Definition with_BaseFee (fee : option Z) (p : Params) : Params :=
  mkParams (NoBaseFee p) (BaseFeeChangeDenominator p) (ElasticityMultiplier p) fee (EnableHeight p)
    (MinGasPrice p) (MinGasMultiplier p).

Definition DefaultBaseFee : Z := dNew 1000000000.
Definition DefaultMinGasMultiplier : Z := 50 * 10 ^ 16.
Definition DefaultMinGasPrice : Z := 0.
Definition DefaultEnableHeight : Z := 0.
Definition DefaultNoBaseFee : bool := false.

Definition DefaultParams `{GethParams} : Params :=
  mkParams DefaultNoBaseFee DefaultBaseFeeChangeDenominator DefaultElasticityMultiplier
    (Some DefaultBaseFee) DefaultEnableHeight (Some DefaultMinGasPrice) (Some DefaultMinGasMultiplier).

Definition validateMinGasPrice (gasPrice : option Z) : outcome unit :=
  match gasPrice with
  | None => Err (errorf ErrOther "invalid parameter: nil")
  | Some d => if d <? 0 then Err (errorf ErrOther "value cannot be negative") else Ok tt
  end.

Definition validateMinGasMultiplier (multiplier : option Z) : outcome unit :=
  match multiplier with
  | None => Err (errorf ErrOther "invalid parameter: nil")
  | Some d =>
      if d <? 0 then Err (errorf ErrOther "value cannot be negative")
      else if d >? dNew 1 then Err (errorf ErrOther "value cannot be greater than 1")
      else Ok tt
  end.

Definition Params_Validate (p : Params) : outcome unit :=
  if BaseFeeChangeDenominator p =? 0 then Err (errorf ErrOther "base fee change denominator cannot be 0")
  else match BaseFee p with
  | None => Panic "nil pointer dereference"
  | Some fee =>
      if fee <? 0 then Err (errorf ErrOther "initial base fee cannot be negative")
      else if EnableHeight p <? 0 then Err (errorf ErrOther "enable height cannot be negative")
      else if ElasticityMultiplier p =? 0 then Err (errorf ErrOther "elasticity multiplier cannot be zero")
      else match validateMinGasMultiplier (MinGasMultiplier p) with
           | Ok _ => validateMinGasPrice (MinGasPrice p)
           | r => r
           end
  end.

Definition IsBaseFeeEnabled (p : Params) (height : Z) : bool :=
  negb (NoBaseFee p) && (height >=? EnableHeight p).

(** * The base fee formula *)

Section formula.
Context `{DecTypes} {S : Type}.

Definition CalcGasBaseFee (gasUsed gasTarget baseFeeChangeDenom baseFee minUnitGas : Z)
    (minGasPrice : option Z) : M S Z :=
  if gasUsed =? gasTarget then ret baseFee
  else if gasTarget =? 0 then ret 0
  else
    let num := dNew (Z.abs (gasUsed - gasTarget)) in
    let! num := dmul num baseFee in
    let! num := dquoInt num gasTarget in
    let! num := dquoInt num baseFeeChangeDenom in
    if gasUsed >? gasTarget then dadd baseFee (Z.max num minUnitGas)
    else
      let! lower := dsub baseFee num in
      let! floor := dval minGasPrice in
      ret (Z.max lower floor).
End formula.

(** * The keeper *)

(** The protobuf codec of [Params]. *)
Class ParamsCodec : Type := {
  marshal : Params → string + error;
  unmarshal : string → option Params
}.

Inductive FeeEvent : Type :=
  | EvBaseFee (fee : Z)
  | EvBlockGas (height amount : Z).

(** The module's store, its transient store and the events of the block. *)
Record FeeState : Type := mkFeeState {
  fs_params : option string;
  fs_blockGasWanted : option Z;
  fs_transientGasWanted : option Z;
  fs_events : list FeeEvent
}.

Record GasMeter : Type := mkGasMeter { Limit : Z; GasConsumedToLimit : Z }.

(** What the code reads of [sdk.Context]; [MaxGas] is the one of the consensus
    parameters' block section, which may be nil. *)
Record Ctx : Type := mkCtx {
  BlockHeight : Z;
  MaxGas : option Z;
  BlockGasMeter : option GasMeter
}.

Section keeper.
Context `{DecTypes} `{GethParams} `{ParamsCodec}.
(** the configured EVM coin, and the module's authority *)
Context (info : EvmCoinInfo) (authority : string).

Definition GetParams : M FeeState Params :=
  let! bz := gets fs_params in
  match bz with
  | None => ret DefaultParams
  | Some b => match unmarshal b with Some p => ret p | None => panic "unmarshal" end
  end.

Definition SetParams (params : Params) : M FeeState unit :=
  match marshal params with
  | inr e => throw e
  | inl bz => modify (λ s, mkFeeState (Some bz) (fs_blockGasWanted s) (fs_transientGasWanted s) (fs_events s))
  end.

Definition GetBaseFee : M FeeState (option Z) :=
  let! params := GetParams in
  ret (if NoBaseFee params then None else BaseFee params).

Definition SetBaseFee (baseFee : Z) : M FeeState unit :=
  let! params := GetParams in
  λ s, match SetParams (with_BaseFee (Some baseFee) params) s with
       | (s', Err _) => (s', Ok tt)
       | r => r
       end.

Definition SetBlockGasWanted (gas : Z) : M FeeState unit :=
  modify (λ s, mkFeeState (fs_params s) (Some gas) (fs_transientGasWanted s) (fs_events s)).
Definition GetBlockGasWanted : M FeeState Z := gets (λ s, default 0 (fs_blockGasWanted s)).
Definition GetTransientGasWanted : M FeeState Z := gets (λ s, default 0 (fs_transientGasWanted s)).
Definition SetTransientBlockGasWanted (gasWanted : Z) : M FeeState unit :=
  modify (λ s, mkFeeState (fs_params s) (fs_blockGasWanted s) (Some gasWanted) (fs_events s)).

(** The sum is a [uint64]. *)
Definition AddTransientGasWanted (gasWanted : Z) : M FeeState Z :=
  let! g := GetTransientGasWanted in
  let result := wrap u64_max (g + gasWanted) in
  SetTransientBlockGasWanted result >>! ret result.

Definition emit (e : FeeEvent) : M FeeState unit :=
  modify (λ s, mkFeeState (fs_params s) (fs_blockGasWanted s) (fs_transientGasWanted s) (fs_events s ++ [e])).

Definition CalculateBaseFee (ctx : Ctx) : M FeeState (option Z) :=
  let! params := GetParams in
  if negb (IsBaseFeeEnabled params (BlockHeight ctx)) then ret None
  else if BlockHeight ctx =? EnableHeight params then ret (BaseFee params)
  else match BaseFee params with
  | None => ret None
  | Some parentBaseFee =>
      let! parentGasUsed := GetBlockGasWanted in
      let gasLimit := match MaxGas ctx with
                      | Some g => if g >? -1 then g else u64_max - 1
                      | None => u64_max - 1
                      end in
      let! parentGasTarget := iquo gasLimit (ElasticityMultiplier params) in
      if negb (IsUint64 parentGasTarget) then ret None
      else
        let! factor := dval (Decimals_ConversionFactor (eci_Decimals info)) in
        let! minUnitGas := dquoInt (dNew 1) factor in
        let! fee := CalcGasBaseFee parentGasUsed parentGasTarget (BaseFeeChangeDenominator params)
                      parentBaseFee minUnitGas (MinGasPrice params) in
        ret (Some fee)
  end.

(** The telemetry of the deferred functions is left out. *)
Definition BeginBlock (ctx : Ctx) : M FeeState unit :=
  let! baseFee := CalculateBaseFee ctx in
  match baseFee with
  | None => ret tt
  | Some fee => SetBaseFee fee >>! emit (EvBaseFee fee)
  end.

Definition EndBlock (ctx : Ctx) : M FeeState unit :=
  match BlockGasMeter ctx with
  | None => throw (errorf ErrOther "block gas meter is nil when setting block gas wanted")
  | Some meter =>
      let! gasWanted := GetTransientGasWanted in
      let gasUsed := GasConsumedToLimit meter in
      if negb (IsInt64 gasWanted) then throw (errorf ErrOther "integer overflow: gas wanted")
      else if negb (IsInt64 gasUsed) then throw (errorf ErrOther "integer overflow: gas used")
      else
        let! params := GetParams in
        let! minGasMultiplier := dval (MinGasMultiplier params) in
        let! limitedGasWanted := dmul (dNew gasWanted) minGasMultiplier in
        let updated := dTruncate (Z.max limitedGasWanted (dNew gasUsed)) in
        (if IsUint64 updated then ret tt else panic "Uint64() out of bounds") >>!
        SetBlockGasWanted updated >>!
        emit (EvBlockGas (BlockHeight ctx) updated)
  end.

(** ** Messages, queries and genesis *)

Record MsgUpdateParams : Type := mkMsgUpdateParams { Msg_Authority : string; Msg_Params : Params }.

Definition UpdateParams (req : MsgUpdateParams) : M FeeState unit :=
  if bool_decide (authority ≠ Msg_Authority req) then throw (errorf ErrInvalidSigner "invalid authority")
  else SetParams (Msg_Params req).

(** [valid_bech32] is the SDK's address parser. *)
Definition MsgUpdateParams_ValidateBasic (valid_bech32 : string → bool) (m : MsgUpdateParams) : outcome unit :=
  if negb (valid_bech32 (Msg_Authority m)) then Err (errorf ErrInvalidAddress "invalid authority address")
  else Params_Validate (Msg_Params m).

Definition Query_Params : M FeeState Params := GetParams.
Definition Query_BaseFee : M FeeState (option Z) := GetBaseFee.
Definition Query_BlockGas : M FeeState Z :=
  let! gas := GetBlockGasWanted in
  if negb (IsInt64 gas) then throw (errorf ErrIntOverflowCoin "block gas is higher than MaxInt64") else ret gas.

Record GenesisState : Type := mkGenesisState { Gen_Params : Params; Gen_BlockGas : Z }.

Definition DefaultGenesisState : GenesisState := mkGenesisState DefaultParams 0.
Definition GenesisState_Validate (gs : GenesisState) : outcome unit := Params_Validate (Gen_Params gs).

Definition InitGenesis (data : GenesisState) : M FeeState unit :=
  must (SetParams (Gen_Params data)) "could not set parameters at genesis" >>!
  SetBlockGasWanted (Gen_BlockGas data).

Definition ExportGenesis : M FeeState GenesisState :=
  let! params := GetParams in
  let! gas := GetBlockGasWanted in
  ret (mkGenesisState params gas).

(** ** The decorator *)

Definition BlockGasLimit (ctx : Ctx) : Z :=
  let from_params :=
    match MaxGas ctx with
    | None => 0
    | Some maxGas => if maxGas =? -1 then u64_max - 1 else if maxGas >? 0 then maxGas else 0
    end in
  match BlockGasMeter ctx with
  | Some m => if negb (Limit m =? 0) then Limit m else from_params
  | None => from_params
  end.

(** [feeTx] is the gas of the transaction, when it is an [sdk.FeeTx]. *)
Definition CheckGasWanted (ctx : Ctx) (feeTx : option Z) (isLondon : bool) (feemarketParams : Params) : M FeeState unit :=
  if negb isLondon then ret tt
  else match feeTx with
  | None => ret tt
  | Some gasWanted =>
      if gasWanted >? BlockGasLimit ctx then throw (errorf ErrOutOfGas "tx gas exceeds block gas limit")
      else if negb (IsBaseFeeEnabled feemarketParams (BlockHeight ctx)) then ret tt
      else AddTransientGasWanted gasWanted >>! ret tt
  end.

(** ** The EVM's view, in 18 decimals *)

Definition ConvertAmountTo18DecimalsLegacy {S} (amt : Z) : M S Z :=
  let! factor := dval (Decimals_ConversionFactor (eci_Decimals info)) in dmulInt amt factor.

Definition Wrapper_GetBaseFee (decimals : Z) : M FeeState Z :=
  let! baseFee := GetBaseFee in
  match baseFee with
  | None => ret 0
  | Some fee =>
      match Decimals_Validate decimals with
      | Some _ => ret 0
      | None =>
          match Decimals_ConversionFactor decimals with
          | None => ret 0
          | Some conv => let! d := dmulInt fee conv in ret (dTruncate d)
          end
      end
  end.

Definition Wrapper_CalculateBaseFee (ctx : Ctx) : M FeeState (option Z) :=
  let! baseFee := CalculateBaseFee ctx in
  match baseFee with
  | None => ret None
  | Some fee => let! d := ConvertAmountTo18DecimalsLegacy fee in ret (Some (dTruncate d))
  end.

Definition Wrapper_GetParams : M FeeState Params :=
  let! params := GetParams in
  let! fee := match BaseFee params with
              | None => ret None
              | Some f => let! d := ConvertAmountTo18DecimalsLegacy f in ret (Some d)
              end in
  let! price := dval (MinGasPrice params) in
  let! price := ConvertAmountTo18DecimalsLegacy price in
  ret (mkParams (NoBaseFee params) (BaseFeeChangeDenominator params) (ElasticityMultiplier params) fee
         (EnableHeight params) (Some price) (MinGasMultiplier params)).
End keeper.
