(* ===== verification/FeeMarketThms.v ===== *)
(** The base fee follows EIP-1559, moves within its bounds, and the module's
    state stays valid from block to block. *)

From S2P Require Import Prelude.
From S2P Require Import Sdk.
From S2P Require Import EvmDenom.
From S2P Require Import Dec.
From S2P Require Import FeeMarket.

(** * The formula *)

(** EIP-1559 with one division, a least increment and a least price. *)
Definition eip1559_next (gasUsed gasTarget denom baseFee minUnit floor : Z) : Z :=
  if gasUsed =? gasTarget then baseFee
  else if gasTarget =? 0 then 0
  else if gasUsed >? gasTarget
  then baseFee + Z.max minUnit (baseFee * (gasUsed - gasTarget) / (gasTarget * denom))
  else Z.max floor (baseFee - baseFee * (gasTarget - gasUsed) / (gasTarget * denom)).

(** The values the formula is run on: machine integers and decimals that leave
    room for the product. *)
Record fee_input (gasUsed gasTarget denom baseFee minUnit floor : Z) : Prop := {
  fi_used : 0 ≤ gasUsed < u64_max;
  fi_target : 0 ≤ gasTarget < u64_max;
  fi_denom : 0 < denom < u64_max;
  fi_fee : 0 ≤ baseFee < 2 ^ 250;
  fi_unit : 0 ≤ minUnit < 2 ^ 250;
  fi_floor : 0 ≤ floor
}.

Section formula.
Context `{DecTypes} `{!DecLaws} {S : Type}.
Implicit Types (s : S).

Lemma CalcGasBaseFee_run used target denom fee minUnit floor s :
  fee_input used target denom fee minUnit floor →
  CalcGasBaseFee used target denom fee minUnit (Some floor) s
  = (s, Ok (eip1559_next used target denom fee minUnit floor)).
Proof.
  intros [Hu Ht Hd Hf Hm Hfl]. unfold CalcGasBaseFee, eip1559_next.
  destruct (Z.eqb_spec used target) as [|Hne]; [done|].
  destruct (Z.eqb_spec target 0) as [|Ht0]; [done|].
  set (delta := Z.abs (used - target)). assert (0 ≤ delta < u64_max) as Hdelta by lia.
  assert (0 ≤ delta * fee < 2 ^ 314) as Hprod.
  { split; [lia|]. unfold u64_max in *. apply (Z.lt_le_trans _ (2 ^ 64 * 2 ^ 250)); [|lia].
    apply Z.mul_lt_mono_nonneg; lia. }
  set (num := delta * fee / target / denom).
  assert (0 ≤ num ≤ delta * fee) as Hnum.
  { subst num. split; [apply Z.div_pos; [apply Z.div_pos|]; lia|].
    transitivity (delta * fee / target); apply Z.div_le_upper_bound; try lia; [|nia].
    pose proof (Z.div_pos (delta * fee) target). nia. }
  rewrite (bind_Ok _ _ s s (delta * fee)) by (apply dmul_int; lia).
  rewrite (bind_Ok _ _ s s (delta * fee / target)) by (apply dquoInt_run; lia).
  rewrite (bind_Ok _ _ s s num) by (apply dquoInt_run; [lia|apply Z.div_pos; lia]).
  destruct (Z.gtb_spec used target) as [Hgt|Hle].
  - rewrite (Z.max_comm num).
    replace (fee * (used - target) / (target * denom)) with num.
    + apply dchk_run. rewrite Z.abs_eq by lia. lia.
    + subst num. rewrite Z.div_div by lia. f_equal. lia.
  - assert (num ≤ fee) as Hlow.
    { subst num. rewrite Z.div_div by lia. apply Z.div_le_upper_bound; [nia|].
      apply Z.mul_le_mono_nonneg_r; [lia|]. assert (delta ≤ target) by lia. nia. }
    rewrite (bind_Ok _ _ s s (fee - num)) by (apply dchk_run; lia). cbn.
    rewrite (Z.max_comm (fee - num)).
    replace (fee * (target - used) / (target * denom)) with num; [done|].
    subst num. rewrite Z.div_div by lia. f_equal. lia.
Qed.

(** C35: for every gas figure, target and denominator of the code's widths,
    [CalcGasBaseFee] returns the EIP-1559 base fee: unchanged at the target,
    raised by fee·delta/(target·denominator) but at least by the least unit
    above it, lowered by the same proportion but not below the minimum gas
    price under it.  The two truncated divisions of the code are the one
    division of the formula, and no step overflows. *)
Theorem CalcGasBaseFee_eip1559 used target denom fee minUnit floor s :
  fee_input used target denom fee minUnit floor →
  CalcGasBaseFee used target denom fee minUnit (Some floor) s
  = (s, Ok (eip1559_next used target denom fee minUnit floor)).
Proof. apply CalcGasBaseFee_run. Qed.

Lemma next_up used target denom fee minUnit floor e :
  0 < target → target < used ≤ e * target → 0 < denom → 0 ≤ fee →
  eip1559_next used target denom fee minUnit floor ≤ fee + Z.max minUnit (fee * (e - 1) / denom).
Proof.
  intros Ht Hu Hd Hf. unfold eip1559_next.
  destruct (Z.eqb_spec used target); [lia|]. destruct (Z.eqb_spec target 0); [lia|].
  destruct (Z.gtb_spec used target); [|lia].
  enough (fee * (used - target) / (target * denom) ≤ fee * (e - 1) / denom) by lia.
  rewrite <-Z.div_div by lia. apply Z.div_le_mono; [lia|].
  apply Z.div_le_upper_bound; [lia|]. nia.
Qed.

Lemma next_down used target denom fee minUnit floor :
  0 ≤ used < target → 0 < denom → 0 ≤ fee →
  fee - fee / denom ≤ eip1559_next used target denom fee minUnit floor ∧
  floor ≤ eip1559_next used target denom fee minUnit floor ≤ Z.max floor fee.
Proof.
  intros Hu Hd Hf. unfold eip1559_next.
  destruct (Z.eqb_spec used target); [lia|]. destruct (Z.eqb_spec target 0); [lia|].
  destruct (Z.gtb_spec used target); [lia|].
  assert (0 ≤ fee * (target - used) / (target * denom)) by (apply Z.div_pos; nia).
  enough (fee * (target - used) / (target * denom) ≤ fee / denom) by lia.
  rewrite <-Z.div_div by lia. apply Z.div_le_mono; [lia|].
  apply Z.div_le_upper_bound; [lia|]. nia.
Qed.

(** C36: the base fee moves by at most one part in the denominator downwards and,
    when a block cannot use more than [e] times its target, by at most [e - 1]
    parts upwards (an eighth each way with the default 8 and 2); it rises by at
    least the least unit over the target, and under it never falls below the
    minimum gas price nor rises, unless the minimum is above it. *)
Theorem CalcGasBaseFee_bounds used target denom fee minUnit floor e s :
  fee_input used target denom fee minUnit floor → 0 < target → used ≤ e * target →
  ∃ next, CalcGasBaseFee used target denom fee minUnit (Some floor) s = (s, Ok next) ∧
    fee - fee / denom ≤ next ∧
    (target < used → fee + minUnit ≤ next ≤ fee + Z.max minUnit (fee * (e - 1) / denom)) ∧
    (used < target → floor ≤ next ≤ Z.max floor fee).
Proof.
  intros Hin Ht Hu. exists (eip1559_next used target denom fee minUnit floor).
  split; [by apply CalcGasBaseFee_run|]. destruct Hin.
  assert (0 ≤ fee / denom) by (apply Z.div_pos; lia).
  destruct (Z.lt_trichotomy used target) as [Hlt|[->|Hgt]].
  - destruct (next_down used target denom fee minUnit floor) as [? ?]; [lia..|].
    split_and!; [lia|lia|lia].
  - unfold eip1559_next. rewrite Z.eqb_refl. split_and!; lia.
  - assert (fee + minUnit ≤ eip1559_next used target denom fee minUnit floor).
    { unfold eip1559_next. destruct (Z.eqb_spec used target); [lia|].
      destruct (Z.eqb_spec target 0); [lia|]. destruct (Z.gtb_spec used target); lia. }
    pose proof (next_up used target denom fee minUnit floor e Ht). split_and!; lia.
Qed.

(** A fuller parent block never gives a lower base fee. *)
Theorem CalcGasBaseFee_monotone used1 used2 target denom fee minUnit floor s :
  fee_input used1 target denom fee minUnit floor → fee_input used2 target denom fee minUnit floor →
  0 < target → floor ≤ fee → used1 ≤ used2 →
  ∃ n1 n2, CalcGasBaseFee used1 target denom fee minUnit (Some floor) s = (s, Ok n1) ∧
    CalcGasBaseFee used2 target denom fee minUnit (Some floor) s = (s, Ok n2) ∧ n1 ≤ n2.
Proof.
  intros H1 H2 Ht Hfl Hu. eexists _, _. split_and!; [by apply CalcGasBaseFee_run..|].
  destruct H1, H2. unfold eip1559_next.
  assert (∀ x y, 0 ≤ x ≤ y → fee * x / (target * denom) ≤ fee * y / (target * denom)) as Hm.
  { intros x y Hxy. apply Z.div_le_mono; nia. }
  assert (∀ x, 0 ≤ x → 0 ≤ fee * x / (target * denom)) as Hp by (intros; apply Z.div_pos; nia).
  pose proof (Hp (used2 - target)). pose proof (Hp (target - used1)).
  pose proof (Hm (used1 - target) (used2 - target)). pose proof (Hm (target - used2) (target - used1)).
  destruct (Z.eqb_spec used1 target), (Z.eqb_spec used2 target), (Z.eqb_spec target 0); try lia;
    destruct (Z.gtb_spec used1 target), (Z.gtb_spec used2 target); lia.
Qed.
End formula.

(** * The keeper's state *)

Definition decs_ok `{DecTypes} (p : Params) : Prop :=
  Forall (λ d, match d with Some z => dec_ok z = true | None => True end)
    [BaseFee p; MinGasPrice p; MinGasMultiplier p].

(** Parameters that pass [Validate], at the widths of their protobuf fields. *)
Record params_good `{DecTypes} (p : Params) : Prop := {
  pg_valid : Params_Validate p = Ok tt;
  pg_denom : 0 ≤ BaseFeeChangeDenominator p < u32_max;
  pg_elast : 0 ≤ ElasticityMultiplier p < u32_max;
  pg_height : EnableHeight p < i64_max;
  pg_decs : decs_ok p
}.

(** Good parameters survive encoding; the two go-ethereum constants are not
    zero. *)
Class FeeLaws `{DecTypes} `{ParamsCodec} `{GethParams} : Prop := {
  codec_roundtrip p : params_good p → ∃ bz, marshal p = inl bz ∧ unmarshal bz = Some p;
  geth_denom : 0 < DefaultBaseFeeChangeDenominator < u32_max;
  geth_elast : 0 < DefaultElasticityMultiplier < u32_max
}.

(** Contexts: a non-negative height and a maximum gas that CometBFT accepts. *)
Record ctx_ok (ctx : Ctx) : Prop := {
  cx_height : 0 ≤ BlockHeight ctx < i64_max;
  cx_gas : match MaxGas ctx with Some g => -1 ≤ g < i64_max | None => True end;
  cx_meter : match BlockGasMeter ctx with Some m => 0 ≤ GasConsumedToLimit m < u64_max | None => True end
}.

Lemma validate_facts p :
  Params_Validate p = Ok tt →
  BaseFeeChangeDenominator p ≠ 0 ∧ ElasticityMultiplier p ≠ 0 ∧ 0 ≤ EnableHeight p ∧
  ∃ fee price mult, BaseFee p = Some fee ∧ MinGasPrice p = Some price ∧ MinGasMultiplier p = Some mult ∧
    0 ≤ fee ∧ 0 ≤ price ∧ 0 ≤ mult ≤ dec_prec.
Proof.
  unfold Params_Validate, validateMinGasMultiplier, validateMinGasPrice, dNew.
  destruct (Z.eqb_spec (BaseFeeChangeDenominator p) 0); [done|].
  destruct (BaseFee p) as [fee|]; [|done]. destruct (Z.ltb_spec fee 0); [done|].
  destruct (Z.ltb_spec (EnableHeight p) 0); [done|].
  destruct (Z.eqb_spec (ElasticityMultiplier p) 0); [done|].
  destruct (MinGasMultiplier p) as [m|]; [|done]. destruct (Z.ltb_spec m 0); [done|].
  destruct (Z.gtb_spec m (1 * dec_prec)); [done|].
  destruct (MinGasPrice p) as [price|]; [|done]. destruct (Z.ltb_spec price 0); [done|]. intros _.
  split_and!; [done..|]. exists fee, price, m. split_and!; first [done | lia].
Qed.

Lemma validate_BaseFee p fee :
  Params_Validate p = Ok tt → 0 ≤ fee → Params_Validate (with_BaseFee (Some fee) p) = Ok tt.
Proof.
  intros Hv Hf. destruct (validate_facts p Hv) as (_ & _ & _ & f & _ & _ & Hb & _).
  unfold Params_Validate in *. cbn. rewrite Hb in Hv.
  destruct (_ =? 0); [done|]. destruct (f <? 0); [done|].
  by destruct (Z.ltb_spec fee 0); [lia|].
Qed.

Section keeper.
Context `{DecTypes} `{GethParams} `{ParamsCodec} `{!DecLaws} `{!FeeLaws}.
Context (info : EvmCoinInfo) (authority : string).
Hypothesis Hdecimals : 1 ≤ eci_Decimals info ≤ 18.
Implicit Types (s : FeeState) (p : Params) (ctx : Ctx).

(** The stored parameters are good, and the gas figures are [uint64]s. *)
Record fee_inv s : Prop := {
  fv_params : ∃ p, GetParams s = (s, Ok p) ∧ params_good p;
  fv_gas : 0 ≤ default 0 (fs_blockGasWanted s) < u64_max;
  fv_transient : 0 ≤ default 0 (fs_transientGasWanted s) < u64_max
}.

Lemma default_good : params_good DefaultParams.
Proof.
  pose proof geth_denom. pose proof geth_elast. split; cbn; try lia.
  - unfold Params_Validate. cbn.
    destruct (Z.eqb_spec DefaultBaseFeeChangeDenominator 0); [lia|].
    destruct (Z.eqb_spec DefaultElasticityMultiplier 0); [lia|]. done.
  - unfold DefaultEnableHeight, i64_max. lia.
  - repeat constructor; apply dec_ok_small; vm_compute; reflexivity.
Qed.

Lemma SetParams_run p s :
  params_good p → ∃ bz, unmarshal bz = Some p ∧
    SetParams p s = (mkFeeState (Some bz) (fs_blockGasWanted s) (fs_transientGasWanted s) (fs_events s), Ok tt).
Proof.
  intros Hp. destruct (codec_roundtrip p Hp) as (bz & Hm & Hu). exists bz. split; [done|].
  unfold SetParams. by rewrite Hm.
Qed.

Lemma GetParams_stored bz g t e p :
  unmarshal bz = Some p → GetParams (mkFeeState (Some bz) g t e) = (mkFeeState (Some bz) g t e, Ok p).
Proof. intros Hu. unfold GetParams, bind, gets. cbn. by rewrite Hu. Qed.

Lemma inv_stored bz g t e p :
  unmarshal bz = Some p → params_good p → 0 ≤ default 0 g < u64_max → 0 ≤ default 0 t < u64_max →
  fee_inv (mkFeeState (Some bz) g t e).
Proof. intros Hu Hp Hg Ht. split; [|done|done]. exists p. split; [by apply GetParams_stored|done]. Qed.

Lemma inv_gas s g t e :
  fee_inv s → 0 ≤ default 0 g < u64_max → 0 ≤ default 0 t < u64_max →
  fee_inv (mkFeeState (fs_params s) g t e).
Proof.
  intros [(p & Hp & Hg) _ _] Hgas Ht. split; [|done|done]. exists p. split; [|done].
  unfold GetParams, bind, gets in *. cbn in *.
  destruct (fs_params s) as [b|]; [destruct (unmarshal b); [|done]|]; unfold ret in *; by simplify_eq Hp; intros ->.
Qed.

(** The gas target of a block. *)
Definition gas_limit ctx : Z :=
  match MaxGas ctx with Some g => if g >? -1 then g else u64_max - 1 | None => u64_max - 1 end.
Definition gas_target ctx p : Z := gas_limit ctx / ElasticityMultiplier p.

(** The least increment: one unit of the bank's coin, in 18 decimals. *)
Definition min_unit : Z := dec_prec / 10 ^ (18 - eci_Decimals info).

Lemma min_unit_bounds : 1 ≤ min_unit ≤ dec_prec.
Proof.
  unfold min_unit, dec_prec. assert (10 ^ (18 - eci_Decimals info) ≤ 10 ^ 17) by (apply Z.pow_le_mono_r; lia).
  assert (0 < 10 ^ (18 - eci_Decimals info)) by (apply Z.pow_pos_nonneg; lia). split.
  - apply Z.div_le_lower_bound; lia.
  - apply Z.div_le_upper_bound; nia.
Qed.

Definition next_fee ctx p gasUsed fee floor : Z :=
  eip1559_next gasUsed (gas_target ctx p) (BaseFeeChangeDenominator p) fee min_unit floor.

Lemma gas_target_bounds ctx p : ctx_ok ctx → params_good p → 0 ≤ gas_target ctx p < u64_max.
Proof.
  intros [_ Hg _] [Hv _ He _ _]. apply validate_facts in Hv as (_ & Hne & _). unfold gas_target.
  assert (0 ≤ gas_limit ctx < u64_max).
  { unfold gas_limit, i64_max, u64_max in *. destruct (MaxGas ctx) as [g|]; [|lia].
    destruct (Z.gtb_spec g (-1)); lia. }
  split; [apply Z.div_pos; lia|]. apply Z.div_lt_upper_bound; nia.
Qed.

Lemma CalculateBaseFee_run ctx s p fee floor :
  fee_inv s → GetParams s = (s, Ok p) → params_good p → ctx_ok ctx →
  BaseFee p = Some fee → MinGasPrice p = Some floor → fee < 2 ^ 250 →
  IsBaseFeeEnabled p (BlockHeight ctx) = true →
  CalculateBaseFee info ctx s = (s, Ok (Some
    (if BlockHeight ctx =? EnableHeight p then fee
     else next_fee ctx p (default 0 (fs_blockGasWanted s)) fee floor))).
Proof.
  intros Hinv Hget Hp Hctx Hfee Hfloor Hb Hen.
  pose proof (gas_target_bounds ctx p Hctx Hp) as Ht. pose proof min_unit_bounds as Hmu.
  destruct (validate_facts p (pg_valid _ Hp)) as (Hd & He & _ & f & pr & m & Ef & Ep & _ & Hf0 & Hp0 & _).
  assert (f = fee) as -> by congruence. assert (pr = floor) as -> by congruence.
  unfold CalculateBaseFee. erewrite bind_Ok by exact Hget. rewrite Hen. cbn [negb].
  destruct (Z.eqb_spec (BlockHeight ctx) (EnableHeight p)); [by rewrite Hfee|]. rewrite Hfee.
  rewrite (bind_Ok GetBlockGasWanted _ s s _ eq_refl). cbv zeta. fold (gas_limit ctx).
  assert (0 ≤ gas_limit ctx) as Hgl.
  { unfold gas_limit, u64_max. destruct Hctx as [_ Hg _]. destruct (MaxGas ctx) as [g|]; [|lia].
    destruct (Z.gtb_spec g (-1)); lia. }
  pose proof (pg_elast _ Hp) as Hel. pose proof (pg_denom _ Hp) as Hde.
  rewrite (bind_Ok _ _ s s (gas_target ctx p)).
  2:{ unfold iquo. destruct (Z.eqb_spec (ElasticityMultiplier p) 0); [done|].
      unfold gas_target. by rewrite Z.quot_div_nonneg by lia. }
  assert (IsUint64 (gas_target ctx p) = true) as ->.
  { unfold IsUint64. destruct (Z.leb_spec 0 (gas_target ctx p)), (Z.ltb_spec (gas_target ctx p) u64_max); lia. }
  cbn [negb]. rewrite (conversion_factor_table (eci_Decimals info) Hdecimals).
  rewrite (bind_Ok (dval (Some _)) _ s s _ eq_refl).
  rewrite (bind_Ok _ _ s s min_unit).
  2:{ rewrite dquoInt_run; [|apply Z.pow_pos_nonneg; lia|unfold dNew, dec_prec; lia].
      unfold min_unit, dNew. by rewrite Z.mul_1_l. }
  rewrite Hfloor. rewrite (bind_Ok _ _ s s (next_fee ctx p (default 0 (fs_blockGasWanted s)) fee floor)); [done|].
  apply CalcGasBaseFee_run. split; try done; try lia; [apply (fv_gas _ Hinv)|unfold u32_max, u64_max in *; lia|].
  unfold dec_prec in *. lia.
Qed.

Lemma next_ok used target denom fee minUnit floor :
  fee_input used target denom fee minUnit floor → dec_ok floor = true →
  0 ≤ eip1559_next used target denom fee minUnit floor ∧
  dec_ok (eip1559_next used target denom fee minUnit floor) = true.
Proof.
  intros [Hu Ht Hd Hf Hm Hfl] Hok. unfold eip1559_next.
  destruct (Z.eqb_spec used target); [split; [lia|apply dec_ok_small; lia]|].
  destruct (Z.eqb_spec target 0); [split; [lia|apply dec_ok_small; lia]|].
  destruct (Z.gtb_spec used target).
  - assert (0 ≤ fee * (used - target) / (target * denom) ≤ 2 ^ 250 * 2 ^ 64) as Hq.
    { split; [apply Z.div_pos; nia|]. apply Z.div_le_upper_bound; [nia|].
      transitivity (2 ^ 250 * 2 ^ 64).
      - unfold u64_max in *. apply Z.mul_le_mono_nonneg; lia.
      - assert (1 ≤ target * denom) by nia. lia. }
    split; [lia|]. apply dec_ok_small. rewrite Z.abs_eq by lia. lia.
  - assert (0 ≤ fee * (target - used) / (target * denom)) by (apply Z.div_pos; nia).
    assert (fee * (target - used) / (target * denom) ≤ fee)
      by (apply Z.div_le_upper_bound; [nia|]; assert (target - used ≤ target * denom) by nia; nia).
    split; [lia|]. destruct (Z.max_spec floor (fee - fee * (target - used) / (target * denom))) as [[? ->]|[? ->]];
      [|done]. apply dec_ok_small. lia.
Qed.

Lemma good_BaseFee p fee :
  params_good p → 0 ≤ fee → dec_ok fee = true → params_good (with_BaseFee (Some fee) p).
Proof.
  intros [Hv Hd He Hh Hdecs] Hf Hok. split; try done; [by apply validate_BaseFee|].
  unfold decs_ok in *. cbn. rewrite !Forall_cons in *. naive_solver.
Qed.

(** What the module knows of its parameters, the least price in particular. *)
Lemma good_facts p :
  params_good p → ∃ fee floor mult, BaseFee p = Some fee ∧ MinGasPrice p = Some floor ∧
    MinGasMultiplier p = Some mult ∧ 0 ≤ fee ∧ 0 ≤ floor ∧ 0 ≤ mult ≤ dec_prec ∧
    dec_ok fee = true ∧ dec_ok floor = true ∧ 0 < BaseFeeChangeDenominator p < u64_max.
Proof.
  intros [Hv Hd He Hh Hdecs]. destruct (validate_facts p Hv) as (Hd0 & _ & _ & f & pr & m & Ef & Ep & Em & ? & ? & ?).
  exists f, pr, m. unfold decs_ok in Hdecs. rewrite Ef, Ep, !Forall_cons in Hdecs.
  destruct Hdecs as (? & ? & _). unfold u32_max, u64_max in *. split_and!; first [done | lia].
Qed.

(** The whole of [BeginBlock]. *)
Lemma BeginBlock_run ctx s p fee floor :
  fee_inv s → ctx_ok ctx → GetParams s = (s, Ok p) → params_good p →
  BaseFee p = Some fee → MinGasPrice p = Some floor → fee < 2 ^ 250 →
  let fee' := if BlockHeight ctx =? EnableHeight p then fee
              else next_fee ctx p (default 0 (fs_blockGasWanted s)) fee floor in
  ∃ s', BeginBlock info ctx s = (s', Ok tt) ∧ fee_inv s' ∧
    if IsBaseFeeEnabled p (BlockHeight ctx)
    then GetParams s' = (s', Ok (with_BaseFee (Some fee') p)) ∧
         fs_events s' = fs_events s ++ [EvBaseFee fee'] ∧
         fs_blockGasWanted s' = fs_blockGasWanted s
    else s' = s.
Proof.
  intros Hinv Hctx Hget Hp Hfee Hfloor Hb fee'. unfold BeginBlock.
  destruct (IsBaseFeeEnabled p (BlockHeight ctx)) eqn:Hen.
  - erewrite bind_Ok by (by eapply CalculateBaseFee_run). fold fee'.
    assert (0 ≤ fee' ∧ dec_ok fee' = true) as [Hpos Hok].
    { destruct (good_facts p Hp) as (f & pr & m & Ef & Ep & _ & ? & ? & _ & ? & ? & ?).
      assert (f = fee) as -> by congruence. assert (pr = floor) as -> by congruence.
      subst fee'. destruct (_ =? _); [done|]. apply next_ok; [|done]. pose proof min_unit_bounds.
      split; try done; [apply (fv_gas _ Hinv)|by apply gas_target_bounds|unfold dec_prec in *; lia]. }
    pose proof (good_BaseFee p fee' Hp Hpos Hok) as Hp'.
    destruct (SetParams_run _ s Hp') as (bz & Hu & Hset).
    set (s1 := mkFeeState (Some bz) _ _ _) in Hset.
    assert (SetBaseFee fee' s = (s1, Ok tt)) as Hsb.
    { unfold SetBaseFee. erewrite bind_Ok by exact Hget. by rewrite Hset. }
    erewrite bind_Ok by exact Hsb. eexists. split; [done|]. destruct Hinv. split; [by eapply inv_stored|].
    split; [by apply GetParams_stored|done].
  - unfold CalculateBaseFee. rewrite bind_assoc. erewrite bind_Ok by exact Hget. rewrite Hen. by exists s.
Qed.

(** C34: with valid parameters, a context CometBFT can give and a base fee below
    2^250, [BeginBlock] neither fails nor panics.  When the fee market is
    enabled at this height it stores, and emits in an event, the EIP-1559 fee
    computed from the last block's gas (the configured fee itself at the
    enabling height), changing no other parameter; otherwise it changes
    nothing.  The parameters stay valid. *)
Theorem BeginBlock_updates_base_fee ctx s :
  fee_inv s → ctx_ok ctx →
  (∀ p fee, GetParams s = (s, Ok p) → BaseFee p = Some fee → fee < 2 ^ 250) →
  ∃ s' p fee floor, GetParams s = (s, Ok p) ∧ BaseFee p = Some fee ∧ MinGasPrice p = Some floor ∧
    BeginBlock info ctx s = (s', Ok tt) ∧ fee_inv s' ∧
    if IsBaseFeeEnabled p (BlockHeight ctx)
    then let fee' := if BlockHeight ctx =? EnableHeight p then fee
                     else next_fee ctx p (default 0 (fs_blockGasWanted s)) fee floor in
         GetParams s' = (s', Ok (with_BaseFee (Some fee') p)) ∧
         fs_events s' = fs_events s ++ [EvBaseFee fee'] ∧
         fs_blockGasWanted s' = fs_blockGasWanted s
    else s' = s.
Proof.
  intros Hinv Hctx Hb. destruct (fv_params _ Hinv) as (p & Hget & Hp).
  destruct (good_facts p Hp) as (fee & floor & m & Ef & Ep & _).
  destruct (BeginBlock_run ctx s p fee floor) as (s' & E & Hinv' & Hs); try done; [by eapply Hb|].
  exists s', p, fee, floor. split_and!; done.
Qed.

Lemma EndBlock_run ctx s p m mult :
  fee_inv s → ctx_ok ctx → GetParams s = (s, Ok p) → params_good p → BlockGasMeter ctx = Some m →
  MinGasMultiplier p = Some mult →
  default 0 (fs_transientGasWanted s) < i64_max → GasConsumedToLimit m < i64_max →
  let g := Z.max (GasConsumedToLimit m) (default 0 (fs_transientGasWanted s) * mult / dec_prec) in
  EndBlock ctx s = (mkFeeState (fs_params s) (Some g) (fs_transientGasWanted s)
                      (fs_events s ++ [EvBlockGas (BlockHeight ctx) g]), Ok tt) ∧
  0 ≤ g < u64_max ∧ GasConsumedToLimit m ≤ g ≤ Z.max (GasConsumedToLimit m) (default 0 (fs_transientGasWanted s)).
Proof.
  clear Hdecimals. intros Hinv Hctx Hget Hp Hm Hmult Hw Hu g. pose proof (fv_transient _ Hinv) as Hw0.
  destruct Hctx as [_ _ Hmeter]. rewrite Hm in Hmeter.
  destruct (good_facts p Hp) as (_ & _ & mu & _ & _ & Em & _ & _ & Hmu & _).
  assert (mu = mult) as -> by congruence.
  set (w := default 0 (fs_transientGasWanted s)) in *. set (u := GasConsumedToLimit m) in *.
  assert (0 < dec_prec) as Hpos by (unfold dec_prec; lia).
  assert (0 ≤ w * mult / dec_prec ≤ w) as Hq.
  { split; [apply Z.div_pos; nia|]. apply Z.div_le_upper_bound; nia. }
  assert (0 ≤ g < u64_max ∧ u ≤ g ≤ Z.max u w) as Hg by (subst g; unfold i64_max, u64_max in *; lia).
  split; [|done]. unfold EndBlock. rewrite Hm. fold u.
  rewrite (bind_Ok GetTransientGasWanted _ s s w eq_refl).
  assert (∀ z, 0 ≤ z < i64_max → IsInt64 z = true) as Hi64.
  { intros z Hz. unfold IsInt64. destruct (Z.leb_spec (- i64_max) z), (Z.ltb_spec z i64_max); unfold i64_max in *; lia. }
  rewrite !Hi64 by lia. cbn [negb]. erewrite bind_Ok by exact Hget. rewrite Hmult.
  rewrite (bind_Ok (dval (Some _)) _ s s _ eq_refl).
  rewrite (bind_Ok _ _ s s (w * mult)).
  2:{ apply dmul_int. rewrite Z.abs_eq by nia. unfold i64_max, dec_prec in *.
      apply (Z.le_lt_trans _ (2 ^ 63 * 10 ^ 18)); [apply Z.mul_le_mono_nonneg; lia|lia]. }
  assert (dTruncate (Z.max (w * mult) (dNew u)) = g) as ->.
  { rewrite dTruncate_div by (unfold dNew; nia). subst g. unfold dNew.
    destruct (Z.max_spec (w * mult) (u * dec_prec)) as [[? ->]|[? ->]].
    - rewrite Z.div_mul by lia. assert (w * mult / dec_prec ≤ u) by (apply Z.div_le_upper_bound; lia). lia.
    - assert (u ≤ w * mult / dec_prec) by (apply Z.div_le_lower_bound; lia). lia. }
  assert (IsUint64 g = true) as ->; [|done].
  unfold IsUint64. destruct (Z.leb_spec 0 g), (Z.ltb_spec g u64_max); lia.
Qed.

(** [EndBlock] records max(gas used, gas wanted times the minimum
    multiplier), rounded down: never less than the gas used and never more than
    the larger of gas used and gas wanted.  Figures beyond an [int64] and a
    missing block gas meter are refused with an error and no write. *)
Theorem EndBlock_records_gas ctx s :
  fee_inv s → ctx_ok ctx →
  match BlockGasMeter ctx with
  | None => ∃ e, EndBlock ctx s = (s, Err e)
  | Some m =>
      let w := default 0 (fs_transientGasWanted s) in
      let u := GasConsumedToLimit m in
      if (w <? i64_max) && (u <? i64_max)
      then ∃ p mult g s', GetParams s = (s, Ok p) ∧ MinGasMultiplier p = Some mult ∧
             g = Z.max u (w * mult / dec_prec) ∧ u ≤ g ≤ Z.max u w ∧
             EndBlock ctx s = (s', Ok tt) ∧ fee_inv s' ∧ fs_params s' = fs_params s ∧
             fs_blockGasWanted s' = Some g ∧ fs_events s' = fs_events s ++ [EvBlockGas (BlockHeight ctx) g]
      else ∃ e, EndBlock ctx s = (s, Err e)
  end.
Proof.
  clear Hdecimals. intros Hinv Hctx. destruct (BlockGasMeter ctx) as [m|] eqn:Hm; [|unfold EndBlock; rewrite Hm; by eexists].
  cbv zeta. pose proof (fv_transient _ Hinv) as Hw0. pose proof (cx_meter _ Hctx) as Hu0. rewrite Hm in Hu0.
  destruct (Z.ltb_spec (default 0 (fs_transientGasWanted s)) i64_max) as [Hw|Hw];
    [destruct (Z.ltb_spec (GasConsumedToLimit m) i64_max) as [Hu|Hu]|]; cbn [andb].
  - destruct (fv_params _ Hinv) as (p & Hget & Hp).
    destruct (good_facts p Hp) as (_ & _ & mult & _ & _ & Em & _).
    destruct (EndBlock_run ctx s p m mult) as (E & Hg & Hb); try done.
    exists p, mult. eexists _, _. split_and!; try done; [lia|lia|]. apply inv_gas; [done|done|apply Hinv].
  - unfold EndBlock. rewrite Hm. rewrite (bind_Ok GetTransientGasWanted _ s s _ eq_refl).
    unfold IsInt64 at 2. destruct (Z.ltb_spec (GasConsumedToLimit m) i64_max); [lia|].
    rewrite andb_false_r. cbn [negb]. destruct (negb _); by eexists.
  - unfold EndBlock. rewrite Hm. rewrite (bind_Ok GetTransientGasWanted _ s s _ eq_refl).
    unfold IsInt64 at 1. destruct (Z.ltb_spec (default 0 (fs_transientGasWanted s)) i64_max); [lia|].
    rewrite andb_false_r. cbn [negb]. by eexists.
Qed.

(** * The life of the module *)

(** The states of a chain that starts from a validated genesis and runs blocks,
    transactions and governance updates; the SDK clears the transient store at
    every commit, and a message reaches its handler after [ValidateBasic]. *)
Inductive fee_run (valid_bech32 : string → bool) : FeeState → Prop :=
  | run_genesis data s s' :
      GenesisState_Validate data = Ok tt → params_good (Gen_Params data) → 0 ≤ Gen_BlockGas data < u64_max →
      fs_transientGasWanted s = None → InitGenesis data s = (s', Ok tt) → fee_run valid_bech32 s'
  | run_begin ctx s s' :
      fee_run valid_bech32 s → ctx_ok ctx → BeginBlock info ctx s = (s', Ok tt) → fee_run valid_bech32 s'
  | run_tx ctx feeTx isLondon params s s' :
      fee_run valid_bech32 s → CheckGasWanted ctx feeTx isLondon params s = (s', Ok tt) → fee_run valid_bech32 s'
  | run_end ctx s s' :
      fee_run valid_bech32 s → ctx_ok ctx → EndBlock ctx s = (s', Ok tt) → fee_run valid_bech32 s'
  | run_update req s s' :
      fee_run valid_bech32 s → MsgUpdateParams_ValidateBasic valid_bech32 req = Ok tt →
      0 ≤ BaseFeeChangeDenominator (Msg_Params req) < u32_max →
      0 ≤ ElasticityMultiplier (Msg_Params req) < u32_max → EnableHeight (Msg_Params req) < i64_max →
      decs_ok (Msg_Params req) →
      UpdateParams authority req s = (s', Ok tt) → fee_run valid_bech32 s'
  | run_commit s :
      fee_run valid_bech32 s →
      fee_run valid_bech32 (mkFeeState (fs_params s) (fs_blockGasWanted s) None []).

Lemma CalcGasBaseFee_result {S} used target denom fee minUnit floor (t t' : S) r :
  0 ≤ fee → dec_ok fee = true → 0 ≤ floor → dec_ok floor = true → 0 ≤ minUnit →
  CalcGasBaseFee used target denom fee minUnit (Some floor) t = (t', Ok r) →
  t' = t ∧ 0 ≤ r ∧ dec_ok r = true.
Proof.
  intros Hf Hok Hfl Hfok Hm. unfold CalcGasBaseFee.
  destruct (used =? target); [intros [= <- <-]; done|].
  destruct (target =? 0); [intros [= <- <-]; split_and!; [done..|apply dec_ok_small; lia]|].
  assert (∀ z (u u' : S) x, dchk z u = (u', Ok x) → u' = u ∧ x = z ∧ dec_ok x = true) as Hchk.
  { intros z u u' x. unfold dchk. destruct (dec_ok z) eqn:E; [|done]. intros [= <- <-]. done. }
  assert (∀ z n (u u' : S) x, dquoInt z n u = (u', Ok x) → u' = u) as Hquo.
  { intros z n u u' x. unfold dquoInt. destruct (n =? 0); [done|]. by intros [= <- _]. }
  intros (t1 & n1 & E1 & (t2 & n2 & E2 & (t3 & n3 & E3 & E)%bind_Ok_inv)%bind_Ok_inv)%bind_Ok_inv.
  apply Hchk in E1 as [-> _]. apply Hquo in E2 as ->. apply Hquo in E3 as ->.
  destruct (used >? target).
  - apply Hchk in E as (-> & -> & Ho). split_and!; [done|lia|done].
  - apply bind_Ok_inv in E as (t4 & low & E4 & E5). apply Hchk in E4 as (-> & _ & Hlo).
    cbn in E5. unfold ret in E5. simplify_eq E5. intros <- <-. split_and!; [done|lia|].
    by destruct (Z.max_spec low floor) as [[_ ->]|[_ ->]].
Qed.

(** Whatever the base fee, a [BeginBlock] that returns leaves valid parameters. *)
Lemma BeginBlock_inv ctx s s' : fee_inv s → BeginBlock info ctx s = (s', Ok tt) → fee_inv s'.
Proof.
  intros Hinv. destruct (fv_params _ Hinv) as (p & Hget & Hp).
  destruct (good_facts p Hp) as (fee & floor & m & Ef & Ep & _ & Hf0 & Hfl & _ & Hfo & Hflo & _).
  unfold BeginBlock. intros (s1 & r & E1 & E2)%bind_Ok_inv.
  assert (s1 = s ∧ match r with None => True | Some z => 0 ≤ z ∧ dec_ok z = true end) as [-> Hr].
  { unfold CalculateBaseFee in E1. erewrite bind_Ok in E1 by exact Hget.
    destruct (negb _); [by simplify_eq E1; intros <- <-|].
    destruct (_ =? _); [rewrite Ef in E1; by simplify_eq E1; intros <- <-|]. rewrite Ef, Ep in E1.
    rewrite (bind_Ok GetBlockGasWanted _ s s _ eq_refl) in E1. cbv zeta in E1.
    apply bind_Ok_inv in E1 as (s2 & g & Eg & E1). apply iquo_inv in Eg as [-> _].
    destruct (negb _); [by simplify_eq E1; intros <- <-|].
    rewrite (conversion_factor_table (eci_Decimals info) Hdecimals) in E1.
    rewrite (bind_Ok (dval (Some _)) _ s s _ eq_refl) in E1.
    rewrite (bind_Ok _ _ s s min_unit) in E1.
    2:{ rewrite dquoInt_run; [|apply Z.pow_pos_nonneg; lia|unfold dNew, dec_prec; lia].
        unfold min_unit, dNew. by rewrite Z.mul_1_l. }
    apply bind_Ok_inv in E1 as (s3 & z & Ez & E1). pose proof min_unit_bounds.
    apply CalcGasBaseFee_result in Ez as (-> & ? & ?); [|done || lia..]. by simplify_eq E1; intros <- <-. }
  destruct r as [z|]; [|by simplify_eq E2; intros <-]. destruct Hr as [Hz Hzo].
  destruct (SetParams_run _ s (good_BaseFee p z Hp Hz Hzo)) as (bz & Hu & Hset).
  assert (SetBaseFee z s = (mkFeeState (Some bz) (fs_blockGasWanted s) (fs_transientGasWanted s) (fs_events s), Ok tt)) as Hsb.
  { unfold SetBaseFee. erewrite bind_Ok by exact Hget. by rewrite Hset. }
  erewrite bind_Ok in E2 by exact Hsb. injection E2 as <-. destruct Hinv.
  eapply inv_stored; [exact Hu|by apply good_BaseFee|done|done].
Qed.

Lemma SetParams_inv p s s' : params_good p → fee_inv s → SetParams p s = (s', Ok tt) → fee_inv s'.
Proof.
  intros Hp [] E. destruct (SetParams_run p s Hp) as (bz & Hu & Hset). rewrite E in Hset.
  injection Hset as ->. by eapply inv_stored.
Qed.

Lemma EndBlock_inv ctx s s' : fee_inv s → ctx_ok ctx → EndBlock ctx s = (s', Ok tt) → fee_inv s'.
Proof.
  intros Hinv Hctx E. destruct (fv_params _ Hinv) as (p & Hget & Hp).
  destruct (good_facts p Hp) as (_ & _ & mult & _ & _ & Em & _).
  destruct (BlockGasMeter ctx) as [m|] eqn:Hm; [|by unfold EndBlock in E; rewrite Hm in E].
  pose proof (fv_transient _ Hinv) as Hw0. pose proof (cx_meter _ Hctx) as Hu0. rewrite Hm in Hu0.
  assert (default 0 (fs_transientGasWanted s) < i64_max ∧ GasConsumedToLimit m < i64_max) as [Hw Hu].
  { unfold EndBlock in E. rewrite Hm, (bind_Ok GetTransientGasWanted _ s s _ eq_refl) in E.
    unfold IsInt64 in E.
    destruct (Z.ltb_spec (default 0 (fs_transientGasWanted s)) i64_max); [|by rewrite andb_false_r in E].
    destruct (Z.ltb_spec (GasConsumedToLimit m) i64_max); [done|].
    rewrite (andb_false_r (_ <=? GasConsumedToLimit m)) in E. by destruct (negb _). }
  destruct (EndBlock_run ctx s p m mult) as (E' & Hg & _); try done. rewrite E in E'. injection E' as ->.
  apply inv_gas; [done|done|apply Hinv].
Qed.

Lemma CheckGasWanted_inv ctx feeTx isLondon params s s' :
  fee_inv s → CheckGasWanted ctx feeTx isLondon params s = (s', Ok tt) → fee_inv s'.
Proof.
  intros Hinv. unfold CheckGasWanted. destruct (negb isLondon); [by intros [= <-]|].
  destruct feeTx as [g|]; [|by intros [= <-]]. destruct (g >? _); [done|].
  destruct (negb _); [by intros [= <-]|]. intros [= <-].
  apply inv_gas; [done|apply Hinv|]. cbn. apply wrap_bound. unfold u64_max. lia.
Qed.

(** C37: in every state of a chain started from a validated genesis, whatever the
    blocks, transactions and validated parameter updates, the parameters decode
    and pass [Validate] (so that no divisor of the base fee is ever zero), and
    both gas figures are [uint64]s. *)
Theorem feemarket_always_valid valid_bech32 s :
  fee_run valid_bech32 s → fee_inv s.
Proof.
  induction 1 as [data s s' Hv Hp Hg Ht E|ctx s s' _ IH Hctx E|ctx feeTx l params s s' _ IH E
                 |ctx s s' _ IH Hctx E|req s s' _ IH Hvb Hd He Hh Hdec E|s _ IH].
  - unfold InitGenesis, must in E. destruct (SetParams_run _ s Hp) as (bz & Hu & Hset).
    unfold bind in E. rewrite Hset in E. injection E as <-. cbn. eapply inv_stored; try done. by rewrite Ht.
  - by eapply BeginBlock_inv.
  - by eapply CheckGasWanted_inv.
  - by eapply EndBlock_inv.
  - unfold UpdateParams in E. case_bool_decide; [done|]. eapply SetParams_inv; [|exact IH|exact E].
    unfold MsgUpdateParams_ValidateBasic in Hvb. destruct (negb _); [done|]. by split.
  - by apply inv_gas; [|apply IH|].
Qed.

(** A parameter update is refused, with no write, unless it is signed by the
    module's authority; one that is stores exactly the parameters given. *)
Theorem UpdateParams_only_authority req s :
  params_good (Msg_Params req) →
  (Msg_Authority req ≠ authority → ∃ e, UpdateParams authority req s = (s, Err e) ∧ err_is e ErrInvalidSigner = true) ∧
  (Msg_Authority req = authority → ∃ s', UpdateParams authority req s = (s', Ok tt) ∧
     GetParams s' = (s', Ok (Msg_Params req)) ∧ fs_blockGasWanted s' = fs_blockGasWanted s).
Proof.
  intros Hp. unfold UpdateParams. split.
  - intros Hne. rewrite bool_decide_true by done. by eexists.
  - intros <-. rewrite bool_decide_false by auto.
    destruct (SetParams_run _ s Hp) as (bz & Hu & ->). eexists. split; [done|].
    split; [by apply GetParams_stored|done].
Qed.

(** Exporting after importing gives the genesis back. *)
Theorem feemarket_genesis_roundtrip data s :
  params_good (Gen_Params data) →
  ∃ s', InitGenesis data s = (s', Ok tt) ∧ ExportGenesis s' = (s', Ok data).
Proof.
  intros Hp. destruct (SetParams_run _ s Hp) as (bz & Hu & Hset). unfold InitGenesis, must, bind.
  rewrite Hset. eexists. split; [done|]. unfold ExportGenesis.
  erewrite bind_Ok by (by apply GetParams_stored). by destruct data.
Qed.
End keeper.
