(* ===== verification/FeeMarketWit.v ===== *)
(** Concrete decimals and a concrete codec for the fee market, and the chains its
    theorems are run on. *)

From S2P Require Import Prelude.
From S2P Require Import Sdk.
From S2P Require Import SdkModel.
From S2P Require Import EvmDenom.
From S2P Require Import Dec.
From S2P Require Import FeeMarket.
From S2P Require Import FeeMarketThms.
From Stdlib Require Import Ascii.

(** * Instances *)

(** Rounding to the nearest, a half to the even neighbour. *)
Definition round_half_even (z : Z) : Z :=
  let q := z / dec_prec in
  let r := 2 * (z mod dec_prec) in
  if r <? dec_prec then q
  else if r >? dec_prec then q + 1
  else if Z.even q then q else q + 1.

#[global] Instance dec_types : DecTypes := {|
  dec_ok z := Z.abs z <? 2 ^ 315;
  dec_round := round_half_even
|}.

#[global] Instance dec_laws : DecLaws.
Proof.
  split; cbn [dec_ok dec_round dec_types].
  - intros z Hz. by apply Z.ltb_lt.
  - intros z. unfold round_half_even. pose proof (Z.div_mod z dec_prec) as Hdm.
    pose proof (Z.mod_pos_bound z dec_prec) as Hb. unfold dec_prec in *.
    destruct (Z.ltb_spec (2 * (z mod 10 ^ 18)) (10 ^ 18)); [lia|].
    destruct (Z.gtb_spec (2 * (z mod 10 ^ 18)) (10 ^ 18)); [lia|]. destruct (Z.even _); lia.
Qed.

#[global] Instance geth_params : GethParams := {|
  DefaultBaseFeeChangeDenominator := 8;
  DefaultElasticityMultiplier := 2
|}.

#[global] Instance Params_eq_dec : EqDecision Params.
Proof. solve_decision. Defined.

#[global] Instance Params_countable : Countable Params.
Proof.
  apply (inj_countable'
    (λ p, (NoBaseFee p, BaseFeeChangeDenominator p, ElasticityMultiplier p, BaseFee p, EnableHeight p,
           MinGasPrice p, MinGasMultiplier p))
    (λ '(a, b, c, d, e, f, g), mkParams a b c d e f g)).
  by intros [].
Defined.

#[global] Instance params_codec : ParamsCodec := {|
  marshal p := inl (print p);
  unmarshal s := parse s
|}.

#[global] Instance fee_laws : FeeLaws.
Proof.
  split.
  - intros p _. eexists. split; [done|]. apply parse_print.
  - cbn. unfold u32_max. lia.
  - cbn. unfold u32_max. lia.
Qed.

(** * Witnesses *)

Definition coin18 : EvmCoinInfo := mkEvmCoinInfo "airl" "airl" "irl" 18.

Lemma coin18_decimals : 1 ≤ eci_Decimals coin18 ≤ 18.
Proof. cbn. lia. Qed.

Definition gwei : Z := 10 ^ 9 * dec_prec.

(** A block of 20 million gas after a block that used 15 of its target of 10. *)
Lemma full_block_input : fee_input 15000000 10000000 8 gwei dec_prec 0.
Proof. split; unfold u64_max, gwei, dec_prec; lia. Qed.

Lemma CalcGasBaseFee_eip1559_witness :
  CalcGasBaseFee 15000000 10000000 8 gwei dec_prec (Some 0) tt
  = (tt, Ok (eip1559_next 15000000 10000000 8 gwei dec_prec 0)) ∧
  eip1559_next 15000000 10000000 8 gwei dec_prec 0 = 1062500000 * dec_prec.
Proof. split; [apply (CalcGasBaseFee_eip1559 (S := unit)), full_block_input|vm_compute; reflexivity]. Defined.

Lemma CalcGasBaseFee_bounds_witness :
  ∃ next, CalcGasBaseFee 15000000 10000000 8 gwei dec_prec (Some 0) tt = (tt, Ok next) ∧
    gwei < next ≤ gwei + gwei / 8.
Proof.
  destruct (CalcGasBaseFee_bounds (S := unit) 15000000 10000000 8 gwei dec_prec 0 2 tt full_block_input)
    as (next & E & _ & Hup & _); [lia|lia|].
  exists next. split; [exact E|]. specialize (Hup ltac:(lia)).
  replace (dec_prec `max` (gwei * (2 - 1) / 8)) with (gwei / 8) in Hup by reflexivity.
  assert (0 < dec_prec) by reflexivity. lia.
Defined.

Lemma CalcGasBaseFee_monotone_witness :
  ∃ n1 n2, CalcGasBaseFee 5000000 10000000 8 gwei dec_prec (Some 0) tt = (tt, Ok n1) ∧
    CalcGasBaseFee 15000000 10000000 8 gwei dec_prec (Some 0) tt = (tt, Ok n2) ∧ n1 ≤ n2.
Proof.
  apply (CalcGasBaseFee_monotone (S := unit)); [|exact full_block_input|lia|unfold gwei, dec_prec; lia|lia].
  split; unfold u64_max, gwei, dec_prec; lia.
Defined.

Definition empty_state : FeeState := mkFeeState None None None [].
Definition genesis : GenesisState := mkGenesisState DefaultParams 0.
Definition ctx1 : Ctx := mkCtx 1 (Some 20000000) (Some (mkGasMeter 20000000 12000000)).

Lemma ctx1_ok : ctx_ok ctx1.
Proof. split; cbn; unfold i64_max, u64_max; lia. Qed.

Lemma default_params_good : params_good DefaultParams.
Proof. exact default_good. Qed.

Lemma genesis_run : fee_run coin18 "gov" (λ _, true) (InitGenesis genesis empty_state).1.
Proof.
  apply (run_genesis _ _ _ genesis empty_state); try done. exact default_params_good.
Qed.

(** A state with valid parameters, reached by running the module. *)
Definition state1 : FeeState :=
  (CheckGasWanted ctx1 (Some 16000000) true DefaultParams (InitGenesis genesis empty_state).1).1.

Lemma state1_run : fee_run coin18 "gov" (λ _, true) state1.
Proof.
  apply (run_tx _ _ _ ctx1 (Some 16000000) true DefaultParams (InitGenesis genesis empty_state).1);
    [exact genesis_run|vm_compute; reflexivity].
Qed.

Lemma feemarket_always_valid_witness : fee_inv state1.
Proof. exact (feemarket_always_valid coin18 "gov" coin18_decimals (λ _, true) state1 state1_run). Defined.

Lemma state1_inv : fee_inv state1.
Proof.
  split; [|vm_compute; done..]. exists DefaultParams. split; [vm_compute; reflexivity|exact default_params_good].
Qed.

Lemma BeginBlock_updates_base_fee_witness : ∃ s', BeginBlock coin18 ctx1 state1 = (s', Ok tt) ∧ fee_inv s'.
Proof.
  destruct (BeginBlock_updates_base_fee coin18 coin18_decimals ctx1 state1) as (s' & _ & _ & _ & _ & _ & _ & E & Hi & _).
  - exact state1_inv.
  - exact ctx1_ok.
  - intros p fee Hp Hf. vm_compute in Hp. injection Hp as <-. vm_compute in Hf. injection Hf as <-. reflexivity.
  - exists s'. split; [exact E|exact Hi].
Defined.

Lemma EndBlock_records_gas_witness :
  ∃ s', EndBlock ctx1 state1 = (s', Ok tt) ∧ fs_blockGasWanted s' = Some 12000000.
Proof.
  pose proof (EndBlock_records_gas ctx1 state1 state1_inv ctx1_ok) as Hend.
  cbv beta zeta iota delta [ctx1 BlockGasMeter GasConsumedToLimit] in Hend.
  replace ((default 0 (fs_transientGasWanted state1) <? i64_max) && (12000000 <? i64_max)) with true in Hend
    by (vm_compute; reflexivity).
  destruct Hend as (p & mult & g & s' & Hp & Hm & Hg & _ & E & _ & _ & Hs & _).
  exists s'. split; [exact E|]. rewrite Hs, Hg. f_equal.
  vm_compute in Hp. injection Hp as <-. vm_compute in Hm. injection Hm as <-. vm_compute. reflexivity.
Defined.

Lemma UpdateParams_only_authority_witness :
  ∃ e, UpdateParams "gov" (mkMsgUpdateParams "mallory" DefaultParams) state1 = (state1, Err e).
Proof.
  destruct (UpdateParams_only_authority "gov" (mkMsgUpdateParams "mallory" DefaultParams) state1 default_params_good)
    as [Hno _].
  destruct (Hno ltac:(discriminate)) as (e & E & _). by exists e.
Defined.

Lemma feemarket_genesis_roundtrip_witness :
  ∃ s', InitGenesis genesis empty_state = (s', Ok tt) ∧ ExportGenesis s' = (s', Ok genesis).
Proof. exact (feemarket_genesis_roundtrip genesis empty_state default_params_good). Defined.

(** * A gas target of zero *)

Definition priced : Params := mkParams false 8 2 (Some gwei) 0 (Some gwei) (Some (dec_prec / 2)).

(** When the block gas limit is below the elasticity multiplier the gas target
    is zero, and any gas in the parent block sets the base fee to zero, although
    the parameters are valid and their minimum gas price is a gwei. *)
Theorem zero_target_drops_base_fee :
  Params_Validate priced = Ok tt ∧
  let s := (SetBlockGasWanted 1 (SetParams priced empty_state).1).1 in
  GetParams s = (s, Ok priced) ∧
  (CalculateBaseFee coin18 (mkCtx 5 (Some 1) None) s).2 = Ok (Some 0) ∧ 0 < gwei.
Proof. vm_compute. repeat split. Qed.
