(* ===== verification/TxFees.v ===== *)
(** What a transaction pays and when it is let in: the fee checks of Cosmos
    transactions (ante/evm/fee_checker.go), the fee, gas and permission checks of
    Ethereum transactions (ante/evm/02, 03, 04 and 08;
    x/vm/keeper/fees.go, gas.go; x/vm/types/tx.go) and the checked conversions
    they use (utils/int.go). *)

From S2P Require Import Prelude.
From S2P Require Import Sdk.
From S2P Require Import EvmDenom.
From S2P Require Import AccessList.
From S2P Require Import Dec.
From S2P Require Import FeeMarket.

(** * Checked conversions *)

Definition SafeInt64 (value : Z) : outcome Z :=
  if value >? i64_max - 1 then Err (errorf ErrInvalidHeight "uint64 value cannot exceed MaxInt64") else Ok value.

Definition SafeUint64 (value : Z) : outcome Z :=
  if value <? 0 then Err (errorf ErrOther "invalid value") else Ok value.

(** A nil [big.Int] is valid. *)
Definition IsValidInt256 (i : option Z) : bool :=
  match i with None => true | Some z => Z.abs z <? u256_max end.

Definition SafeHexToInt64 (value : Z) : outcome Z :=
  if value >? i64_max - 1 then Err (errorf ErrOther "hexutil.Uint64 value cannot exceed MaxInt64") else Ok value.

Definition SafeInt32ToUint (value : Z) : outcome Z :=
  if value <? 0 then Err (errorf ErrOther "invalid int32 value for uint conversion") else Ok value.

(** [int64(z)] of a [uint64]. *)
Definition to_int64 (z : Z) : Z := if z <? i64_max then z else z - u64_max.

(** * Cosmos transactions *)

(** What the checker reads of a [FeeTx]: its gas, its fee coins, and the
    dynamic-fee extension option, whose price may be nil. *)
Record FeeTx : Type := mkFeeTx {
  ftx_Gas : Z;
  ftx_Fee : Coins;
  ftx_MaxPriorityPrice : option (option Z)
}.

Section fee_checker.
Context `{SdkTypes} `{DecTypes} {S : Type}.
(** [Coins.IsAnyGTE], the validator's minimum gas prices and the mode of the
    context, and [sdk.DefaultPowerReduction] *)
Context (IsAnyGTE : Coins → Coins → bool) (minGasPrices : list (denom * Z)) (isCheckTx : bool).
Context (DefaultPriorityReduction : Z).

Definition effectiveGasPriceLegacyDec (baseFee feeCap tipCap : Z) : M S Z :=
  let! p := dadd tipCap baseFee in ret (Z.min p feeCap).

(** The loop of [getTxPriority]; zero stands for no priority yet. *)
Fixpoint getTxPriority_loop (fees : Coins) (gas priority : Z) : M S Z :=
  match fees with
  | [] => ret priority
  | fee :: r =>
      let! gasPrice := iquo (Amount fee) gas in
      let! amt := iquo gasPrice DefaultPriorityReduction in
      let p := if IsInt64 amt then amt else i64_max - 1 in
      getTxPriority_loop r gas (if (priority =? 0) || (p <? priority) then p else priority)
  end.
Definition getTxPriority (fees : Coins) (gas : Z) : M S Z := getTxPriority_loop fees gas 0.

Fixpoint required_fees (prices : list (denom * Z)) (glDec : Z) : M S Coins :=
  match prices with
  | [] => ret []
  | (d, price) :: r =>
      let! fee := dmul price glDec in
      let! c := newCoin d (dCeil fee) in
      let! cs := required_fees r glDec in
      ret (c :: cs)
  end.

Definition checkTxFeeWithValidatorMinGasPrices (tx : FeeTx) : M S (Coins * Z) :=
  let feeCoins := ftx_Fee tx in
  let gas := to_int64 (ftx_Gas tx) in
  when (isCheckTx && negb (forallb (λ p, p.2 =? 0) minGasPrices))
    (let! requiredFees := required_fees minGasPrices (dNew gas) in
     if negb (IsAnyGTE feeCoins requiredFees) then throw (errorf ErrInsufficientFee "insufficient fees")
     else ret tt) >>!
  let! priority := getTxPriority feeCoins gas in
  ret (feeCoins, priority).

Definition FeeChecker (blockHeight : Z) (feemarketParams : Params) (d : denom) (isLondon : bool) (feeTx : FeeTx)
    : M S (Coins * Z) :=
  if negb isLondon then checkTxFeeWithValidatorMinGasPrices feeTx
  else
    let baseFee := match BaseFee feemarketParams with
                   | Some f => if IsBaseFeeEnabled feemarketParams blockHeight then f else 0
                   | None => 0
                   end in
    let maxPriorityPrice := match ftx_MaxPriorityPrice feeTx with
                            | None => dNew (i64_max - 1)
                            | Some p => default 0 p
                            end in
    if maxPriorityPrice <? 0 then throw (errorf ErrInsufficientFee "max priority price cannot be negative")
    else
      let gas := ftx_Gas feeTx in
      if gas =? 0 then throw (errorf ErrInvalidRequest "gas cannot be zero")
      else
        let feeAmtDec := dNew (Coins_AmountOf (ftx_Fee feeTx) d) in
        let! feeCap := dquoInt feeAmtDec gas in
        if feeCap <? baseFee then throw (errorf ErrInsufficientFee "gas prices too low")
        else
          let! effectivePrice := effectiveGasPriceLegacyDec baseFee feeCap maxPriorityPrice in
          let! total := dmulInt effectivePrice gas in
          let effectiveFee := [mkCoin d (dCeil total)] in
          let! tip := dsub effectivePrice baseFee in
          let! reduced := dquoInt tip DefaultPriorityReduction in
          let priorityInt := dTruncate reduced in
          let priority := if IsInt64 priorityInt then priorityInt else i64_max - 1 in
          ret (effectiveFee, priority).

(** [feeTx] is [None] for a transaction that is not a [FeeTx]. *)
Definition NewDynamicFeeChecker (blockHeight : Z) (feemarketParams : Params) (d : denom) (isLondon : bool)
    (feeTx : option FeeTx) : M S (Coins * Z) :=
  match feeTx with
  | None => throw (errorf ErrTxDecode "Tx must be a FeeTx")
  | Some tx =>
      if blockHeight =? 0 then checkTxFeeWithValidatorMinGasPrices tx
      else FeeChecker blockHeight feemarketParams d isLondon tx
  end.

(** ** Ethereum transactions: the two minimum fees *)

Definition CheckMempoolFee (fee mempoolMinGasPrice gasLimit : Z) (isLondon : bool) : M S unit :=
  if isLondon then ret tt
  else
    let! requiredFee := dmul mempoolMinGasPrice gasLimit in
    if fee <? requiredFee then throw (errorf ErrInsufficientFee "minimum required") else ret tt.

Definition CheckGlobalFee (fee globalMinGasPrice gasLimit : Z) : M S unit :=
  if globalMinGasPrice =? 0 then ret tt
  else
    let! requiredFee := dmul globalMinGasPrice gasLimit in
    if fee <? requiredFee then throw (errorf ErrInsufficientFee "provided fee < minimum global fee") else ret tt.
End fee_checker.

(** * Ethereum transactions *)

(** An authorization of EIP-7702. *)
Record SetCodeAuthorization : Type := mkSetCodeAuthorization {
  auth_ChainID : Z;
  auth_Address : Address;
  auth_Nonce : Z;
  auth_Signature : string
}.

Abbreviation AccessTuples := (list (Address * list Hash)) (only parsing).

(** A transaction of go-ethereum and what is called on it. *)
Class GethTx : Type := {
  EthTx : Type;
  Tx_Nonce : EthTx → Z;
  Tx_To : EthTx → option Z;
  Tx_Gas : EthTx → Z;
  Tx_Type : EthTx → Z;
  Tx_Hash : EthTx → Z;
  Tx_GasPrice : EthTx → Z;
  Tx_GasFeeCap : EthTx → Z;
  Tx_GasTipCap : EthTx → Z;
  Tx_Value : EthTx → Z;
  Tx_Cost : EthTx → Z;
  Tx_EffectiveGasTip : EthTx → option Z → Z;
  Tx_Data : EthTx → string;
  Tx_AccessList : EthTx → AccessTuples;
  Tx_SetCodeAuthorizations : EthTx → option (list SetCodeAuthorization);
  (** [core.IntrinsicGas] *)
  core_IntrinsicGas : string → AccessTuples → option (list SetCodeAuthorization) → bool → bool → bool → bool → Z + error
}.

Definition IntrinsicGas `{GethTx} (tx : EthTx) : bool → bool → bool → bool → Z + error :=
  core_IntrinsicGas (Tx_Data tx) (Tx_AccessList tx) (Tx_SetCodeAuthorizations tx).

(** A transaction without blobs costs its gas at the fee cap plus its value; the
    tip it pays is bounded by its tip cap and by what the fee cap leaves over the
    base fee. *)
Class GethTxLaws `{GethTx} : Prop := {
  tx_gas_range tx : 0 ≤ Tx_Gas tx < u64_max;
  (** the price of a transaction with dynamic fees is its fee cap, and the fee
      cap of one without is its price *)
  tx_price_spec tx : Tx_GasPrice tx = Tx_GasFeeCap tx;
  tx_cost_spec tx : Tx_Cost tx = Tx_Gas tx * Tx_GasFeeCap tx + Tx_Value tx;
  tx_tip_spec tx b : b ≤ Tx_GasFeeCap tx →
    Tx_EffectiveGasTip tx (Some b) = Z.min (Tx_GasTipCap tx) (Tx_GasFeeCap tx - b)
}.

(** The permission types of the EVM parameters, and any other value of the enum. *)
Inductive AccessType : Type :=
  | AccessTypePermissionless
  | AccessTypeRestricted
  | AccessTypePermissioned
  | AccessTypeUnknown (n : Z).
#[global] Instance AccessType_eq_dec : EqDecision AccessType.
Proof. solve_decision. Defined.

Section eth.
Context `{SdkTypes} `{GethTx} {S : Type}.
Context (DefaultPriorityReduction : Z).

Definition checkDisabledCreateCall (ethTx : EthTx) (create call : AccessType) : outcome unit :=
  let blockCreate := bool_decide (create = AccessTypeRestricted) in
  let blockCall := bool_decide (call = AccessTypeRestricted) in
  match Tx_To ethTx with
  | None => if blockCreate then Err (errorf ErrCreateDisabled "failed to create new contract") else Ok tt
  | Some _ => if blockCall then Err (errorf ErrCallDisabled "failed to perform a call") else Ok tt
  end.

(** [txFeeInfo] is the amount in the extended denomination and the gas limit of
    the Cosmos envelope; nil on a re-check. *)
Definition CheckTxFee (txFeeInfo : option (Z * Z)) (txFee txGasLimit : Z) : M S unit :=
  match txFeeInfo with
  | None => ret tt
  | Some (amount, gasLimit) =>
      let! fee := ichk txFee in
      if negb (amount =? fee) then throw (errorf ErrInvalidRequest "invalid AuthInfo Fee Amount")
      else if negb (gasLimit =? txGasLimit) then throw (errorf ErrInvalidRequest "invalid AuthInfo Fee GasLimit")
      else ret tt
  end.

Definition CheckSenderBalance (balance : Z) (ethTx : EthTx) : outcome unit :=
  let cost := Tx_Cost ethTx in
  if cost <? 0 then Err (errorf ErrInvalidCoins "tx cost is negative and invalid")
  else if (balance <? 0) || (balance <? cost) then Err (errorf ErrInsufficientFunds "sender balance < tx cost")
  else Ok tt.

Definition VerifyFee (ethTx : EthTx) (d : denom) (baseFee : option Z)
    (homestead istanbul shanghai isCheckTx : bool) : M S Coins :=
  let isContractCreation := match Tx_To ethTx with None => true | Some _ => false end in
  let gasLimit := Tx_Gas ethTx in
  match IntrinsicGas ethTx isContractCreation homestead istanbul shanghai with
  | inr e => throw e
  | inl intrinsicGas =>
      if isCheckTx && (gasLimit <? intrinsicGas) then throw (errorf ErrOutOfGas "gas limit too low")
      else if match baseFee with Some b => Tx_GasFeeCap ethTx <? b | None => false end
      then throw (errorf ErrInsufficientFee "the tx gasfeecap is lower than the tx baseFee")
      else
        let gasTip := Tx_EffectiveGasTip ethTx baseFee in
        let! b := dval baseFee in
        let price := gasTip + b in
        let feeAmt := gasLimit * price in
        if feeAmt =? 0 then ret []
        else let! amt := ichk feeAmt in ret [mkCoin d amt]
  end.

Definition GetTxPriority (ethTx : EthTx) (baseFee : option Z) : Z :=
  let priorityBig := Z.quot (Tx_EffectiveGasTip ethTx baseFee) DefaultPriorityReduction in
  if IsInt64 priorityBig then priorityBig else i64_max - 1.

Definition GetMsgPriority (ethTx : EthTx) (minPriority : Z) (baseFee : option Z) : Z :=
  let priority := GetTxPriority ethTx baseFee in
  if priority <? minPriority then priority else minPriority.

(** The sums are [uint64]s. *)
Definition UpdateCumulativeGasWanted (isCheckTx : bool) (msgGasWanted maxTxGasWanted cumulativeGasWanted : Z) : Z :=
  if isCheckTx && negb (maxTxGasWanted =? 0)
  then if msgGasWanted >? maxTxGasWanted then wrap u64_max (cumulativeGasWanted + maxTxGasWanted)
       else wrap u64_max (cumulativeGasWanted + msgGasWanted)
  else wrap u64_max (cumulativeGasWanted + msgGasWanted).

(** The result is the limit of the new gas meter and the priority. *)
Definition CheckBlockGasLimit (ctx : Ctx) (gasWanted minPriority : Z) : outcome (Z * Z) :=
  if gasWanted >? BlockGasLimit ctx then Err (errorf ErrOutOfGas "tx gas exceeds block gas limit")
  else Ok (gasWanted, minPriority).

(** ** Refunds *)

(** A zero quotient panics. *)
Definition GasToRefund (availableRefund gasConsumed refundQuotient : Z) : M S Z :=
  if refundQuotient =? 0 then panic "integer divide by zero"
  else
    let refund := gasConsumed / refundQuotient in
    ret (if refund >? availableRefund then availableRefund else refund).
End eth.
