(* ===== verification/TxFeesThms.v ===== *)
(** What the fee checks guarantee: the charge lies between the base fee and the
    offer, a transaction that passes the balance check can pay, nonces are used
    once, refunds are bounded. *)

From S2P Require Import Prelude.
From S2P Require Import Sdk.
From S2P Require Import EvmDenom.
From S2P Require Import Dec.
From S2P Require Import FeeMarket.
From S2P Require Import TxFees.

(** The base fee a Cosmos transaction is held to. *)
Definition base_fee_at (p : Params) (height : Z) : Z :=
  match BaseFee p with Some f => if IsBaseFeeEnabled p height then f else 0 | None => 0 end.

Definition tip_cap (tx : FeeTx) : Z :=
  match ftx_MaxPriorityPrice tx with None => dNew (i64_max - 1) | Some p => default 0 p end.

Section cosmos.
Context `{SdkTypes} `{DecTypes} `{!DecLaws} {S : Type}.
Context (IsAnyGTE : Coins → Coins → bool) (minGasPrices : list (denom * Z)) (isCheckTx : bool).
Context (reduction : Z) (Hreduction : 0 < reduction).
Implicit Types (s : S) (tx : FeeTx).

Lemma dCeil_spec a : dCeil a * dec_prec - dec_prec < a ≤ dCeil a * dec_prec.
Proof.
  unfold dCeil, dec_prec. pose proof (Z.div_mod (- a) (10 ^ 18)) as Hdm.
  pose proof (Z.mod_pos_bound (- a) (10 ^ 18)). lia.
Qed.

Lemma dCeil_le a n : a ≤ n * dec_prec → dCeil a ≤ n.
Proof. intros. pose proof (dCeil_spec a). unfold dec_prec in *. nia. Qed.

(** The charge of an accepted transaction. *)
Lemma effective_bounds base cap tip gas n :
  0 < gas < u64_max → 0 ≤ n < 2 ^ 250 → 0 ≤ base ≤ cap → 0 ≤ tip < 2 ^ 250 → cap = dNew n / gas →
  let eff := Z.min (tip + base) cap in
  base ≤ eff ≤ cap ∧ 0 ≤ eff * gas ≤ dNew n ∧ cap < 2 ^ 310.
Proof.
  intros Hg Hn Hb Ht Hcap eff. assert (cap * gas ≤ dNew n) as Hc.
  { subst cap. rewrite Z.mul_comm. apply Z.mul_div_le. lia. }
  assert (cap ≤ dNew n) by nia. unfold dNew, dec_prec in *.
  assert (base ≤ eff ≤ cap) by (subst eff; lia). split_and!; nia.
Qed.

(** Under London a Cosmos transaction whose price per gas does not reach the
    base fee is refused with [ErrInsufficientFee]; any other is charged a whole
    number of coins that covers the base fee for all of its gas and never
    exceeds the fee it offered, and gets a priority within an [int64]. *)
Theorem FeeChecker_charges height p d tx s :
  let n := Coins_AmountOf (ftx_Fee tx) d in
  let base := base_fee_at p height in
  0 < ftx_Gas tx < u64_max → 0 ≤ n < 2 ^ 250 → 0 ≤ base → 0 ≤ tip_cap tx < 2 ^ 250 →
  if dNew n / ftx_Gas tx <? base
  then ∃ e, FeeChecker IsAnyGTE minGasPrices isCheckTx reduction height p d true tx s = (s, Err e) ∧
            err_is e ErrInsufficientFee = true
  else ∃ fee priority,
    FeeChecker IsAnyGTE minGasPrices isCheckTx reduction height p d true tx s
      = (s, Ok ([mkCoin d fee], priority)) ∧
    base * ftx_Gas tx ≤ dNew fee ∧ 0 ≤ fee ≤ n ∧ 0 ≤ priority < i64_max.
Proof.
  intros n base Hg Hn Hb Ht. unfold FeeChecker. cbn [negb]. fold (base_fee_at p height). fold base.
  fold (tip_cap tx). fold n. cbv zeta.
  destruct (Z.ltb_spec (tip_cap tx) 0); [lia|]. destruct (Z.eqb_spec (ftx_Gas tx) 0); [lia|].
  set (cap := dNew n / ftx_Gas tx).
  assert (0 ≤ dNew n) as Hn0 by (unfold dNew, dec_prec; lia).
  rewrite (bind_Ok _ _ s s cap) by (apply dquoInt_run; lia).
  destruct (Z.ltb_spec cap base) as [Hlt|Hle]; [by eexists|].
  destruct (effective_bounds base cap (tip_cap tx) (ftx_Gas tx) n) as (He & Htot & Hcap); try done.
  set (eff := Z.min (tip_cap tx + base) cap) in *.
  assert (dNew n < 2 ^ 310) as Hdn by (unfold dNew, dec_prec; lia).
  rewrite (bind_Ok _ _ s s eff).
  2:{ unfold effectiveGasPriceLegacyDec. by erewrite bind_Ok by (apply dchk_run; lia). }
  rewrite (bind_Ok _ _ s s (eff * ftx_Gas tx)) by (apply dchk_run; lia).
  rewrite (bind_Ok _ _ s s (eff - base)) by (apply dchk_run; lia).
  rewrite (bind_Ok _ _ s s ((eff - base) / reduction)) by (apply dquoInt_run; lia).
  eexists _, _. split; [reflexivity|].
  pose proof (dCeil_spec (eff * ftx_Gas tx)) as Hceil. split_and!.
  - unfold dNew. nia.
  - unfold dec_prec in *. lia.
  - apply dCeil_le, Htot.
  - assert (0 ≤ (eff - base) / reduction) by (apply Z.div_pos; lia).
    rewrite dTruncate_div by done. assert (0 ≤ (eff - base) / reduction / dec_prec)
      by (apply Z.div_pos; unfold dec_prec; lia). destruct (IsInt64 _); unfold i64_max; lia.
  - assert (0 ≤ (eff - base) / reduction) by (apply Z.div_pos; lia). rewrite dTruncate_div by done.
    unfold IsInt64. destruct (Z.ltb_spec ((eff - base) / reduction / dec_prec) i64_max);
      [destruct (_ <=? _)|rewrite andb_false_r]; cbn; unfold i64_max in *; lia.
Qed.
End cosmos.

Section ethereum.
Context `{SdkTypesLaws} `{GethTxLaws} {S : Type}.
Implicit Types (s : S) (tx : EthTx).

(** The price per gas an Ethereum transaction pays. *)
Definition effective_price tx (base : Z) : Z := Z.min (Tx_GasTipCap tx + base) (Tx_GasFeeCap tx).

Lemma VerifyFee_run tx d base h i sh c intrinsic s :
  IntrinsicGas tx (match Tx_To tx with None => true | Some _ => false end) h i sh = inl intrinsic →
  (c = true → intrinsic ≤ Tx_Gas tx) → 0 ≤ base ≤ Tx_GasFeeCap tx → 0 ≤ Tx_GasTipCap tx →
  Tx_Gas tx * Tx_GasFeeCap tx < u256_max →
  VerifyFee tx d (Some base) h i sh c s
  = (s, Ok (if Tx_Gas tx * effective_price tx base =? 0 then []
            else [mkCoin d (Tx_Gas tx * effective_price tx base)])).
Proof.
  intros Hi Hc Hb Ht Hmax. unfold VerifyFee. rewrite Hi. cbv zeta.
  assert (c && (Tx_Gas tx <? intrinsic) = false) as ->.
  { destruct c; [|done]. specialize (Hc eq_refl). cbn. apply Z.ltb_ge. lia. }
  destruct (Z.ltb_spec (Tx_GasFeeCap tx) base); [lia|]. cbn.
  rewrite tx_tip_spec by lia.
  replace (Z.min (Tx_GasTipCap tx) (Tx_GasFeeCap tx - base) + base) with (effective_price tx base)
    by (unfold effective_price; lia).
  destruct (Z.eqb_spec (Tx_Gas tx * effective_price tx base) 0); [done|].
  assert (0 ≤ effective_price tx base ≤ Tx_GasFeeCap tx) by (unfold effective_price; lia).
  pose proof (tx_gas_range tx). unfold ichk, int_ok.
  rewrite (bind_Ok _ _ s s (Tx_Gas tx * effective_price tx base)); [done|]. apply ichk_run.
  rewrite Z.abs_eq by nia. nia.
Qed.

(** A transaction that the balance check accepts, with a fee cap at or above
    the base fee and enough gas for its intrinsic cost, is charged exactly gas
    times min(tip cap + base fee, fee cap); that is at least the base fee for
    its gas, at most its fee cap, and together with its value at most the
    balance that was checked. *)
Theorem VerifyFee_affordable tx d base balance h i sh c intrinsic s :
  CheckSenderBalance balance tx = Ok tt → balance < u256_max →
  IntrinsicGas tx (match Tx_To tx with None => true | Some _ => false end) h i sh = inl intrinsic →
  (c = true → intrinsic ≤ Tx_Gas tx) → 0 ≤ base ≤ Tx_GasFeeCap tx → 0 ≤ Tx_GasTipCap tx → 0 ≤ Tx_Value tx →
  let fee := Tx_Gas tx * effective_price tx base in
  VerifyFee tx d (Some base) h i sh c s = (s, Ok (if fee =? 0 then [] else [mkCoin d fee])) ∧
  Tx_Gas tx * base ≤ fee ≤ Tx_Gas tx * Tx_GasFeeCap tx ∧ fee + Tx_Value tx ≤ balance.
Proof.
  intros Hbal Hmax Hi Hc Hb Ht Hv fee. pose proof (tx_gas_range tx) as Hg.
  assert (Tx_Cost tx ≤ balance) as Hcost.
  { unfold CheckSenderBalance in Hbal. destruct (Z.ltb_spec (Tx_Cost tx) 0); [done|].
    destruct (Z.ltb_spec balance 0); [done|]. destruct (Z.ltb_spec balance (Tx_Cost tx)); [done|lia]. }
  rewrite tx_cost_spec in Hcost.
  assert (base ≤ effective_price tx base ≤ Tx_GasFeeCap tx) as He by (unfold effective_price; lia).
  assert (Tx_Gas tx * base ≤ fee ≤ Tx_Gas tx * Tx_GasFeeCap tx) as Hf by (subst fee; nia).
  split_and!; [|lia|lia|lia]. apply (VerifyFee_run tx d base h i sh c intrinsic); try done. lia.
Qed.

(** Before London, where the base fee is nil, [VerifyFee] dereferences it and
    panics on every transaction whose intrinsic gas passes. *)
Theorem VerifyFee_nil_base_fee_panics tx d h i sh intrinsic s :
  IntrinsicGas tx (match Tx_To tx with None => true | Some _ => false end) h i sh = inl intrinsic →
  VerifyFee tx d None h i sh false s = (s, Panic "nil pointer dereference").
Proof. intros Hi. unfold VerifyFee. by rewrite Hi. Qed.

(** The refund is at most the refund counter and at most the gas consumed
    over the quotient, and is one of the two. *)
Theorem GasToRefund_capped available consumed quotient s :
  0 ≤ available → 0 ≤ consumed → 0 < quotient →
  ∃ r, GasToRefund available consumed quotient s = (s, Ok r) ∧
    r = Z.min available (consumed / quotient) ∧ 0 ≤ r ≤ consumed ∧ r * quotient ≤ consumed.
Proof.
  intros Ha Hc Hq. unfold GasToRefund. destruct (Z.eqb_spec quotient 0); [lia|].
  eexists. split; [done|]. assert (0 ≤ consumed / quotient) by (apply Z.div_pos; lia).
  assert (quotient * (consumed / quotient) ≤ consumed) by (apply Z.mul_div_le; lia).
  destruct (Z.gtb_spec (consumed / quotient) available); split_and!; try lia; nia.
Qed.
End ethereum.
