(* ===== verification/TxFeesWit.v ===== *)
(** Concrete transactions for the fee checks. *)

From S2P Require Import Prelude.
From S2P Require Import Sdk.
From S2P Require Import SdkModel.
From S2P Require Import EvmDenom.
From S2P Require Import Dec.
From S2P Require Import FeeMarket.
From S2P Require Import FeeMarketWit.
From S2P Require Import TxFees.
From S2P Require Import TxFeesThms.

(** A transaction as a record of the fields the checks read. *)
Record SimpleTx : Type := mkSimpleTx {
  st_nonce : Z;
  st_to : option Z;
  st_gas : Z;
  st_feeCap : Z;
  st_tipCap : Z;
  st_value : Z;
  st_dynamic : bool
}.

(** The gas is read as a [uint64]; intrinsic gas is the base cost of a call. *)
#[global] Instance simple_tx : GethTx := {|
  EthTx := SimpleTx;
  Tx_Nonce := st_nonce;
  Tx_To := st_to;
  Tx_Gas tx := wrap u64_max (st_gas tx);
  Tx_Type tx := if st_dynamic tx then 2 else 0;
  Tx_Hash tx := 7 + st_nonce tx;
  Tx_GasPrice := st_feeCap;
  Tx_GasFeeCap := st_feeCap;
  Tx_GasTipCap := st_tipCap;
  Tx_Value := st_value;
  Tx_Cost tx := wrap u64_max (st_gas tx) * st_feeCap tx + st_value tx;
  Tx_EffectiveGasTip tx base :=
    match base with None => st_tipCap tx | Some b => Z.min (st_tipCap tx) (st_feeCap tx - b) end;
  Tx_Data _ := EmptyString;
  Tx_AccessList _ := [];
  Tx_SetCodeAuthorizations _ := None;
  core_IntrinsicGas _ _ _ creation _ _ _ := inl (if creation then 53000 else 21000)
|}.

#[global] Instance simple_tx_laws : GethTxLaws.
Proof.
  split; [|done..]. intros tx. apply wrap_bound. unfold u64_max. lia.
Qed.

Definition transfer : EthTx := mkSimpleTx 4 (Some 9) 21000 (3 * 10 ^ 9) (10 ^ 9) (10 ^ 18) true.

Lemma VerifyFee_affordable_witness :
  VerifyFee (S := unit) transfer "airl" (Some (10 ^ 9)) true true true true tt
    = (tt, Ok [mkCoin "airl" (21000 * (2 * 10 ^ 9))]).
Proof.
  destruct (VerifyFee_affordable (S := unit) transfer "airl" (10 ^ 9) (2 * 10 ^ 18) true true true true 21000 tt)
    as [E _]; [vm_compute; reflexivity|vm_compute; reflexivity|reflexivity|intros _; vm_compute; discriminate
              |vm_compute; split; discriminate|vm_compute; discriminate|vm_compute; discriminate|].
  rewrite E. vm_compute. reflexivity.
Defined.

Lemma VerifyFee_nil_base_fee_panics_witness :
  VerifyFee (S := unit) transfer "airl" None true true true false tt = (tt, Panic "nil pointer dereference").
Proof. apply (VerifyFee_nil_base_fee_panics (S := unit) transfer "airl" true true true 21000 tt). reflexivity. Defined.

Definition cosmos_tx : FeeTx := mkFeeTx 100000 [mkCoin "airl" (3 * 10 ^ 14)] None.

Lemma FeeChecker_charges_witness :
  ∃ fee priority,
    FeeChecker (S := unit) (λ _ _, true) [] false (10 ^ 6) 5 DefaultParams "airl" true cosmos_tx tt
      = (tt, Ok ([mkCoin "airl" fee], priority)) ∧ 10 ^ 14 ≤ fee ≤ 3 * 10 ^ 14.
Proof.
  pose proof (FeeChecker_charges (S := unit) (λ _ _, true) [] false (10 ^ 6) ltac:(reflexivity) 5 DefaultParams "airl"
    cosmos_tx tt) as Hc. cbv zeta in Hc.
  replace (Coins_AmountOf (ftx_Fee cosmos_tx) "airl") with (3 * 10 ^ 14) in Hc by (vm_compute; reflexivity).
  replace (base_fee_at DefaultParams 5) with (10 ^ 9 * dec_prec) in Hc by (vm_compute; reflexivity).
  replace (dNew (3 * 10 ^ 14) / ftx_Gas cosmos_tx <? 10 ^ 9 * dec_prec) with false in Hc by (vm_compute; reflexivity).
  destruct Hc as (fee & priority & E & Hlow & Hhigh & _).
  - vm_compute. split; reflexivity.
  - vm_compute. split; [discriminate|reflexivity].
  - vm_compute. discriminate.
  - vm_compute. split; [discriminate|reflexivity].
  - exists fee, priority. split; [exact E|]. cbn in Hlow. unfold dNew, dec_prec in Hlow. lia.
Defined.

Lemma GasToRefund_capped_witness :
  ∃ r, GasToRefund (S := unit) 4800 21000 5 tt = (tt, Ok r) ∧ r = 4200.
Proof.
  destruct (GasToRefund_capped (S := unit) 4800 21000 5 tt) as (r & E & Hr & _); [lia..|].
  exists r. split; [exact E|]. rewrite Hr. reflexivity.
Defined.
