(* ===== verification/AnteEvm.v ===== *)
(** The checks an Ethereum transaction passes before it is executed, in the order
    of the mono decorator (ante/evm/mono_decorator.go, utils.go and 01 to 11;
    x/vm/types/msg.go, utils.go; the transient figures of x/vm/keeper/keeper.go),
    over the states of the EVM keeper and of the fee market. *)

From S2P Require Import Prelude.
From S2P Require Import Sdk.
From S2P Require Import SdkAuth.
From S2P Require Import EvmDenom.
From S2P Require Import PreciseBank.
From S2P Require Import AccessList.
From S2P Require Import StateDB.
From S2P Require Import VmKeeper.
From S2P Require Import Dec.
From S2P Require Import FeeMarket.
From S2P Require Import TxFees.

(** * Transactions *)

Section tx.
Context `{GethTx, GethAddress}.

(** A nil [Raw.Transaction] is [None]. *)
Record MsgEthereumTx : Type := mkMsgEthereumTx { From : addr; Raw : option EthTx }.

(** An [sdk.Msg].  Of x/authz: the messages of a [MsgExec], the type URL of the
    authorization of a [MsgGrant], each [None] if it cannot be unpacked.  Any other
    message is its type URL. *)
Inductive SdkMsg : Type :=
  | EthMsg (m : MsgEthereumTx)
  | MsgExec (msgs : option (list SdkMsg))
  | MsgGrant (authorization : option string)
  | OtherMsg (typeURL : string).

(** The fields of the protobuf envelope that are checked; of lists only the
    length. *)
Record ProtoFee : Type := mkProtoFee { pf_Amount : Coins; pf_GasLimit : Z; pf_Payer : string; pf_Granter : string }.
Record ProtoTx : Type := mkProtoTx {
  pt_Memo : string;
  pt_TimeoutHeight : Z;
  pt_NonCriticalExtensionOptions : nat;
  pt_ExtensionOptions : nat;
  pt_SignerInfos : nat;
  pt_Fee : ProtoFee;
  pt_Signatures : nat
}.

(** An [sdk.Tx]: its [ValidateBasic] if it has one, its protobuf form if it gives
    one, whether it is a [GasTx], its gas and fee if it is a [FeeTx] and whether the
    fee is nil, the type URLs of its extension options if it can have some, its
    messages. *)
Record SdkTx : Type := mkSdkTx {
  tx_ValidateBasic : option (outcome unit);
  tx_Proto : option ProtoTx;
  tx_isGasTx : bool;
  tx_FeeTx : option FeeTx;
  tx_feeIsNil : bool;
  tx_ExtensionOptions : option (list string);
  tx_Msgs : list SdkMsg
}.

Definition UnpackEthMsg (msg : SdkMsg) : outcome (MsgEthereumTx * option EthTx) :=
  match msg with
  | EthMsg m => Ok (m, Raw m)
  | _ => Err (errorf ErrUnknownRequest "invalid message type")
  end.

Definition ValidateTx (tx : SdkTx) : outcome ProtoFee :=
  let invalid t := Err (errorf ErrInvalidRequest t) in
  let rest :=
    match tx_Proto tx with
    | None => Err (errorf ErrUnknownRequest "invalid tx type, didn't implement interface ProtoTxProvider")
    | Some p =>
        if bool_decide (pt_Memo p ≠ EmptyString) || negb (pt_TimeoutHeight p =? 0)
           || Nat.ltb 0 (pt_NonCriticalExtensionOptions p)
        then invalid "for eth tx body Memo TimeoutHeight NonCriticalExtensionOptions should be empty"
        else if negb (Nat.eqb (pt_ExtensionOptions p) 1)
        then invalid "for eth tx length of ExtensionOptions should be 1"
        else if Nat.ltb 0 (pt_SignerInfos p) then invalid "for eth tx AuthInfo SignerInfos should be empty"
        else if bool_decide (pf_Payer (pt_Fee p) ≠ EmptyString) || bool_decide (pf_Granter (pt_Fee p) ≠ EmptyString)
        then invalid "for eth tx AuthInfo Fee payer and granter should be empty"
        else if Nat.ltb 0 (pt_Signatures p) then invalid "for eth tx Signatures should be empty"
        else Ok (pt_Fee p)
    end in
  match tx_ValidateBasic tx with
  | Some (Err e) => if err_is e ErrNoSignatures then rest else Err (mkError (err_code e) "tx basic validation failed" [])
  | Some (Panic w) => Panic w
  | _ => rest
  end.

(** [MsgEthereumTx.ValidateBasic]. *)
Definition MsgEthereumTx_ValidateBasic (msg : MsgEthereumTx) : outcome unit :=
  match Raw msg with
  | None => Err (errorf ErrInvalidRequest "raw transaction is required")
  | Some tx =>
      if addr_empty (From msg) then Err (errorf ErrInvalidRequest "sender address is missing")
      else if Tx_Value tx <? 0 then Err (errorf ErrOther "negative value")
      else if Z.abs (Tx_GasFeeCap tx) >=? u256_max then Err (errorf ErrOther "max fee per gas higher than 2^256-1")
      else if Z.abs (Tx_GasTipCap tx) >=? u256_max then Err (errorf ErrOther "max priority fee per gas higher than 2^256-1")
      else if Tx_GasTipCap tx <? 0 then Err (errorf ErrOther "transaction gas price below minimum")
      else if Tx_GasFeeCap tx <? Tx_GasTipCap tx
      then Err (errorf ErrOther "max priority fee per gas higher than max fee per gas")
      else match IntrinsicGas tx (bool_decide (Tx_To tx = None)) true true true with
           | inr e => Err e
           | inl intrGas =>
               if Tx_Gas tx <? intrGas then Err (errorf ErrOther "intrinsic gas too low")
               else if (Tx_Type tx =? 4) && Nat.eqb (length (default [] (Tx_SetCodeAuthorizations tx))) 0
               then Err (errorf ErrOther "set code tx must have at least one authorization tuple")
               else Ok tt
           end
  end.

Definition GetFee (tx : EthTx) : Z := Tx_Gas tx * Tx_GasPrice tx.

Definition GetEffectiveFee (tx : EthTx) (baseFee : Z) : Z :=
  Tx_Gas tx * (Tx_EffectiveGasTip tx (Some baseFee) + baseFee).

(** [core.Message]; blobs are left out. *)
Record Message : Type := mkMessage {
  msg_From : Address;
  msg_Nonce : Z;
  msg_GasLimit : Z;
  msg_GasPrice : Z;
  msg_GasFeeCap : Z;
  msg_GasTipCap : Z;
  msg_To : option Z;
  msg_Value : Z;
  msg_Data : string;
  msg_AccessList : AccessTuples;
  msg_SetCodeAuthorizations : option (list SetCodeAuthorization)
}.

Definition AsMessage (from : Address) (tx : EthTx) (baseFee : option Z) : Message :=
  let price :=
    match baseFee with
    | None => Tx_GasPrice tx
    | Some b => if Tx_GasTipCap tx + b >? Tx_GasFeeCap tx then Tx_GasFeeCap tx else Tx_GasTipCap tx + b
    end in
  mkMessage from (Tx_Nonce tx) (Tx_Gas tx) price (Tx_GasFeeCap tx) (Tx_GasTipCap tx) (Tx_To tx) (Tx_Value tx)
    (Tx_Data tx) (Tx_AccessList tx) (Tx_SetCodeAuthorizations tx).

(** [ethtypes.Sender] recovers the address that signed. *)
Definition VerifySender (Sender : EthTx → outcome Address) (msg : MsgEthereumTx) (tx : EthTx) : outcome unit :=
  match Sender tx with
  | Ok from =>
      if negb (bool_decide (From msg = Address_Bytes from)) then Err (errorf ErrOther "sender verification failed")
      else Ok tt
  | Err e => Err e
  | Panic w => Panic w
  end.

Definition SignatureVerification (Sender : EthTx → outcome Address) (msg : MsgEthereumTx) (tx : EthTx) : outcome unit :=
  match VerifySender Sender msg tx with
  | Err _ => Err (errorf ErrInvalidSigner "signature verification failed")
  | r => r
  end.
End tx.

(** * The state and the context *)

Inductive AnteEvent : Type :=
  | EvTxFee (fees : Coins)
  | EvEthereumTx (hash index : Z).

(** The EVM keeper's state, the fee market's, the transient store of x/vm and the
    events of the transaction. *)
Record AnteState (B : Type) : Type := mkAnteState {
  an_vm : VmState B;
  an_fee : FeeState;
  an_gasUsed : option Z;
  an_txIndex : option Z;
  an_events : list AnteEvent
}.
Arguments mkAnteState {B}.
Arguments an_vm {B}.
Arguments an_fee {B}.
Arguments an_gasUsed {B}.
Arguments an_txIndex {B}.
Arguments an_events {B}.

(** What is read of [sdk.Context] besides [Ctx]; [ac_MinGasPrices] is the amount
    the validator asks in a denomination. *)
Record AnteCtx : Type := mkAnteCtx {
  ac_ctx : Ctx;
  ac_time : Z;
  ac_isCheckTx : bool;
  ac_isReCheckTx : bool;
  ac_MinGasPrices : denom → Z
}.

Record EthRules : Type := mkEthRules { IsHomestead : bool; IsIstanbul : bool; IsLondon : bool; IsShanghai : bool }.

(** The permissions of the EVM parameters. *)
Record EvmParams : Type := mkEvmParams { ep_Create : AccessType; ep_Call : AccessType }.

(** The chain's configuration: its rules at a height and time, and the signer. *)
Class GethConfig `{GethTx} : Type := {
  Rules_at : Z → Z → EthRules;
  (** [ethCfg.IsLondon] *)
  London_at : Z → bool;
  Sender_at : Z → Z → EthTx → outcome Address;
  (** [txpool.ValidateTransaction] with the header's base fee, height and time *)
  ValidateTransaction : EthTx → option Z → Z → Z → outcome unit
}.

Record DecoratorUtils : Type := mkDecoratorUtils {
  du_Rules : EthRules;
  du_BaseFee : option Z;
  du_MempoolMinGasPrice : Z;
  du_GlobalMinGasPrice : Z;
  du_BlockTxIndex : Z
}.

Section ante.
Context `{SdkTypes, AccountKeeper} {B : Type} `{!BankKeeper B, AuthKeeper B}.
Context `{Crypto, GethAddress, GethTx, !GethConfig, DecTypes}.
Context (info : EvmCoinInfo) (BytesToAddress : addr → Address).
(** [authante.DeductFees], and [sdk.DefaultPowerReduction] *)
Context (DeductFees : AccountI → Coins → M (PState B) unit) (DefaultPriorityReduction : Z).
(** the fields of the decorator *)
Context (maxGasWanted : Z) (evmParams : EvmParams) (feemarketParams : Params).
Context (ctx : AnteCtx).

Abbreviation St := (AnteState B).
Abbreviation height := (BlockHeight (ac_ctx ctx)).

Definition set_vm (x : VmState B) (s : St) : St := mkAnteState x (an_fee s) (an_gasUsed s) (an_txIndex s) (an_events s).
Definition set_fee (x : FeeState) (s : St) : St := mkAnteState (an_vm s) x (an_gasUsed s) (an_txIndex s) (an_events s).
Definition set_gasUsed (x : option Z) (s : St) : St := mkAnteState (an_vm s) (an_fee s) x (an_txIndex s) (an_events s).
Definition emit (e : AnteEvent) : M St unit :=
  modify (λ s, mkAnteState (an_vm s) (an_fee s) (an_gasUsed s) (an_txIndex s) (an_events s ++ [e])).

Definition vm {A} (m : M (VmState B) A) : M St A := zoom an_vm set_vm m.
Definition fee_market {A} (m : M FeeState A) : M St A := zoom an_fee set_fee m.

(** ** The transient store of x/vm *)

Definition ResetTransientGasUsed : M St unit := modify (set_gasUsed None).
Definition GetTransientGasUsed : M St Z := gets (λ s, default 0 (an_gasUsed s)).
Definition SetTransientGasUsed (gasUsed : Z) : M St unit := modify (set_gasUsed (Some gasUsed)).
Definition AddTransientGasUsed (gasUsed : Z) : M St Z :=
  let! used := GetTransientGasUsed in
  let result := wrap u64_max (used + gasUsed) in
  if result <? gasUsed then throw (errorf ErrGasOverflow "transient gas used")
  else SetTransientGasUsed result >>! ret result.
Definition GetTxIndexTransient : M St Z := gets (λ s, default 0 (an_txIndex s)).
Definition SetTxIndexTransient (index : Z) : M St unit :=
  modify (λ s, mkAnteState (an_vm s) (an_fee s) (an_gasUsed s) (Some index) (an_events s)).

(** ** Set-up *)

(** The gas meter becomes infinite and the store gas free; that has no effect on
    the modelled state. *)
Definition SetupContextAndResetTransientGas (tx : SdkTx) : M St unit :=
  if negb (tx_isGasTx tx) then throw (errorf ErrInvalidType "invalid transaction type, expected GasTx")
  else ResetTransientGasUsed.

(** [evmtypes.GetBaseFee]. *)
Definition GetBaseFee : M St (option Z) :=
  if negb (London_at height) then ret None
  else if NoBaseFee feemarketParams then ret (Some 0)
  else
    let! baseFee := dval (BaseFee feemarketParams) in
    if baseFee =? 0 then ret (Some 0)
    else
      let! d := ConvertAmountTo18DecimalsLegacy info baseFee in
      ret (Some (dTruncate d)).

Definition NewMonoDecoratorUtils : M St DecoratorUtils :=
  let rules := Rules_at height (ac_time ctx) in
  let! baseFee := GetBaseFee in
  if IsLondon rules && bool_decide (baseFee = None)
  then throw (errorf ErrInvalidBaseFee "base fee is supported but evm block context value is nil")
  else
    let! globalMinGasPrice := dval (MinGasPrice feemarketParams) in
    let! mempoolMinGasPrice := ConvertAmountTo18DecimalsLegacy info (ac_MinGasPrices ctx (eci_Denom info)) in
    let! index := GetTxIndexTransient in
    ret (mkDecoratorUtils rules baseFee mempoolMinGasPrice globalMinGasPrice index).

(** ** The steps *)

Definition ValidateMsg (ethTx : EthTx) : outcome unit :=
  checkDisabledCreateCall ethTx (ep_Create evmParams) (ep_Call evmParams).

(** [Account.HasCodeHash]. *)
Definition HasCodeHash (acct : RawAccount) : bool :=
  match raw_CodeHash acct with Some h => negb (IsEmptyCodeHash h) | None => true end.

(** [CheckSenderBalance] on [NewIntFromBigInt] of a balance, whose pointer may be
    nil. *)
Definition check_balance (balance : option Z) (ethTx : EthTx) : M (VmState B) unit :=
  match balance with
  | None => panic "nil pointer dereference"
  | Some b =>
      let! n := ichk b in
      on_error (of_outcome (CheckSenderBalance n ethTx)) (wrap_error "failed to check sender balance")
  end.

Definition VerifyAccountBalance (account : option RawAccount) (from : Address) (ethTx : EthTx) : M (VmState B) unit :=
  match account with
  | Some acct =>
      (if HasCodeHash acct then
         let! code := VmKeeper.GetCode (default 0 (raw_CodeHash acct)) in
         let code := default EmptyString code in
         if negb (bool_decide (code = EmptyString)) && negb (ParseDelegation code)
         then throw (errorf ErrInvalidType "the sender is not EOA")
         else ret tt
       else ret tt) >>!
      check_balance (raw_Balance acct) ethTx
  | None =>
      let! acc := VmKeeper.auth (ak_NewAccountWithAddress (Address_Bytes from)) in
      VmKeeper.auth (ak_SetAccount acc) >>!
      check_balance (Some 0) ethTx
  end.

Definition CanTransfer (msg : Message) (baseFee : option Z) (isLondon : bool) : M (VmState B) unit :=
  (if isLondon then
     let! b := dval baseFee in
     if msg_GasFeeCap msg <? b then throw (errorf ErrInsufficientFee "max fee per gas less than block base fee") else ret tt
   else ret tt) >>!
  let! convertedValue := of_outcome (Uint256FromBigInt (msg_Value msg)) in
  if 0 <? msg_Value msg then
    let! account := VmKeeper.GetAccount info (msg_From msg) in
    match account with
    | Some acct =>
        match raw_Balance acct with
        | Some balance =>
            if balance <? convertedValue
            then throw (errorf ErrInsufficientFunds "failed to transfer using the EVM block context transfer function")
            else ret tt
        | None => panic "nil pointer dereference"
        end
    | None => panic "nil pointer dereference"
    end
  else ret tt.

Definition deductFees (fees : Coins) (feePayer : addr) : M (VmState B) unit :=
  if BankWrapper.coins_zero fees then ret tt
  else on_error (VmKeeper.DeductTxCostsFromUserBalance DeductFees fees (BytesToAddress feePayer))
         (wrap_error "failed to deduct transaction costs from user balance").

Definition ConsumeFeesAndEmitEvent (fees : Coins) (from : addr) : M St unit :=
  vm (deductFees fees from) >>! emit (EvTxFee fees).

Definition IncrementNonce (account : AccountI) (txNonce : Z) : M (VmState B) unit :=
  let accountNonce := GetSequence account in
  if txNonce >? accountNonce then throw (errorf ErrNonceGap "nonce gap")
  else if txNonce <? accountNonce then throw (errorf ErrNonceLow "invalid nonce")
  else if accountNonce =? u64_max - 1 then throw (errorf ErrInvalidSequence "nonce overflow")
  else
    let! account := on_error (of_outcome (SetSequence (accountNonce + 1) account)) (wrap_error "failed to set sequence") in
    VmKeeper.auth (ak_SetAccount account).

Definition EmitTxHashEvent (ethTx : EthTx) (blockTxIndex msgIndex : Z) : M St unit :=
  emit (EvEthereumTx (Tx_Hash ethTx) (wrap u64_max (blockTxIndex + msgIndex))).

(** ** The decorator *)

(** Steps 2 to 5: everything that reads no account.  The result is the fee of the
    fee cap. *)
Definition check_fees_and_signature (du : DecoratorUtils) (simulate : bool) (ethMsg : MsgEthereumTx) (ethTx : EthTx)
    : M St unit :=
  of_outcome (ValidateTransaction ethTx (du_BaseFee du) height (ac_time ctx)) >>!
  let fee := dNew (GetFee ethTx) in
  let gasLimit := dNew (Tx_Gas ethTx) in
  when (ac_isCheckTx ctx && negb simulate)
    (CheckMempoolFee fee (du_MempoolMinGasPrice du) gasLimit (IsLondon (du_Rules du))) >>!
  let fee := match du_BaseFee du with
             | Some b => if Tx_Type ethTx >=? 2 then dNew (GetEffectiveFee ethTx b) else fee
             | None => fee
             end in
  CheckGlobalFee fee (du_GlobalMinGasPrice du) gasLimit >>!
  of_outcome (ValidateMsg ethTx) >>!
  of_outcome (SignatureVerification (Sender_at height (ac_time ctx)) ethMsg ethTx).

(** Steps 6 to 9: the sender's account pays and its nonce advances. *)
Definition charge_sender (du : DecoratorUtils) (from : addr) (ethTx : EthTx) : M St unit :=
  let fromAddr := BytesToAddress from in
  let! account := vm (VmKeeper.GetAccount info fromAddr) in
  vm (VerifyAccountBalance account fromAddr ethTx) >>!
  vm (CanTransfer (AsMessage fromAddr ethTx (du_BaseFee du)) (du_BaseFee du) (IsLondon (du_Rules du))) >>!
  let! msgFees := VerifyFee ethTx (eci_Denom info) (du_BaseFee du) (IsHomestead (du_Rules du)) (IsIstanbul (du_Rules du))
                    (IsShanghai (du_Rules du)) (ac_isCheckTx ctx) in
  ConsumeFeesAndEmitEvent msgFees from >>!
  let! acc := gets (λ s, ak_GetAccount (ps_bank (vs_pb (an_vm s))) from) in
  match acc with
  | None => throw (errorf ErrUnknownAddress "account does not exist")
  | Some acc => vm (IncrementNonce acc (Tx_Nonce ethTx))
  end.

(** [next] gets the limit of the new gas meter and the priority. *)
Definition AnteHandle {A} (tx : SdkTx) (simulate : bool) (next : Z → Z → M St A) : M St A :=
  let! txFeeInfo :=
    (if ac_isReCheckTx ctx then ret None
     else let! fee := of_outcome (ValidateTx tx) in ret (Some fee)) in
  SetupContextAndResetTransientGas tx >>!
  let! du := NewMonoDecoratorUtils in
  match tx_Msgs tx with
  | [msg] =>
      let! (ethMsg, raw) := of_outcome (UnpackEthMsg msg) in
      match raw with
      | None => panic "nil pointer dereference"
      | Some ethTx =>
          check_fees_and_signature du simulate ethMsg ethTx >>!
          charge_sender du (From ethMsg) ethTx >>!
          let gas := Tx_Gas ethTx in
          let gasWanted := UpdateCumulativeGasWanted (ac_isCheckTx ctx) gas maxGasWanted 0 in
          let minPriority := GetMsgPriority DefaultPriorityReduction ethTx (i64_max - 1) (du_BaseFee du) in
          let txFee := GetFee ethTx in
          fee_market (CheckGasWanted (ac_ctx ctx) (ftx_Gas <$> tx_FeeTx tx) (IsLondon (du_Rules du)) feemarketParams) >>!
          EmitTxHashEvent ethTx (du_BlockTxIndex du) 0 >>!
          CheckTxFee ((λ f, (Coins_AmountOf (pf_Amount f) (eci_ExtendedDenom info), pf_GasLimit f)) <$> txFeeInfo)
            txFee gas >>!
          let! (limit, priority) := of_outcome (CheckBlockGasLimit (ac_ctx ctx) gasWanted minPriority) in
          next limit priority
      end
  | _ => throw (errorf ErrInvalidRequest "expected 1 message")
  end.
End ante.
