(* ===== verification/AnteEvmThms.v ===== *)
(** Properties of the mono decorator: an accepted transaction is signed by the
    account it charges, pays exactly its fee, can pay its value too, and uses up
    its nonce. *)

From S2P Require Import Prelude.
From S2P Require Import Sdk.
From S2P Require Import SdkAuth.
From S2P Require Import EvmDenom.
From S2P Require Import PreciseBank.
From S2P Require Import PreciseBankInv.
From S2P Require Import PreciseBankOps.
From S2P Require Import PreciseBankLive.
From S2P Require Import AccessList.
From S2P Require Import StateDB.
From S2P Require Import VmKeeper.
From S2P Require Import VmBank.
From S2P Require Import VmKeeperThms.
From S2P Require Import Dec.
From S2P Require Import FeeMarket.
From S2P Require Import TxFees.
From S2P Require Import TxFeesThms.
From S2P Require Import AnteEvm.

Section ante.
Context `{SdkTypesLaws, AccountKeeperLaws} {B : Type} `{!BankKeeper B, !BankKeeperLaws B}.
Context `{!AuthAccounts, !AuthKeeper B, !AuthKeeperLaws B} `{Crypto, GethAddressLaws}.
Context `{GethTxLaws, !GethConfig, DecTypes}.
Context (info : EvmCoinInfo) (Hinfo : valid_coin_info info) (Hreserve : reserve ≠ EmptyString).

Abbreviation xdenom := (ExtendedCoinDenom info).
Abbreviation collector := (GetModuleAddress FeeCollectorName).
Abbreviation VS := (VmState B).
Abbreviation account s x := (ak_GetAccount (ps_bank (vs_pb s)) x).
Implicit Types (p : PState B) (s : VS) (a : Address) (x : addr) (tx : EthTx).

(** ** Steps that move no money *)

Definition quiet s s' : Prop := effect info (vs_pb s) (vs_pb s') (λ _, 0) 0.

Lemma quiet_bank s b' :
  pb_wf info (vs_pb s) → same_coins (ps_bank (vs_pb s)) b' →
  (∀ x d, bk_LockedCoin b' x d = bk_LockedCoin (ps_bank (vs_pb s)) x d) → quiet s (with_bank b' s).
Proof.
  intros [Hf Hr] [Hb Hs] Hl. split; unfold surplus, ext, ext_supply, ilocked, ibal, isupply, frac_of, rem_of in *; cbn;
    rewrite ?Hb, ?Hs; auto; try lia.
  - by split.
  - intros a _. rewrite Hb. case_decide; lia.
  - by apply tracked_refl.
Qed.

Lemma quiet_refl s : pb_wf info (vs_pb s) → quiet s s.
Proof. apply effect_refl. Qed.

(** The sequence of an account, zero for none. *)
Definition sequence s x : Z := match account s x with Some acc => GetSequence acc | None => 0 end.

Lemma GetNonce_run a s : VmKeeper.GetNonce a s = (s, Ok (sequence s (Address_Bytes a))).
Proof. unfold VmKeeper.GetNonce, sequence. rewrite (bind_Ok (gets _) _ s s _ eq_refl). by destruct (account s _). Qed.

(** ** The balance check *)

Lemma check_balance_inv b tx s s' :
  check_balance (Some b) tx s = (s', Ok tt) → s' = s ∧ CheckSenderBalance b tx = Ok tt.
Proof.
  unfold check_balance. intros (s1 & n & [-> ->]%ichk_inv & E%on_error_Ok_inv)%bind_Ok_inv. by injection E.
Qed.

Lemma verify_inv a tx s s' :
  funded info (vs_pb s) → Address_Bytes a ≠ reserve →
  VerifyAccountBalance (shown info s a) a tx s = (s', Ok tt) →
  quiet s s' ∧ is_Some (account s' (Address_Bytes a)) ∧ sequence s' (Address_Bytes a) = sequence s (Address_Bytes a) ∧
  (∀ x, x ≠ Address_Bytes a → account s' x = account s x) ∧
  ∃ b, 0 ≤ b ≤ ext_spend info (vs_pb s) (Address_Bytes a) ∧ b < u256_max ∧ CheckSenderBalance b tx = Ok tt.
Proof.
  intros Hf Ha. pose proof (fd_wf _ _ Hf) as Hwf. pose proof (spend_nonneg info Hinfo (vs_pb s) (Address_Bytes a) Hwf) as Hnn.
  unfold VerifyAccountBalance, shown. destruct (account s (Address_Bytes a)) as [acct|] eqn:Hacc.
  - intros (s1 & [] & E1 & E)%bind_Ok_inv. cbn [fmap option_fmap option_map raw_Balance raw_CodeHash] in *.
    assert (s1 = s) as ->.
    { destruct (HasCodeHash _); [|by injection E1]. rewrite (bind_Ok (VmKeeper.GetCode _) _ s s _ eq_refl) in E1.
      destruct (_ && _); by injection E1. }
    apply check_balance_inv in E as [-> Hc]. split_and!; try done; [by apply quiet_refl|].
    unfold spendable in Hc. rewrite decide_False in Hc by done. eexists. split_and!; [| | |exact Hc]; [done|lia|].
    by apply (fd_range _ _ Hf).
  - intros (s1 & acc & (b1 & En & ->)%auth_Ok_inv & (s2 & [] & (b2 & Es & ->)%auth_Ok_inv & [-> Hc]%check_balance_inv)%bind_Ok_inv)%bind_Ok_inv.
    cbn in Es. destruct (ak_new_spec _ _ _ _ En) as (Hadr & Hseq & Hg1 & [Hb1 Hs1] & Hl1).
    destruct (ak_set_spec _ _ _ Es) as (Hg2 & [Hb2 Hs2] & Hl2). rewrite Hadr in Hg2, Hl2.
    split_and!.
    + change (quiet s (with_bank b2 s)). apply quiet_bank; [done|split; intros; congruence|]. intros x d.
      destruct (decide (x = Address_Bytes a)) as [->|Hne]; [|by rewrite Hl2, Hl1].
      rewrite (no_account_locked (ps_bank (vs_pb s)) _ _ Hacc). by eapply fresh_account_locked.
    + cbn. rewrite Hg2, decide_True by done. by eexists.
    + unfold sequence. cbn. by rewrite Hg2, decide_True, Hacc.
    + intros x Hx. cbn. by rewrite Hg2, decide_False, Hg1.
    + exists 0. split_and!; try done; lia.
Qed.

(** ** Reads *)

Lemma pb_reads {A} (m : M (PState B) A) s :
  (∀ p, preserves (eq p) m) → preserves (eq s) (VmKeeper.pb m).
Proof.
  intros Hm t <-. unfold VmKeeper.pb, zoom. specialize (Hm (vs_pb s) _ eq_refl).
  destruct (m (vs_pb s)) as [p' o]. cbn in *. subst p'. by destruct s.
Qed.

Lemma GetAccount_reads a s : preserves (eq s) (VmKeeper.GetAccount info a).
Proof.
  unfold VmKeeper.GetAccount, VmKeeper.GetAccountWithoutBalance, VmKeeper.SpendableCoin, VmKeeper.GetCodeHash.
  repeat preserves_step. apply pb_reads. intros p. unfold BankWrapper.SpendableCoin, PreciseBank.SpendableCoin,
    GetFractionalBalance, imul, iadd, ichk, newCoin. repeat preserves_step.
Qed.

Lemma CanTransfer_reads msg base l s s' : CanTransfer info msg base l s = (s', Ok tt) → s' = s.
Proof.
  intros E. assert (preserves (eq s) (CanTransfer info msg base l)) as Hp.
  { unfold CanTransfer, dval. repeat (preserves_step || apply GetAccount_reads). }
  specialize (Hp s eq_refl). by rewrite E in Hp.
Qed.

(** ** The fee *)

Lemma VerifyFee_inv {S} tx d base h i sh c (s s' : S) cs :
  VerifyFee tx d base h i sh c s = (s', Ok cs) →
  s' = s ∧ ∃ b, base = Some b ∧ b ≤ Tx_GasFeeCap tx ∧
    let fee := Tx_Gas tx * effective_price tx b in
    (fee = 0 ∧ cs = []) ∨ (fee ≠ 0 ∧ int_ok fee = true ∧ cs = [mkCoin d fee]).
Proof.
  unfold VerifyFee. destruct (IntrinsicGas _ _ _ _ _); [|done]. destruct (_ && _); [done|].
  destruct base as [b|]; [|done]. destruct (Z.ltb_spec (Tx_GasFeeCap tx) b) as [|Hle]; [done|].
  rewrite (bind_Ok (dval (Some b)) _ s s b eq_refl), tx_tip_spec by done.
  replace (Z.min (Tx_GasTipCap tx) (Tx_GasFeeCap tx - b) + b) with (effective_price tx b) by (unfold effective_price; lia).
  intros E. assert (s' = s ∧ (Tx_Gas tx * effective_price tx b = 0 ∧ cs = [] ∨
    Tx_Gas tx * effective_price tx b ≠ 0 ∧ int_ok (Tx_Gas tx * effective_price tx b) = true ∧
    cs = [mkCoin d (Tx_Gas tx * effective_price tx b)])) as [-> Hcs].
  { destruct (Z.eqb_spec (Tx_Gas tx * effective_price tx b) 0); [injection E as <- <-; by auto|].
    unfold bind, ichk in E. destruct (int_ok _) eqn:Hok; [|done]. injection E as <- <-. by auto. }
  split; [done|]. by exists b.
Qed.

Context (sort : Coins → Coins) (Hsort : ∀ c, sort [c] = [c]).
Context (DeductFees : AccountI → Coins → M (PState B) unit).
Context (HDeduct : ∀ acc fees, DeductFees acc fees =
  if negb (Coins_IsValid fees) then throw (errorf ErrInsufficientFee "invalid fee amount")
  else on_error (BankWrapper.SendCoinsFromAccountToModule info sort (GetAddress acc) FeeCollectorName fees)
         (λ _, ret (errorf ErrInsufficientFunds "failed to deduct fees"))).
Context (BytesToAddress : addr → Address) (HBytes : ∀ a, BytesToAddress (Address_Bytes a) = a).

(** What the sender pays and the fee collector gets. *)
Definition paid a n x : Z := point collector n x - point (Address_Bytes a) n x.

Lemma deduct_inv a n s s' cs :
  pb_wf info (vs_pb s) → Address_Bytes a ≠ reserve → 0 ≤ n →
  is_Some (account s reserve) → is_Some (account s collector) →
  (n = 0 ∧ cs = [] ∨ n ≠ 0 ∧ int_ok n = true ∧ cs = [mkCoin (eci_Denom info) n]) →
  deductFees BytesToAddress DeductFees cs (Address_Bytes a) s = (s', Ok tt) →
  effect info (vs_pb s) (vs_pb s') (paid a n) 0 ∧ (∀ x, account s' x = account s x).
Proof.
  intros Hwf Ha Hn Hre Hco Hcs E. unfold deductFees in E. destruct Hcs as [[-> ->]|(Hnz & Hok & ->)].
  { injection E as <-. split; [|done]. eapply effect_proper, effect_refl; [|done|done].
    intros x. unfold paid, point. repeat case_decide; lia. }
  cbn [BankWrapper.coins_zero forallb Amount] in E. destruct (Z.eqb_spec n 0); [done|]. cbn [andb] in E.
  apply on_error_Ok_inv in E. rewrite HBytes in E. split.
  - eapply (Deduct_moves info Hinfo Hreserve sort Hsort DeductFees HDeduct); try done. lia.
  - unfold VmKeeper.DeductTxCostsFromUserBalance in E. rewrite (bind_Ok (gets _) _ s s _ eq_refl) in E.
    destruct (account s (Address_Bytes a)) as [acct|]; [|done].
    apply on_error_Ok_inv, pb_Ok_inv in E as (p' & E & ->). rewrite HDeduct in E.
    destruct (Coins_IsValid _); [|done]. apply on_error_Ok_inv in E.
    unfold BankWrapper.SendCoinsFromAccountToModule in E. destruct (BankWrapper.coins_zero _); [by injection E as <-|].
    apply (kept_to_module info Hreserve (λ x, account s x) Hre _ _ _ Hco) in E; [|done]. intros x. apply E.
Qed.

(** ** The nonce *)

Lemma nonce_inv acc n s s' x :
  pb_wf info (vs_pb s) → account s x = Some acc → IncrementNonce acc n s = (s', Ok tt) →
  quiet s s' ∧ n = GetSequence acc ∧ n ≠ u64_max - 1 ∧ sequence s' x = n + 1 ∧ is_Some (account s' x) ∧
  (∀ y, y ≠ x → account s' y = account s y).
Proof.
  intros Hwf Hacc. pose proof (ak_address _ _ _ Hacc) as Hx. unfold IncrementNonce.
  destruct (Z.gtb_spec n (GetSequence acc)); [done|]. destruct (Z.ltb_spec n (GetSequence acc)); [done|].
  destruct (Z.eqb_spec (GetSequence acc) (u64_max - 1)); [done|].
  intros (s1 & acc' & E1%on_error_Ok_inv & (b' & E2 & ->)%auth_Ok_inv)%bind_Ok_inv. injection E1 as <- Eq.
  destruct (set_sequence_spec _ _ _ Eq) as [Hq Hadr]. destruct (ak_set_spec _ _ _ E2) as (Hg & Hco & Hl).
  rewrite Hadr, Hx in Hg, Hl. split_and!; try lia.
  - apply quiet_bank; try done. intros y d. destruct (decide (y = x)) as [->|Hne]; [|by apply Hl].
    by eapply set_sequence_locked.
  - unfold sequence. cbn. rewrite Hg, decide_True by done. lia.
  - cbn. rewrite Hg, decide_True by done. by eexists.
  - intros y Hy. cbn. by rewrite Hg, decide_False.
Qed.

(** ** The decorator *)

Context (reduction maxGasWanted : Z) (evmParams : EvmParams) (params : Params) (ctx : AnteCtx).
Abbreviation AS := (AnteState B).
Implicit Types (st : AS).

Lemma vm_Ok_inv {A} (m : M VS A) st st' v :
  vm m st = (st', Ok v) → ∃ s', m (an_vm st) = (s', Ok v) ∧ st' = set_vm s' st.
Proof. unfold vm, zoom. destruct (m (an_vm st)) as [s' o]. intros [= <- ->]. eauto. Qed.

(** What is known after the sender was charged. *)
Record charged a tx base s s' : Prop := {
  ch_money : effect info (vs_pb s) (vs_pb s') (paid a (Tx_Gas tx * effective_price tx base)) 0;
  ch_price : base ≤ Tx_GasFeeCap tx;
  ch_covered : Tx_Gas tx * effective_price tx base + Tx_Value tx ≤ ext_spend info (vs_pb s) (Address_Bytes a);
  ch_nonce : sequence s (Address_Bytes a) = Tx_Nonce tx;
  ch_next : sequence s' (Address_Bytes a) = Tx_Nonce tx + 1 ∧ Tx_Nonce tx ≠ u64_max - 1;
  ch_account : is_Some (account s' (Address_Bytes a));
  ch_others : ∀ x, x ≠ Address_Bytes a → account s' x = account s x
}.

Lemma cost_covers tx base b :
  0 ≤ base ≤ Tx_GasFeeCap tx → 0 ≤ Tx_GasTipCap tx → CheckSenderBalance b tx = Ok tt →
  0 ≤ Tx_Gas tx * effective_price tx base ∧ Tx_Gas tx * effective_price tx base + Tx_Value tx ≤ b.
Proof.
  intros Hb Ht. unfold CheckSenderBalance. destruct (Z.ltb_spec (Tx_Cost tx) 0); [done|].
  destruct (Z.ltb_spec b 0); [done|]. destruct (Z.ltb_spec b (Tx_Cost tx)); [done|]. intros _.
  rewrite tx_cost_spec in *. pose proof (tx_gas_range tx). unfold effective_price. nia.
Qed.

Lemma fee_nonneg tx base : 0 ≤ base ≤ Tx_GasFeeCap tx → 0 ≤ Tx_GasTipCap tx → 0 ≤ Tx_Gas tx * effective_price tx base.
Proof. intros. pose proof (tx_gas_range tx). unfold effective_price. nia. Qed.

Lemma charge_inv du a tx st st' :
  funded info (vs_pb (an_vm st)) → is_Some (account (an_vm st) collector) → Address_Bytes a ≠ reserve →
  0 ≤ Tx_GasTipCap tx → (∀ b, du_BaseFee du = Some b → 0 ≤ b) →
  charge_sender info BytesToAddress DeductFees ctx du (Address_Bytes a) tx st = (st', Ok tt) →
  an_fee st' = an_fee st ∧ ∃ base, du_BaseFee du = Some base ∧ charged a tx base (an_vm st) (an_vm st').
Proof.
  intros Hf Hco Ha Ht Hbase E. unfold charge_sender in E. rewrite HBytes in E.
  apply bind_Ok_inv in E as (st1 & acct & (s1 & E1 & ->)%vm_Ok_inv & E).
  rewrite GetAccount_run in E1 by done. injection E1 as <- <-.
  apply bind_Ok_inv in E as (st2 & [] & (s2 & E2 & ->)%vm_Ok_inv & E). cbn in E2.
  apply verify_inv in E2 as (Hq2 & Hs2 & Hn2 & Hx2 & b & Hb & Hb' & Hc); try done.
  apply bind_Ok_inv in E as (st3 & [] & (s3 & E3 & ->)%vm_Ok_inv & E). cbn in E3. apply CanTransfer_reads in E3 as ->.
  apply bind_Ok_inv in E as (st4 & fees & [-> (base & Hdu & Hcap & Hfee)]%VerifyFee_inv & E).
  specialize (Hbase base Hdu). destruct (cost_covers tx base b) as [Hfee0 Hcov]; try done.
  apply bind_Ok_inv in E as (st5 & [] & E5 & E). unfold ConsumeFeesAndEmitEvent in E5.
  apply bind_Ok_inv in E5 as (st6 & [] & (s6 & E6 & ->)%vm_Ok_inv & [= <-]). cbn in E6.
  assert (∀ m, m ≠ Address_Bytes a → is_Some (account (an_vm st) m) → is_Some (account s2 m)) as Hk by (intros; by rewrite Hx2).
  assert (is_Some (account s2 reserve)) as Hre2 by (apply Hk; [done|apply (fd_reserve _ _ Hf)]).
  assert (is_Some (account s2 collector)) as Hco2
    by (destruct (decide (collector = Address_Bytes a)) as [->|]; [done|by apply Hk]).
  apply (deduct_inv a (Tx_Gas tx * effective_price tx base)) in E6 as [He6 Hx6]; try done; [|apply Hq2].
  rewrite (bind_Ok (gets _) _ _ _ _ eq_refl) in E. cbn in E. destruct Hs2 as [acc Hacc].
  rewrite Hx6, Hacc in E. apply vm_Ok_inv in E as (s7 & E7 & ->). cbn in E7.
  assert (account s6 (Address_Bytes a) = Some acc) as Hacc6 by by rewrite Hx6.
  apply (nonce_inv _ _ _ _ (Address_Bytes a)) in E7 as (Hq7 & Hn & Hmax & Hs7 & Ha7 & Hx7); try done; [|apply He6].
  split; [done|]. exists base. split; [done|]. cbn. split; try done.
  - eapply effect_proper, effect_trans; [| |exact Hq2|eapply effect_trans; [exact He6|exact Hq7]]; [|lia].
    intros x. cbn. lia.
  - lia.
  - rewrite <-Hn2. unfold sequence. by rewrite Hacc.
  - intros x Hx. by rewrite Hx7, Hx6, Hx2.
Qed.

(** The base fee does not depend on the state and is not negative. *)
Lemma GetBaseFee_inv st st' b :
  Params_Validate params = Ok tt → GetBaseFee info params ctx st = (st', Ok b) →
  st' = st ∧ (∀ st0 : AS, (GetBaseFee info params ctx st0).2 = Ok b) ∧ ∀ base, b = Some base → 0 ≤ base.
Proof.
  intros Hv. assert (∀ fee, BaseFee params = Some fee → 0 ≤ fee) as Hfee.
  { intros fee Hfe. unfold Params_Validate in Hv. rewrite Hfe in Hv. destruct (_ =? 0); [done|].
    destruct (Z.ltb_spec fee 0); [done|lia]. }
  unfold GetBaseFee. destruct (London_at _); cbn [negb]; [|by intros [= <- <-]].
  destruct (NoBaseFee params); [by intros [= <- <-]; split_and!; try done; intros ? [= <-]|].
  destruct (BaseFee params) as [fee|]; [|done]. specialize (Hfee fee eq_refl). unfold dval. setoid_rewrite bind_ret.
  destruct (fee =? 0); [by intros [= <- <-]; split_and!; try done; intros ? [= <-]|].
  pose proof (coin_factor_bounds info Hinfo) as Hcf. unfold ConvertAmountTo18DecimalsLegacy, coin_factor in *.
  destruct (Decimals_ConversionFactor _) as [cf|]; [|done]. cbn [default dval id] in *.
  unfold dval, dmulInt, dchk, bind, ret. destruct (dec_ok _); [|done]. intros [= <- <-]. split_and!; try done.
  intros base [= <-]. unfold dTruncate. apply Z.quot_pos; [nia|done].
Qed.

Lemma utils_inv st st' du :
  Params_Validate params = Ok tt → NewMonoDecoratorUtils info params ctx st = (st', Ok du) →
  st' = st ∧ (∀ st0 : AS, (GetBaseFee info params ctx st0).2 = Ok (du_BaseFee du)) ∧ ∀ base, du_BaseFee du = Some base → 0 ≤ base.
Proof.
  intros Hv (st1 & b & (-> & Hb & Hpos)%GetBaseFee_inv & E)%bind_Ok_inv; [|done]. destruct (_ && _); [done|].
  apply bind_Ok_inv in E as (st2 & g & E2 & E). apply bind_Ok_inv in E as (st3 & m & E3 & E).
  rewrite (bind_Ok GetTxIndexTransient _ _ _ _ eq_refl) in E. injection E as <- <-. cbn [du_BaseFee].
  assert (st2 = st) as -> by (unfold dval in E2; destruct (MinGasPrice params); by injection E2).
  split_and!; [|apply Hb|done]. unfold ConvertAmountTo18DecimalsLegacy, dval, dmulInt, dchk in E3.
  destruct (Decimals_ConversionFactor _); [|done]. rewrite bind_ret in E3. destruct (dec_ok _); by injection E3.
Qed.

Lemma signature_inv du sim m tx st st' :
  check_fees_and_signature evmParams ctx du sim m tx st = (st', Ok tt) →
  st' = st ∧ ∃ a, Sender_at (BlockHeight (ac_ctx ctx)) (ac_time ctx) tx = Ok a ∧ From m = Address_Bytes a.
Proof.
  intros E. assert (preserves (eq st) (check_fees_and_signature evmParams ctx du sim m tx)) as Hp.
  { unfold check_fees_and_signature, CheckMempoolFee, CheckGlobalFee, dmul, dchk. repeat preserves_step. }
  specialize (Hp st eq_refl). rewrite E in Hp. split; [done|]. unfold check_fees_and_signature in E.
  repeat (apply bind_Ok_inv in E as (? & [] & _ & E)). unfold of_outcome, SignatureVerification, VerifySender in E.
  destruct (Sender_at _ _ tx) as [a| |]; [|done..]. exists a. split; [done|].
  destruct (bool_decide (From m = Address_Bytes a)) eqn:Hd; [by apply bool_decide_eq_true in Hd|done].
Qed.

(** After the fee the sender can still pay the value. *)
Lemma charged_value a tx base s s' :
  funded info (vs_pb s) → Address_Bytes a ≠ reserve → 0 ≤ Tx_Gas tx * effective_price tx base → 0 ≤ Tx_Value tx →
  charged a tx base s s' → Tx_Value tx ≤ ext_spend info (vs_pb s') (Address_Bytes a).
Proof.
  intros Hf Ha Hfee Hval [He _ Hcov _ _ _ _]. set (x := Address_Bytes a) in *. set (fee := Tx_Gas tx * _) in *.
  pose proof (CF_bounds info Hinfo) as HCF. pose proof (frac_range info Hinfo (vs_pb s') x (ef_wf _ _ _ _ _ He)) as Hfr.
  pose proof (ef_ext _ _ _ _ _ He x Ha) as Hx. pose proof (ef_locked _ _ _ _ _ He x) as Hl.
  rewrite (spend_ext info) in Hcov by (done || by apply (fd_locked _ _ Hf)).
  assert (ext info (vs_pb s) x - fee ≤ ext info (vs_pb s') x) as Hle by (unfold paid, point in Hx; repeat case_decide; lia).
  assert (ilocked info (vs_pb s') x ≤ ibal info (vs_pb s') x) as Hlk.
  { unfold ext in Hle, Hcov. rewrite !decide_False in Hle by done. rewrite decide_False in Hcov by done. nia. }
  rewrite (spend_ext info) by done. rewrite Hl. lia.
Qed.

Lemma ValidateBasic_inv m tx :
  Raw m = Some tx → MsgEthereumTx_ValidateBasic m = Ok tt → 0 ≤ Tx_Value tx ∧ 0 ≤ Tx_GasTipCap tx.
Proof.
  unfold MsgEthereumTx_ValidateBasic. intros ->. destruct (addr_empty _); [done|].
  destruct (Z.ltb_spec (Tx_Value tx) 0); [done|]. do 2 (destruct (_ >=? _); [done|]).
  destruct (Z.ltb_spec (Tx_GasTipCap tx) 0); [done|]. lia.
Qed.

(** * Properties *)

Abbreviation run_ante tx sim :=
  (AnteHandle info BytesToAddress DeductFees reduction maxGasWanted evmParams params ctx tx sim (λ l q, ret (l, q))).

(** Contracts and the parameters of the fee market are not touched. *)
Definition contracts s := (vs_codeHash s, vs_code s, vs_storage s).
Definition untouched c f st : Prop := contracts (an_vm st) = c ∧ fs_params (an_fee st) = f.

Lemma keep_vm {A} c f (m : M VS A) : preserves (λ s, contracts s = c) m → preserves (untouched c f) (vm m).
Proof. intros Hm st [Hc Hf]. unfold vm, zoom. specialize (Hm _ Hc). by destruct (m (an_vm st)). Qed.

Lemma keep_pb {A} c (m : M (PState B) A) : preserves (λ s, contracts s = c) (VmKeeper.pb m).
Proof. intros s Hc. unfold VmKeeper.pb, zoom. by destruct (m (vs_pb s)). Qed.

Lemma keep_GetAccount c a : preserves (λ s, contracts s = c) (VmKeeper.GetAccount info a).
Proof.
  unfold VmKeeper.GetAccount, VmKeeper.GetAccountWithoutBalance, VmKeeper.SpendableCoin, VmKeeper.GetCodeHash.
  repeat (preserves_step || apply keep_pb).
Qed.

Lemma charge_keeps c f du x tx : preserves (untouched c f) (charge_sender info BytesToAddress DeductFees ctx du x tx).
Proof.
  unfold charge_sender, VerifyFee, ConsumeFeesAndEmitEvent, deductFees, VerifyAccountBalance, CanTransfer, IncrementNonce,
    check_balance, VmKeeper.DeductTxCostsFromUserBalance, VmKeeper.auth, ichk, dval, wrap_error.
  repeat (preserves_step || apply keep_vm || apply keep_pb || apply keep_GetAccount).
  all: by apply preserves_modify.
Qed.

Lemma gas_wanted_keeps f c g l q : preserves (λ fs, fs_params fs = f) (CheckGasWanted c g l q).
Proof.
  unfold CheckGasWanted, AddTransientGasWanted, SetTransientBlockGasWanted, GetTransientGasWanted.
  repeat preserves_step. all: by apply preserves_modify.
Qed.

Lemma keep_fee_market {A} c f (m : M FeeState A) :
  preserves (λ fs, fs_params fs = f) m → preserves (untouched c f) (fee_market m).
Proof. intros Hm st [Hc Hf]. unfold fee_market, zoom. specialize (Hm _ Hf). by destruct (m (an_fee st)). Qed.

Lemma ante_keeps c f (tx : SdkTx) sim : preserves (untouched c f) (run_ante tx sim).
Proof.
  unfold AnteHandle, SetupContextAndResetTransientGas, NewMonoDecoratorUtils, GetBaseFee, ConvertAmountTo18DecimalsLegacy,
    dmulInt, dchk, dval, check_fees_and_signature, CheckMempoolFee, CheckGlobalFee, dmul, dchk, EmitTxHashEvent, CheckTxFee,
    ichk, GetTxIndexTransient, ResetTransientGasUsed.
  repeat (preserves_step || apply charge_keeps). all: try (by apply preserves_modify).
  by apply keep_fee_market, gas_wanted_keeps.
Qed.

Lemma ante_accepts (tx : SdkTx) sim st st' limit priority :
  funded info (vs_pb (an_vm st)) → is_Some (account (an_vm st) collector) →
  Params_Validate params = Ok tt →
  (∀ m, EthMsg m ∈ tx_Msgs tx → MsgEthereumTx_ValidateBasic m = Ok tt) →
  (∀ t a, Sender_at (BlockHeight (ac_ctx ctx)) (ac_time ctx) t = Ok a → Address_Bytes a ≠ reserve) →
  run_ante tx sim st = (st', Ok (limit, priority)) →
  ∃ m ethTx a base,
    tx_Msgs tx = [EthMsg m] ∧ Raw m = Some ethTx ∧ From m = Address_Bytes a ∧
    Sender_at (BlockHeight (ac_ctx ctx)) (ac_time ctx) ethTx = Ok a ∧
    (GetBaseFee info params ctx st).2 = Ok (Some base) ∧
    charged a ethTx base (an_vm st) (an_vm st') ∧
    Tx_Value ethTx ≤ ext_spend info (vs_pb (an_vm st')) (Address_Bytes a) ∧
    limit ≤ BlockGasLimit (ac_ctx ctx).
Proof.
  intros Hf Hco Hv Hmsgs Hsig E. unfold AnteHandle in E.
  apply bind_Ok_inv in E as (st0 & info0 & E0 & E).
  assert (st0 = st) as -> by (destruct (ac_isReCheckTx ctx); [by injection E0|]; by destruct (ValidateTx tx); injection E0).
  apply bind_Ok_inv in E as (st1 & [] & E1 & E). unfold SetupContextAndResetTransientGas in E1.
  destruct (tx_isGasTx tx); [|done]. injection E1 as <-.
  apply bind_Ok_inv in E as (st2 & du & (-> & Hbase & Hpos)%utils_inv & E); [|done].
  destruct (tx_Msgs tx) as [|[m|?|?|?] [|]] eqn:Hm; try done. cbn [UnpackEthMsg] in E.
  rewrite (bind_Ok (of_outcome _) _ _ _ _ eq_refl) in E.
  destruct (Raw m) as [ethTx|] eqn:Hraw; [|done].
  destruct (ValidateBasic_inv m ethTx Hraw) as [Hval Htip]; [apply Hmsgs; by left|].
  apply bind_Ok_inv in E as (st3 & [] & (-> & a & Hs & Hfrom)%signature_inv & E). rewrite Hfrom in E.
  apply bind_Ok_inv in E as (st4 & [] & E4 & E). specialize (Hsig _ _ Hs).
  apply charge_inv in E4 as (_ & base & Hdu & Hch); try done. cbn [an_vm set_gasUsed] in Hch.
  apply bind_Ok_inv in E as (st5 & [] & E5 & E). unfold fee_market, zoom in E5. destruct (CheckGasWanted _ _ _ _ _) as [fs o] in E5.
  injection E5 as <- _. rewrite (bind_Ok (EmitTxHashEvent _ _ _) _ _ _ _ eq_refl) in E.
  apply bind_Ok_inv in E as (st6 & [] & E6 & E).
  assert (an_vm st6 = an_vm st4) as Hvm.
  { unfold CheckTxFee in E6. destruct info0 as [pf|]; [|by injection E6 as <-]. cbn in E6.
    apply bind_Ok_inv in E6 as (s7 & n & [-> _]%ichk_inv & E6). repeat (destruct (negb _) in E6; [done|]). by injection E6 as <-. }
  apply bind_Ok_inv in E as (st7 & [l p] & E7 & [= <- -> ->]). unfold CheckBlockGasLimit, of_outcome in E7.
  destruct (Z.gtb_spec (UpdateCumulativeGasWanted (ac_isCheckTx ctx) (Tx_Gas ethTx) maxGasWanted 0) (BlockGasLimit (ac_ctx ctx)));
    [done|]. injection E7 as <- <- _. rewrite Hvm. exists m, ethTx, a, base. split_and!; try done.
  - by rewrite Hbase, Hdu.
  - apply (charged_value a ethTx base (an_vm st) (an_vm st4)); try done.
    apply fee_nonneg; [|done]. split; [by apply Hpos|apply (ch_price _ _ _ _ _ Hch)].
Qed.

(** C6: what the mono decorator lets through is paid for.  If it accepts a transaction
    (whose message passed its own validation), then: it has one message, an Ethereum
    transaction signed by the account it is charged to; the sender paid and the fee
    collector received exactly the gas limit times min(tip cap + base fee, fee cap),
    with the supply and every other balance as they were; the transaction's nonce was
    the sender's and the sender's is now the next one; the fee and the value together
    were covered, and the value still is; the gas fits the block. *)
Theorem AnteHandle_charges (tx : SdkTx) sim st st' limit priority :
  funded info (vs_pb (an_vm st)) → is_Some (account (an_vm st) collector) →
  Params_Validate params = Ok tt →
  (∀ m, EthMsg m ∈ tx_Msgs tx → MsgEthereumTx_ValidateBasic m = Ok tt) →
  (∀ t a, Sender_at (BlockHeight (ac_ctx ctx)) (ac_time ctx) t = Ok a → Address_Bytes a ≠ reserve) →
  run_ante tx sim st = (st', Ok (limit, priority)) →
  ∃ m ethTx a base,
    tx_Msgs tx = [EthMsg m] ∧ Raw m = Some ethTx ∧ From m = Address_Bytes a ∧
    Sender_at (BlockHeight (ac_ctx ctx)) (ac_time ctx) ethTx = Ok a ∧
    (GetBaseFee info params ctx st).2 = Ok (Some base) ∧
    charged a ethTx base (an_vm st) (an_vm st') ∧
    Tx_Value ethTx ≤ ext_spend info (vs_pb (an_vm st')) (Address_Bytes a) ∧
    limit ≤ BlockGasLimit (ac_ctx ctx).
Proof. apply ante_accepts. Qed.

(** Step 9 of the decorator for an account. *)
Definition use_nonce x (n : Z) : M VS unit :=
  let! acc := gets (λ s, account s x) in
  match acc with
  | None => throw (errorf ErrUnknownAddress "account does not exist")
  | Some acc => IncrementNonce acc n
  end.

Lemma use_nonce_inv x n s s' :
  pb_wf info (vs_pb s) → use_nonce x n s = (s', Ok tt) →
  pb_wf info (vs_pb s') ∧ n = sequence s x ∧ n ≠ u64_max - 1 ∧ sequence s' x = n + 1 ∧ is_Some (account s' x).
Proof.
  intros Hwf. unfold use_nonce, sequence. rewrite (bind_Ok (gets _) _ s s _ eq_refl).
  destruct (account s x) as [acc|] eqn:Hacc; [|done]. intros E.
  apply (nonce_inv _ _ _ _ x) in E as (Hq & -> & Hmax & Hs & Ha & _); try done.
  split_and!; try done. apply Hq.
Qed.

(** A nonce is used once.  It is accepted only when it is the account's sequence,
    which then is the next number and still a [uint64]; and after any number of further
    transactions of the account the same nonce is refused as too low. *)
Theorem IncrementNonce_no_replay x n nonces s s1 s2 :
  pb_wf info (vs_pb s) → 0 ≤ sequence s x < u64_max →
  use_nonce x n s = (s1, Ok tt) → for_each nonces (use_nonce x) s1 = (s2, Ok tt) →
  n = sequence s x ∧ sequence s1 x = n + 1 ∧ sequence s1 x < u64_max ∧
  ∃ e, use_nonce x n s2 = (s2, Err e) ∧ err_code e = ErrNonceLow.
Proof.
  intros Hwf Hseq E Hrun. apply use_nonce_inv in E as (Hwf1 & -> & Hmax & Hs1 & Ha1); [|done].
  split_and!; [done|done|lia|].
  assert (sequence s x < sequence s2 x ∧ is_Some (account s2 x)) as [Hlt [acc Hacc]].
  { assert (sequence s x < sequence s1 x) as Hlt by lia. clear Hs1. revert s1 Hwf1 Ha1 Hlt Hrun.
    induction nonces as [|k l IH]; intros s1 Hwf1 Ha1 Hlt Hrun; [by injection Hrun as <-|]. cbn in Hrun.
    apply bind_Ok_inv in Hrun as (s3 & [] & (Hwf3 & Hk & _ & Hs3 & Ha3)%use_nonce_inv & Hrun); [|done].
    apply (IH s3); try done. lia. }
  unfold use_nonce. rewrite (bind_Ok (gets _) _ s2 s2 _ eq_refl), Hacc. unfold sequence at 2 in Hlt. rewrite Hacc in Hlt.
  unfold IncrementNonce. destruct (Z.gtb_spec (sequence s x) (GetSequence acc)); [lia|].
  destruct (Z.ltb_spec (sequence s x) (GetSequence acc)); [by eexists|lia].
Qed.
End ante.
