(* ===== verification/AnteEvmWit.v ===== *)
(** A transaction that goes through the mono decorator, on the concrete SDK. *)

From S2P Require Import Prelude.
From S2P Require Import Sdk.
From S2P Require Import SdkAuth.
From S2P Require Import EvmDenom.
From S2P Require Import PreciseBank.
From S2P Require Import PreciseBankInv.
From S2P Require Import SdkModel.
From S2P Require Import PreciseBankWit.
From S2P Require Import StateDB.
From S2P Require Import StateDBWit.
From S2P Require Import VmKeeper.
From S2P Require Import VmBank.
From S2P Require Import VmKeeperThms.
From S2P Require Import SdkAuthModel.
From S2P Require Import VmKeeperWit.
From S2P Require Import Dec.
From S2P Require Import FeeMarket.
From S2P Require Import FeeMarketWit.
From S2P Require Import TxFees.
From S2P Require Import TxFeesWit.
From S2P Require Import AnteEvm.
From S2P Require Import AnteEvmThms.

(** London from the start; the sender of a transaction is account 7. *)
#[global] Instance e_config : GethConfig := {|
  Rules_at _ _ := mkEthRules true true true true;
  London_at _ := true;
  Sender_at _ _ _ := Ok 7;
  ValidateTransaction _ _ _ _ := Ok tt
|}.

(** The account 7 of VmKeeperWit.v, with no code. *)
Definition e_vm : VmState AuthBank := mkVmState v_pb ∅ ∅ ∅.
Definition e_state : AnteState AuthBank := mkAnteState e_vm (mkFeeState None None None []) (Some 5) None [].

(** 21000 gas at up to 30 million, base fee 10 million and tip 5 million, and a
    value of one coin. *)
Definition e_tx : EthTx := mkSimpleTx 1 (Some 9) 21000 (3 * 10 ^ 7) (5 * 10 ^ 6) (10 ^ 12) true.
Definition e_params : Params := mkParams false 8 2 (Some (10 ^ 13)) 0 (Some (10 ^ 12)) (Some (5 * 10 ^ 17)).
Definition e_ctx : AnteCtx := mkAnteCtx (mkCtx 10 (Some 30000000) None) 100 true false (λ _, 0).
Definition e_fee : ProtoFee := mkProtoFee [mkCoin "aatom" (21000 * (3 * 10 ^ 7))] 21000 EmptyString EmptyString.
Definition eth_option : string := "/cosmos.evm.vm.v1.ExtensionOptionsEthereumTx".
Definition e_envelope : SdkTx :=
  mkSdkTx (Some (Err (errorf ErrNoSignatures "no signatures"))) (Some (mkProtoTx EmptyString 0 0 1 0 e_fee 0)) true
    (Some (mkFeeTx 21000 (pf_Amount e_fee) None)) false (Some [eth_option]) [EthMsg (mkMsgEthereumTx bytes7 (Some e_tx))].

Definition e_run (tx : SdkTx) (st : AnteState AuthBank) :=
  AnteHandle info6 w_BytesToAddress v_deduct (10 ^ 6) 0 (mkEvmParams AccessTypePermissionless AccessTypePermissionless)
    e_params e_ctx tx false (λ l q, ret (l, q)) st.
Definition e_after := (e_run e_envelope e_state).1.

Lemma e_accepted : e_run e_envelope e_state = (e_after, Ok (21000, 5)).
Proof.
  assert ((e_run e_envelope e_state).2 = Ok (21000, 5)) as E by (vm_compute; reflexivity).
  unfold e_after. destruct (e_run e_envelope e_state). cbn in E. by rewrite E.
Qed.

(** The sender paid 21000 times 15 million and its nonce is 2. *)
Lemma AnteHandle_charges_witness :
  ext info6 (vs_pb (an_vm e_after)) bytes7 = ext info6 v_pb bytes7 - 21000 * (15 * 10 ^ 6) ∧
  sequence (an_vm e_after) bytes7 = 2.
Proof.
  destruct (AnteHandle_charges info6 info6_valid reserve_set id (λ _, eq_refl) v_deduct (λ _ _, eq_refl)
    w_BytesToAddress w_bytes (10 ^ 6) 0 (mkEvmParams AccessTypePermissionless AccessTypePermissionless) e_params e_ctx
    e_envelope false e_state e_after 21000 5)
    as (m & tx & a & base & Hm & Hraw & _ & Hs & Hb & Hch & _).
  - exact v_funded.
  - by eexists.
  - reflexivity.
  - intros m Hm. cbn in Hm. apply list_elem_of_singleton in Hm as [= ->]. reflexivity.
  - intros t a [= <-]. discriminate.
  - exact e_accepted.
  - cbn in Hm. injection Hm as <-. injection Hraw as <-. injection Hs as <-.
    assert (base = 10 ^ 7) as -> by (vm_compute in Hb; by injection Hb).
    destruct Hch as [[_ _ Hext _ _ _] _ _ _ [Hn _] _ _]. split; [|exact Hn].
    rewrite (Hext bytes7) by discriminate. reflexivity.
Defined.

(** The nonce of account 7, used once, is refused the second time. *)
Lemma IncrementNonce_no_replay_witness :
  ∃ e, (use_nonce bytes7 1 (use_nonce bytes7 1 e_vm).1).2 = Err e ∧ err_code e = ErrNonceLow.
Proof.
  destruct (IncrementNonce_no_replay info6 bytes7 1 [] e_vm (use_nonce bytes7 1 e_vm).1 (use_nonce bytes7 1 e_vm).1)
    as (_ & _ & _ & e & E & He).
  - exact (fd_wf _ _ v_funded).
  - by vm_compute.
  - run_ok.
  - reflexivity.
  - exists e. split; [|exact He]. by rewrite E.
Defined.

(** * The minimum gas price *)

(** One micro-coin per unit of gas. *)
Definition e_min_params : Params := mkParams false 8 2 (Some (10 ^ 13)) 0 (Some (dNew 1)) (Some (5 * 10 ^ 17)).

(** The chain-wide minimum gas price is not converted to 18 decimals.  On a chain of
    6 decimals with a minimum of one micro-coin per unit of gas, which is 10^12 in 18
    decimals, the transaction above, which pays 15 million per unit of gas, is
    accepted. *)
Theorem min_gas_price_not_scaled :
  (ConvertAmountTo18DecimalsLegacy info6 (dNew 1) tt).2 = Ok (dNew (10 ^ 12)) ∧
  msg_GasPrice (AsMessage 7 e_tx (Some (10 ^ 7))) = 15 * 10 ^ 6 ∧
  (AnteHandle info6 w_BytesToAddress v_deduct (10 ^ 6) 0 (mkEvmParams AccessTypePermissionless AccessTypePermissionless)
     e_min_params e_ctx e_envelope false (λ l q, ret (l, q)) e_state).2 = Ok (21000, 5).
Proof. vm_compute. repeat split. Qed.
