(* ===== verification/VmParams.v ===== *)
(** Parameters of x/vm (x/vm/types/params.go, x/vm/keeper/params.go,
    static_precompiles.go), the permission policy built from them
    (x/vm/types/permissions.go), and the hooks the EVM runs before each call and
    creation (x/vm/types/opcodes_hooks.go, x/vm/keeper/precompiles.go). *)

From S2P Require Import Prelude.
From S2P Require Import AccessList.
From S2P Require Import StateDB.
From S2P Require Import Dec.
From S2P Require Import FeeMarket.
From S2P Require Import TxFees.

(** Addresses in hexadecimal: [Address.String] (which is [Hex]), [HexToAddress],
    [IsHexAddress]. *)
Class GethHex : Type := {
  Address_String : Address → string;
  HexToAddress : string → Address;
  IsHexAddress : string → bool
}.

Class GethHexLaws `{GethHex} : Prop := {
  HexToAddress_String a : HexToAddress (Address_String a) = a;
  IsHexAddress_String a : IsHexAddress (Address_String a) = true
}.

(** [vm.ValidEip], [host.ChannelIdentifierValidator] and
    [vm.PrecompiledAddressesPrague]. *)
Class VmLibraries : Type := {
  ValidEip : Z → bool;
  ChannelIdentifierValidator : string → outcome unit;
  PrecompiledAddressesPrague : list Address
}.

(** [slices.Contains]. *)
Definition contains {A} `{EqDecision A} (l : list A) (x : A) : bool := bool_decide (x ∈ l).

Module VmParams.

Record AccessControlType : Type := mkAccessControlType { act_AccessType : AccessType; act_List : list string }.
Record AccessControl : Type := mkAccessControl { ac_Create : AccessControlType; ac_Call : AccessControlType }.

Record Params : Type := mkParams {
  EvmDenom : string;
  ExtraEIPs : list Z;
  EVMChannels : list string;
  AccessControl_ : AccessControl;
  ActiveStaticPrecompiles : list string;
  HistoryServeWindow : Z;
  (** the extended denomination, if given *)
  ExtendedDenomOptions : option string
}.

(** [Params{}], what a missing entry of the store reads as. *)
Definition zero_params : Params :=
  let none := mkAccessControlType AccessTypePermissionless [] in
  mkParams EmptyString [] [] (mkAccessControl none none) [] 0 None.

Definition DefaultHistoryServeWindow : Z := 8192.

Section params.
Context `{GethHex, VmLibraries}.

(** ** Validation *)

Definition ValidateAddress (address : string) : outcome unit :=
  if negb (IsHexAddress address) then Err (errorf ErrInvalidAddress "not a valid ethereum hex address") else Ok tt.

(** The loops keep the set of what they have seen. *)
Fixpoint eips_loop (seen : gset Z) (eips : list Z) : outcome unit :=
  match eips with
  | [] => Ok tt
  | eip :: rest =>
      if negb (ValidEip eip) then Err (errorf ErrOther "EIP is not activateable")
      else if bool_decide (eip ∈ seen) then Err (errorf ErrOther "found duplicate EIP")
      else eips_loop ({[eip]} ∪ seen) rest
  end.
Definition validateEIPs (eips : list Z) : outcome unit := eips_loop ∅ eips.

Fixpoint precompiles_loop (seen : gset string) (l : list string) : outcome unit :=
  match l with
  | [] => Ok tt
  | precompile :: rest =>
      if bool_decide (precompile ∈ seen) then Err (errorf ErrOther "duplicate precompile")
      else match ValidateAddress precompile with
           | Ok _ => precompiles_loop ({[precompile]} ∪ seen) rest
           | _ => Err (errorf ErrOther "invalid precompile")
           end
  end.

(** [slices.IsSorted] on strings, which compares neighbours. *)
Fixpoint IsSorted (l : list string) : bool :=
  match l with
  | x :: (y :: _) as rest => bool_decide (String.le x y) && IsSorted rest
  | _ => true
  end.

Definition ValidatePrecompiles (precompiles : list string) : outcome unit :=
  match precompiles_loop ∅ precompiles with
  | Ok _ => if negb (IsSorted precompiles) then Err (errorf ErrOther "precompiles need to be sorted") else Ok tt
  | r => r
  end.

Fixpoint validateAllowlistAddresses (addresses : list string) : outcome unit :=
  match addresses with
  | [] => Ok tt
  | address :: rest =>
      match ValidateAddress address with
      | Ok _ => validateAllowlistAddresses rest
      | _ => Err (errorf ErrOther "invalid whitelist address")
      end
  end.

Definition validateAccessType (t : AccessType) : outcome unit :=
  match t with
  | AccessTypeUnknown _ => Err (errorf ErrOther "invalid access type")
  | _ => Ok tt
  end.

Definition AccessControlType_Validate (act : AccessControlType) : outcome unit :=
  match validateAccessType (act_AccessType act) with
  | Ok _ => validateAllowlistAddresses (act_List act)
  | r => r
  end.

Definition AccessControl_Validate (ac : AccessControl) : outcome unit :=
  match AccessControlType_Validate (ac_Create ac) with
  | Ok _ => AccessControlType_Validate (ac_Call ac)
  | r => r
  end.

Fixpoint validateChannels (channels : list string) : outcome unit :=
  match channels with
  | [] => Ok tt
  | channel :: rest =>
      match ChannelIdentifierValidator channel with
      | Ok _ => validateChannels rest
      | _ => Err (errorf ErrOther "invalid channel identifier")
      end
  end.

Definition Params_Validate (p : Params) : outcome unit :=
  match validateEIPs (ExtraEIPs p) with
  | Ok _ =>
      match ValidatePrecompiles (ActiveStaticPrecompiles p) with
      | Ok _ =>
          match AccessControl_Validate (AccessControl_ p) with
          | Ok _ => validateChannels (EVMChannels p)
          | r => r
          end
      | r => r
      end
  | r => r
  end.

(** ** The store

    The entry of the parameters; encoding is left out. *)
Abbreviation St := (option Params) (only parsing).

Definition GetParams : M St Params := gets (default zero_params).

Definition with_precompiles (l : list string) (p : Params) : Params :=
  mkParams (EvmDenom p) (ExtraEIPs p) (EVMChannels p) (AccessControl_ p) l (HistoryServeWindow p) (ExtendedDenomOptions p).

Definition SetParams (params : Params) : M St unit :=
  let params := with_precompiles (merge_sort String.le (ActiveStaticPrecompiles params)) params in
  of_outcome (Params_Validate params) >>! modify (λ _, Some params).

Fixpoint hex_addresses (existing : list string) (addresses : list Address) : outcome (list string) :=
  match addresses with
  | [] => Ok []
  | a :: rest =>
      if contains existing (Address_String a) then Err (errorf ErrOther "precompile already registered")
      else match hex_addresses existing rest with
           | Ok l => Ok (Address_String a :: l)
           | r => r
           end
  end.

Definition appendPrecompiles (existing : list string) (addresses : list Address) : outcome (list string) :=
  match hex_addresses existing addresses with
  | Ok hex => Ok (merge_sort String.le (existing ++ hex))
  | r => r
  end.

Definition EnableStaticPrecompiles (addresses : list Address) : M St unit :=
  let! params := GetParams in
  let! updated := of_outcome (appendPrecompiles (ActiveStaticPrecompiles params) addresses) in
  SetParams (with_precompiles updated params).

Definition EnableEIPs (eips : list Z) : M St unit :=
  let! p := GetParams in
  SetParams (mkParams (EvmDenom p) (merge_sort Z.le (ExtraEIPs p ++ eips)) (EVMChannels p) (AccessControl_ p)
               (ActiveStaticPrecompiles p) (HistoryServeWindow p) (ExtendedDenomOptions p)).

(** [MsgUpdateParams], over the keeper's authority. *)
Definition UpdateParams (authority requester : string) (params : Params) : M St unit :=
  if negb (bool_decide (authority = requester)) then throw (errorf ErrInvalidSigner "invalid authority")
  else SetParams params.

Definition IsAvailableStaticPrecompile (params : Params) (a : Address) : bool :=
  contains (ActiveStaticPrecompiles params) (Address_String a) || contains PrecompiledAddressesPrague a.

(** ** The permission policy *)

Definition permissionlessCheckFn (addresses : list string) (signer caller : Address) : bool :=
  let isSignerBlocked := negb (contains addresses (Address_String signer)) in
  isSignerBlocked && negb (contains addresses (Address_String caller)).

Definition permissionedCheckFn (addresses : list string) (signer caller : Address) : bool :=
  let isSignerAllowed := contains addresses (Address_String signer) in
  isSignerAllowed || contains addresses (Address_String caller).

Definition check_fn (act : AccessControlType) (signer caller : Address) : bool :=
  match act_AccessType act with
  | AccessTypePermissionless => permissionlessCheckFn (act_List act) signer caller
  | AccessTypeRestricted => false
  | AccessTypePermissioned => permissionedCheckFn (act_List act) signer caller
  | AccessTypeUnknown _ => false
  end.

Definition getCanCreateFn (ac : AccessControl) (signer : Address) : Address → bool := check_fn (ac_Create ac) signer.
Definition getCanCallFn (ac : AccessControl) (signer : Address) : Address → bool := check_fn (ac_Call ac) signer.

Record RestrictedPermissionPolicy : Type := mkPolicy { canCreate : Address → bool; canCall : Address → bool }.

Definition NewRestrictedPermissionPolicy (ac : AccessControl) (signer : Address) : RestrictedPermissionPolicy :=
  mkPolicy (getCanCreateFn ac signer) (getCanCallFn ac signer).
End params.
End VmParams.

(** * Hooks of the EVM

    A call hook works on the precompiles the EVM can run and on its StateDB. *)
Section hooks.
Context `{GethHex, VmLibraries} {St : Type} {Contract : Type}.

Record EvmHost : Type := mkEvmHost { eh_precompiles : gmap Address Contract; eh_db : StateDB St }.

Definition CreateHook : Type := Address → outcome unit.
Definition CallHook : Type := Address → Address → M EvmHost unit.

Record OpCodesHooks : Type := mkOpCodesHooks { callHooks : list CallHook; createHooks : list CreateHook }.

Definition NewDefaultOpCodesHooks : OpCodesHooks := mkOpCodesHooks [] [].
Definition AddCallHooks (hooks : list CallHook) (h : OpCodesHooks) : OpCodesHooks :=
  mkOpCodesHooks (callHooks h ++ hooks) (createHooks h).
Definition AddCreateHooks (hooks : list CreateHook) (h : OpCodesHooks) : OpCodesHooks :=
  mkOpCodesHooks (callHooks h) (createHooks h ++ hooks).

Definition run_CreateHook (h : OpCodesHooks) (caller : Address) : M EvmHost unit :=
  for_each (createHooks h) (λ hook, of_outcome (hook caller)).
Definition run_CallHook (h : OpCodesHooks) (caller recipient : Address) : M EvmHost unit :=
  for_each (callHooks h) (λ hook, hook caller recipient).

Definition GetCallHook (p : VmParams.RestrictedPermissionPolicy) : CallHook := λ caller _,
  if VmParams.canCall p caller then ret tt
  else throw (errorf ErrOther "caller address does not have permission to perform a call").

Definition GetCreateHook (p : VmParams.RestrictedPermissionPolicy) : CreateHook := λ caller,
  if VmParams.canCreate p caller then Ok tt
  else Err (errorf ErrOther "caller address does not have permission to deploy contracts").

(** [keeper.precompiles], and the lookup of x/erc20's precompiles, which is
    absent when the keeper is nil; a contract knows its address. *)
Context (precompiles : gmap Address Contract) (Contract_Address : Contract → Address).
Context (erc20Keeper : option (Address → outcome (option Contract))).

Definition GetStaticPrecompileInstance (params : VmParams.Params) (a : Address) : outcome (option Contract) :=
  if VmParams.IsAvailableStaticPrecompile params a then
    match precompiles !! a with
    | Some c => Ok (Some c)
    | None => Panic "precompiled contract not stored in memory"
    end
  else Ok None.

(** What [GetPrecompileInstance] returns: the map and the addresses. *)
Definition GetPrecompileInstance (params : VmParams.Params) (a : Address)
    : outcome (option (gmap Address Contract * list Address)) :=
  match GetStaticPrecompileInstance params a with
  | Ok (Some c) => Ok (Some ({[a := c]}, [Contract_Address c]))
  | Ok None =>
      match erc20Keeper with
      | None => Ok None
      | Some instance =>
          match instance a with
          | Ok (Some c) => Ok (Some ({[a := c]}, [Contract_Address c]))
          | Ok None => Ok None
          | Err e => Err e
          | Panic w => Panic w
          end
      end
  | Err e => Err e
  | Panic w => Panic w
  end.

Definition eh_state {A} (m : M (StateDB St) A) : M EvmHost A :=
  zoom eh_db (λ d h, mkEvmHost (eh_precompiles h) d) m.
Definition WithPrecompiles (m : gmap Address Contract) : M EvmHost unit := modify (λ h, mkEvmHost m (eh_db h)).

Definition GetPrecompilesCallHook (params : VmParams.Params) : CallHook := λ _ recipient,
  let! found := of_outcome (GetPrecompileInstance params recipient) in
  match found with
  | Some (m, _) => WithPrecompiles m >>! eh_state (AddAddressToAccessList recipient)
  | None => ret tt
  end.

Definition GetPrecompileRecipientCallHook : CallHook := λ _ recipient,
  let! active := gets eh_precompiles in
  match active !! recipient with
  | Some _ => eh_state (AddAddressToAccessList recipient)
  | None =>
      match erc20Keeper with
      | None => ret tt
      | Some instance =>
          let! found := of_outcome (instance recipient) in
          match found with
          | Some c => WithPrecompiles {[recipient := c]} >>! eh_state (AddAddressToAccessList recipient)
          | None => ret tt
          end
      end
  end.
End hooks.
Arguments EvmHost : clear implicits.
Arguments CallHook : clear implicits.
Arguments OpCodesHooks : clear implicits.
