(* ===== verification/Transition.v ===== *)
(** Execution of an Ethereum message: x/vm/keeper/state_transition.go, with the EVM
    configuration (config.go, block_proposer.go), the block hashes (keeper.go), the
    gas meter (x/vm/types/gasmeter.go), calls by other modules (call_evm.go) and
    the message handler (msg_server.go).  The interpreter is go-ethereum's: it is a
    parameter that works on the StateDB.  Tracing, events and telemetry are left
    out. *)

From S2P Require Import Prelude.
From S2P Require Import Sdk.
From S2P Require Import SdkAuth.
From S2P Require Import EvmDenom.
From S2P Require Import PreciseBank.
From S2P Require Import AccessList.
From S2P Require Import StateDB.
From S2P Require Import VmKeeper.
From S2P Require Import Dec.
From S2P Require Import FeeMarket.
From S2P Require Import TxFees.
From S2P Require Import AnteEvm.
From S2P Require Import VmParams.

(** * Gas meters *)

(** [storetypes.GasMeter], as far as it is called. *)
Class GasMeterOps (G : Type) : Type := {
  gm_GasConsumed : G → Z;
  gm_Limit : G → Z;
  gm_ConsumeGas : Z → M G unit;
  gm_RefundGas : Z → M G unit
}.

Record infiniteGasMeterWithLimit : Type := mkInfiniteMeter { im_consumed : Z; im_limit : Z }.

Definition NewInfiniteGasMeterWithLimit (limit : Z) : infiniteGasMeterWithLimit := mkInfiniteMeter 0 limit.

Definition addUint64Overflow (a b : Z) : Z * bool :=
  if (u64_max - 1) - a <? b then (0, true) else (a + b, false).

Definition infinite_ConsumeGas (amount : Z) : M infiniteGasMeterWithLimit unit := λ g,
  let '(consumed, overflow) := addUint64Overflow (im_consumed g) amount in
  (mkInfiniteMeter consumed (im_limit g), if overflow then Panic "ErrorGasOverflow" else Ok tt).

Definition infinite_RefundGas (amount : Z) : M infiniteGasMeterWithLimit unit := λ g,
  if im_consumed g <? amount then (g, Panic "ErrorNegativeGasConsumed")
  else (mkInfiniteMeter (im_consumed g - amount) (im_limit g), Ok tt).

Definition infinite_GasRemaining (g : infiniteGasMeterWithLimit) : Z :=
  if im_consumed g >? im_limit g then 0 else im_limit g - im_consumed g.

#[global] Instance infinite_meter : GasMeterOps infiniteGasMeterWithLimit := {|
  gm_GasConsumed := im_consumed;
  gm_Limit := im_limit;
  gm_ConsumeGas := infinite_ConsumeGas;
  gm_RefundGas := infinite_RefundGas
|}.

(** * The EVM *)

(** What is read of the context besides [Ctx]: the header's hash if it is set, the
    one computed from the header, and the proposer; [tc_ConsensusParams] is what the
    consensus keeper returns. *)
Record TransCtx : Type := mkTransCtx {
  tc_ctx : Ctx;
  tc_time : Z;
  tc_HeaderHash : option Hash;
  tc_ProtoHeaderHash : outcome Hash;
  tc_ProposerAddress : string;
  tc_ConsensusParams : outcome (option Z)
}.

Record EVMConfig_ : Type := mkEVMConfig {
  cfg_Params : VmParams.Params;
  cfg_FeeMarketParams : Params;
  cfg_CoinBase : Address;
  cfg_BaseFee : option Z
}.

(** The EVM as it is configured. *)
Record EVM (St Contract : Type) : Type := mkEVM {
  evm_hooks : OpCodesHooks St Contract;
  evm_GetHash : Z → outcome Hash;
  evm_Coinbase : Address;
  evm_GasLimit : Z;
  evm_BlockNumber : Z;
  evm_Time : Z;
  evm_BaseFee : option Z;
  evm_NoBaseFee : bool;
  evm_ExtraEips : list Z;
  evm_msg : Message;
  (** [WithPrecompiles] of state overrides *)
  evm_precompiles : option (gmap Address Contract)
}.
Arguments mkEVM {St Contract}.
Arguments evm_hooks {St Contract}.
Arguments evm_BlockNumber {St Contract}.
Arguments evm_Time {St Contract}.

(** What a call or a creation returns; [er_ReturnData] is the interpreter's buffer
    afterwards. *)
Record EvmResult : Type := mkEvmResult {
  er_ret : bytes;
  er_leftoverGas : Z;
  er_vmErr : option string;
  er_ReturnData : bytes
}.

Class GethEVM (St Contract : Type) `{GethTx} : Type := {
  (** the rules the StateDB prepares by, and whether Prague is active *)
  DBRules_at : Z → Z → StateDB.Rules;
  IsPrague_at : Z → Z → bool;
  ChainID : Z;
  FloorDataGas : bytes → Z + error;
  ActivePrecompiles : EVM St Contract → list Address;
  ActivePrecompiledContracts : Z → Z → gmap Address Contract;
  (** [core.TransactionToMessage] with the signer at a height and time *)
  TransactionToMessage : Z → Z → EthTx → option Z → outcome Message;
  CreateBloom : list Log → Z;
  CreateAddress : Address → Z → Address;
  (** the account that signed an authorization *)
  Authority : SetCodeAuthorization → outcome Address;
  AddressToDelegation : Address → bytes;
  (** the address [ParseDelegation] returns when it succeeds *)
  DelegationTarget : bytes → Address;
  evm_Call : EVM St Contract → Address → Address → bytes → Z → Z → M (StateDB St) EvmResult;
  evm_Create : EVM St Contract → Address → bytes → Z → Z → M (StateDB St) EvmResult
}.

(** [params.RefundQuotient], [RefundQuotientEIP3529], [CallNewAccountGas],
    [TxAuthTupleGas]; the text of [vm.ErrExecutionReverted]. *)
Definition RefundQuotient : Z := 2.
Definition RefundQuotientEIP3529 : Z := 5.
Definition CallNewAccountGas : Z := 25000.
Definition TxAuthTupleGas : Z := 12500.
Definition ExecutionReverted : string := "execution reverted".
(** [params.HistoryStorageAddress] and [config.DefaultGasCap]. *)
Definition HistoryStorageAddress : Address := 0x0000F90827F1C53a10cb7A02335B175320002935.
Definition DefaultGasCap : Z := 25000000.

Record TxResponse : Type := mkTxResponse {
  GasUsed : Z;
  MaxUsedGas : Z;
  VmError : string;
  Ret : bytes;
  res_Logs : list Log;
  res_Hash : Hash
}.

(** [MsgEthereumTxResponse.Failed]. *)
Definition Failed (r : TxResponse) : bool := negb (bool_decide (VmError r = EmptyString)).

Record Receipt : Type := mkReceipt {
  rc_Status : bool;
  rc_CumulativeGasUsed : Z;
  rc_Bloom : option Z;
  rc_Logs : list Log;
  rc_TxHash : Hash;
  rc_ContractAddress : Address;
  rc_GasUsed : Z;
  rc_TransactionIndex : Z
}.

(** The validators of x/staking. *)
Class StakingKeeper : Type := {
  (** the operator of a validator, by its consensus address *)
  GetValidatorByConsAddr : string → outcome string;
  ValAddressFromBech32 : string → outcome addr
}.

(** * State *)

(** The stores of a context, and its gas meter, which its cache contexts share. *)
Record Stores (B : Type) : Type := mkStores {
  st_ante : AnteState B;
  st_logSize : option Z;
  st_bloom : option Z;
  st_params : option VmParams.Params;
  st_coinInfo : option EvmCoinInfo
}.
Arguments mkStores {B}.
Arguments st_ante {B}.
Arguments st_logSize {B}.
Arguments st_bloom {B}.
Arguments st_params {B}.
Arguments st_coinInfo {B}.

Record TxState (B G : Type) : Type := mkTxState { ts_stores : Stores B; ts_meter : G }.
Arguments mkTxState {B G}.
Arguments ts_stores {B G}.
Arguments ts_meter {B G}.

(** [if err := m; err != nil { log }]. *)
Definition ignore_error {S} (m : M S unit) : M S unit := λ s,
  match m s with
  | (s', Err _) => (s', Ok tt)
  | r => r
  end.

Definition int64_of_uint64 (z : Z) : Z := if z <? i64_max then z else z - u64_max.
(** [Int.Uint64]. *)
Definition to_uint64 {S} (z : Z) : M S Z := if IsUint64 z then ret z else panic "Uint64() out of bounds".

Section transition.
Context `{SdkTypes, AccountKeeper} {B : Type} `{!BankKeeper B, AuthKeeper B}.
Context `{Crypto, GethAddress, GethTx, !GethConfig, DecTypes, ParamsCodec, GethParams}.
Context `{GethHex, VmLibraries, StakingKeeper} {Contract : Type} `{!GethEVM (VmState B) Contract}.
Context (info : EvmCoinInfo) (sort : Coins → Coins) (BytesToAddress : addr → Address).
(** the precompiles of the keeper and of x/erc20 *)
Context (precompiles : gmap Address Contract) (Contract_Address : Contract → Address).
Context (erc20Keeper : option (Address → outcome (option Contract))).
Context (ctx : TransCtx).

Abbreviation VS := (VmState B).
Abbreviation DB := (StateDB VS).
Abbreviation SS := (Stores B).
Abbreviation height := (BlockHeight (tc_ctx ctx)).
#[local] Instance transition_keeper : Keeper VS := VmKeeper.keeper info.

Definition set_ante (x : AnteState B) (s : SS) : SS := mkStores x (st_logSize s) (st_bloom s) (st_params s) (st_coinInfo s).
Definition ante {A} (m : M (AnteState B) A) : M SS A := zoom st_ante set_ante m.
Definition store_vm {A} (m : M VS A) : M SS A := ante (vm m).
Definition vm_params {A} (m : M (option VmParams.Params) A) : M SS A :=
  zoom st_params (λ p s, mkStores (st_ante s) (st_logSize s) (st_bloom s) p (st_coinInfo s)) m.

(** ** Configuration *)

Definition GetEvmCoinInfo : M SS EvmCoinInfo := gets (λ s, default info (st_coinInfo s)).
Definition SetEvmCoinInfo (coinInfo : EvmCoinInfo) : M SS unit :=
  modify (λ s, mkStores (st_ante s) (st_logSize s) (st_bloom s) (st_params s) (Some coinInfo)).

(** [Keeper.GetBaseFee]. *)
Definition Keeper_GetBaseFee : M SS (option Z) :=
  if negb (London_at height) then ret None
  else
    let! coinInfo := GetEvmCoinInfo in
    let! baseFee := ante (fee_market (Wrapper_GetBaseFee (eci_Decimals coinInfo))) in
    ret (Some baseFee).

Definition GetMinGasPrice : M SS (option Z) :=
  let! params := ante (fee_market (Wrapper_GetParams info)) in ret (MinGasPrice params).

Definition GetProposerAddress (proposerAddress : string) : string :=
  if bool_decide (proposerAddress = EmptyString) then tc_ProposerAddress ctx else proposerAddress.

Definition GetCoinbaseAddress (proposerAddress : string) : outcome Address :=
  let proposerAddress := GetProposerAddress proposerAddress in
  if bool_decide (proposerAddress = EmptyString) then Ok 0
  else match GetValidatorByConsAddr proposerAddress with
       | Ok operator =>
           match ValAddressFromBech32 operator with
           | Ok bz => Ok (BytesToAddress bz)
           | Err e => Err e
           | Panic w => Panic w
           end
       | Err _ => Err (errorf ErrOther "failed to retrieve validator from block proposer address")
       | Panic w => Panic w
       end.

Definition EVMConfig (proposerAddress : string) : M SS EVMConfig_ :=
  let! params := vm_params VmParams.GetParams in
  let! feemarketParams := ante (fee_market (Wrapper_GetParams info)) in
  let! coinbase := on_error (of_outcome (GetCoinbaseAddress proposerAddress))
                     (wrap_error "failed to obtain coinbase address") in
  let! baseFee := Keeper_GetBaseFee in
  ret (mkEVMConfig params feemarketParams coinbase baseFee).

Definition GetLogSizeTransient : M SS Z := gets (λ s, default 0 (st_logSize s)).
Definition SetLogSizeTransient (logSize : Z) : M SS unit :=
  modify (λ s, mkStores (st_ante s) (Some logSize) (st_bloom s) (st_params s) (st_coinInfo s)).
Definition GetBlockBloomTransient : M SS Z := gets (λ s, default 0 (st_bloom s)).
Definition SetBlockBloomTransient (bloom : Z) : M SS unit :=
  modify (λ s, mkStores (st_ante s) (st_logSize s) (Some bloom) (st_params s) (st_coinInfo s)).

Definition TxConfig_at (txHash : Hash) : M SS TxConfig :=
  let! index := ante GetTxIndexTransient in
  let! logSize := GetLogSizeTransient in
  ret (NewTxConfig txHash index logSize).

(** ** Block hashes (EIP-2935) *)

Definition history_window (params : VmParams.Params) : Z :=
  if 0 <? VmParams.HistoryServeWindow params then VmParams.HistoryServeWindow params
  else VmParams.DefaultHistoryServeWindow.

Definition SetHeaderHash (params : VmParams.Params) : M VS unit :=
  let window := history_window params in
  let! acct := VmKeeper.GetAccount info HistoryStorageAddress in
  let! contract := match acct with Some _ => VmKeeper.IsContract HistoryStorageAddress | None => ret false end in
  when contract
    (modify (VmKeeper.SetState HistoryStorageAddress (wrap u64_max height mod window)
               (default zero_hash (tc_HeaderHash ctx)))).

Definition GetHeaderHash (params : VmParams.Params) (h : Z) : M VS Hash :=
  VmKeeper.GetState HistoryStorageAddress (h mod history_window params).

Definition GetHashFn (params : VmParams.Params) (h : Z) : M VS Hash :=
  match SafeInt64 h with
  | Ok h' =>
      if height =? h' then
        match tc_HeaderHash ctx with
        | Some hash => ret hash
        | None => match tc_ProtoHeaderHash ctx with Ok hash => ret hash | Err _ => ret zero_hash | Panic w => panic w end
        end
      else if height >? h' then GetHeaderHash params h
      else ret zero_hash
  | _ => ret zero_hash
  end.

(** ** Building the EVM *)

Definition SetConsensusParamsInCtx (c : Ctx) : Ctx :=
  match MaxGas c with
  | Some _ => c
  | None => match tc_ConsensusParams ctx with
            | Ok g => mkCtx (BlockHeight c) g (BlockGasMeter c)
            | _ => c
            end
  end.

(** [s] is the store the EVM's hash function and hooks read. *)
Definition NewEVMWithOverridePrecompiles (s : VS) (msg : Message) (cfg : EVMConfig_) (overridePrecompiles : bool)
    : EVM VS Contract :=
  let c := SetConsensusParamsInCtx (tc_ctx ctx) in
  let noBaseFee := if London_at height then NoBaseFee (cfg_FeeMarketParams cfg) else true in
  let signer := msg_From msg in
  let policy := VmParams.NewRestrictedPermissionPolicy (VmParams.AccessControl_ (cfg_Params cfg)) signer in
  let hooks := AddCreateHooks [GetCreateHook policy] NewDefaultOpCodesHooks in
  let hooks := AddCallHooks [GetCallHook policy] hooks in
  let hooks :=
    AddCallHooks [if overridePrecompiles
                  then GetPrecompilesCallHook precompiles Contract_Address erc20Keeper (cfg_Params cfg)
                  else GetPrecompileRecipientCallHook erc20Keeper] hooks in
  mkEVM hooks (λ h, (GetHashFn (cfg_Params cfg) h s).2) (cfg_CoinBase cfg) (BlockGasLimit c) height (tc_time ctx)
    (cfg_BaseFee cfg) noBaseFee (VmParams.ExtraEIPs (cfg_Params cfg)) msg None.

Definition NewEVM (s : VS) (msg : Message) (cfg : EVMConfig_) : EVM VS Contract :=
  NewEVMWithOverridePrecompiles s msg cfg true.

(** ** Authorizations (EIP-7702) *)

Definition validateAuthorization (auth : SetCodeAuthorization) (chainID : Z) : M DB Address :=
  if negb (auth_ChainID auth =? 0) && negb (auth_ChainID auth =? chainID)
  then throw (errorf ErrOther "EIP-7702 authorization chain ID mismatch")
  else if wrap u64_max (auth_Nonce auth + 1) <? auth_Nonce auth
  then throw (errorf ErrOther "EIP-7702 authorization nonce > 64 bit")
  else
    let! authority := on_error (of_outcome (Authority auth))
                        (λ _, ret (errorf ErrOther "EIP-7702 authorization has invalid signature")) in
    AddAddressToAccessList authority >>!
    let! code := StateDB.GetCode authority in
    let code := default EmptyString code in
    if negb (bool_decide (code = EmptyString)) && negb (ParseDelegation code)
    then throw (errorf ErrOther "EIP-7702 authorization destination is a contract")
    else
      let! have := StateDB.GetNonce authority in
      if negb (have =? auth_Nonce auth)
      then throw (errorf ErrOther "EIP-7702 authorization nonce does not match current account nonce")
      else ret authority.

Definition applyAuthorization (auth : SetCodeAuthorization) (chainID : Z) : M DB unit :=
  let! authority := validateAuthorization auth chainID in
  let! found := Exist authority in
  when found (AddRefund (CallNewAccountGas - TxAuthTupleGas)) >>!
  StateDB.SetNonce authority (wrap u64_max (auth_Nonce auth + 1)) >>!
  (if auth_Address auth =? 0 then StateDB.SetCode authority None >>! ret tt
   else StateDB.SetCode authority (Some (AddressToDelegation (auth_Address auth))) >>! ret tt).

(** ** Applying a message *)

Definition GetEthIntrinsicGas (msg : Message) (isContractCreation : bool) : Z + error :=
  let rules := Rules_at height (tc_time ctx) in
  core_IntrinsicGas (msg_Data msg) (msg_AccessList msg) (msg_SetCodeAuthorizations msg) isContractCreation
    (IsHomestead rules) (IsIstanbul rules) (AnteEvm.IsShanghai rules).

(** The call or the creation, with the nonce of the creator and the delegations. *)
Definition run_message (evm : EVM VS Contract) (msg : Message) (leftoverGas convertedValue : Z) : M DB EvmResult :=
  let sender := msg_From msg in
  match msg_To msg with
  | None =>
      StateDB.SetNonce sender (msg_Nonce msg) >>!
      let! r := evm_Create evm sender (msg_Data msg) leftoverGas convertedValue in
      let! nonce := StateDB.GetNonce sender in
      when (nonce =? msg_Nonce msg) (StateDB.SetNonce sender (wrap u64_max (msg_Nonce msg + 1))) >>!
      ret r
  | Some to =>
      for_each (default [] (msg_SetCodeAuthorizations msg)) (λ auth, ignore_error (applyAuthorization auth ChainID)) >>!
      let! code := StateDB.GetCode to in
      let code := default EmptyString code in
      when (ParseDelegation code) (AddAddressToAccessList (DelegationTarget code)) >>!
      evm_Call evm sender to (msg_Data msg) leftoverGas convertedValue
  end.

(** The checks of the gas limit before the execution: the intrinsic gas, and the
    floor of the call data, which is zero before Prague. *)
Definition check_gas_limit (msg : Message) : M DB (Z * Z) :=
  let! intrinsicGas :=
    on_error (match GetEthIntrinsicGas msg (bool_decide (msg_To msg = None)) with
              | inl g => ret g
              | inr e => throw e
              end) (wrap_error "intrinsic gas failed") in
  if msg_GasLimit msg <? intrinsicGas then throw (errorf ErrIntrinsicGas "apply message: intrinsic gas too low")
  else if IsPrague_at height (tc_time ctx) then
    match FloorDataGas (msg_Data msg) with
    | inr e => throw e
    | inl floor =>
        if msg_GasLimit msg <? floor then throw (errorf ErrFloorDataGas "insufficient gas for floor data gas cost")
        else ret (intrinsicGas, floor)
    end
  else ret (intrinsicGas, 0).

(** The gas after the refund: the most that was in use, what is charged before the
    minimum, and what is left. *)
Definition refund_gas (msg : Message) (leftoverGas floorDataGas : Z) : M DB (Z * Z * Z) :=
  let refundQuotient := if London_at height then RefundQuotientEIP3529 else RefundQuotient in
  if msg_GasLimit msg <? leftoverGas then throw (errorf ErrGasOverflow "apply message")
  else
    let maxUsedGas := msg_GasLimit msg - leftoverGas in
    let! available := GetRefund in
    let! refund := GasToRefund available maxUsedGas refundQuotient in
    let leftoverGas := leftoverGas + refund in
    let temporaryGasUsed := maxUsedGas - refund in
    if IsPrague_at height (tc_time ctx) then
      let '(leftoverGas, temporaryGasUsed) :=
        if temporaryGasUsed <? floorDataGas then (msg_GasLimit msg - floorDataGas, floorDataGas)
        else (leftoverGas, temporaryGasUsed) in
      ret (if maxUsedGas <? floorDataGas then floorDataGas else maxUsedGas, temporaryGasUsed, leftoverGas)
    else ret (maxUsedGas, temporaryGasUsed, leftoverGas).

(** The gas charged: at least the minimum share of the limit, unless a module made
    the call. *)
Definition charged_gas (msg : Message) (cfg : EVMConfig_) (internal : bool) (temporaryGasUsed leftoverGas : Z) : M DB Z :=
  let gasLimit := dNew (msg_GasLimit msg) in
  let minGasMultiplier := default 0 (MinGasMultiplier (cfg_FeeMarketParams cfg)) in
  let! minimumGasUsed := dmul gasLimit minGasMultiplier in
  if negb (IsUint64 (dTruncate minimumGasUsed)) then throw (errorf ErrGasOverflow "minimumGasUsed is not a uint64")
  else if msg_GasLimit msg <? leftoverGas then throw (errorf ErrGasOverflow "message gas limit < leftover gas")
  else
    let gasUsed := dNew (int64_of_uint64 temporaryGasUsed) in
    let gasUsed := if internal then gasUsed else Z.max gasUsed minimumGasUsed in
    to_uint64 (dTruncate gasUsed).

(** On the StateDB; [overrides] is the effect of [StateOverride.Apply] on the
    StateDB and the precompiles. *)
Definition apply_message (msg : Message) (commit : bool) (cfg : EVMConfig_) (txConfig : TxConfig) (internal : bool)
    (overrides : option (M (EvmHost VS Contract) unit)) : M DB TxResponse :=
  let! s := gets db_ctx in
  let evm := NewEVMWithOverridePrecompiles s msg cfg (bool_decide (overrides = None)) in
  let! evm :=
    match overrides with
    | None => ret evm
    | Some apply => λ db,
        match on_error apply (wrap_error "failed to apply state override")
                (mkEvmHost (ActivePrecompiledContracts height (tc_time ctx)) db) with
        | (h, Ok _) => (eh_db h, Ok (mkEVM (evm_hooks evm) (evm_GetHash _ _ evm) (evm_Coinbase _ _ evm) (evm_GasLimit _ _ evm)
                                       (evm_BlockNumber evm) (evm_Time evm) (evm_BaseFee _ _ evm) (evm_NoBaseFee _ _ evm)
                                       (evm_ExtraEips _ _ evm) msg (Some (eh_precompiles h))))
        | (h, Err e) => (eh_db h, Err e)
        | (h, Panic w) => (eh_db h, Panic w)
        end
    end in
  let! (intrinsicGas, floorDataGas) := check_gas_limit msg in
  Prepare (DBRules_at height (tc_time ctx)) (msg_From msg) 0 (msg_To msg) (ActivePrecompiles evm) (msg_AccessList msg) >>!
  let! convertedValue := of_outcome (Uint256FromBigInt (msg_Value msg)) in
  let! r := run_message evm msg (msg_GasLimit msg - intrinsicGas) convertedValue in
  let! (maxUsedGas, temporaryGasUsed, leftoverGas) := refund_gas msg (er_leftoverGas r) floorDataGas in
  let vmError := default EmptyString (er_vmErr r) in
  when commit (on_error Commit (wrap_error "failed to commit stateDB")) >>!
  let! gasUsed := charged_gas msg cfg internal temporaryGasUsed leftoverGas in
  let! logs := Logs in
  ret (mkTxResponse gasUsed maxUsedGas vmError
         (if bool_decide (vmError = ExecutionReverted) then er_ReturnData r else er_ret r) logs (TxHash txConfig)).

(** The context's store is the one below the StateDB. *)
Definition ApplyMessageWithConfig (msg : Message) (commit : bool) (cfg : EVMConfig_) (txConfig : TxConfig)
    (internal : bool) (overrides : option (M (EvmHost VS Contract) unit)) : M VS TxResponse := λ s,
  let '(db, r) := apply_message msg commit cfg txConfig internal overrides (New s [] txConfig) in
  (db_ctx db, r).

Definition ApplyMessage (msg : Message) (commit internal : bool) : M SS TxResponse :=
  let! cfg := on_error (EVMConfig (tc_ProposerAddress ctx)) (wrap_error "failed to load evm config") in
  store_vm (ApplyMessageWithConfig msg commit cfg NewEmptyTxConfig internal None).

(** ** Applying a transaction *)

Section transaction.
Context {G : Type} `{!GasMeterOps G}.
(** the hooks, if any are set: they may change the receipt *)
Context (hooks : option (Address → Message → Receipt → M SS Receipt)).

Abbreviation TS := (TxState B G).

Definition stores {A} (m : M SS A) : M TS A := zoom ts_stores (λ x s, mkTxState x (ts_meter s)) m.
Definition meter {A} (m : M G A) : M TS A := zoom ts_meter (λ x s, mkTxState (ts_stores s) x) m.

Definition ResetGasMeterAndConsumeGas (gasUsed : Z) : M TS unit :=
  let! g := gets ts_meter in
  meter (gm_RefundGas (gm_GasConsumed g)) >>!
  meter (gm_ConsumeGas gasUsed).

(** The block's bloom with the logs', and the same as the receipt's; none without
    logs. *)
Definition initializeBloomFromLogs (ethLogs : list Log) : M SS (option Z) :=
  match ethLogs with
  | [] => ret None
  | _ => let! bloom := GetBlockBloomTransient in ret (Some (Z.lor bloom (CreateBloom ethLogs)))
  end.

Definition calculateCumulativeGasFromEthResponse (g : G) (res : TxResponse) : Z :=
  let cumulativeGasUsed := wrap u64_max (GasUsed res + gm_GasConsumed g) in
  if cumulativeGasUsed >? gm_Limit g then gm_Limit g else cumulativeGasUsed.

(** The hooks run on the cache context [tmp], which is committed when they succeed;
    without hooks it is committed when the transaction did not fail. *)
Definition post_process (tmp : SS) (signer : Address) (msg : Message) (receipt : Receipt) (res : TxResponse)
    : M TS TxResponse :=
  let with_logs l r := mkTxResponse (GasUsed r) (MaxUsedGas r) (VmError r) (Ret r) l (res_Hash r) in
  match hooks with
  | None => when (negb (Failed res)) (stores (modify (λ _, tmp))) >>! ret res
  | Some hook =>
      match hook signer msg receipt tmp with
      | (_, Err e) =>
          ret (mkTxResponse (GasUsed res) (MaxUsedGas res) "failed to execute post transaction processing" (Ret res) []
                 (res_Hash res))
      | (_, Panic w) => panic w
      | (tmp', Ok receipt') =>
          stores (modify (λ _, tmp')) >>!
          ret (if Failed res then with_logs [] res else with_logs (rc_Logs receipt') res)
      end
  end.

(** What is left to do after the execution: the refund and the transient figures. *)
Definition finish_transaction (msg : Message) (txConfig : TxConfig) (res : TxResponse) : M TS TxResponse :=
  let ethLogs := res_Logs res in
  let! bloom := stores (initializeBloomFromLogs ethLogs) in
  let remainingGas := if msg_GasLimit msg >? GasUsed res then msg_GasLimit msg - GasUsed res else 0 in
  on_error (stores (store_vm (VmKeeper.RefundGas info sort (msg_From msg) (msg_GasPrice msg) remainingGas (eci_Denom info))))
    (wrap_error "failed to refund gas leftover gas to sender") >>!
  match bloom with
  | Some bloom =>
      stores (SetBlockBloomTransient bloom) >>!
      stores (SetLogSizeTransient (wrap u64_max (LogIndex txConfig + Z.of_nat (length ethLogs))))
  | None => ret tt
  end >>!
  stores (ante (SetTxIndexTransient (wrap u64_max (TxIndex txConfig + 1)))) >>!
  let! totalGasUsed := on_error (stores (ante (AddTransientGasUsed (GasUsed res))))
                         (wrap_error "failed to add transient gas used") in
  ResetGasMeterAndConsumeGas totalGasUsed >>!
  ret res.

Definition ApplyTransaction (tx : EthTx) : M TS TxResponse :=
  let! cfg := on_error (stores (EVMConfig (tc_ProposerAddress ctx))) (wrap_error "failed to load evm config") in
  let! txConfig := stores (TxConfig_at (Tx_Hash tx)) in
  let! msg := on_error (of_outcome (TransactionToMessage height (tc_time ctx) tx (cfg_BaseFee cfg)))
                (wrap_error "failed to return ethereum transaction as core message") in
  let! s := gets ts_stores in
  match store_vm (ApplyMessageWithConfig msg true cfg txConfig false None) s with
  | (_, Panic w) => panic w
  | (_, Err e) =>
      let! g := gets ts_meter in
      ResetGasMeterAndConsumeGas (gm_Limit g) >>!
      throw (mkError (err_code e) "failed to apply ethereum core message" (err_coins e))
  | (tmp, Ok res) =>
      let! bloomReceipt := stores (initializeBloomFromLogs (res_Logs res)) in
      let contractAddr := match msg_To msg with None => CreateAddress (msg_From msg) (msg_Nonce msg) | Some _ => 0 end in
      let! g := gets ts_meter in
      let receipt := mkReceipt (negb (Failed res)) (calculateCumulativeGasFromEthResponse g res) bloomReceipt
                       (res_Logs res) (TxHash txConfig) contractAddr (GasUsed res) (TxIndex txConfig) in
      let tmp := if Failed res then s else tmp in
      let! signerAddr := on_error (of_outcome (Sender_at height (tc_time ctx) tx))
                           (wrap_error "failed to extract sender address from ethereum transaction") in
      let! res := post_process tmp signerAddr msg receipt res in
      finish_transaction msg txConfig res
  end.

(** [Keeper.EthereumTx]. *)
Definition EthereumTx (msg : MsgEthereumTx) : M TS TxResponse :=
  match Raw msg with
  | None => panic "nil pointer dereference"
  | Some tx => on_error (ApplyTransaction tx) (wrap_error "failed to apply transaction")
  end.

(** ** Calls by other modules *)

Definition CallEVMWithData (from : Address) (contract : option Address) (data : bytes) (commit : bool) (gasCap : option Z)
    : M TS TxResponse :=
  let! acc := gets (λ s, ak_GetAccount (ps_bank (vs_pb (an_vm (st_ante (ts_stores s))))) (Address_Bytes from)) in
  let! nonce := match acc with
                | Some acc => ret (GetSequence acc)
                | None => throw (errorf ErrUnknownAddress "account does not exist")
                end in
  let gasLimit := match gasCap with
                  | Some cap => if (0 <? cap) && (cap <? u64_max) && (cap <? DefaultGasCap) then cap else DefaultGasCap
                  | None => DefaultGasCap
                  end in
  let msg := mkMessage from nonce gasLimit 0 0 0 contract 0 data [] None in
  let! res := stores (ApplyMessage msg commit true) in
  if Failed res then
    let! g := gets ts_meter in
    ResetGasMeterAndConsumeGas (gm_Limit g) >>!
    throw (errorf ErrVMExecution (VmError res))
  else meter (gm_ConsumeGas (GasUsed res)) >>! ret res.

(** [pack] is [abi.Pack] of the method and its arguments. *)
Definition CallEVM (pack : outcome bytes) (from contract : Address) (commit : bool) (gasCap : option Z) : M TS TxResponse :=
  let! data := on_error (of_outcome pack) (λ _, ret (errorf ErrABIPack "failed to create transaction data")) in
  on_error (CallEVMWithData from (Some contract) data commit gasCap) (wrap_error "contract call failed").
End transaction.
End transition.
