(* ===== verification/TransitionThms.v ===== *)
(** Properties of the state transition: how much gas a message is charged, that a
    transaction pays for exactly that gas at the price the ante handler took, that
    a failed one changes nothing else, that a successful one settles in
    x/precisebank, and the hashes and permissions the EVM sees. *)

From S2P Require Import Prelude.
From S2P Require Import Sdk.
From S2P Require Import SdkAuth.
From S2P Require Import EvmDenom.
From S2P Require Import PreciseBank.
From S2P Require Import PreciseBankInv.
From S2P Require Import PreciseBankOps.
From S2P Require Import AccessList.
From S2P Require Import StateDB.
From S2P Require Import StateDBHist.
From S2P Require Import VmKeeper.
From S2P Require Import VmBank.
From S2P Require Import VmKeeperThms.
From S2P Require Import Dec.
From S2P Require Import FeeMarket.
From S2P Require Import TxFees.
From S2P Require Import TxFeesThms.
From S2P Require Import AnteEvm.
From S2P Require Import AnteEvmThms.
From S2P Require Import VmParams.
From S2P Require Import Transition.

(** Nothing reaches the store below the StateDB before its commit, and the refund
    counter is a [uint64]. *)
Definition uncommitted {St} (c : St) (db : StateDB St) : Prop := db_ctx db = c ∧ 0 ≤ db_refund db.

(** What go-ethereum documents: gas and its bounds, that the interpreter works on the
    StateDB only, and the message of a transaction. *)
Class GethEVMLaws (St Contract : Type) `{GethTx, GethAddress, !GethConfig, !GethEVM St Contract} : Prop := {
  intrinsic_nonneg d l a c h i s g : core_IntrinsicGas d l a c h i s = inl g → 0 ≤ g;
  floor_nonneg d g : FloorDataGas d = inl g → 0 ≤ g;
  call_gas evm a b d g v db db' r : 0 ≤ g → evm_Call evm a b d g v db = (db', Ok r) → 0 ≤ er_leftoverGas r ≤ g;
  create_gas evm a d g v db db' r : 0 ≤ g → evm_Create evm a d g v db = (db', Ok r) → 0 ≤ er_leftoverGas r ≤ g;
  call_uncommitted c evm a b d g v : preserves (uncommitted c) (evm_Call evm a b d g v);
  create_uncommitted c evm a d g v : preserves (uncommitted c) (evm_Create evm a d g v);
  to_message h t tx base : TransactionToMessage h t tx base =
    match Sender_at h t tx with
    | Ok a => Ok (AsMessage a tx base)
    | Err e => Err e
    | Panic w => Panic w
    end
}.

Ltac uncommitted_step :=
  preserves_step ||
  lazymatch goal with
  | |- preserves _ (modify _) =>
      apply preserves_modify; intros ? [? ?]; split; cbn; [done|by apply wrap_bound || done]
  | |- preserves _ (al ?m) => intros ? [? ?]; unfold al, zoom; destruct (m _); by split
  end.

Section transition.
Context `{SdkTypesLaws, AccountKeeperLaws} {B : Type} `{!BankKeeper B, !BankKeeperLaws B}.
Context `{!AuthAccounts, !AuthKeeper B, !AuthKeeperLaws B} `{Crypto, GethAddressLaws}.
Context `{GethTxLaws, !GethConfig, DecLaws, ParamsCodec, GethParams}.
Context `{GethHex, VmLibraries, StakingKeeper} {Contract : Type} `{!GethEVM (VmState B) Contract}.
Context `{!GethEVMLaws (VmState B) Contract}.
Context (info : EvmCoinInfo) (Hinfo : valid_coin_info info) (Hreserve : reserve ≠ EmptyString).
Context (precompiles : gmap Address Contract) (Contract_Address : Contract → Address).
Context (erc20Keeper : option (Address → outcome (option Contract))).
Context (ctx : TransCtx).

Abbreviation VS := (VmState B).
Abbreviation DB := (StateDB VS).
Abbreviation height := (BlockHeight (tc_ctx ctx)).
Abbreviation time := (tc_time ctx).
Implicit Types (msg : Message) (cfg : EVMConfig_) (db : DB) (s c : VS).

(** ** Gas *)

(** The least gas a message with this limit is charged. *)
Definition minimum_gas cfg msg : Z :=
  dTruncate (msg_GasLimit msg * default 0 (MinGasMultiplier (cfg_FeeMarketParams cfg))).

Definition multiplier_ok cfg : Prop := 0 ≤ default 0 (MinGasMultiplier (cfg_FeeMarketParams cfg)) ≤ dec_prec.

Lemma minimum_le_limit cfg msg : multiplier_ok cfg → 0 ≤ msg_GasLimit msg → 0 ≤ minimum_gas cfg msg ≤ msg_GasLimit msg.
Proof.
  unfold multiplier_ok, minimum_gas, dTruncate, dec_prec. set (m := default 0 _). intros Hm Hl.
  rewrite Z.quot_div_nonneg by nia. split; [apply Z.div_pos; nia|]. apply Z.div_le_upper_bound; nia.
Qed.

Lemma charged_gas_inv msg cfg internal temp left db db' used :
  multiplier_ok cfg → 0 ≤ msg_GasLimit msg < i64_max → 0 ≤ temp ≤ msg_GasLimit msg →
  charged_gas msg cfg internal temp left db = (db', Ok used) →
  db' = db ∧ used = if internal then temp else Z.max temp (minimum_gas cfg msg).
Proof.
  intros Hm Hl Ht E. pose proof (minimum_le_limit cfg msg Hm ltac:(lia)) as Hmin. unfold charged_gas in E.
  unfold minimum_gas, multiplier_ok in *. set (m := default 0 _) in *.
  apply bind_Ok_inv in E as (db1 & d & Ed & E). unfold dmul, dchk in Ed.
  rewrite dec_round_exact in Ed. destruct (dec_ok _); [|done]. injection Ed as <- <-.
  destruct (negb _); [done|]. destruct (_ <? left); [done|].
  assert (int64_of_uint64 temp = temp) as Hi by (unfold int64_of_uint64; destruct (Z.ltb_spec temp i64_max); lia).
  assert (dTruncate (if internal then dNew temp else Z.max (dNew temp) (msg_GasLimit msg * m))
    = if internal then temp else Z.max temp (dTruncate (msg_GasLimit msg * m))) as Hd.
  { unfold dTruncate, dNew, dec_prec. destruct internal; [apply Z.quot_mul; lia|].
    rewrite !Z.quot_div_nonneg by nia. destruct (Z.max_spec (temp * 10 ^ 18) (msg_GasLimit msg * m)) as [[? ->]|[? ->]].
    - symmetry. apply Z.max_r. apply Z.div_le_lower_bound; lia.
    - rewrite Z.div_mul by lia. symmetry. apply Z.max_l. apply Z.div_le_upper_bound; lia. }
  rewrite Hi, Hd in E. unfold to_uint64 in E. destruct (IsUint64 _); [|done]. by injection E.
Qed.

Lemma refund_gas_inv msg left floor db db' mx temp left' :
  0 ≤ left ≤ msg_GasLimit msg → 0 ≤ floor ≤ msg_GasLimit msg → 0 ≤ db_refund db →
  (IsPrague_at height time = false → floor = 0) →
  refund_gas ctx msg left floor db = (db', Ok (mx, temp, left')) →
  let used := msg_GasLimit msg - left in
  let quotient := if London_at height then RefundQuotientEIP3529 else RefundQuotient in
  db' = db ∧ mx = Z.max used floor ∧ temp = Z.max (used - Z.min (db_refund db) (used / quotient)) floor ∧
  left' = msg_GasLimit msg - temp.
Proof.
  intros Hl Hf Hr Hp E used q. unfold refund_gas in E. destruct (Z.ltb_spec (msg_GasLimit msg) left); [lia|].
  rewrite (bind_Ok GetRefund _ _ _ _ eq_refl) in E. fold used q in E.
  assert (0 < q) as Hq by (unfold q, RefundQuotientEIP3529, RefundQuotient; destruct (London_at _); lia).
  assert (0 ≤ used / q ≤ used) as Hd by (split; [apply Z.div_pos; lia|apply Z.div_le_upper_bound; nia]).
  unfold GasToRefund in E. destruct (Z.eqb_spec q 0); [lia|]. rewrite bind_ret in E.
  replace (if used / q >? db_refund db then db_refund db else used / q) with (Z.min (db_refund db) (used / q)) in E
    by (destruct (Z.gtb_spec (used / q) (db_refund db)); lia).
  set (r := Z.min _ _) in *. destruct (IsPrague_at _ _).
  - destruct (Z.ltb_spec (used - r) floor), (Z.ltb_spec used floor); injection E as <- <- <- <-; split_and!; done || lia.
  - rewrite (Hp eq_refl) in *. injection E as <- <- <- <-. split_and!; done || lia.
Qed.

Lemma check_gas_limit_inv msg db db' intrinsic floor :
  check_gas_limit ctx msg db = (db', Ok (intrinsic, floor)) →
  db' = db ∧ 0 ≤ intrinsic ≤ msg_GasLimit msg ∧ 0 ≤ floor ≤ msg_GasLimit msg ∧
  GetEthIntrinsicGas ctx msg (bool_decide (msg_To msg = None)) = inl intrinsic ∧
  if IsPrague_at height time then FloorDataGas (msg_Data msg) = inl floor else floor = 0.
Proof.
  unfold check_gas_limit. intros (db1 & g & E1%on_error_Ok_inv & E)%bind_Ok_inv.
  destruct (GetEthIntrinsicGas _ _ _) as [g'|] eqn:Hg in E1 |- *; [|done]. injection E1 as <- <-.
  pose proof (intrinsic_nonneg _ _ _ _ _ _ _ _ Hg). destruct (Z.ltb_spec (msg_GasLimit msg) g'); [done|].
  destruct (IsPrague_at _ _); [|injection E as <- <- <-; split_and!; done || lia].
  destruct (FloorDataGas _) as [f|] eqn:Hfl; [|done]. apply floor_nonneg in Hfl.
  destruct (Z.ltb_spec (msg_GasLimit msg) f); [done|]. injection E as <- <- <-. split_and!; done || lia.
Qed.

(** ** Before the commit *)

#[local] Instance keeper_of_vm : Keeper VS := VmKeeper.keeper info.

Lemma SetNonce_uncommitted c a n : preserves (uncommitted c) (StateDB.SetNonce a n).
Proof.
  unfold StateDB.SetNonce, getOrNewStateObject, createObject, getStateObject, so_SetNonce, append, setStateObject.
  repeat uncommitted_step.
Qed.

Lemma GetNonce_uncommitted c a : preserves (uncommitted c) (StateDB.GetNonce a).
Proof. unfold StateDB.GetNonce, on_object, getStateObject, setStateObject. repeat uncommitted_step. Qed.

Lemma GetCode_uncommitted c a : preserves (uncommitted c) (StateDB.GetCode a).
Proof. unfold StateDB.GetCode, on_object, so_Code, getStateObject, setStateObject. repeat uncommitted_step. Qed.

Lemma SetCode_uncommitted c a code : preserves (uncommitted c) (StateDB.SetCode a code).
Proof.
  unfold StateDB.SetCode, getOrNewStateObject, createObject, so_SetCode, so_Code, getStateObject, append, setStateObject.
  repeat uncommitted_step.
Qed.

Lemma warm_uncommitted c a : preserves (uncommitted c) (AddAddressToAccessList a).
Proof. unfold AddAddressToAccessList, append. repeat uncommitted_step. Qed.

Lemma authorize_uncommitted c auth id : preserves (uncommitted c) (applyAuthorization info auth id).
Proof.
  unfold applyAuthorization, validateAuthorization, Exist, on_object, getStateObject, setStateObject, AddRefund, append.
  repeat (uncommitted_step || apply warm_uncommitted || apply GetCode_uncommitted || apply GetNonce_uncommitted
          || apply SetNonce_uncommitted || apply SetCode_uncommitted).
Qed.

Lemma run_message_uncommitted c evm msg g v : preserves (uncommitted c) (run_message info evm msg g v).
Proof.
  unfold run_message. destruct (msg_To msg) as [to|].
  - repeat (uncommitted_step || apply GetCode_uncommitted || apply warm_uncommitted || apply call_uncommitted).
    intros db Hdb. pose proof (authorize_uncommitted c a ChainID db Hdb) as Hp. unfold ignore_error.
    by destruct (applyAuthorization _ _ _ db) as [? []].
  - repeat (uncommitted_step || apply SetNonce_uncommitted || apply GetNonce_uncommitted || apply create_uncommitted).
Qed.

Lemma run_message_gas evm msg g v db db' r :
  0 ≤ g → run_message info evm msg g v db = (db', Ok r) → 0 ≤ er_leftoverGas r ≤ g.
Proof.
  intros Hg. unfold run_message. destruct (msg_To msg) as [to|].
  - intros (? & ? & _ & (? & ? & _ & (? & ? & _ & E)%bind_Ok_inv)%bind_Ok_inv)%bind_Ok_inv. by eapply call_gas.
  - intros (? & ? & _ & (? & ? & E & (? & ? & _ & (? & ? & _ & [= <- <-])%bind_Ok_inv)%bind_Ok_inv)%bind_Ok_inv)%bind_Ok_inv.
    by eapply create_gas.
Qed.

Lemma Prepare_uncommitted c r a b d l q : preserves (uncommitted c) (Prepare r a b d l q).
Proof. unfold Prepare. repeat uncommitted_step. Qed.

(** ** A message *)

Abbreviation evm_for s msg cfg := (NewEVM precompiles Contract_Address erc20Keeper ctx s msg cfg).
Abbreviation apply_config msg commit cfg txc internal :=
  (ApplyMessageWithConfig info precompiles Contract_Address erc20Keeper ctx msg commit cfg txc internal None).

(** The StateDB [db] at the end of an execution that returned [r], with the gas that
    was needed to start. *)
Record executed s msg cfg (txc : TxConfig) (db : DB) (r : EvmResult) (intrinsic floor : Z) : Prop := {
  ex_intrinsic : GetEthIntrinsicGas ctx msg (bool_decide (msg_To msg = None)) = inl intrinsic;
  ex_start : 0 ≤ intrinsic ≤ msg_GasLimit msg;
  ex_floor : 0 ≤ floor ≤ msg_GasLimit msg;
  ex_prague : if IsPrague_at height time then FloorDataGas (msg_Data msg) = inl floor else floor = 0;
  ex_run : ∃ db1 value,
    Prepare (DBRules_at height time) (msg_From msg) 0 (msg_To msg) (ActivePrecompiles (evm_for s msg cfg))
      (msg_AccessList msg) (New s [] txc) = (db1, Ok tt) ∧
    Uint256FromBigInt (msg_Value msg) = Ok value ∧
    run_message info (evm_for s msg cfg) msg (msg_GasLimit msg - intrinsic) value db1 = (db, Ok r);
  ex_db : uncommitted s db;
  ex_left : 0 ≤ er_leftoverGas r ≤ msg_GasLimit msg - intrinsic
}.

Lemma apply_inv msg commit cfg txc internal s s' res :
  multiplier_ok cfg → 0 ≤ msg_GasLimit msg < i64_max →
  apply_config msg commit cfg txc internal s = (s', Ok res) →
  ∃ db r intrinsic floor, executed s msg cfg txc db r intrinsic floor ∧
    (let used := msg_GasLimit msg - er_leftoverGas r in
     let quotient := if London_at height then RefundQuotientEIP3529 else RefundQuotient in
     let temp := Z.max (used - Z.min (db_refund db) (used / quotient)) floor in
     GasUsed res = if internal then temp else Z.max temp (minimum_gas cfg msg)) ∧
    VmError res = default EmptyString (er_vmErr r) ∧
    ∃ db', (if commit then Commit db = (db', Ok tt) else db' = db) ∧ s' = db_ctx db'.
Proof.
  intros Hm Hl E. unfold ApplyMessageWithConfig in E. destruct (apply_message _ _ _ _ _ _ _ _ _ _ _ _) as [dbf o] eqn:Ea.
  injection E as <- ->. unfold apply_message in Ea. rewrite (bind_Ok (gets _) _ _ _ _ eq_refl), bind_ret in Ea.
  rewrite bool_decide_eq_true_2 in Ea by done. change (db_ctx (New s [] txc)) with s in Ea.
  change (NewEVMWithOverridePrecompiles precompiles Contract_Address erc20Keeper ctx s msg cfg true) with (evm_for s msg cfg) in Ea.
  apply bind_Ok_inv in Ea as (db0 & [intrinsic floor] & Ec & Ea).
  apply check_gas_limit_inv in Ec as (-> & Hin & Hfl & Hgi & Hpr).
  apply bind_Ok_inv in Ea as (db1 & [] & Ep & Ea). apply bind_Ok_inv in Ea as (db1' & value & Ev & Ea).
  unfold of_outcome in Ev. injection Ev as <- Ev.
  apply bind_Ok_inv in Ea as (db & r & Er & Ea). pose proof (run_message_gas _ _ _ _ _ _ _ (proj2 (Z.le_0_sub _ _) (proj2 Hin)) Er) as Hleft.
  assert (uncommitted s db) as Hdb.
  { eapply preserves_run; [apply run_message_uncommitted| |exact Er].
    eapply preserves_run; [apply Prepare_uncommitted| |exact Ep]. by split. }
  apply bind_Ok_inv in Ea as (db2 & [[mx temp] left] & Eg & Ea).
  apply refund_gas_inv in Eg as (-> & _ & Htemp & _); [|lia|lia|apply Hdb|by intros Hp; rewrite Hp in Hpr].
  apply bind_Ok_inv in Ea as (db3 & [] & Em & Ea). apply bind_Ok_inv in Ea as (db4 & used & Eu & Ea).
  apply charged_gas_inv in Eu as [-> Hused]; [|done|done|]. 2: {
    rewrite Htemp. destruct Hdb as [_ Hr]. set (u := msg_GasLimit msg - er_leftoverGas r) in *.
    set (q := if London_at _ then _ else _).
    assert (0 ≤ u / q) by (apply Z.div_pos; [unfold u; lia|unfold q, RefundQuotientEIP3529, RefundQuotient; destruct (London_at _); lia]).
    assert (0 ≤ u ≤ msg_GasLimit msg) by (unfold u; lia). lia. }
  rewrite (bind_Ok Logs _ _ _ _ eq_refl) in Ea. injection Ea as <- <-.
  exists db, r, intrinsic, floor. split_and!.
  - split; try done. by exists db1, value.
  - cbn. by rewrite Hused, Htemp.
  - done.
  - exists db3. split; [|done]. apply when_Ok_inv in Em as [[-> Em%on_error_Ok_inv]|[-> ->]]; done.
Qed.

Lemma message_gas_limit msg commit cfg txc s s' res :
  multiplier_ok cfg → 0 ≤ msg_GasLimit msg < i64_max →
  apply_config msg commit cfg txc false s = (s', Ok res) → GasUsed res ≤ msg_GasLimit msg.
Proof.
  intros Hm Hl E. apply apply_inv in E as (db & r & i & f & [_ Hi Hfl _ _ [_ Hr] Hle] & Hu & _); [|done|done].
  pose proof (minimum_le_limit cfg msg Hm ltac:(lia)) as Hmin. cbn in Hu. rewrite Hu.
  set (u := msg_GasLimit msg - er_leftoverGas r) in *. set (q := if London_at _ then _ else _).
  assert (0 ≤ u / q) by (apply Z.div_pos; [unfold u; lia|unfold q, RefundQuotientEIP3529, RefundQuotient; destruct (London_at _); lia]).
  assert (u ≤ msg_GasLimit msg) by (unfold u; lia). lia.
Qed.

(** C9: the gas of a message.  A message that is applied is charged at most its gas
    limit, and at least each of: what was intrinsically needed less the largest refund,
    from Prague on the floor of its data, and, unless it is an internal call of a
    module, the share of the limit the fee market sets; without commit the store is as
    it was.  The fee market's multiplier lies between 0 and 1 and the limit below 2^63. *)
Theorem message_gas_bounds msg commit cfg txc internal s s' res :
  multiplier_ok cfg → 0 ≤ msg_GasLimit msg < i64_max →
  apply_config msg commit cfg txc internal s = (s', Ok res) →
  GasUsed res ≤ msg_GasLimit msg ∧ (internal = false → minimum_gas cfg msg ≤ GasUsed res) ∧
  (∃ intrinsic, GetEthIntrinsicGas ctx msg (bool_decide (msg_To msg = None)) = inl intrinsic ∧
     intrinsic - intrinsic / (if London_at height then 5 else 2) ≤ GasUsed res) ∧
  (IsPrague_at height time = true → ∃ floor, FloorDataGas (msg_Data msg) = inl floor ∧ floor ≤ GasUsed res) ∧
  (commit = false → s' = s).
Proof.
  intros Hm Hl E. apply apply_inv in E as (db & r & intrinsic & floor & [Hi Hs Hf Hp _ [Hc Hr] Hle] & Hg & _ & db' & Hco & ->);
    [|done|done].
  pose proof (minimum_le_limit cfg msg Hm ltac:(lia)) as Hmin. cbn in Hg. set (u := msg_GasLimit msg - er_leftoverGas r) in *.
  change RefundQuotientEIP3529 with 5 in Hg. change RefundQuotient with 2 in Hg. set (q := if London_at _ then 5 else 2) in *.
  assert (2 ≤ q) as Hq by (unfold q; destruct (London_at _); lia).
  assert (intrinsic ≤ u ≤ msg_GasLimit msg) as Hu by (unfold u; lia). clearbody u q.
  assert (0 ≤ u / q) as Hu0 by (apply Z.div_pos; lia).
  assert (u / q - intrinsic / q ≤ u - intrinsic) as Hd.
  { pose proof (Z.div_mod u q). pose proof (Z.mod_pos_bound u q). pose proof (Z.div_mod intrinsic q).
    pose proof (Z.mod_pos_bound intrinsic q). nia. }
  split_and!; [destruct internal; lia|intros ->; lia| | |].
  - exists intrinsic. split; [done|]. destruct internal; lia.
  - intros HP. rewrite HP in Hp. exists floor. split; [done|destruct internal; lia].
  - intros ->. by rewrite Hco.
Qed.

(** ** A transaction *)

Context (sort : Coins → Coins) (Hsort : ∀ x : Coin, sort [x] = [x]).
Context (BytesToAddress : addr → Address) (HBytes : ∀ a, BytesToAddress (Address_Bytes a) = a).
Context {G : Type} `{!GasMeterOps G}.
Abbreviation SS := (Stores B).
Abbreviation TS := (TxState B G).
Implicit Types (S : SS) (st : TS).

(** The store of the EVM keeper. *)
Definition world st : VS := an_vm (st_ante (ts_stores st)).

Lemma ante_reads {A} (m : M (AnteState B) A) S : (∀ a, preserves (eq a) m) → preserves (eq S) (ante m).
Proof.
  intros Hm t <-. unfold ante, zoom. specialize (Hm (st_ante S) _ eq_refl).
  destruct (m (st_ante S)) as [a o]. cbn in *. subst a. by destruct S.
Qed.

Lemma fee_reads {A} (m : M FeeState A) (a : AnteState B) : (∀ f, preserves (eq f) m) → preserves (eq a) (fee_market m).
Proof.
  intros Hm t <-. unfold fee_market, zoom. specialize (Hm (an_fee a) _ eq_refl).
  destruct (m (an_fee a)) as [f o]. cbn in *. subst f. by destruct a.
Qed.

Lemma wrapper_params_reads f : preserves (eq f) (Wrapper_GetParams info).
Proof.
  unfold Wrapper_GetParams, GetParams, ConvertAmountTo18DecimalsLegacy, dmulInt, dchk, dval.
  repeat preserves_step.
Qed.

Lemma base_fee_reads S : preserves (eq S) (Keeper_GetBaseFee info ctx).
Proof.
  unfold Keeper_GetBaseFee, GetEvmCoinInfo. repeat preserves_step. apply ante_reads. intros a0. apply fee_reads. intros f.
  unfold Wrapper_GetBaseFee, FeeMarket.GetBaseFee, GetParams, dmulInt, dchk. repeat preserves_step.
Qed.

Lemma EVMConfig_inv proposer S S' cfg :
  EVMConfig info BytesToAddress ctx proposer S = (S', Ok cfg) →
  S' = S ∧ (Keeper_GetBaseFee info ctx S).2 = Ok (cfg_BaseFee cfg) ∧
  (Wrapper_GetParams info (an_fee (st_ante S))).2 = Ok (cfg_FeeMarketParams cfg).
Proof.
  intros (S1 & vp & [= <- <-] & E)%bind_Ok_inv. apply bind_Ok_inv in E as (S2 & fp & E2 & E).
  pose proof (preserves_run (eq S) _ S S2 _ (ante_reads _ S (λ a, fee_reads _ a wrapper_params_reads)) eq_refl E2) as <-.
  apply bind_Ok_inv in E as (S3 & cb & E3%on_error_Ok_inv & E). assert (S3 = S) as -> by by injection E3.
  apply bind_Ok_inv in E as (S4 & base & E4 & [= <- <-]).
  pose proof (preserves_run (eq S) _ S S4 _ (base_fee_reads S) eq_refl E4) as <-. split_and!; [done|by rewrite E4|].
  unfold ante, zoom, fee_market, zoom in E2. cbn in E2 |- *. destruct (Wrapper_GetParams info _) as [f o]. by injection E2 as _ ->.
Qed.

Abbreviation apply_transaction :=
  (ApplyTransaction info sort BytesToAddress precompiles Contract_Address erc20Keeper ctx (G := G) None).

Lemma stores_Ok_inv {A} (m : M SS A) st st' v :
  stores m st = (st', Ok v) → ∃ S, m (ts_stores st) = (S, Ok v) ∧ st' = mkTxState S (ts_meter st).
Proof. unfold stores, zoom. destruct (m (ts_stores st)) as [S o]. intros [= <- ->]. eauto. Qed.

Lemma meter_world {A} (m : M G A) st : world (meter m st).1 = world st.
Proof. unfold meter, zoom. by destruct (m (ts_meter st)). Qed.

(** The refund is the only thing at the end that touches the keeper's store. *)
Lemma finish_inv msg txc res st st' res' :
  finish_transaction info sort (G := G) msg txc res st = (st', Ok res') →
  res' = res ∧
  VmKeeper.RefundGas info sort (msg_From msg) (msg_GasPrice msg)
    (if msg_GasLimit msg >? GasUsed res then msg_GasLimit msg - GasUsed res else 0) (eci_Denom info) (world st)
  = (world st', Ok tt).
Proof.
  intros E. unfold finish_transaction in E. apply bind_Ok_inv in E as (st1 & bloom & E1 & E).
  assert (world st1 = world st) as <-.
  { apply stores_Ok_inv in E1 as (S1 & E1 & ->). unfold initializeBloomFromLogs in E1.
    destruct (res_Logs res); cbn in E1; by injection E1 as <- _. }
  apply bind_Ok_inv in E as (st2 & [] & E2%on_error_Ok_inv & E). apply stores_Ok_inv in E2 as (S2 & E2 & ->).
  unfold store_vm, ante, vm, zoom in E2. change (an_vm (st_ante (ts_stores st1))) with (world st1) in E2.
  destruct (VmKeeper.RefundGas _ _ _ _ _ _ _) as [s2 o]. cbn in E2. injection E2 as <- ->.
  assert (world st' = s2 ∧ res' = res) as [-> ->]; [|done].
  apply bind_Ok_inv in E as (st3 & [] & E3 & E). apply bind_Ok_inv in E as (st4 & [] & E4 & E).
  apply bind_Ok_inv in E as (st5 & total & E5%on_error_Ok_inv & E). apply bind_Ok_inv in E as (st6 & [] & E6 & [= <- <-]).
  split; [|done]. transitivity (world st5).
  { unfold ResetGasMeterAndConsumeGas in E6. rewrite (bind_Ok (gets _) _ _ _ _ eq_refl) in E6.
    apply bind_Ok_inv in E6 as (st7 & [] & E7 & E8). pose proof (meter_world (gm_RefundGas (gm_GasConsumed (ts_meter st5))) st5) as Hw7.
    rewrite E7 in Hw7. pose proof (meter_world (gm_ConsumeGas total) st7) as Hw8. rewrite E8 in Hw8. cbn in *. congruence. }
  transitivity (world st4).
  { apply stores_Ok_inv in E5 as (S5 & E5 & ->). unfold ante, zoom, AddTransientGasUsed in E5. cbn in E5.
    destruct (_ <? _) in E5; [done|]. by injection E5 as <- _. }
  apply stores_Ok_inv in E4 as (S4 & E4 & ->). cbn in E4. injection E4 as <-.
  destruct bloom as [b|]; [|by injection E3 as <-].
  apply bind_Ok_inv in E3 as (st8 & [] & (S8 & E8 & ->)%stores_Ok_inv & (S9 & E9 & ->)%stores_Ok_inv).
  injection E8 as <-. by injection E9 as <-.
Qed.

(** A transaction that was applied, without hooks. *)
Lemma ApplyTransaction_inv tx st st' res :
  apply_transaction tx st = (st', Ok res) →
  ∃ cfg txc a tmp,
    (EVMConfig info BytesToAddress ctx (tc_ProposerAddress ctx) (ts_stores st)).2 = Ok cfg ∧
    (TxConfig_at (Tx_Hash tx) (ts_stores st)).2 = Ok txc ∧
    (Keeper_GetBaseFee info ctx (ts_stores st)).2 = Ok (cfg_BaseFee cfg) ∧
    (Wrapper_GetParams info (an_fee (st_ante (ts_stores st)))).2 = Ok (cfg_FeeMarketParams cfg) ∧
    Sender_at height time tx = Ok a ∧
    let msg := AsMessage a tx (cfg_BaseFee cfg) in
    apply_config msg true cfg txc false (world st) = (tmp, Ok res) ∧
    VmKeeper.RefundGas info sort a (msg_GasPrice msg)
      (if msg_GasLimit msg >? GasUsed res then msg_GasLimit msg - GasUsed res else 0) (eci_Denom info)
      (if Failed res then world st else tmp) = (world st', Ok tt).
Proof.
  intros E. unfold ApplyTransaction in E. apply bind_Ok_inv in E as (st1 & cfg & E1%on_error_Ok_inv & E).
  unfold stores, zoom in E1. destruct (EVMConfig _ _ _ _ _) as [S1 o] eqn:Ec. injection E1 as <- ->.
  pose proof Ec as Hcfg%(f_equal snd). apply EVMConfig_inv in Ec as (-> & Hbase & Hfp).
  apply bind_Ok_inv in E as (st2 & txc & E2 & E).
  assert (st2 = st ∧ (TxConfig_at (Tx_Hash tx) (ts_stores st)).2 = Ok txc) as [-> Htxc].
  { unfold stores, zoom in E2; cbn in E2; injection E2 as <- <-; destruct st as [[[]]]; done. }
  clear E2.
  apply bind_Ok_inv in E as (st3 & msg & E3%on_error_Ok_inv & E). rewrite to_message in E3.
  destruct (Sender_at height time tx) as [a| |] eqn:Hs; [|done..]. injection E3 as <- <-.
  rewrite (bind_Ok (gets _) _ _ _ _ eq_refl) in E.
  destruct (store_vm _ _) as [tmpS o] eqn:Em. unfold store_vm, ante, vm, zoom in Em.
  destruct (apply_config _ _ _ _ _ _) as [tmp o'] eqn:Ea in Em. cbn in Em. injection Em as <- ->.
  destruct o as [r|e|w]; [|by apply bind_Ok_inv in E as (? & ? & _ & (? & ? & _ & [=])%bind_Ok_inv)|done].
  apply bind_Ok_inv in E as (st4 & bloom & E4 & E).
  assert (st4 = mkTxState (ts_stores st) (ts_meter st)) as ->.
  { unfold stores, zoom, initializeBloomFromLogs in E4. destruct (res_Logs r); cbn in E4; by injection E4 as <- _. }
  rewrite (bind_Ok (gets _) _ _ _ _ eq_refl) in E.
  apply bind_Ok_inv in E as (st5 & a' & E5%on_error_Ok_inv & E). injection E5 as <- _.
  apply bind_Ok_inv in E as (st6 & res1 & E6 & E). unfold post_process in E6.
  apply bind_Ok_inv in E6 as (st7 & [] & E7 & [= <- <-]).
  apply finish_inv in E as [-> E]. exists cfg, txc, a, tmp. cbv zeta. split_and!; try done.
  replace (if Failed r then world st else tmp) with (world st7); [exact E|].
  destruct (Failed r); cbn in E7; by injection E7 as <-.
Qed.

(** ** The price *)

Context (DeductFees : AccountI → Coins → M (PState B) unit).
Context (HDeduct : ∀ acc fees, DeductFees acc fees =
  if negb (Coins_IsValid fees) then throw (errorf ErrInsufficientFee "invalid fee amount")
  else on_error (BankWrapper.SendCoinsFromAccountToModule info sort (GetAddress acc) FeeCollectorName fees)
         (λ _, ret (errorf ErrInsufficientFunds "failed to deduct fees"))).
Context (reduction maxGasWanted : Z) (evmParams : EvmParams) (params : Params) (actx : AnteCtx).
Context (Hblock : ac_ctx actx = tc_ctx ctx ∧ ac_time actx = time).
Abbreviation account s x := (ak_GetAccount (ps_bank (vs_pb s)) x).
Abbreviation collector := (GetModuleAddress FeeCollectorName).

(** The keeper's base fee is the one of the ante handler. *)
Lemma base_fee_agrees S (a : AnteState B) b b' :
  eci_Decimals (default info (st_coinInfo S)) = eci_Decimals info →
  (GetParams (an_fee (st_ante S))).2 = Ok params →
  (AnteEvm.GetBaseFee info params actx a).2 = Ok b → (Keeper_GetBaseFee info ctx S).2 = Ok b' → b' = b.
Proof.
  intros Hdec Hp. unfold AnteEvm.GetBaseFee, Keeper_GetBaseFee, GetEvmCoinInfo. rewrite (proj1 Hblock).
  destruct (London_at height); cbn [negb]; [|by intros [= <-] [= <-]].
  rewrite (bind_Ok (gets _) _ S S _ eq_refl), Hdec.
  unfold ante, fee_market, zoom, Wrapper_GetBaseFee, FeeMarket.GetBaseFee.
  assert (∃ f, GetParams (an_fee (st_ante S)) = (f, Ok params)) as [f Hf] by (destruct (GetParams _); cbn in *; eexists; by rewrite Hp).
  unfold bind at 3. rewrite bind_assoc, (bind_Ok GetParams _ _ _ _ Hf), bind_ret.
  destruct (NoBaseFee params); [by intros [= <-] [= <-]|]. destruct (BaseFee params) as [fee|]; [|done].
  assert (Decimals_Validate (eci_Decimals info) = None) as ->.
  { unfold Decimals_Validate, EighteenDecimals. destruct Hinfo as [[Hl Hr] _ _ _].
    destruct (Z.ltb_spec 0 (eci_Decimals info)), (Z.leb_spec (eci_Decimals info) 18); done || lia. }
  pose proof (coin_factor_bounds info Hinfo) as Hcf. unfold ConvertAmountTo18DecimalsLegacy, coin_factor in *.
  destruct (Decimals_ConversionFactor _) as [cf|]; [|cbn in Hcf; lia].
  unfold dval, dmulInt, dchk, bind, ret. destruct (Z.eqb_spec fee 0) as [->|].
  - intros [= <-]. rewrite Z.mul_0_l, dec_ok_small by done. by intros [= <-].
  - destruct (dec_ok _); [|done]. by intros [= <-] [= <-].
Qed.

Lemma message_price a tx base : msg_GasPrice (AsMessage a tx (Some base)) = effective_price tx base.
Proof. cbn. unfold effective_price. destruct (Z.gtb_spec (Tx_GasTipCap tx + base) (Tx_GasFeeCap tx)); lia. Qed.

(** A refund moves coins only. *)
Lemma RefundGas_keeps a price left s s' :
  is_Some (account s reserve) → is_Some (account s (Address_Bytes a)) →
  VmKeeper.RefundGas info sort a price left (eci_Denom info) s = (s', Ok tt) →
  contracts s' = contracts s ∧ ∀ x, account s' x = account s x.
Proof.
  intros Hr Ha E. unfold VmKeeper.RefundGas in E. destruct (_ <? 0); [done|]. destruct (0 <? _); [|by injection E as <-].
  apply bind_Ok_inv in E as (s1 & n & [-> _]%ichk_inv & E). apply bind_Ok_inv in E as (s2 & cn & E2 & E).
  assert (s2 = s) as -> by by injection E2.
  apply on_error_Ok_inv, pb_Ok_inv in E as (p' & E & ->). split; [done|].
  unfold BankWrapper.SendCoinsFromModuleToAccount in E. destruct (BankWrapper.coins_zero _); [by injection E as <-|].
  apply (kept_from_module info Hreserve (λ x, account s x) Hr) in E; [|done|done]. exact E.
Qed.

Lemma multiplier_kept cfg f :
  Params_Validate params = Ok tt → (GetParams f).2 = Ok params →
  (Wrapper_GetParams info f).2 = Ok (cfg_FeeMarketParams cfg) → multiplier_ok cfg.
Proof.
  intros Hv Hp. assert (∃ f', GetParams f = (f', Ok params)) as [f' Hf] by (destruct (GetParams f); cbn in *; eexists; by rewrite Hp).
  unfold Wrapper_GetParams. rewrite (bind_Ok _ _ _ _ _ Hf). intros E.
  destruct (bind _ _ f') as [f1 o] eqn:E1. cbn in E. subst o.
  apply bind_Ok_inv in E1 as (f2 & fee & _ & (f3 & price & _ & (f4 & price' & _ & E4)%bind_Ok_inv)%bind_Ok_inv).
  unfold ret in E4. assert (MinGasMultiplier (cfg_FeeMarketParams cfg) = MinGasMultiplier params) as Hmm
    by by injection E4 as _ <-.
  unfold multiplier_ok. rewrite Hmm. unfold Params_Validate, validateMinGasMultiplier in Hv. revert Hv.
  unfold dNew. repeat (case_match; try done). intros _. cbn. lia.
Qed.

Abbreviation run_ante envelope sim :=
  (AnteHandle info BytesToAddress DeductFees reduction maxGasWanted evmParams params actx envelope sim (λ l q, ret (l, q))).
Abbreviation ethereum_tx :=
  (EthereumTx info sort BytesToAddress precompiles Contract_Address erc20Keeper ctx (G := G) None).

(** A transaction on its way through the chain: accepted by the ante handler in the
    stores [S], then handled as message [m]. *)
Record processed S envelope sim m st' res : Prop := {
  pr_funded : funded info (vs_pb (an_vm (st_ante S)));
  pr_collector : is_Some (account (an_vm (st_ante S)) collector);
  pr_params : Params_Validate params = Ok tt ∧ (GetParams (an_fee (st_ante S))).2 = Ok params;
  pr_coin : eci_Decimals (default info (st_coinInfo S)) = eci_Decimals info;
  pr_msg : tx_Msgs envelope = [EthMsg m] ∧ MsgEthereumTx_ValidateBasic m = Ok tt;
  pr_senders : ∀ t a, Sender_at height time t = Ok a → Address_Bytes a ≠ reserve;
  pr_run : ∃ ante' limit priority (g : G), run_ante envelope sim (st_ante S) = (ante', Ok (limit, priority)) ∧
    ethereum_tx m (mkTxState (set_ante ante' S) g) = (st', Ok res)
}.

Lemma processed_inv S envelope sim m st' res :
  processed S envelope sim m st' res → (∀ tx, Raw m = Some tx → Tx_Gas tx < i64_max) →
  ∃ tx a base cfg txc s tmp,
    Raw m = Some tx ∧ Sender_at height time tx = Ok a ∧ Address_Bytes a ≠ reserve ∧
    (AnteEvm.GetBaseFee info params actx (st_ante S)).2 = Ok (Some base) ∧ charged info a tx base (an_vm (st_ante S)) s ∧
    contracts s = contracts (an_vm (st_ante S)) ∧ multiplier_ok cfg ∧
    apply_config (AsMessage a tx (Some base)) true cfg txc false s = (tmp, Ok res) ∧ GasUsed res ≤ Tx_Gas tx ∧
    VmKeeper.RefundGas info sort a (effective_price tx base) (Tx_Gas tx - GasUsed res) (eci_Denom info)
      (if Failed res then s else tmp) = (world st', Ok tt).
Proof.
  intros [Hf Hco [Hv Hp] Hdec [Hm Hb] Hsig (ante' & limit & priority & g & Ea & Et)] Hgas.
  pose proof (ante_keeps info DeductFees BytesToAddress reduction maxGasWanted evmParams params actx
    (contracts (an_vm (st_ante S))) (fs_params (an_fee (st_ante S))) envelope sim) as Hk.
  apply (preserves_run _ _ _ _ _ Hk) in Ea as Hu; [|by split]. destruct Hu as [Hc Hfp].
  eapply ante_accepts in Ea as (m' & tx & a & base & Hm' & Hraw & Hfrom & Hs & Hbase & Hch & _); eauto.
  2: { intros m' Hm'. rewrite Hm in Hm'. apply list_elem_of_singleton in Hm' as [= ->]. done. }
  2: { rewrite (proj1 Hblock), (proj2 Hblock). done. }
  rewrite Hm in Hm'. injection Hm' as <-. rewrite (proj1 Hblock), (proj2 Hblock) in Hs. specialize (Hgas tx Hraw).
  unfold EthereumTx in Et. rewrite Hraw in Et. apply on_error_Ok_inv, ApplyTransaction_inv in Et
    as (cfg & txc & a' & tmp & _ & _ & Hb1 & Hfp1 & Hs' & Eap & Er).
  rewrite Hs in Hs'. injection Hs' as <-. cbn [ts_stores st_ante set_ante world] in *.
  assert ((GetParams (an_fee ante')).2 = Ok params) as Hp'.
  { unfold GetParams in *. rewrite !(bind_Ok (gets _) _ _ _ _ eq_refl) in *. rewrite Hfp. by destruct (fs_params _) as [b|]; [destruct (unmarshal b)|]. }
  assert (cfg_BaseFee cfg = Some base) as Hcb.
  { eapply (base_fee_agrees (set_ante ante' S)); [exact Hdec|exact Hp'|exact Hbase|exact Hb1]. }
  rewrite Hcb in Eap, Er. pose proof (multiplier_kept cfg _ Hv Hp' Hfp1) as Hmul.
  pose proof (tx_gas_range tx) as Hg. rewrite message_price in Er.
  assert (GasUsed res ≤ Tx_Gas tx) as Hle.
  { apply message_gas_limit in Eap; [exact Eap|done|cbn; lia]. }
  exists tx, a, base, cfg, txc, (an_vm ante'), tmp. split_and!; try done; [by apply (Hsig tx)|].
  replace (Tx_Gas tx - GasUsed res) with (if Tx_Gas tx >? GasUsed res then Tx_Gas tx - GasUsed res else 0)
    by (destruct (Z.gtb_spec (Tx_Gas tx) (GasUsed res)); lia). exact Er.
Qed.

(** C7: a failed transaction only pays for gas.  When the ante handler accepted a
    transaction and its execution then reports a VM error, the gas used is at most
    the gas limit; the sender has paid exactly the gas used times
    min(tip cap + base fee, fee cap), which the fee collector received; the supply and
    every other balance, all code and all storage are as before the transaction; and
    the sender's nonce is used up. *)
Theorem failed_transaction_only_pays S envelope sim m st' res :
  processed S envelope sim m st' res → (∀ tx, Raw m = Some tx → Tx_Gas tx < i64_max) → Failed res = true →
  let s := an_vm (st_ante S) in
  ∃ tx a base, Raw m = Some tx ∧ Sender_at height time tx = Ok a ∧
    (AnteEvm.GetBaseFee info params actx (st_ante S)).2 = Ok (Some base) ∧ GasUsed res ≤ Tx_Gas tx ∧
    (∀ x, x ≠ reserve → ext info (vs_pb (world st')) x
       = ext info (vs_pb s) x + paid a (GasUsed res * effective_price tx base) x) ∧
    ext_supply info (vs_pb (world st')) = ext_supply info (vs_pb s) ∧
    contracts (world st') = contracts s ∧
    sequence s (Address_Bytes a) = Tx_Nonce tx ∧ sequence (world st') (Address_Bytes a) = Tx_Nonce tx + 1 ∧
    (∀ x, x ≠ Address_Bytes a → account (world st') x = account s x).
Proof.
  intros Hpr Hgas Hfail. cbv zeta. pose proof (pr_funded _ _ _ _ _ _ Hpr) as Hf.
  apply processed_inv in Hpr as (tx & a & base & cfg & txc & s1 & tmp & Hraw & Hs & Ha & Hb & Hch & Hc & _ & _ & Hle & Er); [|done].
  rewrite Hfail in Er. destruct Hch as [Hmo Hpc Hcov Hn [Hn1 _] Hacc Hoth].
  assert (is_Some (account s1 reserve)) as Hre by (rewrite Hoth by done; apply (fd_reserve _ _ Hf)).
  pose proof (RefundGas_keeps _ _ _ _ _ Hre Hacc Er) as [Hk1 Hk2].
  assert (0 ≤ (Tx_Gas tx - GasUsed res) * effective_price tx base) as Hpos.
  { unfold VmKeeper.RefundGas in Er. by destruct (Z.ltb_spec ((Tx_Gas tx - GasUsed res) * effective_price tx base) 0). }
  eapply (RefundGas_moves info Hinfo Hreserve sort Hsort) in Er as He; [|apply Hmo|done|done].
  destruct (effect_trans info _ _ _ _ _ _ _ Hmo He) as [_ _ Hext Hsup _ _].
  exists tx, a, base. split_and!; try done.
  - intros x Hx. rewrite Hext by done. rewrite Z.mul_sub_distr_r. unfold paid, point. repeat case_decide; lia.
  - rewrite Hsup. lia.
  - by rewrite Hk1.
  - unfold sequence in *. by rewrite Hk2.
  - intros x Hx. by rewrite Hk2, Hoth.
Qed.

(** ** Settlement *)

(** A state of the EVM's run of one transaction. *)
Definition in_history db : Prop := ∃ cps, evm_run db cps.

(** The interpreter works through the operations of the StateDB; this leaves out
    stateful precompiles, which also write to the cached multistore. *)
Record evm_in_history : Prop := {
  call_history evm a b d g v db db' r :
    in_history db → evm_Call evm a b d g v db = (db', Ok r) → in_history db';
  create_history evm a d g v db db' r :
    in_history db → evm_Create evm a d g v db = (db', Ok r) → in_history db'
}.

(** A call that returns, also with an error, leaves such a state. *)
Definition historic {A} (m : M DB A) : Prop := ∀ db, in_history db →
  match m db with (db', Panic _) => True | (db', _) => in_history db' end.

Lemma historic_run {A} (m : M DB A) db db' x : historic m → in_history db → m db = (db', Ok x) → in_history db'.
Proof. intros Hm Hdb E. specialize (Hm db Hdb). by rewrite E in Hm. Qed.

Lemma historic_bind {A A'} (m : M DB A) (f : A → M DB A') :
  historic m → (∀ x, historic (f x)) → historic (bind m f).
Proof.
  intros Hm Hf db Hdb. specialize (Hm db Hdb). unfold bind. destruct (m db) as [db' [x| |]]; try done. by apply Hf.
Qed.

Lemma historic_pure {A} (m : M DB A) : (∀ db, (m db).1 = db) → historic m.
Proof. intros Hm db Hdb. specialize (Hm db). destruct (m db) as [db' []]; cbn in *; by subst. Qed.

Lemma historic_when (b : bool) (m : M DB unit) : historic m → historic (when b m).
Proof. destruct b; [done|]. intros _. by apply historic_pure. Qed.

Lemma historic_for_each {A} (l : list A) (f : A → M DB unit) : (∀ x, historic (f x)) → historic (for_each l f).
Proof. intros Hf. induction l; cbn; [by apply historic_pure|]. apply historic_bind; auto. Qed.

Lemma historic_ignore (m : M DB unit) : historic m → historic (ignore_error m).
Proof. intros Hm db Hdb. specialize (Hm db Hdb). unfold ignore_error. by destruct (m db) as [? []]. Qed.

(** An operation of the EVM never returns an error. *)
Definition errless {A} (m : M DB A) : Prop := ∀ db e, (m db).2 ≠ Err e.

Lemma historic_op {A} op (m : M DB A) :
  (∀ db db' x, m db = (db', Ok x) → run_evm op db = (db', Ok tt)) → errless m → historic m.
Proof.
  intros Hop Hne db [cps Hr]. specialize (Hne db). destruct (m db) as [db' [x|e|w]] eqn:E; [|by destruct (Hne e)|done].
  exists cps. eapply (run_op op); [exact Hr|]. by eapply Hop.
Qed.

Lemma errless_bind {A A'} (m : M DB A) (f : A → M DB A') : errless m → (∀ x, errless (f x)) → errless (bind m f).
Proof. intros Hm Hf db e. specialize (Hm db e). unfold bind. destruct (m db) as [db' []]; cbn in *; [apply Hf|congruence|done]. Qed.

Ltac errless_step :=
  lazymatch goal with
  | |- errless (bind _ _) => apply errless_bind; [|intros ?]
  | |- errless (when ?b _) => destruct b; cbn [when]
  | |- errless (match ?x with _ => _ end) => destruct x
  | |- errless (ret _) => done
  | |- errless (gets _) => done
  | |- errless (modify _) => done
  | |- errless (panic _) => done
  end.

Lemma object_errless a : errless (getStateObject a).
Proof. unfold getStateObject, setStateObject. repeat errless_step. Qed.

Lemma new_object_errless a : errless (getOrNewStateObject a).
Proof. unfold getOrNewStateObject, createObject, append, setStateObject. repeat (errless_step || apply object_errless). Qed.

Ltac operation op :=
  apply (historic_op op); [by intros db db' x E; cbn; unfold done_; rewrite ?(bind_Ok _ _ _ _ _ E), ?E; try destruct x|];
  unfold StateDB.SetNonce, StateDB.GetNonce, StateDB.GetCode, StateDB.SetCode, Exist, on_object, so_SetNonce, so_SetCode, so_Code,
    AddRefund, AddAddressToAccessList, append, setStateObject;
  repeat (errless_step || apply object_errless || apply new_object_errless).

Lemma SetNonce_historic a n : historic (StateDB.SetNonce a n).
Proof. operation (OSetNonce a n). Qed.
Lemma GetNonce_historic a : historic (StateDB.GetNonce a).
Proof. operation (OGetNonce a). Qed.
Lemma GetCode_historic a : historic (StateDB.GetCode a).
Proof. operation (OGetCode a). Qed.
Lemma SetCode_historic a code : historic (StateDB.SetCode a code).
Proof. operation (OSetCode a code). Qed.
Lemma Exist_historic a : historic (Exist a).
Proof. operation (OExist a). Qed.
Lemma AddRefund_historic g : historic (AddRefund g).
Proof. operation (OAddRefund g). Qed.
Lemma warm_historic a : historic (AddAddressToAccessList a).
Proof. operation (OAddAddress a). intros db e. unfold al, zoom, AccessList.AddAddress. by destruct (_ !! a). Qed.

Lemma authorize_historic auth id : historic (applyAuthorization info auth id).
Proof.
  unfold applyAuthorization, validateAuthorization.
  repeat first
    [ apply SetNonce_historic | apply GetNonce_historic | apply GetCode_historic | apply SetCode_historic
    | apply Exist_historic | apply AddRefund_historic | apply warm_historic
    | lazymatch goal with
      | |- historic (bind _ _) => apply historic_bind; [|intros ?]
      | |- historic (when _ _) => apply historic_when
      | |- historic (if ?b then _ else _) => destruct b
      end
    | by apply historic_pure
    | apply historic_pure; intros ?; unfold on_error, of_outcome; by destruct (Authority auth) ].
Qed.

Lemma run_message_historic evm msg g v db db' r :
  evm_in_history → in_history db → run_message info evm msg g v db = (db', Ok r) → in_history db'.
Proof.
  intros Hevm Hdb. unfold run_message. destruct (msg_To msg) as [to|].
  - intros (db1 & [] & E1 & (db2 & code & E2 & (db3 & [] & E3 & E4)%bind_Ok_inv)%bind_Ok_inv)%bind_Ok_inv.
    eapply (call_history Hevm); [|exact E4].
    eapply (historic_run _ _ _ _ (historic_when _ _ (warm_historic _))); [|exact E3].
    eapply (historic_run _ _ _ _ (GetCode_historic to)); [|exact E2].
    eapply (historic_run _ _ _ _ (historic_for_each _ _ (λ auth, historic_ignore _ (authorize_historic auth ChainID))));
      [exact Hdb|exact E1].
  - intros (db1 & [] & E1 & (db2 & r' & E2 & (db3 & n & E3 & (db4 & [] & E4 & [= <- <-])%bind_Ok_inv)%bind_Ok_inv)%bind_Ok_inv)%bind_Ok_inv.
    eapply (historic_run _ _ _ _ (historic_when _ _ (SetNonce_historic _ _))); [|exact E4].
    eapply (historic_run _ _ _ _ (GetNonce_historic _)); [|exact E3].
    eapply (create_history Hevm); [|exact E2].
    by eapply (historic_run _ _ _ _ (SetNonce_historic _ _)); [|exact E1].
Qed.

Lemma executed_historic s msg cfg txc db r i f :
  evm_in_history → executed s msg cfg txc db r i f → in_history db.
Proof.
  intros Hevm Hx. destruct (ex_run _ _ _ _ _ _ _ _ Hx) as (db1 & v & E1 & _ & E2).
  eapply run_message_historic; [exact Hevm| |exact E2]. exists []. by eapply run_start.
Qed.

(** What an account can spend after a payment to it. *)
Lemma spend_after s s' Δ σ x :
  funded info (vs_pb s) → x ≠ reserve → effect info (vs_pb s) (vs_pb s') Δ σ → 0 ≤ Δ x →
  ext_spend info (vs_pb s') x = ext_spend info (vs_pb s) x + Δ x.
Proof.
  intros Hf Hx [Hwf _ He _ Hl _] Hd. pose proof (CF_bounds info Hinfo) as HCF.
  pose proof (frac_range info Hinfo (vs_pb s') x Hwf) as Hfr. pose proof (frac_range info Hinfo (vs_pb s) x (fd_wf _ _ Hf)) as Hfr0.
  pose proof (fd_locked _ _ Hf x Hx) as Hlk. specialize (He x Hx). specialize (Hl x).
  assert (ilocked info (vs_pb s') x ≤ ibal info (vs_pb s') x) as Hlk'.
  { unfold ext in He. rewrite !decide_False in He by done. nia. }
  rewrite !(spend_ext info) by done. rewrite Hl. lia.
Qed.

(** C8: a successful transaction settles.  Once the ante handler has left a funded
    state, a transaction that is applied without a VM error leaves every account but
    the fee collector and the reserve with exactly the balance the interpreter's
    StateDB showed at the end, the sender with the refund of the gas it did not use
    in addition; accounts the StateDB did not dirty can spend what they could.
    Accounts that self-destructed are left out, and this holds if what was dirtied are
    ordinary accounts with 256-bit balances and no stateful precompile ran. *)
Theorem successful_transaction_settles tx st st' res :
  evm_in_history → funded info (vs_pb (world st)) →
  Params_Validate params = Ok tt → (GetParams (an_fee (st_ante (ts_stores st)))).2 = Ok params →
  Tx_Gas tx < i64_max → (∀ a, Sender_at height time tx = Ok a → Address_Bytes a ≠ reserve) →
  apply_transaction tx st = (st', Ok res) → Failed res = false →
  ∃ a cfg txc db r intrinsic floor,
    let msg := AsMessage a tx (cfg_BaseFee cfg) in
    Sender_at height time tx = Ok a ∧
    (EVMConfig info BytesToAddress ctx (tc_ProposerAddress ctx) (ts_stores st)).2 = Ok cfg ∧
    (TxConfig_at (Tx_Hash tx) (ts_stores st)).2 = Ok txc ∧
    executed (world st) msg cfg txc db r intrinsic floor ∧
    ((∀ b o, is_Some (dirties (db_journal db) !! b) → db_stateObjects db !! b = Some o →
        user b ∧ 0 ≤ Balance (so_account o) < u256_max) →
     ∀ b, Address_Bytes b ≠ collector → Address_Bytes b ≠ reserve →
       let refund := if decide (b = a) then (Tx_Gas tx - GasUsed res) * msg_GasPrice msg else 0 in
       let spend := ext_spend info (vs_pb (world st')) (Address_Bytes b) in
       match dirties (db_journal db) !! b with
       | None => is_Some (account (world st) (Address_Bytes b)) →
           spend = ext_spend info (vs_pb (world st)) (Address_Bytes b) + refund
       | Some _ =>
           (HasSelfDestructed b db).2 = Ok true ∨
           ((HasSelfDestructed b db).2 = Ok false ∧ ∃ shown, (StateDB.GetBalance b db).2 = Ok shown ∧ spend = shown + refund)
       end).
Proof.
  intros Hevm Hf Hv Hp Hgas Hsig E Hok. apply ApplyTransaction_inv in E as (cfg & txc & a & tmp & Hcfg & Htxc & _ & Hfp & Hs & Ea & Er).
  rewrite Hok in Er. pose proof (multiplier_kept cfg _ Hv Hp Hfp) as Hm. pose proof (tx_gas_range tx) as Hg.
  specialize (Hsig a Hs). pose proof Ea as Ea'. apply apply_inv in Ea' as (db & r & i & f & Hx & _ & _ & db' & Hc & ->); [|done|cbn; lia].
  apply message_gas_limit in Ea as Hle; [|done|cbn; lia]. cbn [msg_GasLimit AsMessage] in Er, Hle.
  replace (if Tx_Gas tx >? GasUsed res then _ else _) with (Tx_Gas tx - GasUsed res) in Er
    by (destruct (Z.gtb_spec (Tx_Gas tx) (GasUsed res)); lia).
  exists a, cfg, txc, db, r, i, f. split_and!; [done..|]. intros Hw b Hbc Hbr.
  destruct (executed_historic _ _ _ _ _ _ _ _ Hevm Hx) as [cps Hr]. destruct (ex_db _ _ _ _ _ _ _ _ Hx) as [Hdb _].
  destruct (commit_settles info Hinfo Hreserve db db' cps Hr) as [Hf' Hb]; [by rewrite Hdb|done|exact Hc|].
  assert (0 ≤ (Tx_Gas tx - GasUsed res) * msg_GasPrice (AsMessage a tx (cfg_BaseFee cfg))) as Hpos.
  { unfold VmKeeper.RefundGas in Er. by destruct (Z.ltb_spec ((Tx_Gas tx - GasUsed res) * msg_GasPrice (AsMessage a tx (cfg_BaseFee cfg))) 0). }
  eapply (RefundGas_moves info Hinfo Hreserve sort Hsort) in Er as He; [|apply Hf'|done|done].
  set (refund := if decide (b = a) then _ else 0).
  assert (ext_spend info (vs_pb (world st')) (Address_Bytes b) = ext_spend info (vs_pb (db_ctx db')) (Address_Bytes b) + refund) as Hsp.
  { assert (point (Address_Bytes a) ((Tx_Gas tx - GasUsed res) * msg_GasPrice (AsMessage a tx (cfg_BaseFee cfg))) (Address_Bytes b)
      - point collector ((Tx_Gas tx - GasUsed res) * msg_GasPrice (AsMessage a tx (cfg_BaseFee cfg))) (Address_Bytes b) = refund) as Hd.
    { unfold point, refund. rewrite (decide_False (P := Address_Bytes b = collector)) by done.
      destruct (decide (b = a)) as [->|Hne]; [rewrite decide_True by done; lia|].
      rewrite decide_False; [lia|]. intros Hab. by apply Hne, Address_Bytes_inj. }
    erewrite spend_after; [|exact Hf'|done|exact He|]; cbn beta; [by rewrite Hd|]. rewrite Hd. unfold refund. case_decide; lia. }
  cbv zeta. rewrite Hsp. specialize (Hb b). destruct (dirties (db_journal db) !! b).
  - destruct Hb as [[Hsd _]|(Hsd & acct & _ & _ & Hbal)]; [by left|right]. split; [done|]. eauto.
  - intros [acct Hacct]. f_equal. rewrite <-Hdb in Hacct |- *. by eapply Hb.
Qed.
End transition.

(** * Block hashes *)

Section hashes.
Context `{SdkTypesLaws, AccountKeeperLaws} {B : Type} `{!BankKeeper B, !BankKeeperLaws B}.
Context `{!AuthAccounts, !AuthKeeper B, !AuthKeeperLaws B} `{Crypto, GethAddressLaws}.
Context (info : EvmCoinInfo) (Hinfo : valid_coin_info info).
Abbreviation VS := (VmState B).
Implicit Types (s : VS) (c : TransCtx) (params : VmParams.Params).

(** The contract of EIP-2935 is deployed. *)
Record history_ready s : Prop := {
  hr_funded : funded info (vs_pb s);
  hr_account : is_Some (ak_GetAccount (ps_bank (vs_pb s)) (Address_Bytes HistoryStorageAddress));
  hr_contract : VmKeeper.IsContract HistoryStorageAddress s = (s, Ok true)
}.

Abbreviation slot params h := (h mod history_window params).
Abbreviation store_hash params c s :=
  (VmKeeper.SetState HistoryStorageAddress (slot params (wrap u64_max (BlockHeight (tc_ctx c))))
     (default zero_hash (tc_HeaderHash c)) s).

Lemma SetHeaderHash_run params c s :
  history_ready s → SetHeaderHash info c params s = (store_hash params c s, Ok tt) ∧ history_ready (store_hash params c s).
Proof.
  intros [Hf [acct Ha] Hc]. split.
  - unfold SetHeaderHash. erewrite bind_Ok by (by apply GetAccount_run). unfold shown. rewrite Ha. cbn [fmap option_fmap option_map].
    by rewrite (bind_Ok _ _ _ _ _ Hc).
  - split; [done|by eexists|]. unfold VmKeeper.IsContract, bind, VmKeeper.GetCodeHash, VmKeeper.GetCode, gets, ret in *.
    cbn in *. by injection Hc as ->.
Qed.

(** Blocks at consecutive heights from [h]. *)
Fixpoint consecutive (h : Z) (cs : list TransCtx) : Prop :=
  match cs with
  | [] => True
  | c :: rest => BlockHeight (tc_ctx c) = h ∧ consecutive (h + 1) rest
  end.

Lemma window_positive params : 0 < history_window params.
Proof. unfold history_window. destruct (Z.ltb_spec 0 (VmParams.HistoryServeWindow params)); [done|reflexivity]. Qed.

(** Later blocks within the window leave a slot alone. *)
Lemma ring_keeps params cs h0 h s s' :
  history_ready s → consecutive h cs → 0 ≤ h0 < h → h + Z.of_nat (length cs) < u64_max →
  h + Z.of_nat (length cs) ≤ h0 + history_window params →
  for_each cs (λ c, SetHeaderHash info c params) s = (s', Ok tt) →
  VmKeeper.GetState HistoryStorageAddress (slot params h0) s' = (s', (VmKeeper.GetState HistoryStorageAddress (slot params h0) s).2).
Proof.
  pose proof (window_positive params) as Hw. revert h s. induction cs as [|c cs IH]; intros h s Hr Hcs Hh Hu Hwin E.
  { by injection E as <-. }
  destruct Hcs as [Hch Hcs]. cbn [length] in *. cbn in E. destruct (SetHeaderHash_run params c s Hr) as [E1 Hr1].
  rewrite (bind_Ok _ _ _ _ _ E1) in E. rewrite (IH (h + 1) _ Hr1 Hcs); [|lia|lia|lia|exact E]. f_equal. cbn.
  rewrite Hch, wrap_small by lia. unfold VmKeeper.slots. cbn. rewrite lookup_insert_eq. cbn. rewrite lookup_insert_ne; [done|].
  intros Heq. assert (0 < h - h0 < history_window params) as Hd by lia.
  assert ((h - h0) mod history_window params = 0) as Hz
    by (rewrite Zminus_mod, Heq, Z.sub_diag; by apply Z.mod_0_l; lia).
  rewrite Z.mod_small in Hz by lia. lia.
Qed.

(** The EVM sees the hash of a recent block.  If the history contract is deployed
    and the hash of the block at height [h] is recorded at its start, then after any
    further blocks, as long as they are fewer than the window, BLOCKHASH of [h] returns
    that hash. *)
Theorem recent_block_hash params c cs now s s' hash :
  history_ready s → consecutive (BlockHeight (tc_ctx c)) (c :: cs) → tc_HeaderHash c = Some hash →
  0 ≤ BlockHeight (tc_ctx c) → BlockHeight (tc_ctx c) + Z.of_nat (length cs) < i64_max - 1 →
  Z.of_nat (length cs) < history_window params →
  for_each (c :: cs) (λ c, SetHeaderHash info c params) s = (s', Ok tt) →
  BlockHeight (tc_ctx now) > BlockHeight (tc_ctx c) →
  (GetHashFn now params (BlockHeight (tc_ctx c)) s').2 = Ok hash.
Proof.
  intros Hr [_ Hcs] Hhash Hpos Hu Hwin E Hnow. destruct (SetHeaderHash_run params c s Hr) as [E1 Hr1].
  assert (i64_max < u64_max) as Hmax by done. cbn in E. rewrite (bind_Ok _ _ _ _ _ E1) in E. unfold GetHashFn, SafeInt64.
  destruct (Z.gtb_spec (BlockHeight (tc_ctx c)) (i64_max - 1)); [lia|].
  destruct (Z.eqb_spec (BlockHeight (tc_ctx now)) (BlockHeight (tc_ctx c))); [lia|].
  destruct (Z.gtb_spec (BlockHeight (tc_ctx now)) (BlockHeight (tc_ctx c))); [|lia]. unfold GetHeaderHash.
  rewrite (ring_keeps params cs (BlockHeight (tc_ctx c)) (BlockHeight (tc_ctx c) + 1) _ s' Hr1 Hcs); [|lia..|exact E].
  cbn. rewrite wrap_small by lia. unfold VmKeeper.slots. cbn. rewrite lookup_insert_eq. cbn.
  by rewrite lookup_insert_eq, Hhash.
Qed.
End hashes.

(** * Permissions *)

Section permissions.
Context {B : Type} `{GethTx, !GethConfig, GethHex, VmLibraries} {Contract : Type}.
Context (precompiles : gmap Address Contract) (Contract_Address : Contract → Address).
Context (erc20Keeper : option (Address → outcome (option Contract))) (ctx : TransCtx).

(** Who may call or create, by the list of the parameters. *)
Definition permitted (act : VmParams.AccessControlType) (signer caller : Address) : Prop :=
  let listed a := Address_String a ∈ VmParams.act_List act in
  match VmParams.act_AccessType act with
  | AccessTypePermissionless => ¬ listed signer ∧ ¬ listed caller
  | AccessTypePermissioned => listed signer ∨ listed caller
  | AccessTypeRestricted | AccessTypeUnknown _ => False
  end.

Lemma check_fn_spec act signer caller : VmParams.check_fn act signer caller = true ↔ permitted act signer caller.
Proof.
  unfold VmParams.check_fn, permitted, VmParams.permissionlessCheckFn, VmParams.permissionedCheckFn, contains.
  destruct (VmParams.act_AccessType act); [| |rewrite orb_true_iff, !bool_decide_eq_true; done|]; try done.
  by rewrite andb_true_iff, !negb_true_iff, !bool_decide_eq_false.
Qed.

(** C40: the EVM of a message obeys the access control of the parameters: its hooks let a
    call through only if the signer and the caller are permitted to call, and a
    creation exactly if they are permitted to create. *)
Theorem evm_enforces_permissions (s : VmState B) msg cfg override caller recipient (h h' : EvmHost (VmState B) Contract) :
  let hooks := evm_hooks (NewEVMWithOverridePrecompiles precompiles Contract_Address erc20Keeper ctx s msg cfg override) in
  let access := VmParams.AccessControl_ (cfg_Params cfg) in
  (run_CallHook hooks caller recipient h = (h', Ok tt) → permitted (VmParams.ac_Call access) (msg_From msg) caller) ∧
  (is_ok (run_CreateHook hooks caller h).2 = true ↔ permitted (VmParams.ac_Create access) (msg_From msg) caller).
Proof.
  split.
  - unfold run_CallHook. cbn [evm_hooks NewEVMWithOverridePrecompiles callHooks AddCallHooks AddCreateHooks
      NewDefaultOpCodesHooks app for_each]. intros (h1 & [] & E & _)%bind_Ok_inv.
    unfold GetCallHook in E. cbn in E. unfold VmParams.getCanCallFn in E. rewrite <-check_fn_spec.
    by destruct (VmParams.check_fn _ _ _).
  - rewrite <-check_fn_spec. unfold run_CreateHook. cbn -[VmParams.check_fn].
    unfold bind, of_outcome, GetCreateHook, VmParams.NewRestrictedPermissionPolicy, VmParams.canCreate, VmParams.getCanCreateFn.
    by destruct (VmParams.check_fn _ _ _).
Qed.
End permissions.
