(* ===== verification/TransitionWit.v ===== *)
(** Executions of a transaction on the concrete SDK, with a small interpreter. *)

From S2P Require Import Prelude.
From S2P Require Import Sdk.
From S2P Require Import SdkAuth.
From S2P Require Import EvmDenom.
From S2P Require Import PreciseBank.
From S2P Require Import PreciseBankInv.
From S2P Require Import SdkModel.
From S2P Require Import PreciseBankWit.
From S2P Require Import StateDB.
From S2P Require Import StateDBWit.
From S2P Require Import VmKeeper.
From S2P Require Import VmBank.
From S2P Require Import VmKeeperThms.
From S2P Require Import SdkAuthModel.
From S2P Require Import VmKeeperWit.
From S2P Require Import Dec.
From S2P Require Import FeeMarket.
From S2P Require Import FeeMarketWit.
From S2P Require Import TxFees.
From S2P Require Import TxFeesWit.
From S2P Require Import AnteEvm.
From S2P Require Import AnteEvmThms.
From S2P Require Import AnteEvmWit.
From S2P Require Import VmParams.
From S2P Require Import Transition.
From S2P Require Import TransitionThms.

(** * Instances *)

#[global] Instance t_hex : GethHex := {| Address_String := print; HexToAddress s := default 0 (parse s); IsHexAddress _ := true |}.
#[global] Instance t_libraries : VmLibraries :=
  {| ValidEip _ := true; ChannelIdentifierValidator _ := Ok tt; PrecompiledAddressesPrague := [] |}.
#[global] Instance t_staking : StakingKeeper := {| GetValidatorByConsAddr := Ok; ValAddressFromBech32 := Ok |}.

(** A call moves its value and leaves half of its gas; account 13 always reverts. *)
Definition t_call (evm : EVM (VmState AuthBank) unit) (a b : Z) (d : string) (g v : Z)
    : M (StateDB (VmState AuthBank)) EvmResult :=
  if b =? 13 then ret (mkEvmResult EmptyString (g / 2) (Some ExecutionReverted) EmptyString)
  else
    StateDB.SubBalance a v >>! StateDB.AddBalance b v >>! ret (mkEvmResult EmptyString (g / 2) None EmptyString).

#[global] Instance t_evm : GethEVM (VmState AuthBank) unit := {|
  DBRules_at _ _ := StateDB.mkRules true false true;
  IsPrague_at _ _ := true;
  ChainID := 1;
  FloorDataGas _ := inl 21000;
  ActivePrecompiles _ := [];
  ActivePrecompiledContracts _ _ := ∅;
  TransactionToMessage h t tx base :=
    match Sender_at h t tx with Ok a => Ok (AsMessage a tx base) | Err e => Err e | Panic w => Panic w end;
  CreateBloom _ := 0;
  CreateAddress a n := a + n;
  Authority _ := Ok 9;
  AddressToDelegation := print;
  DelegationTarget s := default 0 (parse s);
  evm_Call := t_call;
  evm_Create _ _ _ g _ := ret (mkEvmResult EmptyString (g / 2) None EmptyString)
|}.

#[global] Instance t_evm_laws : GethEVMLaws (VmState AuthBank) unit.
Proof.
  assert (∀ g, 0 ≤ g → 0 ≤ g / 2 ≤ g) as Hhalf by (intros g Hg; split; [by apply Z.div_pos|apply Z.div_le_upper_bound; lia]).
  split.
  - intros d l a c h i s g [= <-]. by destruct c.
  - intros d g [= <-]. done.
  - intros evm a b d g v db db' r Hg E. cbn in E. unfold t_call in E. destruct (b =? 13).
    + injection E as _ <-. by apply Hhalf.
    + apply bind_Ok_inv in E as (? & ? & _ & (? & ? & _ & [= _ <-])%bind_Ok_inv). by apply Hhalf.
  - intros evm a d g v db db' r Hg [= _ <-]. by apply Hhalf.
  - intros c evm a b d g v. cbn. unfold t_call, SubBalance, AddBalance, so_AddBalance, so_SubBalance, so_SetBalance,
      getOrNewStateObject, createObject, getStateObject, append, setStateObject.
    repeat preserves_step. all: apply preserves_modify; intros ? [? ?]; by split.
  - intros c evm a d g v. apply preserves_ret.
  - done.
Qed.

(** * A block with one transaction *)

(** 40000 gas at up to 30 million and a value of one coin. *)
Definition t_tx (to : Z) : EthTx := mkSimpleTx 1 (Some to) 40000 (3 * 10 ^ 7) (5 * 10 ^ 6) (10 ^ 12) true.
Definition t_fee : ProtoFee := mkProtoFee [mkCoin "aatom" (40000 * (3 * 10 ^ 7))] 40000 EmptyString EmptyString.
Definition t_msg (to : Z) : MsgEthereumTx := mkMsgEthereumTx bytes7 (Some (t_tx to)).
Definition t_envelope (to : Z) : SdkTx :=
  mkSdkTx (Some (Err (errorf ErrNoSignatures "no signatures"))) (Some (mkProtoTx EmptyString 0 0 1 0 t_fee 0)) true
    (Some (mkFeeTx 40000 (pf_Amount t_fee) None)) false (Some [eth_option]) [EthMsg (t_msg to)].

Definition t_ctx : TransCtx := mkTransCtx (ac_ctx e_ctx) (ac_time e_ctx) None (Ok 0) EmptyString (Ok None).
Definition t_stores : Stores AuthBank :=
  mkStores (mkAnteState e_vm (mkFeeState (Some (print e_params)) None None []) (Some 5) None []) None None None None.

Definition t_ante (to : Z) :=
  AnteHandle info6 w_BytesToAddress v_deduct 1 (10 ^ 6) (mkEvmParams AccessTypePermissionless AccessTypePermissionless)
    e_params e_ctx (t_envelope to) false (λ l q, ret (l, q)) (st_ante t_stores).
Definition t_state (to : Z) : TxState AuthBank infiniteGasMeterWithLimit :=
  mkTxState (set_ante (t_ante to).1 t_stores) (NewInfiniteGasMeterWithLimit 40000).
Definition t_execute (to : Z) :=
  EthereumTx info6 id w_BytesToAddress ∅ (λ _ : unit, 0) None t_ctx None (t_msg to) (t_state to).

Abbreviation t_policy := (mkEvmParams AccessTypePermissionless AccessTypePermissionless).
Definition t_reverted : TxResponse := mkTxResponse 30500 30500 ExecutionReverted EmptyString [] 8.

Lemma t_accepted to : (t_ante to).2 = Ok (40000, 5000000) → t_ante to = ((t_ante to).1, Ok (40000, 5000000)).
Proof. destruct (t_ante to). by intros <-. Qed.

Lemma t_executed to res : (t_execute to).2 = Ok res → t_execute to = ((t_execute to).1, Ok res).
Proof. destruct (t_execute to). by intros <-. Qed.

Lemma t_processed to res :
  to ≠ 7 → (t_ante to).2 = Ok (40000, 5000000) → (t_execute to).2 = Ok res →
  processed info6 ∅ (λ _, 0) None t_ctx id w_BytesToAddress v_deduct 1 (10 ^ 6) t_policy e_params e_ctx t_stores
    (t_envelope to) false (t_msg to) (t_execute to).1 res.
Proof.
  intros Hto Ha He. split.
  - exact v_funded.
  - by eexists.
  - split; [done|by vm_compute].
  - done.
  - split; [done|by vm_compute].
  - intros t a [= <-]. discriminate.
  - exists (t_ante to).1, 40000, 5000000, (NewInfiniteGasMeterWithLimit 40000). split.
    + exact (t_accepted to Ha).
    + exact (t_executed to res He).
Qed.

(** * Witnesses *)

Lemma failed_transaction_only_pays_witness :
  ext info6 (vs_pb (world (t_execute 13).1)) bytes7 = ext info6 v_pb bytes7 - 30500 * (15 * 10 ^ 6) ∧
  sequence (world (t_execute 13).1) bytes7 = 2.
Proof.
  destruct (failed_transaction_only_pays info6 info6_valid reserve_set ∅ (λ _, 0) None t_ctx id (λ _, eq_refl)
    w_BytesToAddress w_bytes v_deduct (λ _ _, eq_refl) 1 (10 ^ 6) t_policy e_params e_ctx (conj eq_refl eq_refl)
    t_stores (t_envelope 13) false (t_msg 13) (t_execute 13).1 t_reverted)
    as (tx & a & base & Hraw & Hs & Hb & _ & Hext & _ & _ & _ & Hn & _).
  - apply t_processed; [done|vm_compute; reflexivity..].
  - intros tx [= <-]. by vm_compute.
  - reflexivity.
  - injection Hraw as <-. injection Hs as <-. split; [|exact Hn].
    assert (base = 10 ^ 7) as -> by (vm_compute in Hb; by injection Hb).
    rewrite (Hext bytes7) by discriminate. reflexivity.
Defined.

Definition t_cfg : EVMConfig_ := mkEVMConfig VmParams.zero_params e_params 0 (Some (10 ^ 7)).
Definition t_applied :=
  ApplyMessageWithConfig info6 ∅ (λ _ : unit, 0) None t_ctx (AsMessage 7 (t_tx 9) (Some (10 ^ 7))) true t_cfg
    NewEmptyTxConfig false None e_vm.

Lemma t_applied_run : t_applied = (t_applied.1, Ok (mkTxResponse 30500 30500 EmptyString EmptyString [] 0)).
Proof.
  assert (t_applied.2 = Ok (mkTxResponse 30500 30500 EmptyString EmptyString [] 0)) as E by (vm_compute; reflexivity).
  destruct t_applied. cbn in E. by rewrite E.
Qed.

Lemma message_gas_bounds_witness : 20000 ≤ 30500 ≤ 40000.
Proof.
  destruct (message_gas_bounds info6 ∅ (λ _ : unit, 0) None t_ctx (AsMessage 7 (t_tx 9) (Some (10 ^ 7))) true t_cfg
    NewEmptyTxConfig false e_vm t_applied.1 (mkTxResponse 30500 30500 EmptyString EmptyString [] 0)) as (Hmax & Hmin & _).
  - vm_compute. split; discriminate.
  - vm_compute. split; [discriminate|reflexivity].
  - exact t_applied_run.
  - exact (conj (Hmin eq_refl) Hmax).
Defined.

(** * A successful transaction *)

Lemma t_in_history : evm_in_history info6 (Contract := unit).
Proof.
  split.
  - intros evm a b d g v db db' r [cps Hr] E. cbn in E. unfold t_call in E. destruct (b =? 13); [by injection E as <- _; exists cps|].
    apply bind_Ok_inv in E as (db1 & x1 & E1 & (db2 & x2 & E2 & [= <- _])%bind_Ok_inv). exists cps.
    eapply (StateDBHist.run_op (StateDBHist.OAddBalance b v));
      [eapply (StateDBHist.run_op (StateDBHist.OSubBalance a v)); [exact Hr|]|]; cbn; unfold StateDBHist.done_.
    + by rewrite (bind_Ok _ _ _ _ _ E1).
    + by rewrite (bind_Ok _ _ _ _ _ E2).
  - intros evm a d g v db db' r Hr [= <- _]. done.
Qed.

(** The transaction uses all of its gas, so that nothing is refunded. *)
Definition t_start : TxState AuthBank infiniteGasMeterWithLimit := mkTxState t_stores (NewInfiniteGasMeterWithLimit 21000).
Definition t_done :=
  ApplyTransaction info6 id w_BytesToAddress ∅ (λ _ : unit, 0) None t_ctx None e_tx t_start.
Definition t_response : TxResponse := mkTxResponse 21000 21000 EmptyString EmptyString [] 8.

Lemma t_done_run : t_done = (t_done.1, Ok t_response).
Proof.
  assert (t_done.2 = Ok t_response) as E by (vm_compute; reflexivity). destruct t_done. cbn in E. by rewrite E.
Qed.

(** What the transaction is executed with, and the StateDB it ends with. *)
Definition t_config : EVMConfig_ :=
  match (EVMConfig info6 w_BytesToAddress t_ctx (tc_ProposerAddress t_ctx) t_stores).2 with Ok c => c | _ => t_cfg end.
Definition t_place : TxConfig := NewTxConfig (Tx_Hash e_tx) 0 0.
Definition t_message : Message := AsMessage 7 e_tx (cfg_BaseFee t_config).
Definition t_machine : EVM (VmState AuthBank) unit :=
  NewEVMWithOverridePrecompiles ∅ (λ _ : unit, 0) None t_ctx e_vm t_message t_config true.
Definition t_prepared : StateDB (VmState AuthBank) :=
  (Prepare (DBRules_at 10 100) 7 0 (Some 9) (ActivePrecompiles t_machine) [] (New e_vm [] t_place)).1.
Definition t_db : StateDB (VmState AuthBank) := (run_message info6 t_machine t_message 0 (10 ^ 12) t_prepared).1.

Lemma t_db_final db r intrinsic floor :
  executed info6 ∅ (λ _ : unit, 0) None t_ctx e_vm t_message t_config t_place db r intrinsic floor → db = t_db.
Proof.
  intros [Hi _ _ _ (db1 & v & E1 & Ev & E2) _ _].
  assert (GetEthIntrinsicGas t_ctx t_message (bool_decide (msg_To t_message = None)) = inl 21000) as Hi' by (vm_compute; reflexivity).
  rewrite Hi' in Hi. injection Hi as <-.
  assert (Uint256FromBigInt (msg_Value t_message) = Ok (10 ^ 12)) as Ev' by (vm_compute; reflexivity).
  rewrite Ev' in Ev. injection Ev as <-.
  apply (f_equal fst) in E1, E2. change (t_prepared = db1) in E1. subst db1. symmetry. exact E2.
Qed.

Lemma t_given cfg txc :
  (EVMConfig info6 w_BytesToAddress t_ctx (tc_ProposerAddress t_ctx) t_stores).2 = Ok cfg →
  (TxConfig_at (Tx_Hash e_tx) t_stores).2 = Ok txc → cfg = t_config ∧ txc = t_place.
Proof.
  intros E1 E2. split; [unfold t_config; rewrite E1; reflexivity|].
  assert ((TxConfig_at (Tx_Hash e_tx) t_stores).2 = Ok t_place) as E by (vm_compute; reflexivity). congruence.
Qed.

(** What it shows of the two parties. *)
Lemma t_db_shows :
  let _ := keeper_of_vm info6 in
  (HasSelfDestructed 9 t_db).2 = Ok false ∧ (StateDB.GetBalance 9 t_db).2 = Ok (ext_spend info6 v_pb (Address_Bytes 9) + 10 ^ 12) ∧
  (HasSelfDestructed 7 t_db).2 = Ok false ∧ (StateDB.GetBalance 7 t_db).2 = Ok (ext_spend info6 v_pb (Address_Bytes 7) - 10 ^ 12).
Proof. split_and!; vm_compute; reflexivity. Qed.

Lemma t_db_parties : dirties (db_journal t_db) !! 7 = Some 1 ∧ dirties (db_journal t_db) !! 9 = Some 2.
Proof. split; vm_compute; reflexivity. Qed.

Lemma t_db_dirty b o :
  is_Some (dirties (db_journal t_db) !! b) → db_stateObjects t_db !! b = Some o →
  user b ∧ 0 ≤ Balance (so_account o) < u256_max.
Proof.
  intros _ Ho. split; [apply user_not_module|].
  assert (map_Forall (λ _ o, 0 ≤ Balance (so_account o) < u256_max) (db_stateObjects t_db)) as Hall.
  { apply (bool_decide_unpack _). vm_compute. exact I. }
  exact (Hall b o Ho).
Qed.

(** The receiver can spend the value in addition to what it had, the sender as much
    less. *)
Lemma successful_transaction_settles_witness :
  ext_spend info6 (vs_pb (world t_done.1)) (Address_Bytes 9) = ext_spend info6 v_pb (Address_Bytes 9) + 10 ^ 12 ∧
  ext_spend info6 (vs_pb (world t_done.1)) (Address_Bytes 7) = ext_spend info6 v_pb (Address_Bytes 7) - 10 ^ 12.
Proof.
  destruct (successful_transaction_settles info6 info6_valid reserve_set ∅ (λ _ : unit, 0) None t_ctx id (λ _, eq_refl)
    w_BytesToAddress e_params e_tx t_start t_done.1 t_response) as (a & cfg & txc & db & r & i & f & Hs & Hcfg & Htxc & Hx & Hw).
  - exact t_in_history.
  - exact v_funded.
  - reflexivity.
  - vm_compute. reflexivity.
  - vm_compute. reflexivity.
  - intros a [= <-]. discriminate.
  - exact t_done_run.
  - reflexivity.
  - assert (a = 7) as -> by (injection Hs; done). destruct (t_given cfg txc Hcfg Htxc) as [-> ->].
    assert (db = t_db) as -> by exact (t_db_final db r i f Hx). destruct t_db_shows as (Hs9 & Hb9 & Hs7 & Hb7).
    destruct t_db_parties as [Hd7 Hd9]. pose proof (Hw t_db_dirty) as Hspend. split.
    + pose proof (Hspend 9 ltac:(discriminate) ltac:(discriminate)) as H9. cbv zeta in H9. rewrite Hd9, Hs9, Hb9 in H9.
      destruct H9 as [H9|(_ & n & Hn & Hsp)]; [discriminate H9|]. injection Hn as Hn. rewrite Hsp, <-Hn.
      rewrite decide_False by discriminate. apply Z.add_0_r.
    + pose proof (Hspend 7 ltac:(discriminate) ltac:(discriminate)) as H7. cbv zeta in H7. rewrite Hd7, Hs7, Hb7 in H7.
      destruct H7 as [H7|(_ & n & Hn & Hsp)]; [discriminate H7|]. injection Hn as Hn. rewrite Hsp, <-Hn.
      rewrite decide_True by reflexivity. apply Z.add_0_r.
Defined.

(** * Block hashes *)

(** The history contract is deployed; blocks 10 to 12 follow each other. *)
Definition t_history : VmState AuthBank := mkVmState v_pb {[HistoryStorageAddress := 99]} {[99 := "code"]} ∅.
Definition t_block (h hash : Z) : TransCtx := mkTransCtx (mkCtx h None None) 100 (Some hash) (Ok 0) EmptyString (Ok None).
Definition t_blocks := for_each [t_block 10 100; t_block 11 110; t_block 12 120] (λ c, SetHeaderHash info6 c VmParams.zero_params) t_history.

Lemma t_blocks_run : t_blocks = (t_blocks.1, Ok tt).
Proof. assert (t_blocks.2 = Ok tt) as E by (vm_compute; reflexivity). destruct t_blocks. cbn in E. by rewrite E. Qed.

Lemma recent_block_hash_witness : (GetHashFn (t_block 13 0) VmParams.zero_params 10 t_blocks.1).2 = Ok 100.
Proof.
  apply (recent_block_hash info6 info6_valid VmParams.zero_params (t_block 10 100) [t_block 11 110; t_block 12 120]
           (t_block 13 0) t_history t_blocks.1 100).
  - split; [exact v_funded|by eexists|]. reflexivity.
  - done.
  - reflexivity.
  - discriminate.
  - reflexivity.
  - reflexivity.
  - exact t_blocks_run.
  - reflexivity.
Defined.
