(* ===== verification/AnteCosmos.v ===== *)
(** The ante handlers of the chain: the routing of a transaction by its extension
    options (ante/ante.go), the handler of Ethereum transactions (ante/evm.go,
    ante/tx_listener.go) and that of Cosmos transactions (ante/cosmos.go), with its
    own decorators (ante/cosmos/reject_msgs.go, authz.go, min_gas_price.go,
    ante/evm/10_gas_wanted.go) and the signature costs of ante/sigverify.go.  The
    decorators of the SDK and of ibc-go are a class. *)

From S2P Require Import Prelude.
From S2P Require Import Sdk.
From S2P Require Import SdkAuth.
From S2P Require Import EvmDenom.
From S2P Require Import PreciseBank.
From S2P Require Import AccessList.
From S2P Require Import StateDB.
From S2P Require Import VmKeeper.
From S2P Require Import Dec.
From S2P Require Import FeeMarket.
From S2P Require Import TxFees.
From S2P Require Import AnteEvm.
From S2P Require Import VmParams.
From S2P Require Import Transition.

(** * Messages that authz may not carry *)

Definition EthereumTx_URL : string := "/cosmos.evm.vm.v1.MsgEthereumTx".
Definition CreateVestingAccount_URL : string := "/cosmos.vesting.v1beta1.MsgCreateVestingAccount".
Definition EthereumTx_option : string := "/cosmos.evm.vm.v1.ExtensionOptionsEthereumTx".
Definition DynamicFeeTx_option : string := "/cosmos.evm.ante.v1.ExtensionOptionDynamicFeeTx".

Definition maxNestedMsgs : Z := 7.

Section authz.
Context `{GethTx}.
Context (disabledMsgTypes : list string).

Fixpoint isDisabledMsg_loop (l : list string) (msgTypeURL : string) : bool :=
  match l with
  | [] => false
  | disabledType :: l => if bool_decide (msgTypeURL = disabledType) then true else isDisabledMsg_loop l msgTypeURL
  end.
Definition isDisabledMsg : string → bool := isDisabledMsg_loop disabledMsgTypes.

Definition disabled_error : error := errorf ErrOther "found disabled msg type".
Definition nesting_error : error := errorf ErrOther "found more nested msgs than permitted".
Definition unpack_error : error := errorf ErrOther "cannot unpack".

(** One turn of the loop of [checkDisabledMsgs].  The result is [nestedLvl] after
    it: the counter is a variable of the loop, so it also grows from one
    [MsgExec] to the next beside it. *)
Fixpoint check_msg (msg : SdkMsg) (isAuthzInnerMsg : bool) (nestedLvl : Z) : outcome Z :=
  let leaf url := if isAuthzInnerMsg && isDisabledMsg url then Err disabled_error else Ok nestedLvl in
  match msg with
  | MsgExec None => Err unpack_error
  | MsgExec (Some innerMsgs) =>
      let nestedLvl := nestedLvl + 1 in
      let fix loop msgs lvl :=
        match msgs with
        | [] => Ok tt
        | m :: msgs =>
            match check_msg m true lvl with
            | Ok lvl => loop msgs lvl
            | Err e => Err e
            | Panic w => Panic w
            end
        end in
      if nestedLvl >=? maxNestedMsgs then Err nesting_error
      else match loop innerMsgs nestedLvl with
           | Ok _ => Ok nestedLvl
           | Err e => Err e
           | Panic w => Panic w
           end
  | MsgGrant None => Err unpack_error
  | MsgGrant (Some url) => if isDisabledMsg url then Err disabled_error else Ok nestedLvl
  | EthMsg _ => leaf EthereumTx_URL
  | OtherMsg url => leaf url
  end.

Fixpoint check_loop (msgs : list SdkMsg) (isAuthzInnerMsg : bool) (nestedLvl : Z) : outcome unit :=
  match msgs with
  | [] => Ok tt
  | m :: msgs =>
      match check_msg m isAuthzInnerMsg nestedLvl with
      | Ok lvl => check_loop msgs isAuthzInnerMsg lvl
      | Err e => Err e
      | Panic w => Panic w
      end
  end.

Definition checkDisabledMsgs (msgs : list SdkMsg) (isAuthzInnerMsg : bool) (nestedLvl : Z) : outcome unit :=
  if nestedLvl >=? maxNestedMsgs then Err nesting_error else check_loop msgs isAuthzInnerMsg nestedLvl.
End authz.

(** * Signature costs *)

(** The keys and the signature data the consumer tells apart. *)
Inductive PubKey : Type :=
  | EthSecp256k1
  | Secp256k1
  | ED25519
  | Multisig (keys : list PubKey)
  | OtherKey.

Inductive SignatureData : Type :=
  | SingleSignatureData
  | MultiSignatureData (BitArray : list bool) (Signatures : list SignatureData).

Record AuthParams : Type := mkAuthParams { SigVerifyCostSecp256k1 : Z; SigVerifyCostED25519 : Z }.

Definition Secp256k1VerifyCost : Z := 21000.

Section sigverify.
Context {Meter : Type} (ConsumeGas : Z → M Meter unit) (params : AuthParams).

(** With [ConsumeMultisignatureVerificationGas] as its inner loop, which goes over
    the keys: the keys, the bits and the signatures are read in step, a signature
    only where the bit is set.  Where there are bits and no keys left, the first
    set one is an index out of range. *)
Fixpoint SigVerificationGasConsumer (pubkey : PubKey) (data : SignatureData) : M Meter unit :=
  match pubkey with
  | EthSecp256k1 => ConsumeGas Secp256k1VerifyCost
  | Secp256k1 => ConsumeGas (SigVerifyCostSecp256k1 params)
  | ED25519 =>
      ConsumeGas (SigVerifyCostED25519 params) >>!
      throw (errorf ErrInvalidPubKey "ED25519 public keys are unsupported")
  | Multisig keys =>
      match data with
      | SingleSignatureData => throw (errorf ErrOther "expected MultiSignatureData")
      | MultiSignatureData bits sigs =>
          (fix loop keys bits sigs : M Meter unit :=
             match bits, keys with
             | [], _ => ret tt
             | _, [] => if existsb id bits then panic "index out of range" else ret tt
             | false :: bits, _ :: keys => loop keys bits sigs
             | true :: bits, key :: keys =>
                 match sigs with
                 | [] => panic "index out of range"
                 | sig :: sigs => SigVerificationGasConsumer key sig >>! loop keys bits sigs
                 end
             end) keys bits sigs
      end
  | OtherKey => throw (errorf ErrInvalidPubKey "unrecognized/unsupported public key type")
  end.
End sigverify.

(** * Handlers and decorators *)

(** The [sdk.Context] of a handler: what the Ethereum checks read, the validator's
    minimum gas prices, and what a handler returns in it, the limit of the gas
    meter and the priority. *)
Record SdkCtx : Type := mkSdkCtx {
  sc_ctx : Ctx;
  sc_time : Z;
  sc_isCheckTx : bool;
  sc_isReCheckTx : bool;
  sc_MinGasPrices : list (denom * Z);
  sc_gasLimit : Z;
  sc_priority : Z
}.

(** What no decorator changes: block, mode and prices. *)
Definition same_block (c c' : SdkCtx) : Prop :=
  sc_ctx c' = sc_ctx c ∧ sc_time c' = sc_time c ∧ sc_isCheckTx c' = sc_isCheckTx c ∧
  sc_isReCheckTx c' = sc_isReCheckTx c ∧ sc_MinGasPrices c' = sc_MinGasPrices c.

Section decorators.
Context `{GethTx} {B : Type}.
Abbreviation SS := (Stores B).

Definition AnteHandler : Type := SdkCtx → SdkTx → bool → M SS SdkCtx.
Definition AnteDecorator : Type := SdkCtx → SdkTx → bool → AnteHandler → M SS SdkCtx.
Definition TxFeeChecker : Type := SdkCtx → SdkTx → M SS (Coins * Z).

(** [sdk.ChainAnteDecorators], and the decorators of x/auth/ante and ibc-go with
    their keepers. *)
Class SdkDecorators : Type := {
  ChainAnteDecorators : list AnteDecorator → AnteHandler;
  SetUpContextDecorator : AnteDecorator;
  (** with the extension option checker *)
  ExtensionOptionsDecorator : AnteDecorator;
  ValidateBasicDecorator : AnteDecorator;
  TxTimeoutHeightDecorator : AnteDecorator;
  ValidateMemoDecorator : AnteDecorator;
  ConsumeGasForTxSizeDecorator : AnteDecorator;
  (** with a nil fee checker, the SDK's default is used *)
  DeductFeeDecorator : option TxFeeChecker → AnteDecorator;
  SetPubKeyDecorator : AnteDecorator;
  ValidateSigCountDecorator : AnteDecorator;
  (** with the signature gas consumer *)
  SigGasConsumeDecorator : AnteDecorator;
  SigVerificationDecorator : AnteDecorator;
  IncrementSequenceDecorator : AnteDecorator;
  RedundantRelayDecorator : AnteDecorator
}.

(** A decorator that accepts has called the rest of the chain, in its block. *)
Definition calls_next (d : AnteDecorator) : Prop :=
  ∀ c tx sim next s s' c',
    d c tx sim next s = (s', Ok c') → ∃ c1 s1, same_block c c1 ∧ next c1 tx sim s1 = (s', Ok c').

Class SdkDecoratorsLaws `{SdkDecorators} : Prop := {
  (** the first decorator runs with the handler of the others; the last one with a
      handler that accepts *)
  Chain_cons d d' ds c tx sim s :
    ChainAnteDecorators (d :: d' :: ds) c tx sim s = d c tx sim (ChainAnteDecorators (d' :: ds)) s;
  Chain_last d c tx sim s : ChainAnteDecorators [d] c tx sim s = d c tx sim (λ c _ _, ret c) s;
  sdk_call_next :
    Forall calls_next [SetUpContextDecorator; ExtensionOptionsDecorator; ValidateBasicDecorator; TxTimeoutHeightDecorator;
      ValidateMemoDecorator; ConsumeGasForTxSizeDecorator; SetPubKeyDecorator; ValidateSigCountDecorator;
      SigGasConsumeDecorator; SigVerificationDecorator; IncrementSequenceDecorator; RedundantRelayDecorator];
  DeductFee_calls_next f : calls_next (DeductFeeDecorator f);
  (** the fee deducted from a transaction that is not simulated is one the checker
      accepted *)
  DeductFee_checks f c tx next s s' c' :
    DeductFeeDecorator (Some f) c tx false next s = (s', Ok c') → ∃ s1 s2 r, f c tx s1 = (s2, Ok r)
}.
End decorators.
Arguments AnteHandler {_} B.
Arguments AnteDecorator {_} B.
Arguments TxFeeChecker {_} B.
Arguments SdkDecorators {_} B.
Arguments SdkDecoratorsLaws {_} B {_}.

(** [HandlerOptions], less the keepers, which are the state. *)
Record HandlerOptions (B : Type) : Type := mkHandlerOptions {
  MaxTxGasWanted : Z;
  DynamicFeeChecker : bool;
  PendingTxListener : option (Z → M (Stores B) unit)
}.
Arguments mkHandlerOptions {B}.
Arguments MaxTxGasWanted {B}.
Arguments DynamicFeeChecker {B}.
Arguments PendingTxListener {B}.

Section handlers.
Context `{SdkTypes, AccountKeeper} {B : Type} `{!BankKeeper B, AuthKeeper B}.
Context `{Crypto, GethAddress, GethTx, !GethConfig, DecTypes, ParamsCodec, GethParams, !SdkDecorators B}.
Context (info : EvmCoinInfo) (BytesToAddress : addr → Address).
Context (DeductFees : AccountI → Coins → M (PState B) unit) (DefaultPriorityReduction : Z).
(** [Coins.IsAnyGTE] and [Coins.Add], [DecCoins.AmountOf], [sdk.DefaultBondDenom] *)
Context (IsAnyGTE : Coins → Coins → bool) (Coins_Add : Coins → Coin → Coins).
Context (DecCoins_AmountOf : list (denom * Z) → denom → Z) (DefaultBondDenom : denom).
Context (options : HandlerOptions B).
Abbreviation SS := (Stores B).

(** ** Decorators of Cosmos transactions *)

Definition RejectMessagesDecorator : AnteDecorator B := λ ctx tx simulate next,
  if existsb (λ msg, match msg with EthMsg _ => true | _ => false end) (tx_Msgs tx)
  then throw (errorf ErrInvalidType
    "MsgEthereumTx needs to be contained within a tx with 'ExtensionOptionsEthereumTx' option")
  else next ctx tx simulate.

Definition AuthzLimiterDecorator (disabledMsgTypes : list string) : AnteDecorator B := λ ctx tx simulate next,
  match checkDisabledMsgs disabledMsgTypes (tx_Msgs tx) false 1 with
  | Err e => throw (mkError ErrUnauthorized (err_text e) (err_coins e))
  | Panic w => panic w
  | Ok _ => next ctx tx simulate
  end.

Definition valid_fees (feeCoins : Coins) (evmDenom : denom) : bool :=
  match feeCoins with
  | [] => true
  | [c] => bool_decide (Denom c = evmDenom) || bool_decide (Denom c = DefaultBondDenom)
  | _ => false
  end.

Definition min_gas_fees (evmDenom : denom) (minGasPrice gas : Z) : M SS Coins :=
  let! total := dmul minGasPrice (dNew gas) in
  let fee := dCeil total in
  ret (if fee >? 0 then Coins_Add [] (mkCoin evmDenom fee) else []).

Definition MinGasPriceDecorator (feemarketParams : Params) : AnteDecorator B := λ ctx tx simulate next,
  match tx_FeeTx tx with
  | None => throw (errorf ErrInvalidType "invalid transaction type, expected sdk.FeeTx")
  | Some feeTx =>
      let feeCoins := ftx_Fee feeTx in
      let evmDenom := eci_Denom info in
      if negb (valid_fees feeCoins evmDenom) && negb simulate
      then throw (errorf ErrOther "expected only native token for fee")
      else
        let! minGasPrice := dval (MinGasPrice feemarketParams) in
        if (minGasPrice =? 0) || simulate then next ctx tx simulate
        else
          let! requiredFees := min_gas_fees evmDenom minGasPrice (ftx_Gas feeTx) in
          if tx_feeIsNil tx then throw (errorf ErrInsufficientFee "fee not provided")
          else if negb (IsAnyGTE feeCoins requiredFees)
          then throw (errorf ErrInsufficientFee "provided fee < minimum global fee")
          else next ctx tx simulate
  end.

Definition GasWantedDecorator (feemarketParams : Params) : AnteDecorator B := λ ctx tx simulate next,
  ante (fee_market (CheckGasWanted (sc_ctx ctx) (ftx_Gas <$> tx_FeeTx tx) (London_at (BlockHeight (sc_ctx ctx)))
    feemarketParams)) >>!
  next ctx tx simulate.

Definition dynamic_fee_checker (feemarketParams : Params) : TxFeeChecker B := λ ctx tx,
  let height := BlockHeight (sc_ctx ctx) in
  NewDynamicFeeChecker IsAnyGTE (sc_MinGasPrices ctx) (sc_isCheckTx ctx) DefaultPriorityReduction height
    feemarketParams (eci_Denom info) (London_at height) (tx_FeeTx tx).

(** ** Decorators of Ethereum transactions *)

(** The mono decorator calls the next handler last, so it is run up to there
    first. *)
Definition MonoDecorator (evmParams : EvmParams) (feemarketParams : Params) : AnteDecorator B := λ ctx tx simulate next,
  let ac := mkAnteCtx (sc_ctx ctx) (sc_time ctx) (sc_isCheckTx ctx) (sc_isReCheckTx ctx)
              (DecCoins_AmountOf (sc_MinGasPrices ctx)) in
  let! (limit, priority) :=
    ante (AnteHandle info BytesToAddress DeductFees DefaultPriorityReduction (MaxTxGasWanted options) evmParams
      feemarketParams ac tx simulate (λ l p, ret (l, p))) in
  next (mkSdkCtx (sc_ctx ctx) (sc_time ctx) (sc_isCheckTx ctx) (sc_isReCheckTx ctx) (sc_MinGasPrices ctx) limit priority)
    tx simulate.

Definition TxListenerDecorator (listener : option (Z → M SS unit)) : AnteDecorator B := λ ctx tx simulate next,
  if sc_isReCheckTx ctx then next ctx tx simulate
  else
    (match listener with
     | Some pendingTxListener =>
         when (sc_isCheckTx ctx && negb simulate)
           (for_each (tx_Msgs tx) (λ msg,
              match msg with
              | EthMsg m => match Raw m with
                            | Some ethTx => pendingTxListener (Tx_Hash ethTx)
                            | None => panic "nil pointer dereference"
                            end
              | _ => ret tt
              end))
     | None => ret tt
     end) >>!
    next ctx tx simulate.

(** ** The handlers *)

Definition newCosmosAnteHandler : M SS (AnteHandler B) :=
  let! feemarketParams := ante (fee_market GetParams) in
  let txFeeChecker := if DynamicFeeChecker options then Some (dynamic_fee_checker feemarketParams) else None in
  ret (ChainAnteDecorators [
    RejectMessagesDecorator;
    AuthzLimiterDecorator [EthereumTx_URL; CreateVestingAccount_URL];
    SetUpContextDecorator;
    ExtensionOptionsDecorator;
    ValidateBasicDecorator;
    TxTimeoutHeightDecorator;
    ValidateMemoDecorator;
    MinGasPriceDecorator feemarketParams;
    ConsumeGasForTxSizeDecorator;
    DeductFeeDecorator txFeeChecker;
    SetPubKeyDecorator;
    ValidateSigCountDecorator;
    SigGasConsumeDecorator;
    SigVerificationDecorator;
    IncrementSequenceDecorator;
    RedundantRelayDecorator;
    GasWantedDecorator feemarketParams ]).

Definition newMonoEVMAnteHandler : M SS (AnteHandler B) :=
  let! params := vm_params VmParams.GetParams in
  let access := VmParams.AccessControl_ params in
  let evmParams := mkEvmParams (VmParams.act_AccessType (VmParams.ac_Create access))
                     (VmParams.act_AccessType (VmParams.ac_Call access)) in
  let! feemarketParams := ante (fee_market GetParams) in
  ret (ChainAnteDecorators [
    MonoDecorator evmParams feemarketParams;
    TxListenerDecorator (PendingTxListener options) ]).

Definition NewAnteHandler : AnteHandler B := λ ctx tx sim,
  let opts := default [] (tx_ExtensionOptions tx) in
  match opts with
  | typeURL :: _ =>
      if bool_decide (typeURL = EthereumTx_option)
      then let! anteHandler := newMonoEVMAnteHandler in anteHandler ctx tx sim
      else if bool_decide (typeURL = DynamicFeeTx_option)
      then let! anteHandler := newCosmosAnteHandler in anteHandler ctx tx sim
      else throw (errorf ErrUnknownExtensionOptions "rejecting tx with unsupported extension option")
  | [] => let! anteHandler := newCosmosAnteHandler in anteHandler ctx tx sim
  end.
End handlers.
