(* ===== verification/AnteCosmosThms.v ===== *)
(** What the ante handlers let through: the messages authz may carry, the keeping
    apart of Ethereum and Cosmos transactions, the price of an accepted Cosmos
    transaction, the signature costs. *)

From S2P Require Import Prelude.
From S2P Require Import Sdk.
From S2P Require Import SdkAuth.
From S2P Require Import EvmDenom.
From S2P Require Import PreciseBank.
From S2P Require Import AccessList.
From S2P Require Import StateDB.
From S2P Require Import VmKeeper.
From S2P Require Import Dec.
From S2P Require Import FeeMarket.
From S2P Require Import TxFees.
From S2P Require Import TxFeesThms.
From S2P Require Import AnteEvm.
From S2P Require Import VmParams.
From S2P Require Import Transition.
From S2P Require Import AnteCosmos.

(** * Messages carried by authz *)

Section authz.
Context `{GethTx}.
Context (disabled : list string).
Implicit Types (m : SdkMsg) (ms : list SdkMsg) (lvl : Z).

(** [carried m ms]: a [MsgExec] of [ms] carries [m], at any depth. *)
Inductive carried m : list SdkMsg → Prop :=
  | carried_here ms inner : MsgExec (Some inner) ∈ ms → m ∈ inner → carried m ms
  | carried_deep ms inner : MsgExec (Some inner) ∈ ms → carried m inner → carried m ms.

(** [m] is in the transaction, on top or carried. *)
Definition occurs m ms : Prop := m ∈ ms ∨ carried m ms.

Definition message_url m : option string :=
  match m with EthMsg _ => Some EthereumTx_URL | OtherMsg url => Some url | _ => None end.

(** What a message must be, [inner] for one that a [MsgExec] carries. *)
Record msg_permitted (inner : bool) m : Prop := {
  permitted_exec : m ≠ MsgExec None;
  permitted_grant : m ≠ MsgGrant None;
  permitted_granted url : m = MsgGrant (Some url) → url ∉ disabled;
  permitted_inner url : inner = true → message_url m = Some url → url ∉ disabled
}.

Definition all_permitted (inner : bool) ms : Prop :=
  (∀ m, m ∈ ms → msg_permitted inner m) ∧ ∀ m, carried m ms → msg_permitted true m.

(** The highest value the counter reaches above its start: each [MsgExec] counts
    one more than the one before it beside it. *)
Definition is_exec m : Z := match m with MsgExec _ => 1 | _ => 0 end.
Fixpoint msg_weight m : Z :=
  match m with
  | MsgExec (Some inner) =>
      1 + (fix weight_from ms n :=
             match ms with [] => 0 | m :: ms => Z.max (n + msg_weight m) (weight_from ms (n + is_exec m)) end) inner 0
  | _ => 0
  end.
Fixpoint weight_from ms n : Z :=
  match ms with [] => 0 | m :: ms => Z.max (n + msg_weight m) (weight_from ms (n + is_exec m)) end.
Definition weight ms : Z := weight_from ms 0.

Lemma isDisabledMsg_spec url : isDisabledMsg disabled url = true ↔ url ∈ disabled.
Proof.
  unfold isDisabledMsg. induction disabled as [|d l IH]; cbn; [by rewrite elem_of_nil|].
  rewrite elem_of_cons, <- IH. case_bool_decide; naive_solver.
Qed.

Lemma check_exec inner b lvl :
  check_msg disabled (MsgExec (Some inner)) b lvl
  = match checkDisabledMsgs disabled inner true (lvl + 1) with Ok _ => Ok (lvl + 1) | Err e => Err e | Panic w => Panic w end.
Proof.
  unfold checkDisabledMsgs. cbn [check_msg]. destruct (_ >=? _); [done|].
  assert (∀ ms l, (fix loop msgs l := match msgs with
    | [] => Ok tt
    | m :: msgs => match check_msg disabled m true l with Ok l => loop msgs l | Err e => Err e | Panic w => Panic w end
    end) ms l = check_loop disabled ms true l) as ->; [|done].
  induction ms as [|m ms IH]; intros l; [done|]. cbn. by destruct (check_msg disabled m true l).
Qed.

Lemma msg_weight_exec inner : msg_weight (MsgExec (Some inner)) = 1 + weight inner.
Proof. reflexivity. Qed.

Lemma SdkMsg_nested_ind (P : SdkMsg → Prop) :
  (∀ e, P (EthMsg e)) → P (MsgExec None) → (∀ inner, Forall P inner → P (MsgExec (Some inner))) →
  (∀ a, P (MsgGrant a)) → (∀ url, P (OtherMsg url)) → ∀ m, P m.
Proof.
  intros He Hn Hi Hg Ho. fix IH 1. intros [e|[inner|]|a|url]; [apply He| |apply Hn|apply Hg|apply Ho].
  apply Hi. induction inner as [|m inner IHl]; constructor; [apply IH|apply IHl].
Qed.

Lemma carried_cons x m ms : carried x (m :: ms) ↔ carried x [m] ∨ carried x ms.
Proof.
  split.
  - inversion 1 as [? inner Hin Hx|? inner Hin Hx]; subst; apply elem_of_cons in Hin as [<-|Hin].
    + left. by eapply carried_here; [left|].
    + right. by eapply carried_here.
    + left. by eapply carried_deep; [left|].
    + right. by eapply carried_deep.
  - intros [Hc|Hc]; inversion Hc as [? inner Hin Hx|? inner Hin Hx]; subst.
    1-2: apply list_elem_of_singleton in Hin as <-.
    1,3: eapply carried_here; [|done]. 3,4: eapply carried_deep; [|done]. all: first [by left|by right].
Qed.

Lemma carried_exec x inner : carried x [MsgExec (Some inner)] ↔ occurs x inner.
Proof.
  split.
  - inversion 1 as [? ? Hin Hx|? ? Hin Hx]; subst; apply list_elem_of_singleton in Hin as [= ->]; [by left|by right].
  - intros [Hx|Hx]; [eapply carried_here|eapply carried_deep]; try done; by left.
Qed.

Lemma carried_leaf x m : (∀ inner, m ≠ MsgExec (Some inner)) → ¬ carried x [m].
Proof. intros Hm. inversion 1 as [? ? Hin Hx|? ? Hin Hx]; subst; apply list_elem_of_singleton in Hin; by eapply Hm. Qed.

Lemma carried_nil x : ¬ carried x [].
Proof. inversion 1 as [? ? Hin|? ? Hin]; by apply elem_of_nil in Hin. Qed.

Lemma all_permitted_nil b : all_permitted b [].
Proof. split; [by intros m Hm%elem_of_nil|by intros m Hm%carried_nil]. Qed.

Lemma all_permitted_cons b m ms : all_permitted b (m :: ms) ↔ all_permitted b [m] ∧ all_permitted b ms.
Proof.
  unfold all_permitted. setoid_rewrite (carried_cons _ m ms). setoid_rewrite elem_of_cons.
  setoid_rewrite elem_of_nil. naive_solver.
Qed.

Lemma all_permitted_leaf b m : (∀ inner, m ≠ MsgExec (Some inner)) → all_permitted b [m] ↔ msg_permitted b m.
Proof.
  intros Hm. split; [intros [Ha _]; apply Ha; by left|].
  intros Hp. split; [by intros ? ->%list_elem_of_singleton|]. intros ? Hc. by destruct (carried_leaf _ _ Hm Hc).
Qed.

Lemma all_permitted_exec b inner : all_permitted b [MsgExec (Some inner)] ↔ all_permitted true inner.
Proof.
  split.
  - intros [_ Hc]. split; intros m Hm; apply Hc, carried_exec; [by left|by right].
  - intros [Ha Hc]. split; [intros m ->%list_elem_of_singleton; by split|].
    intros m [Hm|Hm]%carried_exec; [by apply Ha|by apply Hc].
Qed.

(** ** The check *)

Definition check_msg_spec m : Prop := ∀ b lvl l, lvl < maxNestedMsgs →
  check_msg disabled m b lvl = Ok l ↔
  l = lvl + is_exec m ∧ lvl + msg_weight m < maxNestedMsgs ∧ all_permitted b [m].

Lemma weight_nonneg ms n : 0 ≤ weight_from ms n.
Proof.
  revert n. induction ms as [|m ms IH]; intros n; [done|]. cbn [weight_from]. specialize (IH (n + is_exec m)). lia.
Qed.

(** A permitted message weighs at least what it adds to the counter. *)
Lemma is_exec_weight b m : all_permitted b [m] → 0 ≤ is_exec m ≤ msg_weight m.
Proof.
  intros [Hp _]. destruct m as [|[inner|]| |]; try done.
  - rewrite msg_weight_exec. pose proof (weight_nonneg inner 0). cbn. unfold weight. lia.
  - by destruct (permitted_exec _ _ (Hp (MsgExec None) ltac:(by left))).
Qed.

Lemma check_loop_spec ms b lvl n :
  Forall check_msg_spec ms → 0 ≤ n → lvl + n < maxNestedMsgs →
  check_loop disabled ms b (lvl + n) = Ok tt ↔ lvl + weight_from ms n < maxNestedMsgs ∧ all_permitted b ms.
Proof.
  intros Hms. revert n. induction Hms as [|m ms Hm _ IH]; intros n H0 Hn.
  { cbn. split; [|done]. intros _. split; [|apply all_permitted_nil]. lia. }
  cbn [check_loop weight_from]. rewrite all_permitted_cons. specialize (Hm b (lvl + n)). split.
  - intros E. destruct (check_msg disabled m b (lvl + n)) as [l| |] eqn:Em; try done.
    destruct (proj1 (Hm l Hn) eq_refl) as (-> & Hw & Hp). pose proof (is_exec_weight b m Hp).
    rewrite <- Z.add_assoc in E. apply IH in E as [? ?]; [|lia..]. split; [lia|done].
  - intros [Hw [Hp Hps]]. pose proof (is_exec_weight b m Hp).
    rewrite (proj2 (Hm (lvl + n + is_exec m) Hn)) by (split_and!; [done|lia|done]).
    rewrite <- Z.add_assoc. apply IH; [lia..|]. split; [lia|done].
Qed.

Lemma leaf_spec m b lvl l (bad : bool) e :
  (∀ inner, m ≠ MsgExec (Some inner)) → is_exec m = 0 → msg_weight m = 0 → lvl < maxNestedMsgs →
  (msg_permitted b m ↔ bad = false) →
  (if bad then Err e else Ok lvl) = Ok l ↔ l = lvl + is_exec m ∧ lvl + msg_weight m < maxNestedMsgs ∧ all_permitted b [m].
Proof.
  intros Hm He Hw Hl Hb. rewrite all_permitted_leaf by done. rewrite Hb, He, Hw, !Z.add_0_r.
  destruct bad; [naive_solver|]. split; [intros [= ->]|intros (-> & _)]; done.
Qed.

Lemma check_msg_correct m : check_msg_spec m.
Proof.
  induction m as [e| |inner IH|[url|]|url] using SdkMsg_nested_ind; intros b lvl l Hl.
  - cbn [check_msg]. apply leaf_spec; try done. rewrite andb_false_iff, <- !not_true_iff_false, isDisabledMsg_spec.
    split; [|intros ?; split; naive_solver]. intros [_ _ _ Hi]. specialize (Hi EthereumTx_URL). destruct b; naive_solver.
  - split; [done|]. intros (_ & _ & Hp). by destruct (permitted_exec _ _ (proj1 Hp _ ltac:(by left))).
  - rewrite check_exec, all_permitted_exec, msg_weight_exec. unfold checkDisabledMsgs.
    destruct (Z.geb_spec (lvl + 1) maxNestedMsgs) as [Hge|Hlt].
    { split; [done|]. intros (_ & Hw & _). pose proof (weight_nonneg inner 0). unfold weight in Hw. lia. }
    pose proof (check_loop_spec inner true (lvl + 1) 0 IH ltac:(done) ltac:(lia)) as Hc. rewrite Z.add_0_r in Hc.
    unfold weight. cbn [is_exec]. rewrite Z.add_assoc. rewrite <- Hc. destruct (check_loop _ _ _ _) as [[]| |]; naive_solver.
  - cbn [check_msg]. apply leaf_spec; try done. rewrite <- not_true_iff_false, isDisabledMsg_spec.
    split; [|intros ?; split; naive_solver]. intros [_ _ Hg _]. naive_solver.
  - split; [done|]. intros (_ & _ & Hp). by destruct (permitted_grant _ _ (proj1 Hp _ ltac:(by left))).
  - cbn [check_msg]. apply leaf_spec; try done. rewrite andb_false_iff, <- !not_true_iff_false, isDisabledMsg_spec.
    split; [|intros ?; split; naive_solver]. intros [_ _ _ Hi]. specialize (Hi url). destruct b; naive_solver.
Qed.

Lemma checkDisabledMsgs_correct ms b lvl :
  checkDisabledMsgs disabled ms b lvl = Ok tt ↔
  lvl < maxNestedMsgs ∧ lvl + weight ms < maxNestedMsgs ∧ all_permitted b ms.
Proof.
  unfold checkDisabledMsgs. destruct (Z.geb_spec lvl maxNestedMsgs) as [Hge|Hlt]; [split; [done|lia]|].
  rewrite <- (Z.add_0_r lvl) at 1. rewrite check_loop_spec; [|by apply Forall_forall; intros; apply check_msg_correct|lia..].
  unfold weight. naive_solver.
Qed.

Lemma check_loop_no_panic ms b lvl w :
  Forall (λ m, ∀ b lvl w, check_msg disabled m b lvl ≠ Panic w) ms → check_loop disabled ms b lvl ≠ Panic w.
Proof.
  intros Hms. revert lvl. induction Hms as [|m ms Hm _ IH]; intros lvl; [done|]. cbn.
  destruct (check_msg disabled m b lvl) eqn:E; [apply IH|done|by apply Hm in E].
Qed.

Lemma check_msg_no_panic m b lvl w : check_msg disabled m b lvl ≠ Panic w.
Proof.
  revert b lvl w. induction m as [e| |inner IH|[url|]|url] using SdkMsg_nested_ind; intros b lvl w.
  1,2,4,5,6: cbn; repeat case_match; done.
  rewrite check_exec. unfold checkDisabledMsgs. destruct (_ >=? _); [done|].
  destruct (check_loop _ _ _ _) eqn:E; try done. by apply check_loop_no_panic in E.
Qed.

Lemma checkDisabledMsgs_no_panic ms b lvl w : checkDisabledMsgs disabled ms b lvl ≠ Panic w.
Proof.
  unfold checkDisabledMsgs. destruct (_ >=? _); [done|].
  apply check_loop_no_panic, Forall_forall. intros m _. apply check_msg_no_panic.
Qed.
End authz.

(** * Chains *)

#[export] Instance same_block_preorder : PreOrder same_block.
Proof. split; [done|]. intros c1 c2 c3. unfold same_block. naive_solver congruence. Qed.

Section chain.
Context `{GethTx} {B : Type} `{!SdkDecorators B, !SdkDecoratorsLaws B}.
Implicit Types (d : AnteDecorator B) (tx : SdkTx).

Lemma chain_step d ds c tx sim s s' c' :
  ChainAnteDecorators (d :: ds) c tx sim s = (s', Ok c') → ∃ next, d c tx sim next s = (s', Ok c') ∧
    (ds ≠ [] → next = ChainAnteDecorators ds).
Proof.
  destruct ds as [|d' ds]; [rewrite Chain_last|rewrite Chain_cons]; intros E; by eexists; split; [|].
Qed.

(** Every decorator of a chain that accepts has run, in the same block, and
    accepted. *)
Lemma chain_reaches d ds c tx sim s s' c' :
  Forall calls_next ds → d ∈ ds → ChainAnteDecorators ds c tx sim s = (s', Ok c') →
  ∃ c1 s1 next, same_block c c1 ∧ d c1 tx sim next s1 = (s', Ok c').
Proof.
  intros Hds. revert c s. induction Hds as [|d0 ds Hd Hds IH]; intros c s Hin E; [by apply elem_of_nil in Hin|].
  apply chain_step in E as (next & E & Hnext). apply elem_of_cons in Hin as [->|Hin]; [by exists c, s, next|].
  rewrite Hnext in E by (by intros ->; apply elem_of_nil in Hin).
  apply Hd in E as (c1 & s1 & Hc & E). apply IH in E as (c2 & s2 & n & Hc2 & E); [|done].
  exists c2, s2, n. split; [by etrans|done].
Qed.
End chain.

(** * The handlers *)

(** What the fee code relies on: a set is above another if it reaches it in some
    denomination the other has; a coin added to none. *)
Class FeeCoinsLaws `{SdkTypes} (IsAnyGTE : Coins → Coins → bool) (Coins_Add : Coins → Coin → Coins) : Prop := {
  IsAnyGTE_some cs bs : IsAnyGTE cs bs = true → ∃ d, 0 < Coins_AmountOf bs d ≤ Coins_AmountOf cs d;
  Add_first d n e : 0 < n → Coins_AmountOf (Coins_Add [] (mkCoin d n)) e = if decide (e = d) then n else 0;
  AmountOf_none d : Coins_AmountOf [] d = 0
}.

Section handlers.
Context `{SdkTypes, AccountKeeper} {B : Type} `{!BankKeeper B, AuthKeeper B}.
Context `{Crypto, GethAddress, GethTx, !GethConfig, DecTypes, ParamsCodec, GethParams}.
Context `{!SdkTypesLaws, !SdkDecorators B, !SdkDecoratorsLaws B}.
Context (info : EvmCoinInfo) (BytesToAddress : addr → Address).
Context (DeductFees : AccountI → Coins → M (PState B) unit) (reduction : Z).
Context (IsAnyGTE : Coins → Coins → bool) (Coins_Add : Coins → Coin → Coins).
Context (DecCoins_AmountOf : list (denom * Z) → denom → Z) (DefaultBondDenom : denom).
Context (options : HandlerOptions B).
Implicit Types (s : Stores B) (tx : SdkTx) (c : SdkCtx).

Abbreviation ante_handler :=
  (NewAnteHandler info BytesToAddress DeductFees reduction IsAnyGTE Coins_Add DecCoins_AmountOf DefaultBondDenom options).
Abbreviation cosmos_handler := (newCosmosAnteHandler info reduction IsAnyGTE Coins_Add DefaultBondDenom options).
Abbreviation evm_handler := (newMonoEVMAnteHandler info BytesToAddress DeductFees reduction DecCoins_AmountOf options).
Abbreviation authz_disabled := [EthereumTx_URL; CreateVestingAccount_URL].

Definition first_option tx : option string := head (default [] (tx_ExtensionOptions tx)).

(** Which of the two kinds a transaction is. *)
Definition is_ethereum_tx tx : Prop := first_option tx = Some EthereumTx_option ∧ ∃ e, tx_Msgs tx = [EthMsg e].
Definition is_cosmos_tx tx : Prop :=
  first_option tx ≠ Some EthereumTx_option ∧ (∀ e, ¬ occurs (EthMsg e) (tx_Msgs tx)) ∧
  ∀ url, url ∈ authz_disabled → ¬ occurs (MsgGrant (Some url)) (tx_Msgs tx) ∧ ¬ carried (OtherMsg url) (tx_Msgs tx).

Lemma fee_params_run s : ∃ o, ante (fee_market GetParams) s = (s, o).
Proof.
  destruct s as [[vs fs gu ti ev] ? ? ? ?]. unfold ante, fee_market, zoom. cbn [st_ante an_fee].
  assert (∃ o, GetParams fs = (fs, o)) as [o ->]; [|by exists o].
  unfold GetParams. rewrite (bind_Ok (gets _) _ _ _ _ eq_refl). repeat case_match; by eexists.
Qed.

Lemma cosmos_handler_run s : ∃ o, cosmos_handler s = (s, o).
Proof.
  unfold newCosmosAnteHandler. destruct (fee_params_run s) as [[p|e|w] E].
  - rewrite (bind_Ok _ _ _ _ _ E). by eexists.
  - exists (Err e). unfold bind. by rewrite E.
  - exists (Panic w). unfold bind. by rewrite E.
Qed.

(** ** The first two decorators *)

Lemma reject_step tx c sim s :
  (∀ next, RejectMessagesDecorator (B := B) c tx sim next s = next c tx sim s) ∧ (∀ e, EthMsg e ∉ tx_Msgs tx) ∨
  ∃ e, (∀ next, RejectMessagesDecorator (B := B) c tx sim next s = (s, Err e)) ∧ err_is e ErrInvalidType = true.
Proof.
  unfold RejectMessagesDecorator. destruct (existsb _ _) eqn:E; [right; by eexists|left]. split; [done|].
  intros e Hin. apply not_true_iff_false in E. apply E, existsb_exists. exists (EthMsg e). by rewrite <- list_elem_of_In.
Qed.

Lemma authz_step tx c sim s :
  (∀ next, AuthzLimiterDecorator (B := B) authz_disabled c tx sim next s = next c tx sim s) ∧
    all_permitted authz_disabled false (tx_Msgs tx) ∨
  ∃ e, (∀ next, AuthzLimiterDecorator (B := B) authz_disabled c tx sim next s = (s, Err e)) ∧
    err_is e ErrUnauthorized = true.
Proof.
  unfold AuthzLimiterDecorator. destruct (checkDisabledMsgs _ _ _ _) as [[]|e|w] eqn:E.
  - left. by apply checkDisabledMsgs_correct in E as (_ & _ & ?).
  - right. by eexists.
  - by destruct (checkDisabledMsgs_no_panic _ _ _ _ _ E).
Qed.

Lemma permitted_is_cosmos tx :
  first_option tx ≠ Some EthereumTx_option → (∀ e, EthMsg e ∉ tx_Msgs tx) →
  all_permitted authz_disabled false (tx_Msgs tx) → is_cosmos_tx tx.
Proof.
  intros Hopt Htop [Hp Hc]. split_and!; [done| |].
  - intros e [Hin|Hin]; [by eapply Htop|]. apply Hc in Hin.
    apply (permitted_inner _ _ _ Hin EthereumTx_URL); [done..|]. set_solver.
  - intros url Hurl. split; [intros [Hin|Hin]|intros Hin].
    + by apply (permitted_granted _ _ _ (Hp _ Hin) url).
    + by apply (permitted_granted _ _ _ (Hc _ Hin) url).
    + by apply (permitted_inner _ _ _ (Hc _ Hin) url).
Qed.

(** The Cosmos handler only runs a chain for a Cosmos transaction. *)
Lemma cosmos_chain c tx sim s :
  first_option tx ≠ Some EthereumTx_option →
  is_cosmos_tx tx ∨
  ∀ ds, ∃ e, ChainAnteDecorators
    (RejectMessagesDecorator :: AuthzLimiterDecorator authz_disabled :: SetUpContextDecorator :: ds) c tx sim s = (s, Err e).
Proof.
  intros Hopt. destruct (reject_step tx c sim s) as [[Hr Htop]|(e & He & _)].
  2: { right. intros ds. exists e. by rewrite Chain_cons, He. }
  destruct (authz_step tx c sim s) as [[Ha Hp]|(e & He & _)]; [left; by apply permitted_is_cosmos|right].
  intros ds. exists e. by rewrite Chain_cons, Hr, Chain_cons, He.
Qed.

Lemma cosmos_handler_separates c tx sim s :
  first_option tx ≠ Some EthereumTx_option →
  is_cosmos_tx tx ∨ ∃ o, (let! h := cosmos_handler in h c tx sim) s = (s, o) ∧ is_ok o = false.
Proof.
  intros Hopt. unfold newCosmosAnteHandler. destruct (fee_params_run s) as [[p|e|w] E].
  - rewrite (bind_Ok _ _ s s _ (bind_Ok _ _ _ _ _ E)).
    destruct (cosmos_chain c tx sim s Hopt) as [?|Hds]; [by left|right]. edestruct Hds as [e ->]. by eexists.
  - right. exists (Err e). unfold bind. by rewrite E.
  - right. exists (Panic w). unfold bind. by rewrite E.
Qed.

(** ** Ethereum transactions *)

Lemma evm_handler_separates c tx sim s s' c' :
  (let! h := evm_handler in h c tx sim) s = (s', Ok c') → ∃ e, tx_Msgs tx = [EthMsg e].
Proof.
  intros E. apply bind_Ok_inv in E as (s1 & h & E1 & E).
  unfold newMonoEVMAnteHandler in E1. apply bind_Ok_inv in E1 as (s2 & p & _ & E1).
  apply bind_Ok_inv in E1 as (s3 & fp & _ & [= <- <-]). apply chain_step in E as (next & E & _).
  unfold MonoDecorator in E. apply bind_Ok_inv in E as (s4 & [l q] & E & _).
  unfold ante, zoom in E. destruct (AnteHandle _ _ _ _ _ _ _ _ _ _ _ _) as [a o] eqn:Ea. injection E as _ ->.
  unfold AnteHandle in Ea. do 3 apply bind_Ok_inv in Ea as (? & ? & _ & Ea).
  destruct (tx_Msgs tx) as [|[m|?|?|?] [|]]; try done. by exists m.
Qed.

(** C10: Ethereum and Cosmos transactions are kept apart.  A transaction that is
    accepted is one of two: it has the Ethereum extension option first and a single
    message, a [MsgEthereumTx]; or it has not, and no [MsgEthereumTx] occurs in it,
    neither on top nor carried by [MsgExec]s at any depth, no authorization for one is
    granted, and the same holds inside authz for vesting accounts.  A transaction with
    a [MsgEthereumTx] anywhere that lacks the option is refused with nothing written. *)
Theorem ethereum_kept_apart c tx sim s :
  let r := ante_handler c tx sim s in
  (is_ok r.2 = true → is_ethereum_tx tx ∨ is_cosmos_tx tx) ∧
  ∀ e, occurs (EthMsg e) (tx_Msgs tx) → first_option tx ≠ Some EthereumTx_option → is_ok r.2 = false ∧ r.1 = s.
Proof.
  intros r. destruct (decide (first_option tx = Some EthereumTx_option)) as [Hopt|Hopt].
  - split; [|done]. subst r. unfold NewAnteHandler. unfold first_option in Hopt.
    destruct (default [] (tx_ExtensionOptions tx)) as [|url ?] eqn:Hd; [done|]. injection Hopt as ->.
    rewrite bool_decide_true by done. destruct (bind evm_handler (λ h, h c tx sim) s) as [s' [c'| |]] eqn:E; try done. intros _. left.
    split; [unfold first_option; by rewrite Hd|by eapply evm_handler_separates].
  - cut (is_cosmos_tx tx ∨ is_ok r.2 = false ∧ r.1 = s).
    { intros [Hc|[-> ->]]; [|done]. split; [by right|]. intros e He. by destruct Hc as (_ & Hn & _), (Hn e). }
    destruct (cosmos_handler_separates c tx sim s Hopt) as [?|(o & E & Ho)]; [by left|right]. subst r. unfold NewAnteHandler.
    unfold first_option in Hopt. destruct (default [] (tx_ExtensionOptions tx)) as [|url ?]; [by rewrite E|].
    rewrite bool_decide_false by (cbn in Hopt; congruence). case_bool_decide; [by rewrite E|done].
Qed.

(** C15: what the authz limiter accepts, exactly.  The rest of the chain runs if and
    only if no [MsgExec] or [MsgGrant] fails to unpack, no disabled type is granted or
    carried at any depth, and the counter stays below the limit; otherwise the
    transaction is refused as unauthorized and nothing is written.  The counter is the
    greatest sum, along a path of nested [MsgExec]s, of their positions among the
    [MsgExec]s beside them: it is not only the depth. *)
Theorem authz_limiter_exact disabled c tx sim next s :
  let r := AuthzLimiterDecorator (B := B) disabled c tx sim next s in
  (weight (tx_Msgs tx) < 6 ∧ all_permitted disabled false (tx_Msgs tx) → r = next c tx sim s) ∧
  (¬ (weight (tx_Msgs tx) < 6 ∧ all_permitted disabled false (tx_Msgs tx)) →
   ∃ e, r = (s, Err e) ∧ err_is e ErrUnauthorized = true).
Proof.
  intros r. subst r. unfold AuthzLimiterDecorator.
  pose proof (checkDisabledMsgs_correct disabled (tx_Msgs tx) false 1) as Hc. unfold maxNestedMsgs in Hc.
  destruct (checkDisabledMsgs _ _ _ _) as [[]|e|w] eqn:E.
  - split; [done|]. intros Hn. destruct Hn. destruct Hc as [Hc _]. destruct (Hc eq_refl) as (_ & ? & ?). split; [lia|done].
  - split; [|by eexists]. intros [Hw Hp]. destruct Hc as [_ Hc]. discriminate Hc. split_and!; [lia..|done].
  - by destruct (checkDisabledMsgs_no_panic _ _ _ _ _ E).
Qed.

(** ** The price of a Cosmos transaction *)

Context `{!FeeCoinsLaws IsAnyGTE Coins_Add, !DecLaws}.

Lemma min_gas_price_accepts p c tx next s s' c' :
  MinGasPriceDecorator info IsAnyGTE Coins_Add DefaultBondDenom p c tx false next s = (s', Ok c') →
  ∃ feeTx mp, tx_FeeTx tx = Some feeTx ∧ MinGasPrice p = Some mp ∧
    valid_fees DefaultBondDenom (ftx_Fee feeTx) (eci_Denom info) = true ∧
    (0 ≤ Coins_AmountOf (ftx_Fee feeTx) (eci_Denom info) →
     mp * ftx_Gas feeTx ≤ dNew (Coins_AmountOf (ftx_Fee feeTx) (eci_Denom info))).
Proof.
  unfold MinGasPriceDecorator. destruct (tx_FeeTx tx) as [feeTx|]; [|done]. cbn [negb]. rewrite andb_true_r.
  destruct (valid_fees _ _ _) eqn:Hvf; [cbn [negb]|done]. intros E. apply bind_Ok_inv in E as (s1 & mp & Emp & E).
  unfold dval in Emp. destruct (MinGasPrice p) as [mp'|]; [|done]. injection Emp as <- <-.
  exists feeTx, mp'. split; [done|]. split; [done|]. split; [done|]. intros Hn.
  rewrite orb_false_r in E. destruct (Z.eqb_spec mp' 0) as [Hz|Hmp]; [rewrite Hz; unfold dNew, dec_prec; lia|].
  apply bind_Ok_inv in E as (s2 & req & Er & E). destruct (tx_feeIsNil tx); [done|].
  destruct (IsAnyGTE _ _) eqn:Hg; [|done]. apply IsAnyGTE_some in Hg as (d & Hpos & Hle).
  unfold min_gas_fees in Er. apply bind_Ok_inv in Er as (s3 & total & Et & [= _ <-]).
  unfold dmul, dchk in Et. destruct (dec_ok _); [|done]. injection Et as _ <-.
  rewrite Z.mul_comm, dec_round_exact in Hpos, Hle. rewrite Z.mul_comm.
  destruct (Z.gtb_spec (dCeil (ftx_Gas feeTx * mp')) 0) as [Hc|Hc]; [|rewrite AmountOf_none in Hpos; lia].
  rewrite Add_first in Hpos, Hle by lia. destruct (decide (d = eci_Denom info)) as [->|]; [|lia].
  pose proof (dCeil_spec (ftx_Gas feeTx * mp')). unfold dNew, dec_prec in *. lia.
Qed.

Lemma dynamic_fee_accepts p c tx s1 s2 r :
  dynamic_fee_checker info reduction IsAnyGTE p c tx s1 = (s2, Ok r) →
  BlockHeight (sc_ctx c) ≠ 0 → London_at (BlockHeight (sc_ctx c)) = true →
  ∃ feeTx, tx_FeeTx tx = Some feeTx ∧ ftx_Gas feeTx ≠ 0 ∧
    base_fee_at p (BlockHeight (sc_ctx c)) ≤ Z.quot (dNew (Coins_AmountOf (ftx_Fee feeTx) (eci_Denom info))) (ftx_Gas feeTx).
Proof.
  unfold dynamic_fee_checker, NewDynamicFeeChecker. destruct (tx_FeeTx tx) as [feeTx|]; [|done]. intros E Hh Hl.
  destruct (Z.eqb_spec (BlockHeight (sc_ctx c)) 0); [done|]. rewrite Hl in E. unfold FeeChecker in E. cbn [negb] in E.
  fold (base_fee_at p (BlockHeight (sc_ctx c))) in E. destruct (_ <? 0); [done|].
  destruct (Z.eqb_spec (ftx_Gas feeTx) 0); [done|]. apply bind_Ok_inv in E as (s3 & cap & Ec & E).
  unfold dquoInt in Ec. destruct (Z.eqb_spec (ftx_Gas feeTx) 0); [done|]. injection Ec as _ <-.
  destruct (Z.ltb_spec (Z.quot (dNew (Coins_AmountOf (ftx_Fee feeTx) (eci_Denom info))) (ftx_Gas feeTx))
    (base_fee_at p (BlockHeight (sc_ctx c)))); [done|]. by exists feeTx.
Qed.

Lemma gas_wanted_accepts p c tx sim next s s' c' :
  GasWantedDecorator p c tx sim next s = (s', Ok c') → London_at (BlockHeight (sc_ctx c)) = true →
  ∀ feeTx, tx_FeeTx tx = Some feeTx → ftx_Gas feeTx ≤ BlockGasLimit (sc_ctx c).
Proof.
  unfold GasWantedDecorator. intros E Hl feeTx Hf. apply bind_Ok_inv in E as (s1 & [] & E & _). rewrite Hl, Hf in E.
  unfold ante, fee_market, zoom in E. unfold CheckGasWanted in E. cbn in E.
  destruct (Z.gtb_spec (ftx_Gas feeTx) (BlockGasLimit (sc_ctx c))); [done|lia].
Qed.

Lemma own_call_next p :
  Forall (calls_next (B := B)) [RejectMessagesDecorator; AuthzLimiterDecorator authz_disabled;
    MinGasPriceDecorator info IsAnyGTE Coins_Add DefaultBondDenom p; GasWantedDecorator p].
Proof.
  repeat constructor; intros c tx sim next s s' c' E.
  - unfold RejectMessagesDecorator in E. destruct (existsb _ _); [done|]. by exists c, s.
  - unfold AuthzLimiterDecorator in E. case_match; try done. by exists c, s.
  - unfold MinGasPriceDecorator in E. destruct (tx_FeeTx tx); [|done]. destruct (_ && _); [done|].
    apply bind_Ok_inv in E as (s1 & mp & _ & E). destruct (_ || _); [by exists c, s1|].
    apply bind_Ok_inv in E as (s2 & req & _ & E). destruct (tx_feeIsNil tx); [done|]. destruct (negb _); [done|]. by exists c, s2.
  - apply bind_Ok_inv in E as (s1 & u & _ & E). by exists c, s1.
Qed.

Definition cosmos_chain_of p : list (AnteDecorator B) :=
  [RejectMessagesDecorator; AuthzLimiterDecorator authz_disabled; SetUpContextDecorator; ExtensionOptionsDecorator;
   ValidateBasicDecorator; TxTimeoutHeightDecorator; ValidateMemoDecorator;
   MinGasPriceDecorator info IsAnyGTE Coins_Add DefaultBondDenom p; ConsumeGasForTxSizeDecorator;
   DeductFeeDecorator (if DynamicFeeChecker options then Some (dynamic_fee_checker info reduction IsAnyGTE p) else None);
   SetPubKeyDecorator; ValidateSigCountDecorator; SigGasConsumeDecorator; SigVerificationDecorator;
   IncrementSequenceDecorator; RedundantRelayDecorator; GasWantedDecorator p].

Lemma cosmos_chain_calls p : Forall (calls_next (B := B)) (cosmos_chain_of p).
Proof.
  pose proof (own_call_next p) as Ho. pose proof sdk_call_next as Hs. pose proof DeductFee_calls_next as Hd.
  rewrite !Forall_cons in Ho. rewrite !Forall_cons in Hs. unfold cosmos_chain_of. rewrite !Forall_cons. destruct_and!. split_and!; (done || apply Hd).
Qed.

(** A transaction without the Ethereum option runs that chain, with the stored
    parameters. *)
Lemma cosmos_tx_chain c tx sim s s' c' p :
  (GetParams (an_fee (st_ante s))).2 = Ok p → first_option tx ≠ Some EthereumTx_option →
  ante_handler c tx sim s = (s', Ok c') → ChainAnteDecorators (cosmos_chain_of p) c tx sim s = (s', Ok c').
Proof.
  intros Hp Hopt E. assert ((let! h := cosmos_handler in h c tx sim) s = (s', Ok c')) as Eh.
  { unfold NewAnteHandler in E. unfold first_option in Hopt. destruct (default [] (tx_ExtensionOptions tx)) as [|url ?]; [done|].
    rewrite bool_decide_false in E by (cbn in Hopt; congruence). by case_bool_decide. }
  destruct (fee_params_run s) as [o Eo]. assert (o = Ok p) as ->.
  { unfold ante, fee_market, zoom in Eo. destruct (GetParams (an_fee (st_ante s))). cbn in Hp. by injection Eo as _ <-. }
  unfold newCosmosAnteHandler in Eh. by rewrite (bind_Ok _ _ s s _ (bind_Ok _ _ _ _ _ Eo)) in Eh.
Qed.

(** C11: what an accepted Cosmos transaction pays and uses.  If the handler, with the
    dynamic fee checker and under London, accepts a transaction without the Ethereum
    option outside of simulation, then its fee is in at most one denomination, the
    EVM's or the bond denomination; offered in the EVM's denomination, it covers for
    the whole gas limit both the minimum gas price and the base fee of the stored
    parameters; the gas limit is not zero and fits in the block. *)
Theorem cosmos_tx_pays c tx s s' c' p :
  DynamicFeeChecker options = true → London_at (BlockHeight (sc_ctx c)) = true → 0 < BlockHeight (sc_ctx c) →
  (GetParams (an_fee (st_ante s))).2 = Ok p → first_option tx ≠ Some EthereumTx_option →
  (∀ feeTx, tx_FeeTx tx = Some feeTx → 0 ≤ ftx_Gas feeTx ∧ Coins_IsValid (ftx_Fee feeTx) = true) →
  ante_handler c tx false s = (s', Ok c') →
  ∃ feeTx mp, tx_FeeTx tx = Some feeTx ∧ MinGasPrice p = Some mp ∧
    let offer := Coins_AmountOf (ftx_Fee feeTx) (eci_Denom info) in
    valid_fees DefaultBondDenom (ftx_Fee feeTx) (eci_Denom info) = true ∧
    mp * ftx_Gas feeTx ≤ dNew offer ∧ base_fee_at p (BlockHeight (sc_ctx c)) * ftx_Gas feeTx ≤ dNew offer ∧
    0 < ftx_Gas feeTx ≤ BlockGasLimit (sc_ctx c).
Proof.
  intros Hdyn Hl Hh Hp Hopt Hv E. eapply cosmos_tx_chain in E; [|done..]. pose proof (cosmos_chain_calls p) as Hcalls.
  eapply (chain_reaches (MinGasPriceDecorator info IsAnyGTE Coins_Add DefaultBondDenom p)) in E as Hmin; [|done|set_solver].
  eapply (chain_reaches (DeductFeeDecorator (Some (dynamic_fee_checker info reduction IsAnyGTE p)))) in E as Hded;
    [|done|unfold cosmos_chain_of; rewrite Hdyn; set_solver].
  eapply (chain_reaches (GasWantedDecorator p)) in E as Hgas; [|done|set_solver]. clear E Hcalls.
  destruct Hmin as (c1 & s1 & n1 & _ & (feeTx & mp & Hf & Hmp & Hvf & Hmin)%min_gas_price_accepts).
  destruct (Hv feeTx Hf) as [Hg0 Hval]. pose proof (AmountOf_nonneg _ (eci_Denom info) Hval) as Hn.
  destruct Hgas as (c3 & s3 & n3 & (Hc3 & _) & Hgas). eapply gas_wanted_accepts in Hgas; [|by rewrite Hc3|done].
  destruct Hded as (c2 & s2 & n2 & (Hc2 & _) & (s4 & s5 & r & Hr)%DeductFee_checks).
  apply dynamic_fee_accepts in Hr as (feeTx' & Hf' & Hg & Hb); [|by rewrite Hc2; lia|by rewrite Hc2].
  rewrite Hf in Hf'. injection Hf' as <-. rewrite Hc2 in Hb. rewrite Hc3 in Hgas. exists feeTx, mp. cbv zeta.
  split; [done|]. split; [done|]. split; [done|]. split; [by apply Hmin|]. split; [|lia].
  rewrite Z.quot_div_nonneg in Hb by (unfold dNew, dec_prec; lia).
  pose proof (Z.mul_div_le (dNew (Coins_AmountOf (ftx_Fee feeTx) (eci_Denom info))) (ftx_Gas feeTx)). nia.
Qed.
End handlers.

(** * Signature costs *)

(** The single keys whose signatures a multisig signature holds: those whose bits
    are set, at any depth. *)
Fixpoint signing_keys (pubkey : PubKey) (data : SignatureData) : list PubKey :=
  match pubkey, data with
  | Multisig keys, MultiSignatureData bits sigs =>
      (fix go keys bits sigs :=
         match bits, keys, sigs with
         | false :: bits, _ :: keys, _ => go keys bits sigs
         | true :: bits, key :: keys, sig :: sigs => signing_keys key sig ++ go keys bits sigs
         | _, _, _ => []
         end) keys bits sigs
  | _, _ => [pubkey]
  end.

Lemma PubKey_nested_ind (P : PubKey → Prop) :
  P EthSecp256k1 → P Secp256k1 → P ED25519 → P OtherKey → (∀ keys, Forall P keys → P (Multisig keys)) → ∀ k, P k.
Proof.
  intros He Hs Hd Ho Hm. fix IH 1. intros [| | |keys|]; [apply He|apply Hs|apply Hd| |apply Ho].
  apply Hm. induction keys as [|k keys IHl]; constructor; [apply IH|apply IHl].
Qed.

Section signatures.
Context {Meter : Type} (ConsumeGas : Z → M Meter unit) (used : Meter → Z) (params : AuthParams).
Context (ConsumeGas_adds : ∀ g m m' u, ConsumeGas g m = (m', Ok u) → used m' = used m + g).

Definition key_cost (k : PubKey) : Z :=
  match k with EthSecp256k1 => Secp256k1VerifyCost | Secp256k1 => SigVerifyCostSecp256k1 params | _ => 0 end.
Definition keys_cost (ks : list PubKey) : Z := foldr (λ k n, key_cost k + n) 0 ks.
Definition verifiable (k : PubKey) : Prop := k = EthSecp256k1 ∨ k = Secp256k1.

Lemma keys_cost_app ks ks' : keys_cost (ks ++ ks') = keys_cost ks + keys_cost ks'.
Proof. unfold keys_cost. induction ks as [|k ks IH]; [done|]. cbn [foldr app]. rewrite IH. lia. Qed.

(** A signature whose cost is charged has only keys the chain can verify, and
    costs what they cost: every signing key, of a multisig at any depth, is an Ethereum
    or a Cosmos secp256k1 key, never an ed25519 one, and the meter advances by the sum
    of 21000 for each of the former and the configured cost for each of the latter. *)
Theorem SigVerificationGasConsumer_charges pubkey data m m' u :
  SigVerificationGasConsumer ConsumeGas params pubkey data m = (m', Ok u) →
  Forall verifiable (signing_keys pubkey data) ∧ used m' = used m + keys_cost (signing_keys pubkey data).
Proof.
  revert data m m' u. induction pubkey as [| | | |keys IH] using PubKey_nested_ind; intros data m m' u E.
  - apply ConsumeGas_adds in E. split; [constructor; [by left|done]|unfold keys_cost; cbn [signing_keys foldr key_cost]; lia].
  - apply ConsumeGas_adds in E. split; [constructor; [by right|done]|unfold keys_cost; cbn [signing_keys foldr key_cost]; lia].
  - by apply bind_Ok_inv in E as (? & ? & _ & ?).
  - done.
  - destruct data as [|bits sigs]; [done|]. cbn [SigVerificationGasConsumer signing_keys] in E |- *. revert bits sigs m E.
    induction IH as [|key keys Hk _ IHl]; intros [|[] bits] sigs m E.
    1,4: injection E as <- _; cbn; split; [done|lia].
    + done.
    + cbn [existsb id orb] in E. destruct (existsb id bits); [done|]. injection E as <- _. cbn. split; [done|lia].
    + destruct sigs as [|sig sigs]; [done|]. apply bind_Ok_inv in E as (m1 & u1 & [Hv1 Hu1]%Hk & [Hv Hu]%IHl).
      rewrite Forall_app, keys_cost_app. split; [done|lia].
    + by apply IHl.
Qed.
End signatures.
