(* ===== verification/AnteCosmosWit.v ===== *)
(** Transactions that go through the ante handlers, on the concrete SDK with
    decorators that pass everything on. *)

From S2P Require Import Prelude.
From S2P Require Import Sdk.
From S2P Require Import SdkAuth.
From S2P Require Import EvmDenom.
From S2P Require Import SdkModel.
From S2P Require Import PreciseBankWit.
From S2P Require Import StateDBWit.
From S2P Require Import SdkAuthModel.
From S2P Require Import VmKeeper.
From S2P Require Import VmKeeperWit.
From S2P Require Import Dec.
From S2P Require Import FeeMarket.
From S2P Require Import FeeMarketWit.
From S2P Require Import TxFees.
From S2P Require Import TxFeesThms.
From S2P Require Import TxFeesWit.
From S2P Require Import AnteEvm.
From S2P Require Import AnteEvmWit.
From S2P Require Import Transition.
From S2P Require Import TransitionWit.
From S2P Require Import AnteCosmos.
From S2P Require Import AnteCosmosThms.

(** * Instances *)

Definition pass : AnteDecorator AuthBank := λ c tx sim next, next c tx sim.
Fixpoint w_chain (ds : list (AnteDecorator AuthBank)) : AnteHandler AuthBank :=
  match ds with [] => λ c _ _, ret c | d :: ds => λ c tx sim, d c tx sim (w_chain ds) end.
Definition w_deduct (f : option (TxFeeChecker AuthBank)) : AnteDecorator AuthBank := λ c tx sim next,
  match f with
  | Some f => if sim then next c tx sim else f c tx >>! next c tx sim
  | None => next c tx sim
  end.

#[global] Instance w_decorators : SdkDecorators AuthBank := {|
  ChainAnteDecorators := w_chain;
  SetUpContextDecorator := pass;
  ExtensionOptionsDecorator := pass;
  ValidateBasicDecorator := pass;
  TxTimeoutHeightDecorator := pass;
  ValidateMemoDecorator := pass;
  ConsumeGasForTxSizeDecorator := pass;
  DeductFeeDecorator := w_deduct;
  SetPubKeyDecorator := pass;
  ValidateSigCountDecorator := pass;
  SigGasConsumeDecorator := pass;
  SigVerificationDecorator := pass;
  IncrementSequenceDecorator := pass;
  RedundantRelayDecorator := pass
|}.

Lemma pass_calls : calls_next pass.
Proof. intros c tx sim next s s' c' E. by exists c, s. Qed.

#[global] Instance w_decorators_laws : SdkDecoratorsLaws AuthBank.
Proof.
  split; [done|done|repeat constructor; apply pass_calls| |].
  - intros [f|] c tx sim next s s' c' E; cbn in E; [|by exists c, s]. destruct sim; [by exists c, s|].
    apply bind_Ok_inv in E as (s1 & r & _ & E). by exists c, s1.
  - intros f c tx next s s' c' E. cbn in E. apply bind_Ok_inv in E as (s1 & r & E & _). by exists s, s1, r.
Qed.

Definition w_IsAnyGTE (cs bs : list Coin) : bool :=
  existsb (λ c, (0 <? m_amount_of bs (Denom c)) && (m_amount_of bs (Denom c) <=? m_amount_of cs (Denom c))) bs.
Definition w_Add (cs : list Coin) (c : Coin) : list Coin := c :: cs.

#[global] Instance w_fee_coins : FeeCoinsLaws w_IsAnyGTE w_Add.
Proof.
  split.
  - intros cs bs (c & _ & [?%Z.ltb_lt ?%Z.leb_le]%andb_true_iff)%existsb_exists. by exists (Denom c).
  - intros d n e Hn. cbn. unfold m_amount_of. cbn. repeat case_decide; cbn; lia || congruence.
  - done.
Qed.

(** * Transactions *)

Definition c_options : HandlerOptions AuthBank := mkHandlerOptions (10 ^ 6) true None.
Definition c_ctx : SdkCtx := mkSdkCtx (ac_ctx e_ctx) 100 true false [] 0 0.
Definition c_handler : AnteHandler AuthBank :=
  NewAnteHandler info6 w_BytesToAddress v_deduct (10 ^ 6) w_IsAnyGTE w_Add (λ _ _, 0) "stake" c_options.
Definition c_tx (opts : list string) (msgs : list SdkMsg) : SdkTx :=
  mkSdkTx None None true (Some (mkFeeTx 100000 [mkCoin (eci_Denom info6) 3] None)) false (Some opts) msgs.
Definition a_send : SdkMsg := OtherMsg "/cosmos.bank.v1beta1.MsgSend".

Lemma c_accepted : (c_handler c_ctx (c_tx [] [MsgExec (Some [a_send])]) false t_stores).2 = Ok c_ctx.
Proof. vm_compute. reflexivity. Qed.

Lemma c_params : (GetParams (an_fee (st_ante t_stores))).2 = Ok e_params.
Proof. vm_compute. reflexivity. Qed.

Lemma c_option : first_option (c_tx [] [MsgExec (Some [a_send])]) ≠ Some EthereumTx_option.
Proof. discriminate. Qed.
Lemma c_fee_valid feeTx :
  tx_FeeTx (c_tx [] [MsgExec (Some [a_send])]) = Some feeTx → 0 ≤ ftx_Gas feeTx ∧ Coins_IsValid (ftx_Fee feeTx) = true.
Proof. by intros [= <-]. Qed.

(** The stored parameters have a base fee of 10^-5 and a minimum gas price of 10^-6
    per unit of gas; three coins are enough for 100000. *)
Lemma cosmos_tx_pays_witness :
  (10 ^ 12) * 100000 ≤ dNew 3 ∧ base_fee_at e_params 10 * 100000 ≤ dNew 3 ∧ 100000 ≤ BlockGasLimit (sc_ctx c_ctx).
Proof.
  pose proof c_accepted as E. unfold c_handler in E.
  destruct (NewAnteHandler _ _ _ _ _ _ _ _ _ c_ctx _ false t_stores) as [s' o] eqn:Er in E. cbn [snd] in E. subst o.
  pose proof (cosmos_tx_pays info6 w_BytesToAddress v_deduct (10 ^ 6) w_IsAnyGTE w_Add (λ _ _, 0) "stake" c_options
    c_ctx (c_tx [] [MsgExec (Some [a_send])]) t_stores s' c_ctx e_params eq_refl) as W.
  specialize (W eq_refl eq_refl c_params c_option c_fee_valid Er).
  destruct W as (feeTx & mp & [= <-] & [= <-] & _ & Hmp & Hb & _ & Hg).
  split; [exact Hmp|]. split; [exact Hb|exact Hg].
Defined.

(** An Ethereum message inside two [MsgExec]s is refused, and nothing changes. *)
Lemma ethereum_kept_apart_witness :
  let tx := c_tx [] [a_send; MsgExec (Some [MsgExec (Some [EthMsg (mkMsgEthereumTx bytes7 (Some e_tx))])])] in
  is_ok (c_handler c_ctx tx false t_stores).2 = false ∧ (c_handler c_ctx tx false t_stores).1 = t_stores.
Proof.
  intros tx. eapply (ethereum_kept_apart info6 w_BytesToAddress v_deduct (10 ^ 6) w_IsAnyGTE w_Add (λ _ _, 0) "stake" c_options
    c_ctx tx false t_stores); [|done].
  right. eapply carried_deep; [right; by left|]. eapply carried_here; [by left|]. by left.
Defined.

(** Five nested [MsgExec]s pass, so do five in a row. *)
Fixpoint nested_execs (n : nat) : SdkMsg :=
  match n with O => a_send | Datatypes.S n => MsgExec (Some [nested_execs n]) end.

Lemma a_send_permitted b d : "/cosmos.bank.v1beta1.MsgSend" ∉ d → msg_permitted d b a_send.
Proof. intros Hd. split; [done|done|done|]. by intros url _ [= <-]. Qed.

Lemma nested_permitted d b n : "/cosmos.bank.v1beta1.MsgSend" ∉ d → all_permitted d b [nested_execs n].
Proof.
  intros Hd. revert b. induction n as [|n IH]; intros b; [by apply all_permitted_leaf; [|apply a_send_permitted]|].
  by apply all_permitted_exec.
Qed.

Definition accept : AnteHandler AuthBank := λ c _ _, ret c.

Lemma authz_limiter_exact_witness :
  AuthzLimiterDecorator (B := AuthBank) [EthereumTx_URL] c_ctx (c_tx [] [nested_execs 5]) false accept t_stores = (t_stores, Ok c_ctx).
Proof.
  apply (authz_limiter_exact (B := AuthBank) [EthereumTx_URL] c_ctx (c_tx [] [nested_execs 5]) false accept t_stores).
  split; [vm_compute; reflexivity|]. apply nested_permitted. unfold EthereumTx_URL. by intros Hin%list_elem_of_singleton.
Defined.

(** The limit on nesting counts messages that are not nested: six [MsgExec]s beside
    one another, each with one transfer in it, are refused as unauthorized, while five,
    or five nested in one another, are accepted. *)
Theorem six_execs_refused c next s :
  let run msgs := AuthzLimiterDecorator (B := AuthBank) [EthereumTx_URL] c (c_tx [] msgs) false next s in
  (∃ e, run (replicate 6 (MsgExec (Some [a_send]))) = (s, Err e) ∧ err_is e ErrUnauthorized = true) ∧
  run (replicate 5 (MsgExec (Some [a_send]))) = next c (c_tx [] (replicate 5 (MsgExec (Some [a_send])))) false s ∧
  run [nested_execs 5] = next c (c_tx [] [nested_execs 5]) false s.
Proof. split; [by eexists|]. split; reflexivity. Qed.

(** A two-of-three multisig with a Cosmos and an Ethereum key. *)
Definition w_consume (g : Z) : M Z unit := modify (λ m, m + g).
Definition w_multisig : PubKey := Multisig [EthSecp256k1; ED25519; Multisig [Secp256k1]].
Definition w_signature : SignatureData :=
  MultiSignatureData [true; false; true] [SingleSignatureData; MultiSignatureData [true] [SingleSignatureData]].

Lemma SigVerificationGasConsumer_charges_witness :
  keys_cost (mkAuthParams 1000 590) (signing_keys w_multisig w_signature) = 22000 ∧
  22500 = 500 + keys_cost (mkAuthParams 1000 590) (signing_keys w_multisig w_signature).
Proof.
  split; [reflexivity|].
  apply (SigVerificationGasConsumer_charges w_consume id (mkAuthParams 1000 590) ltac:(by intros ? ? ? ? [= <-])
    w_multisig w_signature 500 22500 tt). reflexivity.
Defined.
