(* ===== verification/VmQuery.v ===== *)
(** The gRPC queries of x/vm (x/vm/keeper/grpc_query.go): accounts, balances, storage,
    code, fees, calls that are not committed, and the estimation of gas, with the
    arguments of a call (x/vm/types/tx_args.go), state overrides (rpc/types/types.go)
    and the search for a gas limit (x/vm/types/utils.go).  Tracing is left out; JSON
    is decoded before. *)

From Stdlib Require Import SpecFloat.
From S2P Require Import Prelude.
From S2P Require Import Sdk.
From S2P Require Import SdkAuth.
From S2P Require Import EvmDenom.
From S2P Require Import PreciseBank.
From S2P Require Import PreciseBankGenesis.
From S2P Require Import AccessList.
From S2P Require Import StateDB.
From S2P Require Import VmKeeper.
From S2P Require Import Dec.
From S2P Require Import FeeMarket.
From S2P Require Import TxFees.
From S2P Require Import AnteEvm.
From S2P Require Import VmParams.
From S2P Require Import Transition.

(** * The search for a gas limit *)

(** [float64] arithmetic, rounded to nearest; 0.015 is rounded too. *)
Definition float64 (n : Z) : spec_float := binary_normalize 53 1024 n 0 false.
Definition errRatio : spec_float := S754_finite false 8646911284551352 (-59).

Definition close_enough (lo hi : Z) : bool :=
  SFltb (SFdiv 53 1024 (float64 (wrap u64_max (hi - lo))) (float64 hi)) errRatio.

Definition bin_mid (lo hi : Z) : Z :=
  let mid := wrap u64_max (lo + wrap u64_max (hi - lo) / 2) in
  if mid >? wrap u64_max (lo * 2) then wrap u64_max (lo * 2) else mid.

(** [executable] returns whether the execution failed, with the response if there is
    one.  [None] when the fuel runs out. *)
Fixpoint BinSearch {S R} (fuel : nat) (executable : Z → M S (bool * option R)) (lo hi : Z) : M S (option Z) :=
  match fuel with
  | O => ret None
  | Datatypes.S fuel =>
      if negb (wrap u64_max (lo + 1) <? hi) then ret (Some hi)
      else if close_enough lo hi then ret (Some hi)
      else
        let mid := bin_mid lo hi in
        let! (failed, _) := executable mid in
        if failed then BinSearch fuel executable mid hi else BinSearch fuel executable lo mid
  end.

(** * Arguments of a call *)

(** Without the fields of blobs. *)
Record TransactionArgs : Type := mkTransactionArgs {
  ta_From : option Address;
  ta_To : option Address;
  ta_Gas : option Z;
  ta_GasPrice : option Z;
  ta_MaxFeePerGas : option Z;
  ta_MaxPriorityFeePerGas : option Z;
  ta_Value : option Z;
  ta_Nonce : option Z;
  ta_Data : option bytes;
  ta_Input : option bytes;
  ta_AccessList : option (list (Address * list Hash));
  ta_ChainID : option Z;
  ta_AuthorizationList : option (list SetCodeAuthorization)
}.

Definition ta_with_gas_nonce (gas nonce : option Z) (a : TransactionArgs) : TransactionArgs :=
  mkTransactionArgs (ta_From a) (ta_To a) gas (ta_GasPrice a) (ta_MaxFeePerGas a) (ta_MaxPriorityFeePerGas a) (ta_Value a)
    nonce (ta_Data a) (ta_Input a) (ta_AccessList a) (ta_ChainID a) (ta_AuthorizationList a).

Definition GetFrom (args : TransactionArgs) : Address := default 0 (ta_From args).

Definition GetData (args : TransactionArgs) : bytes :=
  match ta_Input args, ta_Data args with
  | Some i, _ => i
  | None, Some d => d
  | None, None => EmptyString
  end.

Definition or_zero (x : option Z) : option Z := Some (default 0 x).

Definition CallDefaults (globalGasCap : Z) (baseFee : option Z) (chainID : Z) (args : TransactionArgs)
    : outcome TransactionArgs :=
  if bool_decide (is_Some (ta_GasPrice args)) &&
     (bool_decide (is_Some (ta_MaxFeePerGas args)) || bool_decide (is_Some (ta_MaxPriorityFeePerGas args)))
  then Err (errorf ErrOther "both gasPrice and (maxFeePerGas or maxPriorityFeePerGas) specified")
  else if match ta_ChainID args with Some have => negb (have =? chainID) | None => false end
  then Err (errorf ErrOther "chainId does not match node's")
  else
    let gas :=
      match ta_Gas args with
      | None => if globalGasCap =? 0 then (u64_max - 1) / 2 else globalGasCap
      | Some gas => if (globalGasCap >? 0) && (globalGasCap <? gas) then globalGasCap else gas
      end in
    let '(gasPrice, maxFee, maxPriority) :=
      match baseFee with
      | None => (or_zero (ta_GasPrice args), ta_MaxFeePerGas args, ta_MaxPriorityFeePerGas args)
      | Some _ => (ta_GasPrice args, or_zero (ta_MaxFeePerGas args), or_zero (ta_MaxPriorityFeePerGas args))
      end in
    Ok (mkTransactionArgs (ta_From args) (ta_To args) (Some gas) gasPrice maxFee maxPriority (or_zero (ta_Value args))
          (or_zero (ta_Nonce args)) (ta_Data args) (ta_Input args) (ta_AccessList args) (Some chainID)
          (ta_AuthorizationList args)).

(** The fields are not nil after [CallDefaults]; [GasPrice] is the exception under a
    base fee, where it is only read if it is set. *)
Definition ToMessage (baseFee : option Z) (args : TransactionArgs) : Message :=
  let '(gasPrice, gasFeeCap, gasTipCap) :=
    match baseFee, ta_GasPrice args with
    | None, p => (default 0 p, default 0 p, default 0 p)
    | Some _, Some p => (p, p, p)
    | Some b, None =>
        let feeCap := default 0 (ta_MaxFeePerGas args) in
        let tipCap := default 0 (ta_MaxPriorityFeePerGas args) in
        let price := if negb (feeCap =? 0) || negb (tipCap =? 0)
                     then if tipCap + b >? feeCap then feeCap else tipCap + b
                     else 0 in
        (price, feeCap, tipCap)
    end in
  mkMessage (GetFrom args) (default 0 (ta_Nonce args)) (default 0 (ta_Gas args)) gasPrice gasFeeCap gasTipCap (ta_To args)
    (default 0 (ta_Value args)) (GetData args) (default [] (ta_AccessList args)) (ta_AuthorizationList args).

Definition msg_with_gas (gas : Z) (m : Message) : Message :=
  mkMessage (msg_From m) (msg_Nonce m) gas (msg_GasPrice m) (msg_GasFeeCap m) (msg_GasTipCap m) (msg_To m) (msg_Value m)
    (msg_Data m) (msg_AccessList m) (msg_SetCodeAuthorizations m).

(** * State overrides *)

Record OverrideAccount : Type := mkOverrideAccount {
  oa_Nonce : option Z;
  oa_Code : option bytes;
  oa_Balance : option (option Z);
  oa_State : option Storage;
  oa_StateDiff : option (list (Hash * Hash));
  oa_MovePrecompileTo : option Address
}.

(** A Go map, as the pairs in the order they are met. *)
Abbreviation StateOverride := (list (Address * OverrideAccount)) (only parsing).

Section overrides.
Context `{Crypto, GethAddress} {St : Type} `{!Keeper St} {Contract : Type}.
Abbreviation Host := (EvmHost St Contract).

Definition has (diff : StateOverride) (a : Address) : bool := existsb (λ p, bool_decide (p.1 = a)) diff.

(** The fields of one account, after its precompile has been moved. *)
Definition override_fields (a : Address) (account : OverrideAccount) : M Host unit :=
  (match oa_Nonce account with Some n => eh_state (SetNonce a n) | None => ret tt end) >>!
  (match oa_Code account with Some c => eh_state (SetCode a (Some c)) >>! ret tt | None => ret tt end) >>!
  (match oa_Balance account with
   | Some (Some b) => eh_state (SetBalance a (wrap u256_max b))
   | _ => ret tt
   end) >>!
  match oa_State account, oa_StateDiff account with
  | Some _, Some _ => throw (errorf ErrOther "account has both 'state' and 'stateDiff'")
  | Some storage, None => eh_state (SetStorage a storage)
  | None, Some diff => eh_state (for_each diff (λ p, SetStateOverride a p.1 p.2))
  | None, None => ret tt
  end.

(** One turn of the loop; the result is the set of targets of moved precompiles. *)
Definition override_account (diff : StateOverride) (dirtyAddrs : list Address) (a : Address) (account : OverrideAccount)
    : M Host (list Address) :=
  if bool_decide (a ∈ dirtyAddrs)
  then throw (errorf ErrOther "account has already been overridden by a precompile")
  else
    let! p := gets (λ h, eh_precompiles h !! a) in
    let! dirtyAddrs :=
      match oa_MovePrecompileTo account with
      | None => ret dirtyAddrs
      | Some to =>
          match p with
          | None => throw (errorf ErrOther "account is not a precompile")
          | Some p =>
              if has diff to then throw (errorf ErrOther "account is already overridden")
              else modify (λ h, mkEvmHost (<[to := p]> (eh_precompiles h)) (eh_db h)) >>! ret (to :: dirtyAddrs)
          end
      end in
    when (bool_decide (is_Some p)) (modify (λ h, mkEvmHost (delete a (eh_precompiles h)) (eh_db h))) >>!
    override_fields a account >>!
    ret dirtyAddrs.

Fixpoint override_loop (diff rest : StateOverride) (dirtyAddrs : list Address) : M Host unit :=
  match rest with
  | [] => ret tt
  | (a, account) :: rest =>
      let! dirtyAddrs := override_account diff dirtyAddrs a account in
      override_loop diff rest dirtyAddrs
  end.

(** [StateOverride.Apply]. *)
Definition Apply (diff : StateOverride) : M Host unit :=
  override_loop diff diff [] >>! eh_state (Finalise false).
End overrides.

(** * Queries *)

(** [ethparams.TxGas] and [CallStipend]; the text of [vm.ErrOutOfGas]. *)
Definition TxGas : Z := 21000.
Definition CallStipend : Z := 2300.
Definition OutOfGas : string := "out of gas".

(** What is decoded of the JSON fields; [ecr_Overrides] is [None] when empty. *)
Record EthCallRequest : Type := mkEthCallRequest {
  ecr_Args : outcome TransactionArgs;
  ecr_GasCap : Z;
  ecr_ProposerAddress : string;
  ecr_Overrides : option (outcome StateOverride)
}.

Inductive CallType : Type := RPC | Internal.

Record EstimateGasResponse : Type := mkEstimateGasResponse { est_Gas : Z; est_Ret : bytes; est_VmError : string }.

Record QueryAccountResponse : Type := mkQueryAccountResponse { qa_Balance : option Z; qa_CodeHash : Hash; qa_Nonce : Z }.
Record QueryCosmosAccountResponse : Type := mkQueryCosmosAccountResponse {
  qc_CosmosAddress : string;
  qc_Sequence : Z;
  qc_AccountNumber : Z
}.

Section queries.
Context `{SdkTypes, AccountKeeper} {B : Type} `{!BankKeeper B, AuthKeeper B}.
Context `{Crypto, GethAddress, GethTx, !GethConfig, DecTypes, ParamsCodec, GethParams, AddrCodec}.
Context `{GethHex, VmLibraries, StakingKeeper} {Contract : Type} `{!GethEVM (VmState B) Contract}.
Context (info : EvmCoinInfo) (BytesToAddress : addr → Address) (HexToHash : string → Hash).
Context (precompiles : gmap Address Contract) (Contract_Address : Contract → Address).
Context (erc20Keeper : option (Address → outcome (option Contract))).
Context (ctx : TransCtx).

Abbreviation VS := (VmState B).
Abbreviation SS := (Stores B).
#[local] Instance query_keeper : Keeper VS := VmKeeper.keeper info.

(** [status.Error] of an error: only its text is left. *)
Definition status {A} (m : M SS A) : M SS A := on_error m (λ e, ret (errorf ErrOther (err_text e))).

(** A missing request is [None]. *)
Definition with_request {R A} (req : option R) (f : R → M SS A) : M SS A :=
  match req with None => throw (errorf ErrOther "empty request") | Some r => f r end.

Definition Account (req : option string) : M SS QueryAccountResponse :=
  with_request req (λ address,
    status (of_outcome (VmParams.ValidateAddress address)) >>!
    let! acct := store_vm (VmKeeper.GetAccountOrEmpty info (HexToAddress address)) in
    ret (mkQueryAccountResponse (raw_Balance acct) (default 0 (raw_CodeHash acct)) (raw_Nonce acct))).

Definition account_response (text : string) (account : option AccountI) : QueryCosmosAccountResponse :=
  match account with
  | None => mkQueryCosmosAccountResponse text 0 0
  | Some acc => mkQueryCosmosAccountResponse text (GetSequence acc) (GetAccountNumber acc)
  end.

Definition CosmosAccount (req : option string) : M SS QueryCosmosAccountResponse :=
  with_request req (λ address,
    status (of_outcome (VmParams.ValidateAddress address)) >>!
    let cosmosAddr := Address_Bytes (HexToAddress address) in
    let! account := store_vm (gets (λ s, ak_GetAccount (ps_bank (vs_pb s)) cosmosAddr)) in
    ret (account_response (AccAddress_String cosmosAddr) account)).

(** [ConsAddressFromBech32] gives the bytes of the consensus address. *)
Definition ValidatorAccount (ConsAddressFromBech32 : string → outcome string) (req : option string)
    : M SS QueryCosmosAccountResponse :=
  with_request req (λ address,
    let! consAddr := status (of_outcome (ConsAddressFromBech32 address)) in
    let! valAddr := of_outcome (GetValidatorByConsAddr consAddr) in
    let! addrBz := of_outcome (ValAddressFromBech32 valAddr) in
    let! account := store_vm (gets (λ s, ak_GetAccount (ps_bank (vs_pb s)) addrBz)) in
    ret (account_response (AccAddress_String addrBz) account)).

(** [BalanceQuery], [StorageQuery] and [CodeQuery]: the methods [Balance], [Storage]
    and [Code]. *)
Definition BalanceQuery (req : option string) : M SS (option Z) :=
  with_request req (λ address,
    status (of_outcome (VmParams.ValidateAddress address)) >>!
    store_vm (VmKeeper.SpendableCoin info (HexToAddress address))).

Definition StorageQuery (req : option (string * string)) : M SS Hash :=
  with_request req (λ '(address, key),
    status (of_outcome (VmParams.ValidateAddress address)) >>!
    store_vm (VmKeeper.GetState (HexToAddress address) (HexToHash key))).

Definition CodeQuery (req : option string) : M SS (option bytes) :=
  with_request req (λ address,
    status (of_outcome (VmParams.ValidateAddress address)) >>!
    let! acct := store_vm (VmKeeper.GetAccountWithoutBalance (HexToAddress address)) in
    match acct with
    | Some acct => if HasCodeHash acct then store_vm (VmKeeper.GetCode (default 0 (raw_CodeHash acct))) else ret None
    | None => ret None
    end).

Definition ParamsQuery : M SS VmParams.Params := vm_params VmParams.GetParams.

Definition BaseFeeQuery : M SS (option Z) :=
  let! baseFee := Keeper_GetBaseFee info ctx in
  match baseFee with
  | None => ret None
  | Some f => let! aux := ichk f in ret (Some aux)
  end.

Definition GlobalMinGasPrice : M SS Z :=
  let! p := GetMinGasPrice info in
  let! p := dval p in ret (dTruncate p).

(** ** Calls *)

Abbreviation apply_with overrides :=
  (λ msg cfg internal, store_vm (ApplyMessageWithConfig info precompiles Contract_Address erc20Keeper ctx msg false cfg
     NewEmptyTxConfig internal overrides)).

Definition decode_overrides (o : option (outcome StateOverride))
    : outcome (option (M (EvmHost VS Contract) unit)) :=
  match o with
  | None => Ok None
  | Some (Ok diff) => Ok (Some (Apply diff))
  | Some (Err e) => Err e
  | Some (Panic w) => Panic w
  end.

Definition EthCall (req : option EthCallRequest) : M SS TxResponse :=
  with_request req (λ req, status (
    let! overrides := of_outcome (decode_overrides (ecr_Overrides req)) in
    let! args := of_outcome (ecr_Args req) in
    let! cfg := EVMConfig info BytesToAddress ctx (GetProposerAddress ctx (ecr_ProposerAddress req)) in
    let! nonce := store_vm (VmKeeper.GetNonce (GetFrom args)) in
    let! args := of_outcome (CallDefaults (ecr_GasCap req) (cfg_BaseFee cfg) ChainID
                               (ta_with_gas_nonce (ta_Gas args) (Some nonce) args)) in
    apply_with overrides (ToMessage (cfg_BaseFee cfg) args) cfg false)).

(** ** The estimation of gas *)

(** The highest limit to try, before the sender's balance is looked at. *)
Definition highest_gas (args : TransactionArgs) (gasCap : Z) : Z :=
  let hi :=
    match ta_Gas args with
    | Some gas => if gas >=? TxGas then Some gas else None
    | None => None
    end in
  let hi := match hi with
            | Some gas => gas
            | None => match MaxGas (tc_ctx ctx) with
                      | Some maxGas => if maxGas >? 0 then maxGas else gasCap
                      | None => gasCap
                      end
            end in
  if negb (gasCap =? 0) && (hi >? gasCap) then gasCap else hi.

(** The limit the balance of the sender allows.  A missing sender is a nil pointer. *)
Definition cap_by_balance (args : TransactionArgs) (msg : Message) (hi : Z) : M SS Z :=
  if msg_GasFeeCap msg =? 0 then ret hi
  else
    match ta_From args with
    | None => panic "nil pointer dereference"
    | Some from =>
        let! balance := store_vm (VmKeeper.pb (BankWrapper.SpendableCoin info (Address_Bytes from) (eci_Denom info))) in
        let! available :=
          match ta_Value args with
          | None => ret (Amount balance)
          | Some value =>
              if value >=? Amount balance
              then throw (errorf ErrInsufficientFundsForTransfer "insufficient funds for transfer")
              else let! value := ichk value in isub (Amount balance) value
          end in
        let! feeCap := ichk (msg_GasFeeCap msg) in
        let! allowance := iquo available feeCap in
        if IsUint64 allowance && (hi >? allowance) then
          if allowance <? TxGas then throw (errorf ErrInsufficientFunds "insufficient funds") else ret allowance
        else ret hi
    end.

(** With the nonce the sender will have when the transaction is executed. *)
Definition set_next_nonce (from : Address) (nonce : Z) : M VS unit :=
  let! acct := VmKeeper.GetAccount info from in
  let! acct :=
    match acct with
    | Some acct => ret acct
    | None =>
        let! acc := VmKeeper.auth (ak_NewAccountWithAddress (Address_Bytes from)) in
        VmKeeper.auth (ak_SetAccount acc) >>! ret (mkRawAccount 0 (Some 0) (Some EmptyCodeHash))
    end in
  VmKeeper.SetAccount info from (mkRawAccount (wrap u64_max (nonce + 1)) (raw_Balance acct) (raw_CodeHash acct)).

(** A run whose writes are dropped. *)
Definition in_cache {A} (m : M SS A) : M SS A := λ s, (s, (m s).2).

(** [executable], the function that is searched. *)
Definition executable (fromType : CallType) (cfg : EVMConfig_)
    (overrides : option (M (EvmHost VS Contract) unit)) (nonce : Z) (msg : Message) (gas : Z)
    : M SS (bool * option TxResponse) :=
  let msg := msg_with_gas gas msg in
  let run : M SS (bool * option TxResponse) := λ s,
    match apply_with overrides msg cfg true s with
    | (s', Ok rsp) => (s', Ok (Failed rsp, Some rsp))
    | (s', Err e) => (s', if err_is e ErrIntrinsicGas || err_is e ErrFloorDataGas then Ok (true, None) else Err e)
    | (s', Panic w) => (s', Panic w)
    end in
  match fromType with
  | RPC => in_cache (store_vm (set_next_nonce (msg_From msg) nonce) >>! run)
  | Internal => run
  end.

(** What is returned when the highest limit fails. *)
Definition estimate_failed (hi gasCap : Z) (result : option TxResponse) : M SS EstimateGasResponse :=
  let exceeds := throw (errorf ErrOther "gas required exceeds allowance") in
  if hi =? gasCap then
    match result with
    | Some result =>
        if bool_decide (VmError result ≠ OutOfGas) then
          if bool_decide (VmError result = ExecutionReverted)
          then ret (mkEstimateGasResponse 0 (Ret result) (VmError result))
          else throw (errorf ErrOther (VmError result))
        else exceeds
    | None => exceeds
    end
  else exceeds.

(** The optimistic limit, from the first execution. *)
Definition optimisticGasLimit (result : TxResponse) : Z :=
  wrap u64_max (wrap u64_max (MaxUsedGas result + CallStipend) * 64) / 63.

(** The bounds of the search: the gas of a successful execution at the highest limit,
    and one more execution with little more than it used. *)
Definition search_bounds (exec : Z → M SS (bool * option TxResponse)) (result : TxResponse) (hi : Z) : M SS (Z * Z) :=
  let lo := wrap u64_max (GasUsed result - 1) in
  let limit := optimisticGasLimit result in
  if limit <? hi then
    let! (failed, _) := exec limit in
    ret (if failed then (limit, hi) else (lo, limit))
  else ret (lo, hi).

(** The code after [executable] is defined, with fuel for the search; [None] when it
    runs out. *)
Definition estimate (fuel : nat) (exec : Z → M SS (bool * option TxResponse)) (transfer : bool) (hi gasCap : Z)
    : M SS (option EstimateGasResponse) :=
  let! short :=
    (if transfer then
       let! r := catch (exec TxGas) in
       ret (match r with inl (false, _) => true | _ => false end)
     else ret false) in
  if short then ret (Some (mkEstimateGasResponse TxGas EmptyString EmptyString))
  else
    let! (failed, result) := exec hi in
    if failed then let! r := estimate_failed hi gasCap result in ret (Some r)
    else
      match result with
      | None => panic "nil pointer dereference"
      | Some result =>
          let! (lo, hi) := search_bounds exec result hi in
          let! r := BinSearch fuel exec lo hi in
          ret ((λ gas, mkEstimateGasResponse gas EmptyString EmptyString) <$> r)
      end.

(** A message without data to an account without code. *)
Definition is_transfer (msg : Message) : M SS bool :=
  match msg_To msg with
  | Some to =>
      if bool_decide (msg_Data msg = EmptyString) then
        let! acct := store_vm (VmKeeper.GetAccountWithoutBalance to) in
        ret (match acct with None => true | Some acct => negb (HasCodeHash acct) end)
      else ret false
  | None => ret false
  end.

Definition EstimateGasInternal (fuel : nat) (req : option EthCallRequest) (fromType : CallType)
    : M SS (option EstimateGasResponse) :=
  with_request req (λ req,
    let! overrides := status (of_outcome (decode_overrides (ecr_Overrides req))) in
    if ecr_GasCap req <? TxGas then throw (errorf ErrOther "gas cap cannot be lower than 21000")
    else
      let! args := status (of_outcome (ecr_Args req)) in
      let hi := highest_gas args (ecr_GasCap req) in
      let gasCap := hi in
      let! cfg := status (EVMConfig info BytesToAddress ctx (GetProposerAddress ctx (ecr_ProposerAddress req))) in
      let! nonce := store_vm (VmKeeper.GetNonce (GetFrom args)) in
      let! args := status (of_outcome (CallDefaults (ecr_GasCap req) (cfg_BaseFee cfg) ChainID
                                         (ta_with_gas_nonce (or_zero (ta_Gas args)) (Some nonce) args))) in
      let msg := ToMessage (cfg_BaseFee cfg) args in
      let! hi := cap_by_balance args msg hi in
      let! transfer := is_transfer msg in
      estimate fuel (executable fromType cfg overrides nonce msg) transfer hi gasCap).

Definition EstimateGas (fuel : nat) (req : option EthCallRequest) : M SS (option EstimateGasResponse) :=
  EstimateGasInternal fuel req RPC.
End queries.
