(* ===== verification/VmQueryThms.v ===== *)
(** What the queries of x/vm guarantee: they write nothing, the search for a gas limit
    ends, and an estimate is a limit that was executed with success. *)

From S2P Require Import Prelude.
From S2P Require Import Sdk.
From S2P Require Import SdkAuth.
From S2P Require Import EvmDenom.
From S2P Require Import PreciseBank.
From S2P Require Import PreciseBankGenesis.
From S2P Require Import AccessList.
From S2P Require Import StateDB.
From S2P Require Import VmKeeper.
From S2P Require Import Dec.
From S2P Require Import FeeMarket.
From S2P Require Import TxFees.
From S2P Require Import AnteEvm.
From S2P Require Import AnteEvmThms.
From S2P Require Import VmParams.
From S2P Require Import Transition.
From S2P Require Import TransitionThms.
From S2P Require Import VmQuery.

(** * The search *)

(** The most rounds the search takes: each halves the interval or doubles its lower
    end. *)
Definition rounds (lo hi : Z) : Z := Z.log2_up (hi - lo) + Z.log2 hi - Z.log2 lo.

Lemma bin_mid_spec lo hi :
  1 ≤ lo → lo + 1 < hi ≤ 2 ^ 63 → bin_mid lo hi = Z.min (lo + (hi - lo) / 2) (2 * lo) ∧ lo < bin_mid lo hi < hi.
Proof.
  intros Hlo Hhi. unfold bin_mid, wrap, u64_max. rewrite (Z.mod_small (hi - lo)) by lia.
  pose proof (Z.div_mod (hi - lo) 2). pose proof (Z.mod_pos_bound (hi - lo) 2).
  rewrite !Z.mod_small by lia. destruct (Z.gtb_spec (lo + (hi - lo) / 2) (lo * 2)); lia.
Qed.

Lemma log2_up_half n k : 2 ≤ n → 0 < k → 2 * k ≤ n + 1 → Z.log2_up k + 1 ≤ Z.log2_up n.
Proof.
  intros Hn Hk Hkn. pose proof (Z.log2_up_spec n ltac:(lia)) as [_ Hle].
  assert (1 ≤ Z.log2_up n) as HL by (change 1 with (Z.log2_up 2); by apply Z.log2_up_le_mono).
  replace (Z.log2_up n) with (Z.succ (Z.log2_up n - 1)) in Hle by lia. rewrite Z.pow_succ_r in Hle by lia.
  assert (Z.log2_up k ≤ Z.log2_up (2 ^ (Z.log2_up n - 1))) as Hm by (apply Z.log2_up_le_mono; lia).
  rewrite Z.log2_up_pow2 in Hm by lia. lia.
Qed.

Lemma rounds_decrease lo hi :
  1 ≤ lo → lo + 1 < hi ≤ 2 ^ 63 →
  rounds (bin_mid lo hi) hi < rounds lo hi ∧ rounds lo (bin_mid lo hi) < rounds lo hi.
Proof.
  intros Hlo Hhi. destruct (bin_mid_spec lo hi Hlo Hhi) as [Hmid Hin]. set (mid := bin_mid lo hi) in *. clearbody mid.
  pose proof (Z.div_mod (hi - lo) 2). pose proof (Z.mod_pos_bound (hi - lo) 2). unfold rounds.
  pose proof (Z.log2_le_mono mid hi). pose proof (Z.log2_le_mono lo mid).
  pose proof (Z.log2_up_le_mono (hi - mid) (hi - lo)).
  destruct (Z.min_spec (lo + (hi - lo) / 2) (2 * lo)) as [[Hlt Hm]|[Hle Hm]]; rewrite Hm in Hmid.
  - pose proof (log2_up_half (hi - lo) (hi - mid)). pose proof (log2_up_half (hi - lo) (mid - lo)). lia.
  - pose proof (Z.log2_double lo ltac:(lia)). rewrite <- Hmid in *.
    pose proof (log2_up_half (hi - lo) (mid - lo)). lia.
Qed.

Lemma rounds_bound lo hi : 1 ≤ lo < hi → hi ≤ 2 ^ 63 → 0 ≤ rounds lo hi ≤ 126.
Proof.
  intros Hlo Hhi. unfold rounds. pose proof (Z.log2_nonneg lo). pose proof (Z.log2_le_mono lo hi ltac:(lia)).
  pose proof (Z.log2_up_nonneg (hi - lo)). assert (Z.log2_up (hi - lo) ≤ Z.log2_up (2 ^ 63)) by (apply Z.log2_up_le_mono; lia).
  assert (Z.log2 hi ≤ Z.log2 (2 ^ 63)) by (apply Z.log2_le_mono; lia).
  rewrite Z.log2_up_pow2 in * by lia. rewrite Z.log2_pow2 in * by lia. lia.
Qed.

Section search.
Context {S R : Type} (exec : Z → M S (bool * option R)).
Implicit Types (s : S) (lo hi : Z).

Lemma BinSearch_ends fuel lo hi s :
  1 ≤ lo < hi → hi ≤ 2 ^ 63 → rounds lo hi < Z.of_nat fuel → (BinSearch fuel exec lo hi s).2 ≠ Ok None.
Proof.
  revert lo hi s. induction fuel as [|fuel IH]; intros lo hi s Hlo Hhi Hf.
  { pose proof (rounds_bound lo hi Hlo Hhi). lia. }
  cbn [BinSearch]. rewrite wrap_small by (unfold u64_max; lia).
  destruct (Z.ltb_spec (lo + 1) hi) as [Hlt|]; [cbn [negb]|done]. destruct (close_enough lo hi); [done|].
  unfold bind. destruct (exec _ s) as [s1 [[failed r]|e|w]]; [|done|done].
  destruct (bin_mid_spec lo hi) as [_ Hin]; [lia..|]. destruct (rounds_decrease lo hi) as [H1 H2]; [lia..|].
  destruct failed; apply IH; lia.
Qed.

(** C13: the binary search for a gas limit ends, whatever it executes: from a positive
    lower bound and an upper bound of at most 2^63, within 127 rounds, since each round
    halves the interval or doubles its lower end.  Above 2^63 twice the lower end can
    wrap around in 64 bits, and the search need not end. *)
Theorem BinSearch_terminates fuel lo hi s :
  1 ≤ lo < hi → hi ≤ 2 ^ 63 → (127 ≤ fuel)%nat → (BinSearch fuel exec lo hi s).2 ≠ Ok None.
Proof. intros Hlo Hhi Hf. pose proof (rounds_bound lo hi Hlo Hhi). apply BinSearch_ends; lia. Qed.

(** Executions that write nothing, in the state [s]. *)
Context (s : S) (o : Z → outcome (bool * option R)) (exec_pure : ∀ gas, exec gas s = (s, o gas)).

(** A limit below which the search need not look: it failed, or it is the lower end
    given. *)
Definition fails_at lo (l : Z) : Prop := l = lo ∨ ∃ r, o l = Ok (true, r).
Definition works_at hi (g : Z) : Prop := g = hi ∨ ∃ r, o g = Ok (false, r).

Lemma BinSearch_result fuel lo hi s' g :
  1 ≤ lo < hi → hi ≤ 2 ^ 63 → BinSearch fuel exec lo hi s = (s', Ok (Some g)) →
  s' = s ∧ works_at hi g ∧ ∃ l, lo ≤ l < g ∧ fails_at lo l ∧ (g = l + 1 ∨ close_enough l g = true).
Proof.
  revert lo hi. induction fuel as [|fuel IH]; intros lo hi Hlo Hhi E; [done|].
  cbn [BinSearch] in E. rewrite wrap_small in E by (unfold u64_max; lia).
  destruct (Z.ltb_spec (lo + 1) hi) as [Hlt|]; cbn [negb] in E.
  2: { injection E as <- <-. split; [done|]. split; [by left|]. exists lo. split; [lia|]. split; [by left|]. left. lia. }
  destruct (close_enough lo hi) eqn:Hc.
  { injection E as <- <-. split; [done|]. split; [by left|]. exists lo. split; [lia|]. split; [by left|]. by right. }
  unfold bind in E. rewrite exec_pure in E. destruct (o (bin_mid lo hi)) as [[failed r]|e|w] eqn:Ho; [|done|done].
  destruct (bin_mid_spec lo hi) as [_ Hin]; [lia..|]. destruct failed; (apply IH in E; [|lia..]).
  - destruct E as (-> & Hw & l & Hl & Hf & Hg). split; [done|]. split; [done|]. exists l. split; [lia|]. split; [|done].
    destruct Hf as [->|Hf]; right; [by eexists|done].
  - destruct E as (-> & Hw & l & Hl & Hf & Hg). split; [done|]. split; [|by exists l].
    destruct Hw as [->|Hw]; right; [by eexists|done].
Qed.
End search.

(** * The estimate *)

Definition search_fuel : nat := 128.

Section estimate.
Context {B : Type}.
Context (exec : Z → M (Stores B) (bool * option TxResponse)) (s : Stores B) (o : Z → outcome (bool * option TxResponse)).
Context (exec_pure : ∀ gas, exec gas s = (s, o gas)).
(** What a successful execution used. *)
Context (limit : Z) (limit_small : limit ≤ 2 ^ 57).
Context (exec_used : ∀ gas r, gas ≤ limit → o gas = Ok (false, r) →
  ∃ rsp, r = Some rsp ∧ 2 ≤ GasUsed rsp ≤ MaxUsedGas rsp ∧ MaxUsedGas rsp ≤ gas).

Lemma optimistic_spec rsp :
  0 ≤ MaxUsedGas rsp ≤ limit →
  optimisticGasLimit rsp = (MaxUsedGas rsp + 2300) * 64 / 63 ∧ MaxUsedGas rsp < optimisticGasLimit rsp.
Proof.
  intros Hr. unfold optimisticGasLimit, wrap, u64_max, CallStipend. rewrite (Z.mod_small (MaxUsedGas rsp + 2300)) by lia.
  rewrite Z.mod_small by lia. split; [done|].
  pose proof (Z.div_mod ((MaxUsedGas rsp + 2300) * 64) 63). pose proof (Z.mod_pos_bound ((MaxUsedGas rsp + 2300) * 64) 63). lia.
Qed.

Lemma search_bounds_run rsp hi s' lo hi' :
  2 ≤ GasUsed rsp ≤ MaxUsedGas rsp → MaxUsedGas rsp ≤ hi → hi ≤ limit → o hi = Ok (false, Some rsp) →
  search_bounds exec rsp hi s = (s', Ok (lo, hi')) →
  s' = s ∧ 1 ≤ lo < hi' ∧ hi' ≤ hi ∧ (∃ r, o hi' = Ok (false, r)) ∧ (lo = GasUsed rsp - 1 ∨ ∃ r, o lo = Ok (true, r)).
Proof.
  intros Hu Hm Hl Ho. unfold search_bounds. rewrite wrap_small by (unfold u64_max; lia).
  destruct (optimistic_spec rsp) as [_ Hopt]; [lia|]. set (opt := optimisticGasLimit rsp) in *. clearbody opt.
  destruct (Z.ltb_spec opt hi) as [Hlt|].
  2: { intros [= <- <- <-]. split; [done|]. split; [lia|]. split; [lia|]. split; [by eexists|by left]. }
  unfold bind. rewrite exec_pure. destruct (o opt) as [[[] r]|e|w] eqn:Eo; [| |done|done]; intros [= <- <- <-].
  - split; [done|]. split; [lia|]. split; [lia|]. split; [by eexists|]. right. by eexists.
  - split; [done|]. split; [lia|]. split; [lia|]. split; [by eexists|by left].
Qed.

Lemma search_bounds_pure rsp hi : (search_bounds exec rsp hi s).1 = s.
Proof. unfold search_bounds. destruct (_ <? hi); [|done]. unfold bind. rewrite exec_pure. by destruct (o _) as [[]| |]. Qed.

Lemma BinSearch_pure fuel lo hi : (BinSearch fuel exec lo hi s).1 = s.
Proof.
  revert lo hi. induction fuel as [|fuel IH]; intros lo hi; [done|]. cbn [BinSearch]. destruct (negb _); [done|].
  destruct (close_enough _ _); [done|]. unfold bind. rewrite exec_pure. destruct (o _) as [[[] r]| |]; [apply IH..|done|done].
Qed.

(** The estimate [e]: a limit that works, next to one that fails, or the cost of a
    transfer. *)
Definition good_estimate (hi : Z) (e : EstimateGasResponse) : Prop :=
  (∃ r, o (est_Gas e) = Ok (false, r)) ∧
  (est_Gas e = TxGas ∨
   ∃ l, 1 ≤ l < est_Gas e ∧ ((∃ r, o l = Ok (true, r)) ∨ ∃ rsp, o hi = Ok (false, Some rsp) ∧ l = GasUsed rsp - 1) ∧
        (est_Gas e = l + 1 ∨ close_enough l (est_Gas e) = true)).

Lemma estimate_search rsp hi s' r :
  hi ≤ limit → o hi = Ok (false, Some rsp) →
  (let! (lo, hi) := search_bounds exec rsp hi in
   let! r := BinSearch search_fuel exec lo hi in
   ret ((λ gas, mkEstimateGasResponse gas EmptyString EmptyString) <$> r)) s = (s', Ok r) →
  ∃ e, r = Some e ∧ good_estimate hi e.
Proof.
  intros Hl Ho E. apply bind_Ok_inv in E as (s1 & [lo hi'] & Eb & E).
  destruct (exec_used hi (Some rsp) Hl Ho) as (rsp' & [= <-] & Hu & Hm).
  apply search_bounds_run in Eb as (-> & Hlo & Hhi & [r1 Hw] & Hf); [|done..].
  apply bind_Ok_inv in E as (s2 & g & Eg & [= <- <-]).
  pose proof (rounds_bound lo hi' Hlo ltac:(lia)). pose proof (BinSearch_ends exec search_fuel lo hi' s Hlo ltac:(lia)) as Hn.
  rewrite Eg in Hn. destruct g as [g|]; [|destruct Hn; [unfold search_fuel; lia|done]]. exists (mkEstimateGasResponse g EmptyString EmptyString).
  split; [done|]. apply (BinSearch_result _ s o exec_pure) in Eg as (_ & Hwg & l & Hlg & Hfl & Hg); [|done|lia].
  split; [destruct Hwg as [->|Hwg]; [by eexists|done]|]. right. exists l. cbn. split; [lia|]. split; [|done].
  destruct Hfl as [->|Hfl]; [|by left]. destruct Hf as [->|Hf]; [right; by exists rsp|by left].
Qed.
Lemma estimate_failed_error hi gasCap r s1 s' e :
  estimate_failed (B := B) hi gasCap r s1 = (s', Ok e) → s' = s1 ∧ est_VmError e = ExecutionReverted.
Proof.
  unfold estimate_failed. destruct (hi =? gasCap); [|done]. destruct r as [r|]; [|done].
  case_bool_decide; [|done]. case_bool_decide; [|done]. by intros [= <- <-].
Qed.

Lemma estimate_failed_pure hi gasCap r s1 : (estimate_failed (B := B) hi gasCap r s1).1 = s1.
Proof. unfold estimate_failed. destruct (_ =? _); [|done]. destruct r; [|done]. by repeat case_bool_decide. Qed.

Lemma estimate_pure fuel transfer hi gasCap : (estimate fuel exec transfer hi gasCap s).1 = s.
Proof.
  assert (∀ A (f : bool → M (Stores B) A), (∀ b, (f b s).1 = s) →
    (bind (if transfer then let! r := catch (exec TxGas) in ret (match r with inl (false, _) => true | _ => false end)
           else ret false) f s).1 = s) as Hshort.
  { intros A f Hf. destruct transfer; [|apply Hf]. unfold bind, catch. rewrite exec_pure. destruct (o TxGas) as [[]| |]; by try apply Hf. }
  apply Hshort. intros []; [done|]. unfold bind at 1. rewrite exec_pure. destruct (o hi) as [[[] r]| |]; [|  |done|done].
  - pose proof (estimate_failed_pure hi gasCap r s) as Hs. unfold bind. by destruct (estimate_failed hi gasCap r s) as [s1 []].
  - destruct r as [rsp|]; [|done]. pose proof (search_bounds_pure rsp hi) as Hb. unfold bind at 1.
    destruct (search_bounds exec rsp hi s) as [s1 [[lo hi']| |]]; cbn in Hb; subst; [|done|done].
    pose proof (BinSearch_pure fuel lo hi') as Hs. unfold bind. by destruct (BinSearch fuel exec lo hi' s) as [s1 []].
Qed.

Lemma estimate_sound transfer hi gasCap r s' :
  hi ≤ limit → estimate search_fuel exec transfer hi gasCap s = (s', Ok r) →
  ∃ e, r = Some e ∧ (est_VmError e = EmptyString → good_estimate hi e).
Proof.
  intros Hl E. unfold estimate in E. apply bind_Ok_inv in E as (s1 & short & Es & E).
  assert (s1 = s ∧ (short = true → ∃ r, o TxGas = Ok (false, r))) as [-> Hshort].
  { destruct transfer; [|by injection Es as <- <-]. unfold bind, catch in Es. rewrite exec_pure in Es.
    destruct (o TxGas) as [[[] r0]| |]; try done; injection Es as <- <-; (split; [done|]); try done. intros _. by eexists. }
  destruct short.
  { injection E as <- <-. eexists. split; [done|]. intros _. split; [by apply Hshort|by left]. }
  unfold bind at 1 in E. rewrite exec_pure in E. destruct (o hi) as [[[] res]| |] eqn:Ho; [| |done|done].
  - apply bind_Ok_inv in E as (s1 & e & [_ He]%estimate_failed_error & [= _ <-]). exists e. split; [done|]. by rewrite He.
  - destruct res as [rsp|]; [|done]. eapply estimate_search in E as (e & -> & He); [|done|done]. by exists e.
Qed.
End estimate.

(** * Calls *)

Section calls.
Context `{SdkTypesLaws, AccountKeeperLaws} {B : Type} `{!BankKeeper B, !BankKeeperLaws B}.
Context `{!AuthAccounts, !AuthKeeper B, !AuthKeeperLaws B} `{Crypto, GethAddressLaws}.
Context `{GethTxLaws, !GethConfig, DecLaws, ParamsCodec, GethParams, AddrCodec}.
Context `{GethHex, VmLibraries, StakingKeeper} {Contract : Type} `{!GethEVM (VmState B) Contract}.
Context `{!GethEVMLaws (VmState B) Contract}.
Context (info : EvmCoinInfo) (BytesToAddress : addr → Address) (HexToHash : string → Hash).
Context (precompiles : gmap Address Contract) (Contract_Address : Contract → Address).
Context (erc20Keeper : option (Address → outcome (option Contract))).
Context (ctx : TransCtx).
Abbreviation VS := (VmState B).
Abbreviation DB := (StateDB VS).
Abbreviation SS := (Stores B).
Abbreviation Host' := (EvmHost VS Contract).
Implicit Types (c : VS) (msg : Message) (cfg : EVMConfig_).
#[local] Instance calls_keeper : Keeper VS := VmKeeper.keeper info.

(** ** Overrides leave the store alone *)

Definition host_uncommitted c (h : Host') : Prop := uncommitted c (eh_db h).

Lemma eh_state_uncommitted {A} c (m : M DB A) : preserves (uncommitted c) m → preserves (host_uncommitted c) (eh_state m).
Proof. intros Hm h Hh. unfold eh_state, zoom. specialize (Hm (eh_db h) Hh). by destruct (m (eh_db h)). Qed.

Lemma SetBalance_uncommitted c a n : preserves (uncommitted c) (StateDB.SetBalance a n).
Proof.
  unfold StateDB.SetBalance, so_SetBalance, getOrNewStateObject, createObject, getStateObject, append, setStateObject.
  repeat uncommitted_step.
Qed.

Lemma SetStorage_uncommitted c a m : preserves (uncommitted c) (StateDB.SetStorage a m).
Proof.
  unfold StateDB.SetStorage, getOrNewStateObject, createObject, getStateObject, append, setStateObject.
  repeat uncommitted_step.
Qed.

Lemma SetStateOverride_uncommitted c a k v : preserves (uncommitted c) (StateDB.SetStateOverride a k v).
Proof.
  unfold StateDB.SetStateOverride, getOrNewStateObject, createObject, getStateObject, append, setStateObject.
  repeat uncommitted_step.
Qed.

Lemma Finalise_uncommitted c b : preserves (uncommitted c) (Finalise b).
Proof. unfold Finalise, clearJournalAndRefund. repeat uncommitted_step. Qed.

Lemma override_fields_uncommitted c a acc : preserves (host_uncommitted c) (override_fields a acc).
Proof.
  unfold override_fields.
  repeat (apply eh_state_uncommitted || preserves_step || apply SetNonce_uncommitted || apply SetCode_uncommitted
          || apply SetBalance_uncommitted || apply SetStorage_uncommitted || apply SetStateOverride_uncommitted).
Qed.

Lemma override_account_uncommitted c diff dirty a acc : preserves (host_uncommitted c) (override_account diff dirty a acc).
Proof.
  unfold override_account.
  repeat (preserves_step || apply override_fields_uncommitted || (apply preserves_modify; by intros ? ?)).
Qed.

Lemma override_loop_uncommitted c diff rest dirty : preserves (host_uncommitted c) (override_loop diff rest dirty).
Proof.
  revert dirty. induction rest as [|[a acc] rest IH]; intros dirty; [apply preserves_ret|]. cbn [override_loop].
  apply preserves_bind; [apply override_account_uncommitted|done].
Qed.

Lemma Apply_uncommitted c diff : preserves (host_uncommitted c) (Apply diff).
Proof.
  unfold Apply. apply preserves_bind; [apply override_loop_uncommitted|]. intros _.
  apply eh_state_uncommitted, Finalise_uncommitted.
Qed.

(** ** A message that is not committed *)

(** The overrides a request can have. *)
Definition safe_overrides (ov : option (M Host' unit)) : Prop :=
  ∀ apply c, ov = Some apply → preserves (host_uncommitted c) apply.

Lemma decode_overrides_safe o ov : decode_overrides info o = Ok ov → safe_overrides ov.
Proof.
  intros E apply c ->. unfold decode_overrides in E. destruct o as [[diff|e|w]|]; try done. injection E as <-.
  apply Apply_uncommitted.
Qed.

Abbreviation apply_with ov msg cfg internal :=
  (ApplyMessageWithConfig info precompiles Contract_Address erc20Keeper ctx msg false cfg NewEmptyTxConfig internal ov).

Lemma override_step_uncommitted c (apply : M Host' unit) (k : Host' → EVM VS Contract)
    (pre : gmap Address Contract) wrap :
  preserves (host_uncommitted c) apply →
  preserves (uncommitted c) (λ db : DB,
    match on_error apply (wrap_error wrap) (mkEvmHost pre db) with
    | (h, Ok _) => (eh_db h, Ok (k h))
    | (h, Err e) => (eh_db h, Err e)
    | (h, Panic w) => (eh_db h, Panic w)
    end).
Proof.
  intros Ha db Hdb. specialize (Ha (mkEvmHost pre db) Hdb). unfold on_error.
  by destruct (apply (mkEvmHost pre db)) as [h []].
Qed.

Lemma apply_message_uncommitted c ov msg cfg internal :
  safe_overrides ov →
  preserves (uncommitted c) (apply_message info precompiles Contract_Address erc20Keeper ctx msg false cfg
    NewEmptyTxConfig internal ov).
Proof.
  intros Hov. unfold apply_message, check_gas_limit, refund_gas, charged_gas, GetRefund, GasToRefund, Logs, dmul, dchk, to_uint64, when.
  repeat (preserves_step || apply Prepare_uncommitted || apply run_message_uncommitted).
  - eapply override_step_uncommitted. by apply Hov.
  - apply preserves_ret.
Qed.

(** A call changes nothing. *)
Lemma apply_pure ov msg cfg internal c : safe_overrides ov → (apply_with ov msg cfg internal c).1 = c.
Proof.
  intros Hov. unfold ApplyMessageWithConfig.
  pose proof (apply_message_uncommitted c ov msg cfg internal Hov (New c [] NewEmptyTxConfig)) as Hp.
  destruct (apply_message _ _ _ _ _ _ _ _ _ _ _ _) as [db r]. by destruct Hp.
Qed.

(** ** The gas of a call *)

(** Every transaction costs at least 21000 gas. *)
Context (intrinsic_base : ∀ d l a b1 b2 b3 b4 g, core_IntrinsicGas d l a b1 b2 b3 b4 = inl g → TxGas ≤ g).

Lemma apply_used ov msg cfg c c' rsp :
  safe_overrides ov → multiplier_ok cfg → msg_GasLimit msg < i64_max →
  apply_with ov msg cfg true c = (c', Ok rsp) →
  2 ≤ GasUsed rsp ≤ MaxUsedGas rsp ∧ MaxUsedGas rsp ≤ msg_GasLimit msg.
Proof.
  intros Hov Hm Hl E. unfold ApplyMessageWithConfig in E. destruct (apply_message _ _ _ _ _ _ _ _ _ _ _ _) as [dbf out] eqn:Ea.
  injection E as _ ->. unfold apply_message in Ea.
  apply bind_Ok_inv in Ea as (db0 & c0 & [= <- <-] & Ea). apply bind_Ok_inv in Ea as (db1 & evm & E1 & Ea).
  assert (uncommitted c db1) as Hdb1.
  { eapply preserves_run; [| |exact E1]; [|by split]. destruct ov as [apply|]; [|apply preserves_ret].
    eapply override_step_uncommitted. by apply Hov. }
  apply bind_Ok_inv in Ea as (db2 & [intrinsic floor] & Ec & Ea).
  apply check_gas_limit_inv in Ec as (-> & Hin & Hfl & Hgi & Hpr). apply intrinsic_base in Hgi.
  apply bind_Ok_inv in Ea as (db3 & [] & Ep & Ea). apply bind_Ok_inv in Ea as (db3' & value & Ev & Ea).
  assert (db3' = db3) as -> by by injection Ev.
  apply bind_Ok_inv in Ea as (db4 & r & Er & Ea).
  pose proof (run_message_gas _ _ _ _ _ _ _ _ (proj2 (Z.le_0_sub _ _) (proj2 Hin)) Er) as Hleft.
  assert (uncommitted c db4) as [_ Hr].
  { eapply preserves_run; [apply run_message_uncommitted| |exact Er].
    eapply preserves_run; [apply Prepare_uncommitted| |exact Ep]. done. }
  apply bind_Ok_inv in Ea as (db5 & [[mx temp] left] & Eg & Ea).
  apply refund_gas_inv in Eg as (-> & -> & -> & _); [|lia|lia|done|by intros Hp; rewrite Hp in Hpr].
  apply bind_Ok_inv in Ea as (db6 & [] & _ & Ea). apply bind_Ok_inv in Ea as (db7 & used & Eu & Ea).
  rewrite (bind_Ok Logs _ _ _ _ eq_refl) in Ea. injection Ea as _ <-. cbn [GasUsed MaxUsedGas].
  set (u := msg_GasLimit msg - er_leftoverGas r) in *. set (q := if London_at _ then _ else _) in *.
  assert (2 ≤ q) as Hq by (unfold q, RefundQuotientEIP3529, RefundQuotient; destruct (London_at _); lia).
  assert (TxGas ≤ u ≤ msg_GasLimit msg) as Hu by (unfold u; lia). unfold TxGas in *. clearbody u q.
  pose proof (Z.div_le_compat_l u 2 q ltac:(lia) ltac:(lia)). pose proof (Z.div_pos u q ltac:(lia) ltac:(lia)).
  pose proof (Z.div_mod u 2). pose proof (Z.mod_pos_bound u 2).
  apply charged_gas_inv in Eu as [_ ->]; [|done|lia|lia]. lia.
Qed.

(** ** Queries write nothing *)

Implicit Types (s : SS).

Lemma vm_reads {A} (m : M VS A) s : (∀ c, preserves (eq c) m) → preserves (eq s) (store_vm m).
Proof.
  intros Hm. apply ante_reads. intros a t <-. unfold vm, zoom. specialize (Hm (an_vm a) _ eq_refl).
  destruct (m (an_vm a)) as [c o]. cbn in *. subst c. by destruct a.
Qed.

Lemma status_reads {A} (m : M SS A) s : preserves (eq s) m → preserves (eq s) (status m).
Proof. intros Hm. apply preserves_on_error; [done|]. intros e. apply preserves_ret. Qed.

Lemma EVMConfig_reads p s : preserves (eq s) (EVMConfig info BytesToAddress ctx p).
Proof.
  unfold EVMConfig, vm_params, VmParams.GetParams. apply preserves_bind; [by intros t <-; destruct s|]. intros params.
  apply preserves_bind; [apply ante_reads; intros a; apply fee_reads; intros f; apply wrapper_params_reads|]. intros fm.
  repeat (preserves_step || apply base_fee_reads). apply preserves_ret.
Qed.

Lemma spendable_reads a d p : preserves (eq p) (BankWrapper.SpendableCoin (B := B) info a d).
Proof.
  unfold BankWrapper.SpendableCoin, PreciseBank.SpendableCoin, GetFractionalBalance, newCoin, imul, iadd, ichk.
  repeat preserves_step.
Qed.

Lemma cap_reads args msg hi s : preserves (eq s) (cap_by_balance info args msg hi).
Proof.
  unfold cap_by_balance, iquo, isub, ichk. repeat (preserves_step || (apply vm_reads; intros c)).
  apply pb_reads. intros p. apply spendable_reads.
Qed.

Lemma get_nonce_reads a c : preserves (eq c) (VmKeeper.GetNonce (B := B) a).
Proof. unfold VmKeeper.GetNonce. repeat preserves_step. Qed.

Lemma transfer_reads msg s : preserves (eq s) (is_transfer msg).
Proof.
  unfold is_transfer. repeat (preserves_step || (apply vm_reads; intros c)).
  unfold VmKeeper.GetAccountWithoutBalance, VmKeeper.GetCodeHash. repeat preserves_step.
Qed.

Abbreviation exec_at := (executable info precompiles Contract_Address erc20Keeper ctx).

Lemma executable_reads ft cfg ov nonce msg gas s : safe_overrides ov → preserves (eq s) (exec_at ft cfg ov nonce msg gas).
Proof.
  intros Hov. destruct ft; cbn [executable]; [by intros t <-|]. intros t <-.
  pose proof (vm_reads (apply_with ov (msg_with_gas gas msg) cfg true) s) as Hr.
  assert (∀ c : VS, preserves (eq c) (apply_with ov (msg_with_gas gas msg) cfg true)) as Hp.
  { intros c t <-. symmetry. by apply apply_pure. }
  specialize (Hr Hp s eq_refl). by destruct (store_vm _ s) as [s1 []].
Qed.

Lemma request_reads {R A} (req : option R) (f : R → M SS A) s :
  (∀ r, preserves (eq s) (f r)) → preserves (eq s) (with_request req f).
Proof. intros Hf. destruct req; [apply Hf|apply preserves_throw]. Qed.

Lemma outcome_reads {A T} (x : outcome A) (f : A → M SS T) s :
  (∀ a, x = Ok a → preserves (eq s) (f a)) → preserves (eq s) (bind (status (of_outcome x)) f).
Proof. intros Hf t <-. destruct x as [a|e|w]; [|done|done]. by apply (Hf a eq_refl s). Qed.

Lemma pure_run (exec : Z → M SS (bool * option TxResponse)) s :
  (∀ gas, preserves (eq s) (exec gas)) → ∀ gas, exec gas s = (s, (exec gas s).2).
Proof. intros He gas. specialize (He gas s eq_refl). destruct (exec gas s). by f_equal. Qed.

Lemma estimate_reads fuel exec transfer hi cap s :
  (∀ gas, preserves (eq s) (exec gas)) → preserves (eq s) (estimate fuel exec transfer hi cap).
Proof. intros He t <-. symmetry. apply (estimate_pure exec s (λ g, (exec g s).2)). by apply pure_run. Qed.

Abbreviation eth_call := (EthCall info BytesToAddress precompiles Contract_Address erc20Keeper ctx).
Abbreviation estimate_gas := (EstimateGasInternal info BytesToAddress precompiles Contract_Address erc20Keeper ctx).

Lemma estimate_gas_reads fuel req ft s : preserves (eq s) (estimate_gas fuel req ft).
Proof.
  unfold EstimateGasInternal. apply request_reads. intros r. apply outcome_reads. intros ov Hov%decode_overrides_safe.
  destruct (_ <? _); [apply preserves_throw|]. apply outcome_reads. intros args _.
  apply preserves_bind; [apply status_reads, EVMConfig_reads|]. intros cfg.
  apply preserves_bind; [apply vm_reads; intros c; apply get_nonce_reads|]. intros nonce.
  apply outcome_reads. intros args' _. apply preserves_bind; [apply cap_reads|]. intros hi.
  apply preserves_bind; [apply transfer_reads|]. intros transfer. apply estimate_reads. intros gas. by apply executable_reads.
Qed.

Lemma bind_outcome_reads {A T} (x : outcome A) (f : A → M SS T) s :
  (∀ a, x = Ok a → preserves (eq s) (f a)) → preserves (eq s) (bind (of_outcome x) f).
Proof. intros Hf t <-. destruct x as [a|e|w]; [|done|done]. by apply (Hf a eq_refl s). Qed.

Lemma eth_call_reads req s : preserves (eq s) (eth_call req).
Proof.
  unfold EthCall. apply request_reads. intros r. apply status_reads, bind_outcome_reads. intros ov Hov%decode_overrides_safe.
  apply bind_outcome_reads. intros args _. apply preserves_bind; [apply EVMConfig_reads|]. intros cfg.
  apply preserves_bind; [apply vm_reads; intros c; apply get_nonce_reads|]. intros nonce.
  apply bind_outcome_reads. intros args' _. apply vm_reads. intros c t <-. symmetry. by apply apply_pure.
Qed.

(** C14: the queries of accounts, balances, storage, code, fees and parameters, eth_call
    and the gas estimate write nothing, whatever they return: a call is executed without
    commit, and an estimate leaves no trace of the executions it tries, with state
    overrides or without, from the RPC or from a module.  The queries Config, TraceTx,
    TraceBlock and TraceCall are not among them. *)
Theorem queries_write_nothing s address key request fuel ft bech32 :
  (Account info address s).1 = s ∧ (CosmosAccount address s).1 = s ∧ (ValidatorAccount bech32 address s).1 = s ∧
  (BalanceQuery info address s).1 = s ∧ (StorageQuery HexToHash key s).1 = s ∧ (CodeQuery address s).1 = s ∧
  (ParamsQuery s).1 = s ∧ (BaseFeeQuery info ctx s).1 = s ∧ (GlobalMinGasPrice info s).1 = s ∧
  (eth_call request s).1 = s ∧ (estimate_gas fuel request ft s).1 = s.
Proof.
  assert (∀ A (m : M SS A), preserves (eq s) m → (m s).1 = s) as Hm by (intros A m Hp; symmetry; by apply Hp).
  split_and!; apply Hm; [..|apply eth_call_reads|apply estimate_gas_reads].
  1-6: apply request_reads; intros r.
  5: destruct r.
  1-6: apply outcome_reads; intros ? _.
  1: unfold VmKeeper.GetAccountOrEmpty.
  4: unfold VmKeeper.SpendableCoin.
  5: unfold VmKeeper.GetState.
  6: unfold VmKeeper.GetAccountWithoutBalance, VmKeeper.GetCodeHash, VmKeeper.GetCode.
  1-6: cbv zeta; repeat (preserves_step || (apply vm_reads; intros ?) || apply GetAccount_reads || (apply pb_reads; intros ?)
               || apply spendable_reads).
  - intros t <-. by destruct s.
  - unfold BaseFeeQuery, ichk. repeat (preserves_step || apply base_fee_reads).
  - unfold GlobalMinGasPrice, GetMinGasPrice, dval.
    repeat (preserves_step || (apply ante_reads; intros ?) || (apply fee_reads; intros ?) || apply wrapper_params_reads).
Qed.

(** ** The estimate is a limit that works *)

(** What is executed for a request: the message and the configuration it is built
    with, and the highest limit tried. *)
Record estimates (req : EthCallRequest) s cfg (ov : option (M Host' unit)) nonce msg hi : Prop := {
  et_overrides : decode_overrides info (ecr_Overrides req) = Ok ov;
  et_config : (EVMConfig info BytesToAddress ctx (GetProposerAddress ctx (ecr_ProposerAddress req)) s).2 = Ok cfg;
  et_args : ∃ args0 args, ecr_Args req = Ok args0 ∧
    CallDefaults (ecr_GasCap req) (cfg_BaseFee cfg) ChainID (ta_with_gas_nonce (or_zero (ta_Gas args0)) (Some nonce) args0)
      = Ok args ∧ msg = ToMessage (cfg_BaseFee cfg) args ∧ (VmKeeper.GetNonce (GetFrom args0) (an_vm (st_ante s))).2 = Ok nonce;
  et_limit : hi ≤ ecr_GasCap req
}.

Lemma cap_le args msg hi s s' hi' : cap_by_balance info args msg hi s = (s', Ok hi') → hi' ≤ hi.
Proof.
  unfold cap_by_balance. destruct (_ =? 0); [by intros [= _ <-]|]. destruct (ta_From args); [|done].
  intros (s1 & b & _ & (s2 & av & _ & (s3 & fc & _ & (s4 & al & _ & E)%bind_Ok_inv)%bind_Ok_inv)%bind_Ok_inv)%bind_Ok_inv.
  destruct (IsUint64 al); [|by injection E as _ <-]. cbn [andb] in E. destruct (Z.gtb_spec hi al); [|by injection E as _ <-].
  destruct (al <? TxGas); [done|]. injection E as _ <-. lia.
Qed.

Lemma highest_le args cap : 0 < cap → highest_gas ctx args cap ≤ cap.
Proof.
  intros Hc. unfold highest_gas. destruct (Z.eqb_spec cap 0); [lia|]. cbn [negb andb].
  match goal with |- (if ?h >? _ then _ else _) ≤ _ => destruct (Z.gtb_spec h cap) end; lia.
Qed.

Lemma executable_used ft cfg ov nonce msg s gas r :
  safe_overrides ov → multiplier_ok cfg → gas ≤ 2 ^ 57 → (exec_at ft cfg ov nonce msg gas s).2 = Ok (false, r) →
  ∃ rsp, r = Some rsp ∧ 2 ≤ GasUsed rsp ≤ MaxUsedGas rsp ∧ MaxUsedGas rsp ≤ gas.
Proof.
  intros Hov Hm Hg E. set (m := msg_with_gas gas msg).
  assert (∃ s1 s2 rsp, store_vm (apply_with ov m cfg true) s1 = (s2, Ok rsp) ∧ r = Some rsp) as (s1 & s2 & rsp & Ea & ->).
  { assert (∀ s1, (match store_vm (apply_with ov m cfg true) s1 with
      | (s', Ok rsp) => (s', Ok (Failed rsp, Some rsp))
      | (s', Err e) => (s', if err_is e ErrIntrinsicGas || err_is e ErrFloorDataGas then Ok (true, None) else Err e)
      | (s', Panic w) => (s', Panic w)
      end : SS * outcome (bool * option TxResponse)).2 = Ok (false, r) →
      ∃ s1 s2 rsp, store_vm (apply_with ov m cfg true) s1 = (s2, Ok rsp) ∧ r = Some rsp) as Hrun.
    { intros s1 E1. destruct (store_vm (apply_with ov m cfg true) s1) as [s2 [rsp|e|w]] eqn:Ea; cbn in E1; [|by case_match|done].
      injection E1 as _ <-. by eexists _, _, _. }
    destruct ft; cbn [executable in_cache snd] in E; [|by eapply Hrun].
    unfold bind in E. destruct (store_vm (set_next_nonce _ _ _) s) as [s1 [[]| |]]; [by eapply Hrun|done|done]. }
  exists rsp. split; [done|]. unfold store_vm, ante, zoom, vm, zoom in Ea. cbn in Ea.
  destruct (apply_with ov m cfg true (an_vm (st_ante s1))) as [c o] eqn:Eb. cbn in Ea. injection Ea as _ ->.
  eapply apply_used in Eb; [|done|done|cbn; unfold i64_max; lia]. exact Eb.
Qed.

(** C12: gas estimation ends and what it returns works.  For a request with a gas cap of
    at most 2^57 and valid fee market parameters, the search never runs out of its 128
    rounds.  An estimate that is returned is a gas limit at which the message of the
    request executes without failing, in the state of the query; and unless it is the
    21000 of a transfer, it is close to a limit that does not do, within the tolerance
    of the search: one that failed, or less gas than the message used at the highest
    limit. *)
Theorem EstimateGas_sound req ft s s' r fp :
  0 < ecr_GasCap req ≤ 2 ^ 57 →
  (GetParams (an_fee (st_ante s))).2 = Ok fp → Params_Validate fp = Ok tt →
  estimate_gas search_fuel (Some req) ft s = (s', Ok r) →
  ∃ e, r = Some e ∧
    (est_VmError e = EmptyString → ∃ cfg ov nonce msg hi, estimates req s cfg ov nonce msg hi ∧
       good_estimate (λ gas, (exec_at ft cfg ov nonce msg gas s).2) hi e).
Proof.
  intros Hcap Hfp Hv E. unfold EstimateGasInternal in E. cbn [with_request] in E.
  apply bind_Ok_inv in E as (s1 & ov & Eov & E). apply on_error_Ok_inv in Eov. injection Eov as <- Hov.
  destruct (_ <? TxGas); [done|]. apply bind_Ok_inv in E as (s1 & args0 & Ea & E). apply on_error_Ok_inv in Ea.
  injection Ea as <- Hargs. apply bind_Ok_inv in E as (s1 & cfg & Ec%on_error_Ok_inv & E).
  destruct (EVMConfig_inv _ _ _ _ _ _ _ Ec) as (-> & _ & Hw).
  apply bind_Ok_inv in E as (s1 & nonce & En & E).
  pose proof (preserves_run (eq s) _ s s1 _ (vm_reads (VmKeeper.GetNonce (GetFrom args0)) s (get_nonce_reads _)) eq_refl En) as <-.
  apply bind_Ok_inv in E as (s1 & args & Ed & E). apply on_error_Ok_inv in Ed. injection Ed as <- Hdef.
  set (msg := ToMessage (cfg_BaseFee cfg) args) in *.
  apply bind_Ok_inv in E as (s1 & hi & Ehi & E). pose proof (preserves_run (eq s) _ s s1 _ (cap_reads args msg _ s) eq_refl Ehi) as <-.
  apply cap_le in Ehi. pose proof (highest_le args0 (ecr_GasCap req) ltac:(lia)).
  apply bind_Ok_inv in E as (s1 & tr & Etr & E). pose proof (preserves_run (eq s) _ s s1 _ (transfer_reads msg s) eq_refl Etr) as <-.
  pose proof (decode_overrides_safe _ _ Hov) as Hsafe.
  apply (estimate_sound _ s (λ gas, (exec_at ft cfg ov nonce msg gas s).2)) with (limit := 2 ^ 57) in E as (e & -> & He); [|..].
  - exists e. split; [done|]. intros Hvm. exists cfg, ov, nonce, msg, hi. split; [|by apply He].
    split; [done|by rewrite Ec| |lia]. exists args0, args. split_and!; try done.
    unfold store_vm, ante, vm, zoom in En. destruct (VmKeeper.GetNonce _ _) as [c o]. cbn in En. by injection En as _ ->.
  - apply pure_run. intros gas. by apply executable_reads.
  - lia.
  - intros gas r0 Hg Hr. eapply executable_used in Hr; try done. by eapply multiplier_kept.
  - lia.
Qed.
End calls.
