(* ===== verification/VmQueryWit.v ===== *)
(** Queries on the concrete chain of TransitionWit.v. *)

From S2P Require Import Prelude.
From S2P Require Import Sdk.
From S2P Require Import SdkAuth.
From S2P Require Import EvmDenom.
From S2P Require Import SdkModel.
From S2P Require Import PreciseBankWit.
From S2P Require Import StateDB.
From S2P Require Import StateDBWit.
From S2P Require Import SdkAuthModel.
From S2P Require Import VmKeeper.
From S2P Require Import VmKeeperWit.
From S2P Require Import Dec.
From S2P Require Import FeeMarket.
From S2P Require Import FeeMarketWit.
From S2P Require Import TxFees.
From S2P Require Import TxFeesWit.
From S2P Require Import AnteEvm.
From S2P Require Import AnteEvmWit.
From S2P Require Import VmParams.
From S2P Require Import Transition.
From S2P Require Import TransitionWit.
From S2P Require Import AnteCosmosWit.
From S2P Require Import VmQuery.
From S2P Require Import VmQueryThms.

(** A call with data from account 7 to 9, with a cap of a million. *)
Definition q_args (from : option Z) (price : option Z) : TransactionArgs :=
  mkTransactionArgs from (Some 9) None price None None None None None (Some "data") None None None.
Definition q_request (from price : option Z) : EthCallRequest :=
  mkEthCallRequest (Ok (q_args from price)) 1000000 EmptyString None.
Definition q_run (req : EthCallRequest) :=
  EstimateGasInternal info6 w_BytesToAddress (∅ : gmap Z unit) (λ _, 0) None t_ctx search_fuel (Some req) RPC t_stores.

Lemma q_intrinsic d l a b1 b2 b3 b4 g : core_IntrinsicGas d l a b1 b2 b3 b4 = inl g → TxGas ≤ g.
Proof. intros [= <-]. by destruct b1. Qed.

(** The first execution uses 510500 gas, and the second, with 520939, works too; the
    search stops after one more. *)
Definition q_estimate : EstimateGasResponse := mkEstimateGasResponse 515719 EmptyString EmptyString.

Lemma q_estimated : q_run (q_request (Some 7) None) = (t_stores, Ok (Some q_estimate)).
Proof.
  assert ((q_run (q_request (Some 7) None)).2 = Ok (Some q_estimate)) as E by (vm_compute; reflexivity).
  pose proof (estimate_gas_reads info6 w_BytesToAddress (∅ : gmap Z unit) (λ _, 0) None t_ctx search_fuel
    (Some (q_request (Some 7) None)) RPC t_stores t_stores eq_refl) as Hs.
  unfold q_run in *. destruct (EstimateGasInternal _ _ _ _ _ _ _ _ _ _) as [s1 o]. cbn in E, Hs. by subst.
Qed.

Lemma q_params_valid : Params_Validate e_params = Ok tt.
Proof. reflexivity. Qed.

Lemma EstimateGas_sound_witness :
  ∃ cfg nonce msg rsp,
    (executable info6 (∅ : gmap Z unit) (λ _, 0) None t_ctx RPC cfg None nonce msg 515719 t_stores).2 = Ok (false, rsp).
Proof.
  pose proof (EstimateGas_sound info6 w_BytesToAddress (∅ : gmap Z unit) (λ _, 0) None t_ctx q_intrinsic
    (q_request (Some 7) None) RPC t_stores t_stores (Some q_estimate) e_params) as W.
  specialize (W ltac:(split; reflexivity || discriminate) c_params q_params_valid q_estimated).
  destruct W as (e & [= <-] & He). destruct (He eq_refl) as (cfg & ov & nonce & msg & hi & [Hov _ _ _] & [Hw _]).
  injection Hov as <-. destruct Hw as [rsp Hr]. exists cfg, nonce, msg, rsp. exact Hr.
Defined.

(** 21000 is the least limit this execution accepts. *)
Definition q_exec (gas : Z) : M unit (bool * option unit) := ret (gas <? 21000, None).

Lemma BinSearch_terminates_witness :
  (BinSearch 127 q_exec 1 (2 ^ 63) tt).2 ≠ Ok None ∧ (BinSearch 127 q_exec 1 (2 ^ 63) tt).2 = Ok (Some 21248).
Proof.
  split; [|vm_compute; reflexivity].
  apply (BinSearch_terminates q_exec 127 1 (2 ^ 63) tt); [split; reflexivity || discriminate|reflexivity || discriminate|constructor].
Defined.

(** The search never ends from a lower bound of zero: twice zero is zero, so the
    same limit is tried again and again as long as it fails. *)
Theorem search_from_zero_loops fuel :
  (BinSearch (R := unit) fuel (λ _, ret (true, None)) 0 21000 tt).2 = Ok None.
Proof. induction fuel as [|fuel IH]; [done|]. exact IH. Qed.

(** Nor does it end above 2^63: twice the lower bound wraps around to zero, zero is
    tried and becomes the lower bound. *)
Theorem search_above_2_63_loops fuel :
  (BinSearch (R := unit) fuel (λ _, ret (true, None)) (2 ^ 63) (2 ^ 64 - 1) tt).2 = Ok None.
Proof.
  assert (∀ n, (BinSearch (R := unit) n (λ _, ret (true, None)) 0 (2 ^ 64 - 1) tt).2 = Ok None) as Hzero.
  { induction n as [|n IH]; [done|exact IH]. }
  destruct fuel as [|fuel]; [done|exact (Hzero fuel)].
Qed.

(** A request with a gas price and no sender makes the estimation panic: the
    balance of the sender is looked up through the nil pointer. *)
Theorem estimate_without_sender_panics :
  (q_run (q_request None (Some 5))).2 = Panic "nil pointer dereference" ∧
  (q_run (q_request (Some 7) None)).2 = Ok (Some q_estimate).
Proof. vm_compute. split; reflexivity. Qed.

Lemma queries_write_nothing_witness :
  (EthCall info6 w_BytesToAddress (∅ : gmap Z unit) (λ _, 0) None t_ctx (Some (q_request (Some 7) None)) t_stores).1 = t_stores.
Proof.
  pose proof (queries_write_nothing info6 w_BytesToAddress (λ _, 0) (∅ : gmap Z unit) (λ _, 0) None t_ctx t_stores None None
    (Some (q_request (Some 7) None)) 1 RPC Ok) as W.
  destruct W as (_ & _ & _ & _ & _ & _ & _ & _ & _ & E & _). exact E.
Defined.
