(* ===== verification/Erc20Denoms.v ===== *)
(** Denominations and names of x/erc20: the sanitising of token names
    (x/erc20/types/utils.go), the denominations of native ERC-20 tokens
    (x/erc20/types/proposal.go), the addresses of IBC vouchers (utils/utils.go) and
    the coins of a packet (ibc/utils.go).  Strings are byte strings, as in Go. *)

From S2P Require Import Prelude.
From S2P Require Import Sdk.
From S2P Require Import AccessList.
From S2P Require Import StateDB.
From S2P Require Import VmParams.
From S2P Require Import Precompile.
From Equations Require Import Equations.

(** * Characters *)

Definition code (c : Ascii.ascii) : Z := Z.of_N (Ascii.N_of_ascii c).
Definition between (lo hi : Z) (c : Ascii.ascii) : bool := (lo <=? code c) && (code c <=? hi).
Definition is_digit : Ascii.ascii → bool := between 48 57.
Definition is_letter (c : Ascii.ascii) : bool := between 65 90 c || between 97 122 c.

(** The class [a-zA-Z0-9/:-]. *)
Definition is_name_char (c : Ascii.ascii) : bool :=
  is_letter c || is_digit c || (code c =? 47) || (code c =? 58) || (code c =? 45).

(** [strings.HasPrefix], [s[n:]] and [s[:n]]. *)
Abbreviation HasPrefix s p := (String.prefix p s).
Fixpoint str_drop (n : nat) (s : string) : string :=
  match n, s with
  | O, _ => s
  | S n, String _ r => str_drop n r
  | S _, EmptyString => EmptyString
  end.
Fixpoint str_take (n : nat) (s : string) : string :=
  match n, s with
  | O, _ => EmptyString
  | S n, String c r => String c (str_take n r)
  | S _, EmptyString => EmptyString
  end.

(** * Names of tokens *)

(** Deletes what [(?m)^(\d+)] matches: the digits at the start of each line.
    [start] says whether the position is the start of a line or follows only
    deleted digits. *)
Fixpoint delete_leading (start : bool) (s : string) : string :=
  match s with
  | EmptyString => EmptyString
  | String c r =>
      if start && is_digit c then delete_leading true r
      else String c (delete_leading (code c =? 10) r)
  end.

Definition removeLeadingNumbers (str : string) : string := delete_leading true str.

Fixpoint delete_others (s : string) : string :=
  match s with
  | EmptyString => EmptyString
  | String c r => if is_name_char c then String c (delete_others r) else delete_others r
  end.

(** Deletes what [^[^A-Za-z]|[^a-zA-Z0-9/:-]] matches: the caret is the start of
    the text, so the first alternative concerns the first character alone.  Each
    byte of a character outside ASCII is outside both classes. *)
Definition removeSpecialChars (str : string) : string :=
  match str with
  | EmptyString => EmptyString
  | String c r => if is_letter c then String c (delete_others r) else delete_others r
  end.

Lemma str_drop_length n s : String.length (str_drop n s) = (String.length s - n)%nat.
Proof. revert s. induction n as [|n IH]; intros []; cbn; [lia..|apply IH]. Qed.

Lemma prefix_nonempty c p s : HasPrefix s (String c p) = true → (0 < String.length s)%nat.
Proof. destruct s; cbn; [done|lia]. Qed.

#[local] Arguments str_drop : simpl never.

(** A boolean with the equation that says which it is. *)
Definition inspect {A} (a : A) : {b | a = b} := exist _ a eq_refl.

Equations removeInvalidPrefixes (str : string) : string by wf (String.length str) lt :=
  removeInvalidPrefixes str with inspect (HasPrefix str "ibc/") => {
    | exist _ true E => removeInvalidPrefixes (str_drop 4 str)
    | exist _ false _ with inspect (HasPrefix str "erc20/") => {
        | exist _ true E => removeInvalidPrefixes (str_drop 6 str)
        | exist _ false _ with inspect (HasPrefix str "erc20:") => {
            | exist _ true E => removeInvalidPrefixes (str_drop 6 str)
            | exist _ false _ => str
          }
      }
  }.
Next Obligation. rewrite str_drop_length. apply prefix_nonempty in E. lia. Qed.
Next Obligation. rewrite str_drop_length. apply prefix_nonempty in E. lia. Qed.
Next Obligation. rewrite str_drop_length. apply prefix_nonempty in E. lia. Qed.

Definition SanitizeERC20Name (name : string) : string :=
  let name := removeLeadingNumbers name in
  let name := removeSpecialChars name in
  let name := if (128 <? Z.of_nat (String.length name)) then str_take 128 name else name in
  removeInvalidPrefixes name.

(** The metadata of a coin in x/bank. *)
Record DenomUnit : Type := mkDenomUnit { du_Denom : string; du_Exponent : Z; du_Aliases : list string }.
Record Metadata : Type := mkMetadata {
  md_Description : string;
  md_DenomUnits : list DenomUnit;
  md_Base : string;
  md_Display : string;
  md_Name : string;
  md_Symbol : string
}.

(** Both loops stop at the first difference; the lists have one length there. *)
Fixpoint EqualStringSlice (aliasesA aliasesB : list string) : bool :=
  match aliasesA, aliasesB with
  | [], [] => true
  | a :: l, b :: k => if bool_decide (a ≠ b) then false else EqualStringSlice l k
  | _, _ => false
  end.

Fixpoint equal_units (a b : list DenomUnit) : outcome unit :=
  match a, b with
  | v :: l, u :: k =>
      if negb (du_Exponent v =? du_Exponent u) || bool_decide (du_Denom v ≠ du_Denom u)
         || negb (EqualStringSlice (du_Aliases v) (du_Aliases u))
      then Err (errorf ErrOther "metadata provided has different denom unit from stored")
      else equal_units l k
  | _, _ => Ok tt
  end.

Definition EqualMetadata (a b : Metadata) : outcome unit :=
  if bool_decide (md_Base a = md_Base b) && bool_decide (md_Description a = md_Description b)
     && bool_decide (md_Display a = md_Display b) && bool_decide (md_Name a = md_Name b)
     && bool_decide (md_Symbol a = md_Symbol b)
  then
    if negb (length (md_DenomUnits a) =? length (md_DenomUnits b))%nat
    then Err (errorf ErrOther "metadata provided has different denom units from stored")
    else equal_units (md_DenomUnits a) (md_DenomUnits b)
  else Err (errorf ErrOther "metadata provided is different from stored").

(** * Denominations *)

Definition Erc20NativeCoinDenomPrefix : string := "erc20:".

Definition CreateDenomDescription (address : string) : string :=
  String.append "Cosmos coin token representation of " address.
Definition CreateDenom (address : string) : string := String.append Erc20NativeCoinDenomPrefix address.

(** [utils.Bytes32ToString]: what comes before the first zero byte. *)
Fixpoint Bytes32ToString (data : bytes) : string :=
  match data with
  | EmptyString => EmptyString
  | String c r => if code c =? 0 then EmptyString else String c (Bytes32ToString r)
  end.

(** [strings.TrimSpace(s) == EmptyString]: only white space, which Unicode also has outside
    ASCII: U+0085, U+00A0, U+1680, U+2000 to U+200A, U+2028, U+2029, U+202F, U+205F
    and U+3000. *)
Definition ascii_space (b : Z) : bool := ((9 <=? b) && (b <=? 13)) || (b =? 32).
Definition wide_space (b c d : Z) : bool :=
  ((b =? 0xE1) && (c =? 0x9A) && (d =? 0x80))
  || ((b =? 0xE2) && (c =? 0x80) && (((0x80 <=? d) && (d <=? 0x8A)) || (d =? 0xA8) || (d =? 0xA9) || (d =? 0xAF)))
  || ((b =? 0xE2) && (c =? 0x81) && (d =? 0x9F))
  || ((b =? 0xE3) && (c =? 0x80) && (d =? 0x80)).
Fixpoint only_space (s : string) : bool :=
  match s with
  | EmptyString => true
  | String b r =>
      if ascii_space (code b) then only_space r
      else match r with
           | String c r' =>
               if (code b =? 0xC2) && ((code c =? 0x85) || (code c =? 0xA0)) then only_space r'
               else match r' with
                    | String d r'' => wide_space (code b) (code c) (code d) && only_space r''
                    | EmptyString => false
                    end
           | EmptyString => false
           end
  end.

(** Code of ibc-go: the hash in a voucher's denomination, and the denominations of
    ICS-20 packets with the hops they came by. *)
Record Hop : Type := mkHop { PortId : string; ChannelId : string }.
Record IbcDenom : Type := mkIbcDenom { Base : string; Trace : list Hop }.
Record Packet : Type := mkPacket {
  SourcePort : string;
  SourceChannel : string;
  DestinationPort : string;
  DestinationChannel : string;
  Data : bytes
}.
Record FungibleTokenPacketData : Type := mkPacketData {
  ftp_Denom : string;
  ftp_Amount : string;
  ftp_Sender : string;
  ftp_Receiver : string
}.

Class IbcTransfer : Type := {
  ParseHexHash : string → outcome bytes;
  ExtractDenomFromPath : string → IbcDenom;
  IBCDenom : IbcDenom → string;
  Denom_HasPrefix : IbcDenom → string → string → bool;
  UnmarshalPacketData : bytes → outcome FungibleTokenPacketData
}.

Section denoms.
Context `{SdkTypes, GethHex, SdkEvents, IbcTransfer}.

(** [utils.ValidateAddress]. *)
Definition ValidateAddress (address : string) : outcome unit :=
  if IsHexAddress address then Ok tt
  else Err (errorf ErrInvalidAddress "address is not a valid ethereum hex address").

Definition ValidateErc20Denom (denom : string) : outcome unit :=
  if HasPrefix denom Erc20NativeCoinDenomPrefix then
    let trimmed := str_drop (String.length Erc20NativeCoinDenomPrefix) denom in
    if (String.length trimmed =? 0)%nat then Err (errorf ErrOther "invalid denom: missing address after prefix")
    else ValidateAddress trimmed
  else Err (errorf ErrOther "invalid denom: denomination should be prefixed with erc20:").

(** [utils.GetIBCDenomAddress]. *)
Definition GetIBCDenomAddress (denom : string) : outcome Address :=
  if negb (HasPrefix denom "ibc/") then Err (errorf ErrInvalidDenomForTransfer "coin does not have ibc/ prefix")
  else if (Z.of_nat (String.length denom) <? 5) || only_space (str_drop 4 denom)
  then Err (errorf ErrInvalidDenomForTransfer "coin is not a valid IBC voucher hash")
  else match ParseHexHash (str_drop 4 denom) with
       | Ok bz => Ok (BytesToAddress bz)
       | Err e => Err (errorf ErrInvalidDenomForTransfer (err_text e))
       | Panic w => Panic w
       end.

(** A coin whose amount did not parse holds the zero [math.Int], a nil pointer. *)
Record RawCoin : Type := mkRawCoin { rc_Denom : denom; rc_Amount : option Z }.

Definition GetTransferAmount (packet : Packet) : outcome string :=
  match UnmarshalPacketData (Data packet) with
  | Ok data =>
      if bool_decide (ftp_Amount data = EmptyString) then Err (errorf ErrInvalidCoins "empty amount")
      else match NewIntFromString (ftp_Amount data) with
           | Some _ => Ok (ftp_Amount data)
           | None => Err (errorf ErrInvalidCoins "invalid amount")
           end
  | Err _ => Err (errorf ErrUnknownRequest "cannot unmarshal ICS-20 transfer packet data")
  | Panic w => Panic w
  end.

Definition GetReceivedCoin (packet : Packet) (denom : IbcDenom) (amount : string) : RawCoin :=
  let amountInt := NewIntFromString amount in
  if Denom_HasPrefix denom (SourcePort packet) (SourceChannel packet)
  then mkRawCoin (IBCDenom (mkIbcDenom (Base denom) (tail (Trace denom)))) amountInt
  else
    let hop := [mkHop (DestinationPort packet) (DestinationChannel packet)] in
    mkRawCoin (IBCDenom (mkIbcDenom (Base denom) (hop ++ Trace denom))) amountInt.

Definition GetSentCoin (rawDenom rawAmt : string) : RawCoin :=
  mkRawCoin (IBCDenom (ExtractDenomFromPath rawDenom)) (NewIntFromString rawAmt).

Definition DeriveDecimalsFromDenom (baseDenom : string) : outcome Z :=
  match baseDenom with
  | EmptyString => Err (errorf ErrOther "Base denom cannot be an empty string")
  | String c _ =>
      if code c =? 117 then Ok 6 else if code c =? 97 then Ok 18
      else Err (errorf ErrOther "Should be either micro or atto")
  end.
End denoms.

Example sanitize_example : SanitizeERC20Name "12erc20:ibc/My Tok#en-1" = "MyToken-1".
Proof. vm_compute. reflexivity. Qed.
