(* ===== verification/Erc20.v ===== *)
(** The keeper of x/erc20: token pairs (token_pairs.go), allowances (allowance.go),
    parameters (params.go), the gate before conversions (mint.go) and the
    registration of token precompiles (precompiles.go, dynamic_precompiles.go), with
    the types of x/erc20/types. *)

From S2P Require Import Prelude.
From S2P Require Import Sdk.
From S2P Require Import AccessList.
From S2P Require Import StateDB.
From S2P Require Import AnteEvm.
From S2P Require Import VmParams.
From S2P Require Import Precompile.
From S2P Require Import Transition.
From S2P Require Import Erc20Denoms.

(** * Token pairs and allowances *)

(** An enumeration of a protobuf message holds any number. *)
Inductive Owner : Type :=
  | OWNER_UNSPECIFIED
  | OWNER_MODULE
  | OWNER_EXTERNAL
  | OWNER_UNKNOWN (n : Z).

#[global] Instance Owner_eq_dec : EqDecision Owner.
Proof. solve_decision. Defined.

Record TokenPair : Type := mkTokenPair {
  Erc20Address : string;
  tp_Denom : string;
  Enabled : bool;
  ContractOwner : Owner
}.

#[global] Instance TokenPair_eq_dec : EqDecision TokenPair.
Proof. solve_decision. Defined.

(** [TokenPair{}], which is encoded as the empty byte string. *)
Definition zero_pair : TokenPair := mkTokenPair EmptyString EmptyString false OWNER_UNSPECIFIED.

Record Allowance : Type := mkAllowance {
  al_Erc20Address : string;
  al_Owner : string;
  al_Spender : string;
  al_Value : Z
}.

(** [tmhash.Sum]. *)
Class TmHash : Type := { tmhash_Sum : string → string }.

Section types.
Context `{SdkTypes, GethHex, SdkEvents, IbcTransfer, TmHash}.

Definition NewTokenPairSTRv2 (denom : string) : outcome TokenPair :=
  match GetIBCDenomAddress denom with
  | Ok address => Ok (mkTokenPair (Address_String address) denom true OWNER_MODULE)
  | Err e => Err e
  | Panic w => Panic w
  end.

Definition NewTokenPair (erc20Address : Address) (denom : string) (contractOwner : Owner) : TokenPair :=
  mkTokenPair (Address_String erc20Address) denom true contractOwner.

Definition GetID (tp : TokenPair) : string :=
  tmhash_Sum (String.append (Erc20Address tp) (String.append "|" (tp_Denom tp))).
Definition GetERC20Contract (tp : TokenPair) : Address := HexToAddress (Erc20Address tp).

Definition TokenPair_Validate (tp : TokenPair) : outcome unit :=
  if negb (valid_denom (tp_Denom tp)) then Err (errorf ErrOther "invalid denom")
  else ValidateAddress (Erc20Address tp).

Definition IsNativeCoin (tp : TokenPair) : bool := bool_decide (ContractOwner tp = OWNER_MODULE).
Definition IsNativeERC20 (tp : TokenPair) : bool := bool_decide (ContractOwner tp = OWNER_EXTERNAL).

Definition NewAllowance {S} (erc20 owner spender : Address) (value : Z) : M S Allowance :=
  let! v := ichk value in
  ret (mkAllowance (Address_String erc20) (Address_String owner) (Address_String spender) v).

Definition Allowance_Validate (a : Allowance) : outcome unit :=
  if negb (IsHexAddress (al_Erc20Address a)) then Err (errorf ErrInvalidAddress "invalid erc20 hex address")
  else if negb (IsHexAddress (al_Owner a)) then Err (errorf ErrInvalidAddress "invalid owner hex address")
  else if negb (IsHexAddress (al_Spender a)) then Err (errorf ErrInvalidAddress "invalid sender hex address")
  else if al_Value a <=? 0 then Err (errorf ErrInvalidAllowance "invalid allowance value")
  else Ok tt.
End types.

(** * State *)

(** The store: one field per key prefix.  The key of an allowance is the bytes of
    three addresses of fixed length. *)
Record Erc20Store : Type := mkErc20Store {
  es_pairs : gmap string TokenPair;
  es_byERC20 : gmap Address string;
  es_byDenom : gmap string string;
  es_allowances : gmap (Address * Address * Address) Allowance;
  es_native : gset string;
  es_dynamic : gset string;
  es_EnableErc20 : bool;
  es_PermissionlessRegistration : bool
}.

Definition empty_store : Erc20Store := mkErc20Store ∅ ∅ ∅ ∅ ∅ ∅ false false.

Record Erc20Params : Type := mkErc20Params { EnableErc20 : bool; PermissionlessRegistration : bool }.

Definition DefaultErc20Params : Erc20Params := mkErc20Params true true.

Definition set_pairs (m : gmap string TokenPair) (s : Erc20Store) : Erc20Store :=
  mkErc20Store m (es_byERC20 s) (es_byDenom s) (es_allowances s) (es_native s) (es_dynamic s) (es_EnableErc20 s)
    (es_PermissionlessRegistration s).
Definition set_byERC20 (m : gmap Address string) (s : Erc20Store) : Erc20Store :=
  mkErc20Store (es_pairs s) m (es_byDenom s) (es_allowances s) (es_native s) (es_dynamic s) (es_EnableErc20 s)
    (es_PermissionlessRegistration s).
Definition set_byDenom (m : gmap string string) (s : Erc20Store) : Erc20Store :=
  mkErc20Store (es_pairs s) (es_byERC20 s) m (es_allowances s) (es_native s) (es_dynamic s) (es_EnableErc20 s)
    (es_PermissionlessRegistration s).
Definition set_allowances (m : gmap (Address * Address * Address) Allowance) (s : Erc20Store) : Erc20Store :=
  mkErc20Store (es_pairs s) (es_byERC20 s) (es_byDenom s) m (es_native s) (es_dynamic s) (es_EnableErc20 s)
    (es_PermissionlessRegistration s).
Definition set_native (x : gset string) (s : Erc20Store) : Erc20Store :=
  mkErc20Store (es_pairs s) (es_byERC20 s) (es_byDenom s) (es_allowances s) x (es_dynamic s) (es_EnableErc20 s)
    (es_PermissionlessRegistration s).
Definition set_dynamic (x : gset string) (s : Erc20Store) : Erc20Store :=
  mkErc20Store (es_pairs s) (es_byERC20 s) (es_byDenom s) (es_allowances s) (es_native s) x (es_EnableErc20 s)
    (es_PermissionlessRegistration s).
Definition setERC20Enabled (enable : bool) (s : Erc20Store) : Erc20Store :=
  mkErc20Store (es_pairs s) (es_byERC20 s) (es_byDenom s) (es_allowances s) (es_native s) (es_dynamic s) enable
    (es_PermissionlessRegistration s).
Definition SetPermissionlessRegistration (permissionless : bool) (s : Erc20Store) : Erc20Store :=
  mkErc20Store (es_pairs s) (es_byERC20 s) (es_byDenom s) (es_allowances s) (es_native s) (es_dynamic s)
    (es_EnableErc20 s) permissionless.

(** * Operations on the store *)

(** Keys in the order of the store's iterators. *)
Definition key_leb (x y : Address * Address * Address) : bool :=
  let '(a, b, c) := x in let '(a', b', c') := y in
  (a <? a') || ((a =? a') && ((b <? b') || ((b =? b') && (c <=? c')))).
Definition string_leb (x y : string) : bool := String.leb x y.

Section store.
Context `{SdkTypes, GethHex, SdkEvents, IbcTransfer, TmHash}.
Abbreviation ST := Erc20Store.

(** [len(id) == 0] of a value of the store; a missing entry is nil. *)
Definition no_id (id : option string) : bool := bool_decide (default EmptyString id = EmptyString).

Definition SetParams_store (newParams : Erc20Params) (s : ST) : ST :=
  SetPermissionlessRegistration (PermissionlessRegistration newParams) (setERC20Enabled (EnableErc20 newParams) s).
Definition GetParams_store (s : ST) : Erc20Params :=
  mkErc20Params (es_EnableErc20 s) (es_PermissionlessRegistration s).

Definition IsERC20Registered (s : ST) (erc20 : Address) : bool := bool_decide (is_Some (es_byERC20 s !! erc20)).
Definition IsDenomRegistered (s : ST) (denom : string) : bool := bool_decide (is_Some (es_byDenom s !! denom)).
Definition IsTokenPairRegistered (s : ST) (id : string) : bool := bool_decide (is_Some (es_pairs s !! id)).

Definition GetTokenPairID (s : ST) (token : string) : option string :=
  if IsHexAddress token then es_byERC20 s !! HexToAddress token else es_byDenom s !! token.

Definition GetTokenPair (s : ST) (id : option string) : option TokenPair :=
  match id with
  | None => None
  | Some id =>
      match es_pairs s !! id with
      | Some p => if bool_decide (p = zero_pair) then None else Some p
      | None => None
      end
  end.

(** The pair of a token, as [MintingEnabled] and others look it up. *)
Definition find_pair (s : ST) (token : string) : option TokenPair :=
  let id := GetTokenPairID s token in
  if no_id id then None else GetTokenPair s id.

Definition SetTokenPair (pair : TokenPair) (s : ST) : ST := set_pairs (<[GetID pair := pair]> (es_pairs s)) s.
Definition SetERC20Map (erc20 : Address) (id : string) (s : ST) : ST := set_byERC20 (<[erc20 := id]> (es_byERC20 s)) s.
Definition SetDenomMap (denom id : string) (s : ST) : ST := set_byDenom (<[denom := id]> (es_byDenom s)) s.

Definition SetToken (pair : TokenPair) : M ST unit :=
  let! s := gets id in
  if IsDenomRegistered s (tp_Denom pair)
  then throw (errorf ErrTokenPairAlreadyExists "token already exists for denom")
  else if IsERC20Registered s (GetERC20Contract pair)
  then throw (errorf ErrTokenPairAlreadyExists "token already exists for token")
  else
    modify (SetTokenPair pair) >>!
    modify (SetDenomMap (tp_Denom pair) (GetID pair)) >>!
    modify (SetERC20Map (GetERC20Contract pair) (GetID pair)).

(** The keys of the allowances of a token, then their deletion one by one. *)
Definition deleteAllowances (erc20 : Address) (s : ST) : ST :=
  let keys := filter (λ k, k.1.1 = erc20) (merge_sort key_leb (map_to_list (es_allowances s)).*1) in
  set_allowances (foldl (λ m k, delete k m) (es_allowances s) keys) s.

Definition DeleteTokenPair (pair : TokenPair) (s : ST) : ST :=
  let s := set_pairs (delete (GetID pair) (es_pairs s)) s in
  let s := set_byERC20 (delete (GetERC20Contract pair) (es_byERC20 s)) s in
  let s := set_byDenom (delete (tp_Denom pair) (es_byDenom s)) s in
  deleteAllowances (GetERC20Contract pair) s.

Definition GetTokenPairs (s : ST) : list TokenPair :=
  (merge_sort (λ x y, string_leb x.1 y.1) (map_to_list (es_pairs s))).*2.

Definition GetCoinAddress (s : ST) (denom : string) : outcome Address :=
  let id := es_byDenom s !! denom in
  if no_id id then GetIBCDenomAddress denom
  else match GetTokenPair s id with
       | Some p => Ok (GetERC20Contract p)
       | None => Err (errorf ErrTokenPairNotFound "coin not registered")
       end.

Definition GetTokenDenom (s : ST) (tokenAddress : Address) : outcome string :=
  let id := es_byERC20 s !! tokenAddress in
  if no_id id then Err (errorf ErrTokenPairNotFound "token not registered")
  else match GetTokenPair s id with
       | Some p => Ok (tp_Denom p)
       | None => Err (errorf ErrTokenPairNotFound "token not registered")
       end.

(** ** Allowances *)

Definition GetAllowance (s : ST) (erc20 owner spender : Address) : Z :=
  match es_allowances s !! (erc20, owner, spender) with
  | None => 0
  | Some allowance => al_Value allowance
  end.

(** A nil value is [None]. *)
Definition setAllowance (erc20 owner spender : Address) (value : option Z) (allowDisabledTokenPair : bool) : M ST unit :=
  let! s := gets id in
  match GetTokenPair s (es_byERC20 s !! erc20) with
  | None => throw (errorf ErrTokenPairNotFound "token pair for address not registered")
  | Some tokenPair =>
      if negb allowDisabledTokenPair && negb (Enabled tokenPair)
      then throw (errorf ErrERC20TokenPairDisabled "token pair for address is disabled")
      else if owner =? 0 then throw (errorf ErrInvalidAddress "owner address is empty")
      else if spender =? 0 then throw (errorf ErrInvalidAddress "spender address is empty")
      else match value with
           | None => throw (errorf ErrInvalidAllowance "value is nil")
           | Some value =>
               if value <? 0 then throw (errorf ErrInvalidAllowance "value is less than zero")
               else if u256_max <=? value then throw (errorf ErrInvalidAllowance "value is greater than max value of uint256")
               else if value =? 0
               then modify (λ s, set_allowances (delete (erc20, owner, spender) (es_allowances s)) s)
               else
                 let! allowance := NewAllowance erc20 owner spender value in
                 modify (λ s, set_allowances (<[(erc20, owner, spender) := allowance]> (es_allowances s)) s)
           end
  end.

Definition SetAllowance (erc20 owner spender : Address) (value : option Z) : M ST unit :=
  setAllowance erc20 owner spender value false.
Definition DeleteAllowance (erc20 owner spender : Address) : M ST unit :=
  setAllowance erc20 owner spender (Some 0) false.
Definition UnsafeSetAllowance (erc20 owner spender : Address) (value : option Z) : M ST unit :=
  setAllowance erc20 owner spender value true.

Definition GetAllowances (s : ST) : list Allowance :=
  (merge_sort (λ x y, key_leb x.1 y.1) (map_to_list (es_allowances s))).*2.

(** ** Precompiles of tokens *)

Definition IsNativePrecompileAvailable (s : ST) (precompile : Address) : bool :=
  bool_decide (Address_String precompile ∈ es_native s).
Definition IsDynamicPrecompileAvailable (s : ST) (precompile : Address) : bool :=
  bool_decide (Address_String precompile ∈ es_dynamic s).
Definition SetNativePrecompile (precompile : Address) (s : ST) : ST :=
  set_native ({[Address_String precompile]} ∪ es_native s) s.
Definition SetDynamicPrecompile (precompile : Address) (s : ST) : ST :=
  set_dynamic ({[Address_String precompile]} ∪ es_dynamic s) s.
Definition DeleteNativePrecompile (precompile : Address) (s : ST) : ST :=
  set_native (es_native s ∖ {[Address_String precompile]}) s.
Definition DeleteDynamicPrecompile (precompile : Address) (s : ST) : ST :=
  set_dynamic (es_dynamic s ∖ {[Address_String precompile]}) s.
Definition GetNativePrecompiles (s : ST) : list string := merge_sort string_leb (elements (es_native s)).
Definition GetDynamicPrecompiles (s : ST) : list string := merge_sort string_leb (elements (es_dynamic s)).

(** The precompile at an address; [wrapped] says whether it has the methods of a
    wrapped coin (precompiles/werc20). *)
Record Erc20Precompile : Type := mkErc20Precompile { ep_pair : TokenPair; ep_wrapped : bool }.

Definition InstantiateERC20Precompile (s : ST) (contractAddr : Address) (hasWrappedMethods : bool)
    : outcome Erc20Precompile :=
  let id := GetTokenPairID s (Address_String contractAddr) in
  if no_id id then Err (errorf ErrOther "precompile id not found")
  else match GetTokenPair s id with
       | None => Err (errorf ErrOther "token pair not found")
       | Some p => Ok (mkErc20Precompile p hasWrappedMethods)
       end.

Definition GetERC20PrecompileInstance (s : ST) (address : Address) : outcome (option Erc20Precompile) :=
  let isNative := IsNativePrecompileAvailable s address in
  let isDynamic := IsDynamicPrecompileAvailable s address in
  if negb (isNative || isDynamic) then Ok None
  else match InstantiateERC20Precompile s address isNative with
       | Ok precompile => Ok (Some precompile)
       | Err e => Err (mkError (err_code e) "precompiled contract not initialized" (err_coins e))
       | Panic w => Panic w
       end.
End store.
