(* ===== verification/Erc20Msgs.v ===== *)
(** x/erc20 above its store: the interfaces of the keepers it calls, contract calls
    (evm.go, util.go), code hashes of token precompiles (dynamic_precompiles.go,
    precompiles.go), conversions and messages (mint.go, msg_server.go, proposals.go),
    packet callbacks (ibc_callbacks.go, ibc_middleware.go), genesis and queries. *)

From S2P Require Import Prelude.
From S2P Require Import Sdk.
From S2P Require Import PreciseBankGenesis.
From S2P Require Import AccessList.
From S2P Require Import StateDB.
From S2P Require Import VmKeeper.
From S2P Require Import AnteEvm.
From S2P Require Import VmParams.
From S2P Require Import Precompile.
From S2P Require Import Transition.
From S2P Require Import Erc20Denoms.
From S2P Require Import Erc20.

Definition Erc20ModuleName : string := "erc20".

(** * State and interfaces *)

Inductive Erc20Event : Type :=
  | EvConvertERC20 (sender receiver : string) (amount : Z) (denom contract : string)
  | EvRegisterERC20 (denom contract : string)
  | EvToggleTokenConversion (denom contract : string)
  | EvRegisterERC20Extension (channel contract denom : string)
  | EvMintFailure (denom : string) (receiver : addr)
  | EvFailedConvertERC20 (denom contract : string).

(** The store of the module, the events of the context, and everything else:
    bank, accounts, EVM. *)
Record Erc20State (H : Type) : Type := mkErc20State {
  e_store : Erc20Store;
  e_events : list Erc20Event;
  e_host : H
}.
Arguments mkErc20State {H}.
Arguments e_store {H}.
Arguments e_events {H}.
Arguments e_host {H}.

(** [types.BankKeeper], as far as it is called. *)
Class Erc20Bank (H : Type) : Type := {
  eb_GetBalance : addr → denom → M H Coin;
  eb_IsSendEnabledCoin : Coin → M H bool;
  eb_BlockedAddr : addr → bool;
  eb_MintCoins : string → Coins → M H unit;
  eb_BurnCoins : string → Coins → M H unit;
  eb_SendCoinsFromModuleToAccount : string → addr → Coins → M H unit;
  eb_SendCoinsFromAccountToModule : addr → string → Coins → M H unit;
  eb_GetDenomMetaData : denom → M H (option Metadata);
  eb_SetDenomMetaData : Metadata → M H unit
}.

(** [types.EVMKeeper].  A call runs contracts, and through the token precompiles
    these reach the store of x/erc20 again: it acts on the whole state. *)
Class Erc20Evm (H : Type) : Type := {
  evk_GetAccount : Address → M H (option RawAccount);
  evk_GetAccountWithoutBalance : Address → M H (option RawAccount);
  evk_GetCode : Hash → M H (option bytes);
  evk_SetCode : Hash → bytes → M H unit;
  evk_SetAccount : Address → RawAccount → M H unit;
  evk_CallEVMWithData : Address → option Address → bytes → bool → option Z → M (Erc20State H) TxResponse;
  evk_CallEVM : outcome bytes → Address → Address → bool → option Z → M (Erc20State H) TxResponse
}.

(** [types.AccountKeeper] and [types.StakingKeeper]. *)
Class Erc20Accounts (H : Type) : Type := {
  ea_GetSequence : addr → M H Z;
  ea_GetModuleAccount : string → M H (option ModuleAccount);
  (** the account exists and is a module account *)
  ea_IsModuleAccount : addr → M H bool;
  ea_BondDenom : M H string
}.

(** The ABI of the ERC-20 contract and [banktypes.Metadata.Validate]. *)
Inductive abi_value : Type := AbiUint (n : Z) | AbiOther.
Class Erc20ABI : Type := {
  Pack_transfer : Address → Z → outcome bytes;
  Pack_balanceOf : Address → outcome bytes;
  Pack_getter : string → outcome bytes;
  Pack_constructor : string → string → Z → outcome bytes;
  Unpack_transfer : bytes → outcome bool;
  Unpack_balanceOf : bytes → outcome (list abi_value);
  Unpack_string : string → bytes → outcome string;
  Unpack_uint8 : bytes → outcome Z;
  ContractBin : bytes;
  Metadata_Validate : Metadata → outcome unit
}.

(** * Logs of a transfer *)

Section logs.
Context `{Crypto}.

Definition logTransferSigHash : Hash := Keccak256Hash "Transfer(address,address,uint256)".
Definition logApprovalSigHash : Hash := Keccak256Hash "Approval(address,address,uint256)".

(** [log.Topics[0]]. *)
Definition topic0 (log : Log) : outcome Hash :=
  match log_Topics log with
  | t :: _ => Ok t
  | [] => Panic "index out of range [0] with length 0"
  end.

Fixpoint validateApprovalEventDoesNotExist (logs : list Log) : outcome unit :=
  match logs with
  | [] => Ok tt
  | log :: r =>
      match topic0 log with
      | Ok t => if t =? logApprovalSigHash then Err (errorf ErrUnexpectedEvent "unexpected Approval event")
                else validateApprovalEventDoesNotExist r
      | Err e => Err e
      | Panic w => Panic w
      end
  end.

Fixpoint find_transfer (logs : list Log) (tokenAddress : Address) (found : bool) : outcome bool :=
  match logs with
  | [] => Ok found
  | log :: r =>
      match topic0 log with
      | Ok t =>
          if t =? logTransferSigHash then
            if negb (log_Address log =? tokenAddress)
            then Err (errorf ErrUnexpectedEvent "Transfer event from unexpected address")
            else if found then Err (errorf ErrUnexpectedEvent "duplicate Transfer event")
            else find_transfer r tokenAddress true
          else find_transfer r tokenAddress found
      | Err e => Err e
      | Panic w => Panic w
      end
  end.

Definition validateTransferEventExists (logs : list Log) (tokenAddress : Address) : outcome unit :=
  if (length logs =? 0)%nat then Err (errorf ErrExpectedEvent "expected Transfer event")
  else match find_transfer logs tokenAddress false with
       | Ok found => if negb found then Err (errorf ErrExpectedEvent "expected Transfer event") else Ok tt
       | Err e => Err e
       | Panic w => Panic w
       end.
End logs.

Section erc20.
Context `{SdkTypes, AccountKeeper, AddrCodec, Crypto, GethAddress, GethHex, SdkEvents, IbcTransfer, TmHash}.
Context {Host : Type} `{!Erc20Bank Host, !Erc20Evm Host, !Erc20Accounts Host, Erc20ABI}.
(** the governance account, the module's address in the EVM, [crypto.CreateAddress],
    the code of the token precompiles and [AccAddressFromBech32] of messages *)
Context (authority : string) (ModuleAddress : Address) (CreateAddress : Address → Z → Address).
Context (Erc20Bytecode : bytes).

Abbreviation ES := (Erc20State Host).

Definition set_store (x : Erc20Store) (s : ES) : ES := mkErc20State x (e_events s) (e_host s).
Definition set_host (x : Host) (s : ES) : ES := mkErc20State (e_store s) (e_events s) x.
Definition store {A} (m : M Erc20Store A) : M ES A := zoom e_store set_store m.
Definition host {A} (m : M Host A) : M ES A := zoom e_host set_host m.
Definition emit (ev : Erc20Event) : M ES unit := modify (λ s, mkErc20State (e_store s) (e_events s ++ [ev]) (e_host s)).
Definition read {A} (f : Erc20Store → A) : M ES A := gets (λ s, f (e_store s)).

(** * Contract calls (evm.go) *)

Definition DeployERC20Contract (coinMetadata : Metadata) : M ES Address :=
  let decimals := match last (md_DenomUnits coinMetadata) with
                  | Some u => wrap u8_max (du_Exponent u)
                  | None => 0
                  end in
  let! ctorArgs := on_error (of_outcome (Pack_constructor (md_Name coinMetadata) (md_Symbol coinMetadata) decimals))
                     (λ _, ret (errorf ErrABIPack "coin metadata is invalid")) in
  let data := String.append ContractBin ctorArgs in
  let! nonce := host (ea_GetSequence (Address_Bytes ModuleAddress)) in
  let contractAddr := CreateAddress ModuleAddress nonce in
  let! _ := on_error (evk_CallEVMWithData ModuleAddress None data true None) (wrap_error "failed to deploy contract") in
  ret contractAddr.

Definition queryERC20String (contract : Address) (method : string) : M ES string :=
  let! res := evk_CallEVM (Pack_getter method) ModuleAddress contract false None in
  match Unpack_string method (Ret res) with
  | Ok v => ret v
  | Err _ =>
      if (String.length (Ret res) =? 32)%nat then ret (Bytes32ToString (Ret res))
      else throw (errorf ErrABIUnpack "failed to unpack as both string and raw bytes32")
  | Panic w => panic w
  end.

Record ERC20Data : Type := mkERC20Data { ed_Name : string; ed_Symbol : string; ed_Decimals : Z }.

Definition QueryERC20 (contract : Address) : M ES ERC20Data :=
  let! name := queryERC20String contract "name" in
  let! symbol := queryERC20String contract "symbol" in
  let! res := evk_CallEVM (Pack_getter "decimals") ModuleAddress contract false None in
  let! decimals := on_error (of_outcome (Unpack_uint8 (Ret res)))
                     (λ _, ret (errorf ErrABIUnpack "failed to unpack decimals")) in
  ret (mkERC20Data name symbol decimals).

(** The nil pointer is [None]. *)
Definition BalanceOf (contract account : Address) : M ES (option Z) :=
  let! r := catch (evk_CallEVM (Pack_balanceOf account) ModuleAddress contract false None) in
  match r with
  | inr _ => ret None
  | inl res =>
      match Unpack_balanceOf (Ret res) with
      | Ok (AbiUint n :: _) => ret (Some n)
      | Ok _ | Err _ => ret None
      | Panic w => panic w
      end
  end.

(** * Code hashes and precompiles *)

(** The account keeps the balance and nonce it has. *)
Definition code_hash_account (codeHash : Hash) (acc : option RawAccount) : RawAccount :=
  match acc with
  | Some acc => mkRawAccount (raw_Nonce acc) (raw_Balance acc) (Some codeHash)
  | None => mkRawAccount 0 (Some 0) (Some codeHash)
  end.

Definition RegisterERC20CodeHash (erc20Addr : Address) : M ES unit :=
  let codeHash := Keccak256Hash Erc20Bytecode in
  let! code := host (evk_GetCode codeHash) in
  when (bool_decide (default EmptyString code = EmptyString)) (host (evk_SetCode codeHash Erc20Bytecode)) >>!
  let! acc := host (evk_GetAccount erc20Addr) in
  host (evk_SetAccount erc20Addr (code_hash_account codeHash acc)).

Definition UnRegisterERC20CodeHash (erc20Addr : Address) : M ES unit :=
  let emptyCodeHash := Keccak256Hash EmptyString in
  let! acc := host (evk_GetAccount erc20Addr) in
  host (evk_SetAccount erc20Addr (code_hash_account emptyCodeHash acc)).

(** [PrecompileType] is an int. *)
Definition PrecompileTypeNative : Z := 0.
Definition PrecompileTypeDynamic : Z := 1.

Definition RegisterCodeHash (a : Address) (pType : Z) : M ES unit :=
  let! s := gets e_store in
  let! shouldRegister :=
    (if pType =? PrecompileTypeNative then ret (negb (IsNativePrecompileAvailable s a))
     else if pType =? PrecompileTypeDynamic then ret (negb (IsDynamicPrecompileAvailable s a))
     else throw (errorf ErrOther "invalid precompile type")) in
  when shouldRegister (RegisterERC20CodeHash a).

Definition EnableNativePrecompile (a : Address) : M ES unit :=
  RegisterCodeHash a PrecompileTypeNative >>! store (modify (SetNativePrecompile a)).
Definition EnableDynamicPrecompile (a : Address) : M ES unit :=
  RegisterCodeHash a PrecompileTypeDynamic >>! store (modify (SetDynamicPrecompile a)).

Definition CreateNewTokenPair (denom : string) : M ES TokenPair :=
  let! p := of_outcome (NewTokenPairSTRv2 denom) in
  let! account := host (evk_GetAccount (GetERC20Contract p)) in
  if match account with Some acc => HasCodeHash acc | None => false end
  then throw (errorf ErrTokenPairAlreadyExists "token already exists for token")
  else store (SetToken p) >>! ret p.

Definition RegisterERC20Extension (denom : string) : M ES TokenPair :=
  let! p := CreateNewTokenPair denom in
  EnableDynamicPrecompile (GetERC20Contract p) >>!
  ret p.

(** * Conversions *)

(** [MintingEnabled] (mint.go). *)
Definition MintingEnabled (receiver : addr) (token : string) : M ES TokenPair :=
  let! s := gets e_store in
  if negb (es_EnableErc20 s) then throw (errorf ErrERC20Disabled "module is currently disabled by governance")
  else
    let id := GetTokenPairID s token in
    if no_id id then throw (errorf ErrTokenPairNotFound "token not registered by id")
    else match GetTokenPair s id with
         | None => throw (errorf ErrTokenPairNotFound "token not registered")
         | Some p =>
             if negb (Enabled p) then throw (errorf ErrERC20TokenPairDisabled "minting token is not enabled by governance")
             else if eb_BlockedAddr receiver then throw (errorf ErrUnauthorized "receiver is not allowed to receive transactions")
             else
               let! enabled := host (eb_IsSendEnabledCoin (mkCoin (tp_Denom p) 0)) in
               if negb enabled then throw (errorf ErrSendDisabled "minting coins to an external address is currently disabled")
               else ret p
         end.

(** The answer of the contract to a transfer. *)
Definition check_transfer (res : TxResponse) (contract : Address) (why : string) : M ES unit :=
  if (String.length (Ret res) =? 0)%nat then of_outcome (validateTransferEventExists (res_Logs res) contract)
  else
    let! ok := of_outcome (Unpack_transfer (Ret res)) in
    if negb ok then throw (errorf ErrLogic why) else ret tt.

Definition read_balance (contract account : Address) : M ES Z :=
  let! b := BalanceOf contract account in
  match b with
  | Some b => ret b
  | None => throw (errorf ErrEVMCall "failed to retrieve balance")
  end.

Record MsgConvertERC20 : Type := mkMsgConvertERC20 {
  mce_ContractAddress : string;
  mce_Amount : Z;
  mce_Receiver : string;
  mce_Sender : string
}.

(** [balanceCoin.Add(coins[0])] and [Equal]. *)
Definition convertERC20IntoCoinsForNativeToken (p : TokenPair) (msg : MsgConvertERC20) (receiver : addr) (sender : Address)
    : M ES unit :=
  let contract := GetERC20Contract p in
  let! balanceCoin := host (eb_GetBalance receiver (tp_Denom p)) in
  let! balanceToken := read_balance contract ModuleAddress in
  let! transferData := of_outcome (Pack_transfer ModuleAddress (mce_Amount msg)) in
  let! res := evk_CallEVMWithData sender (Some contract) transferData true None in
  check_transfer res contract "failed to execute transfer" >>!
  let coins := [mkCoin (tp_Denom p) (mce_Amount msg)] in
  let! balanceTokenAfter := read_balance contract ModuleAddress in
  if negb (balanceTokenAfter =? balanceToken + mce_Amount msg)
  then throw (errorf ErrBalanceInvariance "invalid token balance")
  else
    host (eb_MintCoins Erc20ModuleName coins) >>!
    host (eb_SendCoinsFromModuleToAccount Erc20ModuleName receiver coins) >>!
    let! balanceCoinAfter := host (eb_GetBalance receiver (tp_Denom p)) in
    let! expCoin := (if bool_decide (Denom balanceCoin ≠ tp_Denom p) then panic "invalid coin denominations"
                     else iadd (Amount balanceCoin) (mce_Amount msg)) in
    if negb (bool_decide (balanceCoinAfter = mkCoin (Denom balanceCoin) expCoin))
    then throw (errorf ErrBalanceInvariance "invalid coin balance")
    else emit (EvConvertERC20 (mce_Sender msg) (mce_Receiver msg) (mce_Amount msg) (tp_Denom p) (mce_ContractAddress msg)).

(** The contract of a pair has no code: it was destroyed. *)
Definition contract_gone (p : TokenPair) : M ES bool :=
  let! acc := host (evk_GetAccountWithoutBalance (GetERC20Contract p)) in
  ret (match acc with None => true | Some acc => negb (HasCodeHash acc) end).

(** A nil response is [false]. *)
Definition ConvertERC20 (msg : MsgConvertERC20) : M ES bool :=
  let! receiver := must (of_outcome (AccAddressFromBech32 (mce_Receiver msg))) "MustAccAddressFromBech32" in
  let sender := HexToAddress (mce_Sender msg) in
  let! p := MintingEnabled receiver (mce_ContractAddress msg) in
  if IsNativeERC20 p then
    let! gone := contract_gone p in
    if gone then store (modify (DeleteTokenPair p)) >>! ret false
    else convertERC20IntoCoinsForNativeToken p msg receiver sender >>! ret true
  else if IsNativeCoin p then throw (errorf ErrNativeConversionDisabled "native coins manual conversion is disabled")
  else throw (errorf ErrUndefinedOwner "undefined owner of contract pair").

(** An amount that did not parse is a nil pointer. *)
Definition ConvertCoinNativeERC20 (p : TokenPair) (amount : option Z) (receiver : Address) (sender : addr) : M ES unit :=
  match amount with
  | None => panic "nil pointer dereference"
  | Some amount =>
      if amount <=? 0 then throw (errorf ErrNegativeToken "converted coin amount must be positive")
      else
        let contract := GetERC20Contract p in
        let! balanceToken := read_balance contract receiver in
        let coins := [mkCoin (tp_Denom p) amount] in
        on_error (host (eb_SendCoinsFromAccountToModule sender Erc20ModuleName coins)) (wrap_error "failed to escrow coins") >>!
        let! res := evk_CallEVM (Pack_transfer receiver amount) ModuleAddress contract true None in
        check_transfer res contract "failed to execute unescrow tokens from user" >>!
        let! balanceTokenAfter := read_balance contract receiver in
        if negb (balanceTokenAfter =? balanceToken + amount)
        then throw (errorf ErrBalanceInvariance "invalid token balance")
        else on_error (host (eb_BurnCoins Erc20ModuleName coins)) (wrap_error "failed to burn coins")
  end.

Record MsgConvertCoin : Type := mkMsgConvertCoin { mcc_Coin : Coin; mcc_Receiver : string; mcc_Sender : string }.

Definition ConvertCoin (msg : MsgConvertCoin) : M ES unit :=
  let! sender := must (of_outcome (AccAddressFromBech32 (mcc_Sender msg))) "MustAccAddressFromBech32" in
  let receiver := HexToAddress (mcc_Receiver msg) in
  let! p := MintingEnabled (Address_Bytes receiver) (Denom (mcc_Coin msg)) in
  if IsNativeERC20 p then
    let! gone := contract_gone p in
    if gone then store (modify (DeleteTokenPair p))
    else ConvertCoinNativeERC20 p (Some (Amount (mcc_Coin msg))) receiver sender
  else if IsNativeCoin p then throw (errorf ErrNativeConversionDisabled "native coins manual conversion is disabled")
  else throw (errorf ErrUndefinedOwner "undefined owner of contract pair").

(** * Registration and governance *)

Definition CreateCoinMetadata (contract : Address) : M ES Metadata :=
  let strContract := Address_String contract in
  let! erc20Data := QueryERC20 contract in
  let! found := host (eb_GetDenomMetaData (CreateDenom strContract)) in
  if bool_decide (is_Some found) then throw (errorf ErrInternalTokenPair "denom metadata already registered")
  else
    let! registered := read (λ s, IsDenomRegistered s (CreateDenom strContract)) in
    if registered then throw (errorf ErrInternalTokenPair "coin denomination already registered")
    else
      let base := CreateDenom strContract in
      let units := [mkDenomUnit base 0 []] in
      let '(units, display) :=
        if 0 <? ed_Decimals erc20Data then
          let nameSanitized := SanitizeERC20Name (ed_Name erc20Data) in
          (units ++ [mkDenomUnit nameSanitized (ed_Decimals erc20Data) []], nameSanitized)
        else (units, base) in
      let metadata := mkMetadata (CreateDenomDescription strContract) units base display (CreateDenom strContract)
                        (ed_Symbol erc20Data) in
      on_error (of_outcome (Metadata_Validate metadata)) (wrap_error "ERC20 token data is invalid for contract") >>!
      host (eb_SetDenomMetaData metadata) >>!
      ret metadata.

Definition registerERC20 (contract : Address) : M ES TokenPair :=
  let! registered := read (λ s, IsERC20Registered s contract) in
  if registered then throw (errorf ErrTokenPairAlreadyExists "token ERC20 contract already registered")
  else
    let! metadata := on_error (CreateCoinMetadata contract)
                       (wrap_error "failed to create wrapped coin denom metadata for ERC20") in
    let p := NewTokenPair contract (md_Name metadata) OWNER_EXTERNAL in
    store (SetToken p) >>!
    ret p.

Definition toggleConversion (token : string) : M ES TokenPair :=
  let! s := gets e_store in
  let id := GetTokenPairID s token in
  if no_id id then throw (errorf ErrTokenPairNotFound "token not registered by id")
  else match GetTokenPair s id with
       | None => throw (errorf ErrTokenPairNotFound "token not registered")
       | Some p =>
           let p := mkTokenPair (Erc20Address p) (tp_Denom p) (negb (Enabled p)) (ContractOwner p) in
           store (modify (SetTokenPair p)) >>!
           ret p
       end.

Definition validateAuthority (requester : string) : M ES unit :=
  match StringToBytes requester with
  | Err _ => throw (errorf ErrInvalidAddress "invalid authority address")
  | Panic w => panic w
  | Ok _ => if negb (bool_decide (authority = requester)) then throw (errorf ErrInvalidSigner "invalid authority") else ret tt
  end.

Definition UpdateParams (requester : string) (params : Erc20Params) : M ES unit :=
  if negb (bool_decide (authority = requester)) then throw (errorf ErrInvalidSigner "invalid authority")
  else store (modify (SetParams_store params)).

Definition register_one (a : string) : M ES unit :=
  if negb (IsHexAddress a) then throw (errorf ErrInvalidAddress "invalid ERC20 contract address")
  else
    let! p := registerERC20 (HexToAddress a) in
    emit (EvRegisterERC20 (tp_Denom p) (Erc20Address p)).

Definition RegisterERC20 (signer : string) (addresses : list string) : M ES unit :=
  let! params := read GetParams_store in
  when (negb (PermissionlessRegistration params)) (validateAuthority signer) >>!
  let! enabled := read es_EnableErc20 in
  if negb enabled then throw (errorf ErrERC20Disabled "registration is currently disabled by governance")
  else for_each addresses register_one.

Definition ToggleConversion (requester token : string) : M ES unit :=
  let! enabled := read es_EnableErc20 in
  if negb enabled then throw (errorf ErrERC20Disabled "toggle conversion is currently disabled by governance")
  else
    validateAuthority requester >>!
    let! p := toggleConversion token in
    emit (EvToggleTokenConversion (tp_Denom p) (Erc20Address p)).

(** ** Stateless checks of messages (types/msg.go, types/proposal.go) *)

Definition MsgConvertERC20_ValidateBasic (msg : MsgConvertERC20) : outcome unit :=
  if negb (IsHexAddress (mce_ContractAddress msg)) then Err (errorf ErrInvalidAddress "invalid contract hex address")
  else if mce_Amount msg <=? 0 then Err (errorf ErrInvalidCoins "cannot mint a non-positive amount")
  else match AccAddressFromBech32 (mce_Receiver msg) with
       | Ok _ => if negb (IsHexAddress (mce_Sender msg)) then Err (errorf ErrInvalidAddress "invalid sender hex address") else Ok tt
       | Err e => Err (mkError (err_code e) "invalid receiver address" (err_coins e))
       | Panic w => Panic w
       end.

Definition MsgConvertCoin_ValidateBasic (msg : MsgConvertCoin) : outcome unit :=
  if (String.length (Denom (mcc_Coin msg)) =? 0)%nat then Err (errorf ErrInvalidCoins "denom cannot be empty")
  else if Amount (mcc_Coin msg) <=? 0 then Err (errorf ErrInvalidCoins "cannot mint a non-positive amount")
  else match AccAddressFromBech32 (mcc_Sender msg) with
       | Ok _ => if negb (IsHexAddress (mcc_Receiver msg)) then Err (errorf ErrInvalidAddress "invalid receiver hex address") else Ok tt
       | Err e => Err (mkError (err_code e) "invalid sender address" (err_coins e))
       | Panic w => Panic w
       end.

Definition check_bech32 (a why : string) : outcome unit :=
  match AccAddressFromBech32 a with
  | Ok _ => Ok tt
  | Err e => Err (mkError (err_code e) why (err_coins e))
  | Panic w => Panic w
  end.

(** [MsgUpdateParams] and [MsgToggleConversion]. *)
Definition Authority_ValidateBasic (requester : string) : outcome unit := check_bech32 requester "Invalid authority address".

Definition MsgRegisterERC20_ValidateBasic (signer : string) (addresses : list string) : outcome unit :=
  match check_bech32 signer "invalid signer address" with
  | Ok _ => if forallb IsHexAddress addresses then Ok tt else Err (errorf ErrInvalidAddress "invalid ERC20 contract address")
  | r => r
  end.

(** * Packet callbacks (ibc_callbacks.go, ibc_middleware.go) *)

Section ibc.
Context {Ack : Type} (NewErrorAcknowledgement : error → Ack).

(** The error acknowledgement of a failed step; the state stays as the step left
    it. *)
Definition or_error_ack (m : M ES Ack) : M ES Ack := λ s,
  match m s with
  | (s', Err e) => (s', Ok (NewErrorAcknowledgement e))
  | r => r
  end.

(** Case 2 of [OnRecvPacket]: the coin of a native ERC-20 token. *)
Definition recv_native (p : TokenPair) (coin : RawCoin) (recipient : addr) (ack : Ack) : M ES Ack :=
  if negb (Enabled p) then ret ack
  else
    let! r := catch (MintingEnabled recipient (rc_Denom coin)) in
    match r with
    | inr e => emit (EvMintFailure (rc_Denom coin) recipient) >>! ret (NewErrorAcknowledgement e)
    | inl p =>
        ConvertCoinNativeERC20 p (rc_Amount coin) (BytesToAddress recipient) recipient >>!
        ret ack
    end.

Definition OnRecvPacket (packet : Packet) (ack : Ack) : M ES Ack :=
  let! enabled := read es_EnableErc20 in
  if negb enabled then ret ack
  else or_error_ack (
    let! data := on_error (of_outcome (UnmarshalPacketData (Data packet)))
                   (λ _, ret (errorf ErrInvalidType "cannot unmarshal ICS-20 transfer packet data")) in
    let coin := GetReceivedCoin packet (ExtractDenomFromPath (ftp_Denom data)) (ftp_Amount data) in
    if HasPrefix (ftp_Denom data) "factory/" then ret ack
    else
      let! bondDenom := host ea_BondDenom in
      if bool_decide (rc_Denom coin = bondDenom) then ret ack
      else
        let! recipient := on_error (of_outcome (StringToBytes (ftp_Receiver data))) (wrap_error "invalid recipient") in
        let! isModule := host (ea_IsModuleAccount recipient) in
        if isModule then ret ack
        else
          let! s := gets e_store in
          match GetTokenPair s (GetTokenPairID s (rc_Denom coin)) with
          | None =>
              if HasPrefix (rc_Denom coin) "ibc/" then
                let! p := RegisterERC20Extension (rc_Denom coin) in
                emit (EvRegisterERC20Extension (SourceChannel packet) (Erc20Address p) (tp_Denom p)) >>!
                ret ack
              else ret ack
          | Some p => if IsNativeERC20 p then recv_native p coin recipient ack else ret ack
          end).

Definition ConvertCoinToERC20FromPacket (data : FungibleTokenPacketData) : M ES unit :=
  let! sender := of_outcome (StringToBytes (ftp_Sender data)) in
  let! s := gets e_store in
  match GetTokenPair s (GetTokenPairID s (ftp_Denom data)) with
  | None => ret tt
  | Some p =>
      let coin := GetSentCoin (ftp_Denom data) (ftp_Amount data) in
      if IsNativeCoin p then ret tt
      else if IsNativeERC20 p then
        if negb (es_EnableErc20 s) || negb (IsDenomRegistered s (rc_Denom coin)) then ret tt
        else
          let! isModule := host (ea_IsModuleAccount sender) in
          if isModule then ret tt
          else
            let! r := catch (ConvertCoinNativeERC20 p (rc_Amount coin) (BytesToAddress sender) sender) in
            match r with
            | inl _ => ret tt
            | inr _ => emit (EvFailedConvertERC20 (tp_Denom p) (Erc20Address p))
            end
      else ret tt
  end.

(** [error] says whether the acknowledgement reports an error. *)
Definition OnAcknowledgementPacket (data : FungibleTokenPacketData) (error : bool) : M ES unit :=
  if error then ConvertCoinToERC20FromPacket data else ret tt.
Definition OnTimeoutPacket (data : FungibleTokenPacketData) : M ES unit := ConvertCoinToERC20FromPacket data.

(** The middleware around the ICS-20 application [app]. *)
Definition middleware_OnRecvPacket (app : Packet → M ES Ack) (Success : Ack → bool) (packet : Packet) : M ES Ack :=
  let! ack := app packet in
  if negb (Success ack) then ret ack else OnRecvPacket packet ack.

Definition unmarshal_data (packet : Packet) : M ES FungibleTokenPacketData :=
  on_error (of_outcome (UnmarshalPacketData (Data packet)))
    (λ _, ret (errorf ErrUnknownRequest "cannot unmarshal ICS-20 transfer packet data")).

Definition middleware_OnAcknowledgementPacket (app : Packet → bytes → M ES unit) (UnmarshalAck : bytes → outcome bool)
    (packet : Packet) (acknowledgement : bytes) : M ES unit :=
  let! error := on_error (of_outcome (UnmarshalAck acknowledgement))
                  (λ _, ret (errorf ErrUnknownRequest "cannot unmarshal ICS-20 transfer packet acknowledgement")) in
  let! data := unmarshal_data packet in
  app packet acknowledgement >>!
  OnAcknowledgementPacket data error.

Definition middleware_OnTimeoutPacket (app : Packet → M ES unit) (packet : Packet) : M ES unit :=
  let! data := unmarshal_data packet in
  app packet >>!
  OnTimeoutPacket data.
End ibc.

(** * Genesis and queries *)

Record Erc20Genesis : Type := mkErc20Genesis {
  eg_Params : Erc20Params;
  eg_TokenPairs : list TokenPair;
  eg_Allowances : list Allowance;
  eg_NativePrecompiles : list string;
  eg_DynamicPrecompiles : list string
}.

Definition hasActiveTokenPair (pairs : list TokenPair) (address : string) : bool :=
  existsb (λ p, bool_decide (Erc20Address p = address) && Enabled p) pairs.

Definition validatePrecompiles (tokenPairs : list TokenPair) (precompiles : list string) : outcome unit :=
  if forallb (hasActiveTokenPair tokenPairs) precompiles then Ok tt
  else Err (errorf ErrOther "precompile address not found in token pairs").

(** The loop over the pairs; [seenErc20] and [seenDenom] are the two maps. *)
Fixpoint validate_pairs (pairs : list TokenPair) (seenErc20 seenDenom : gset string) : outcome (gset string) :=
  match pairs with
  | [] => Ok seenErc20
  | b :: r =>
      if bool_decide (Erc20Address b ∈ seenErc20) then Err (errorf ErrOther "token ERC20 contract duplicated on genesis")
      else if bool_decide (tp_Denom b ∈ seenDenom) then Err (errorf ErrOther "coin denomination duplicated on genesis")
      else match TokenPair_Validate b with
           | Ok _ => validate_pairs r ({[Erc20Address b]} ∪ seenErc20) ({[tp_Denom b]} ∪ seenDenom)
           | Err e => Err e
           | Panic w => Panic w
           end
  end.

Definition allowance_key (a : Allowance) : string :=
  String.append (al_Erc20Address a) (String.append (al_Owner a) (al_Spender a)).

Fixpoint validate_allowances (allowances : list Allowance) (seenErc20 seenAllowance : gset string) : outcome unit :=
  match allowances with
  | [] => Ok tt
  | a :: r =>
      if bool_decide (allowance_key a ∈ seenAllowance) then Err (errorf ErrOther "duplicated allowance on genesis")
      else if negb (bool_decide (al_Erc20Address a ∈ seenErc20))
      then Err (errorf ErrOther "allowance has no corresponding token pair on genesis")
      else match Allowance_Validate a with
           | Ok _ => validate_allowances r seenErc20 ({[allowance_key a]} ∪ seenAllowance)
           | Err e => Err (mkError (err_code e) "invalid allowance on genesis" (err_coins e))
           | Panic w => Panic w
           end
  end.

Definition Erc20Genesis_Validate (gs : Erc20Genesis) : outcome unit :=
  match validate_pairs (eg_TokenPairs gs) ∅ ∅ with
  | Ok seenErc20 =>
      match validatePrecompiles (eg_TokenPairs gs) (eg_DynamicPrecompiles gs) with
      | Ok _ =>
          match validatePrecompiles (eg_TokenPairs gs) (eg_NativePrecompiles gs) with
          | Ok _ => validate_allowances (eg_Allowances gs) seenErc20 ∅
          | r => r
          end
      | r => r
      end
  | Err e => Err e
  | Panic w => Panic w
  end.

(** The first pair that is refused ends [InitGenesis]: [false]. *)
Fixpoint init_pairs (pairs : list TokenPair) : M ES bool :=
  match pairs with
  | [] => ret true
  | p :: r =>
      let! e := catch (store (SetToken p)) in
      match e with
      | inl _ => init_pairs r
      | inr _ => ret false
      end
  end.

Definition init_allowance (a : Allowance) : M ES unit :=
  must (store (UnsafeSetAllowance (HexToAddress (al_Erc20Address a)) (HexToAddress (al_Owner a))
                 (HexToAddress (al_Spender a)) (Some (al_Value a)))) "error setting allowance".

Definition InitGenesis (data : Erc20Genesis) : M ES unit :=
  store (modify (SetParams_store (eg_Params data))) >>!
  let! acc := host (ea_GetModuleAccount Erc20ModuleName) in
  match acc with
  | None => panic "the erc20 module account has not been set"
  | Some _ =>
      let! complete := init_pairs (eg_TokenPairs data) in
      when complete (
        for_each (eg_NativePrecompiles data) (λ a,
          must (EnableNativePrecompile (HexToAddress a)) "error registering native precompiles") >>!
        for_each (eg_DynamicPrecompiles data) (λ a,
          must (EnableDynamicPrecompile (HexToAddress a)) "error registering dynamic precompiles") >>!
        for_each (eg_Allowances data) init_allowance)
  end.

Definition ExportGenesis (s : Erc20Store) : Erc20Genesis :=
  mkErc20Genesis (GetParams_store s) (GetTokenPairs s) (GetAllowances s) (GetNativePrecompiles s) (GetDynamicPrecompiles s).

(** The query of one pair. *)
Definition QueryTokenPair (s : Erc20Store) (token : string) : outcome TokenPair :=
  if negb (is_ok (ValidateAddress token)) && negb (valid_denom token)
  then Err (errorf ErrOther "invalid format for token, should be either hex or cosmos denom")
  else
    let id := GetTokenPairID s token in
    if no_id id then Err (errorf ErrNotFound "token pair with token")
    else match GetTokenPair s id with
         | Some p => Ok p
         | None => Err (errorf ErrNotFound "token pair with token")
         end.
End erc20.
