(* ===== verification/Erc20Reg.v ===== *)
(** The registry of x/erc20: the three maps of token pairs and the allowances stay
    consistent under every operation of the store, and every message, callback and
    genesis import changes the store by such operations alone. *)

From S2P Require Import Prelude.
From S2P Require Import Sdk.
From S2P Require Import PreciseBankGenesis.
From S2P Require Import AccessList.
From S2P Require Import StateDB.
From S2P Require Import VmKeeper.
From S2P Require Import VmParams.
From S2P Require Import Precompile.
From S2P Require Import Transition.
From S2P Require Import Erc20Denoms.
From S2P Require Import Erc20.
From S2P Require Import Erc20Msgs.

(** * Identifiers *)

Fixpoint has_bar (s : string) : bool :=
  match s with
  | EmptyString => false
  | String c r => (code c =? 124) || has_bar r
  end.

(** SHA-256 taken as free of collisions, and never empty; the text of an address is
    hexadecimal digits, with or without 0x. *)
Class Erc20Laws `{GethHex, TmHash} : Prop := {
  tmhash_collision_free x y : tmhash_Sum x = tmhash_Sum y → x = y;
  tmhash_nonempty x : tmhash_Sum x ≠ EmptyString;
  hex_no_bar x : IsHexAddress x = true → has_bar x = false;
  hex_nonempty : IsHexAddress EmptyString = false
}.

Lemma bar_split x x' y y' :
  has_bar x = false → has_bar x' = false →
  String.append x (String.append "|" y) = String.append x' (String.append "|" y') → x = x' ∧ y = y'.
Proof.
  revert x'. induction x as [|c x IH]; intros [|c' x']; cbn; intros Hx Hx' E.
  - by injection E.
  - injection E as <- E. by vm_compute in Hx'.
  - injection E as -> E. by vm_compute in Hx.
  - injection E as <- E. apply orb_false_iff in Hx as [_ Hx], Hx' as [_ Hx'].
    by destruct (IH x' Hx Hx' E) as [<- <-].
Qed.

Section registry.
Context `{SdkTypes, GethHex, SdkEvents, IbcTransfer, TmHash}.
Context `{!GethHexLaws, !Erc20Laws}.
Implicit Types (p q : TokenPair) (st : Erc20Store) (d tok : string).

Lemma GetID_inj p q :
  IsHexAddress (Erc20Address p) = true → IsHexAddress (Erc20Address q) = true →
  GetID p = GetID q → Erc20Address p = Erc20Address q ∧ tp_Denom p = tp_Denom q.
Proof. intros Hp%hex_no_bar Hq%hex_no_bar E%tmhash_collision_free. by apply bar_split. Qed.

(** * The invariant *)

(** The three maps describe one set of pairs; an allowance is that of a registered
    token, between accounts that are not zero, and is a positive 256-bit number; the
    names of precompiles are addresses. *)
Record registry_ok (st : Erc20Store) : Prop := {
  ro_pair id p : es_pairs st !! id = Some p →
    id = GetID p ∧ IsHexAddress (Erc20Address p) = true ∧
    es_byERC20 st !! GetERC20Contract p = Some id ∧ es_byDenom st !! tp_Denom p = Some id;
  ro_erc20 a id : es_byERC20 st !! a = Some id → ∃ p, es_pairs st !! id = Some p ∧ GetERC20Contract p = a;
  ro_denom d id : es_byDenom st !! d = Some id → ∃ p, es_pairs st !! id = Some p ∧ tp_Denom p = d;
  ro_allowance e o sp al : es_allowances st !! (e, o, sp) = Some al →
    is_Some (es_byERC20 st !! e) ∧ o ≠ 0 ∧ sp ≠ 0 ∧ 0 < al_Value al < u256_max ∧
    al = mkAllowance (Address_String e) (Address_String o) (Address_String sp) (al_Value al);
  ro_precompile x : x ∈ es_native st ∪ es_dynamic st → ∃ a, x = Address_String a
}.

Definition toggled p : TokenPair := mkTokenPair (Erc20Address p) (tp_Denom p) (negb (Enabled p)) (ContractOwner p).

(** What the keeper does to its store. *)
Inductive store_step : Erc20Store → Erc20Store → Prop :=
  | step_set_token p st st' :
      IsHexAddress (Erc20Address p) = true → SetToken p st = (st', Ok tt) → store_step st st'
  | step_toggle id p st : es_pairs st !! id = Some p → store_step st (SetTokenPair (toggled p) st)
  | step_delete id p st : es_pairs st !! id = Some p → store_step st (DeleteTokenPair p st)
  | step_allowance e o sp v b st st' : setAllowance e o sp v b st = (st', Ok tt) → store_step st st'
  | step_params ps st : store_step st (SetParams_store ps st)
  | step_native a st : store_step st (SetNativePrecompile a st)
  | step_dynamic a st : store_step st (SetDynamicPrecompile a st)
  | step_native_off a st : store_step st (DeleteNativePrecompile a st)
  | step_dynamic_off a st : store_step st (DeleteDynamicPrecompile a st).

Lemma empty_ok : registry_ok empty_store.
Proof. split; cbn; [intros *; by rewrite lookup_empty..|set_solver]. Qed.

Lemma SetToken_inv p st st' u :
  SetToken p st = (st', Ok u) →
  es_byDenom st !! tp_Denom p = None ∧ es_byERC20 st !! GetERC20Contract p = None ∧
  st' = SetERC20Map (GetERC20Contract p) (GetID p) (SetDenomMap (tp_Denom p) (GetID p) (SetTokenPair p st)).
Proof.
  unfold SetToken, IsDenomRegistered, IsERC20Registered. cbn. intros E.
  case_bool_decide as Hd; [done|]. case_bool_decide as He; [done|].
  rewrite <-eq_None_not_Some in Hd, He. by injection E as <-.
Qed.

Lemma SetToken_ok p st st' :
  registry_ok st → IsHexAddress (Erc20Address p) = true → SetToken p st = (st', Ok tt) → registry_ok st'.
Proof.
  intros Hok Hx (Hd & He & ->)%SetToken_inv.
  assert (es_pairs st !! GetID p = None) as Hp.
  { destruct (es_pairs st !! GetID p) as [q|] eqn:Eq; [|done].
    destruct (ro_pair _ Hok _ _ Eq) as (Eid & Hq & _ & Hqd).
    destruct (GetID_inj p q Hx Hq Eid) as [_ Edn]. congruence. }
  split; cbn.
  - intros id q [[<- <-]|[Hne Eq]]%lookup_insert_Some; [by rewrite !lookup_insert_eq|].
    destruct (ro_pair _ Hok _ _ Eq) as (-> & Hq & Hqe & Hqd). split_and!; [done..| |].
    + rewrite lookup_insert_ne by congruence. done.
    + rewrite lookup_insert_ne by congruence. done.
  - intros a id [[<- <-]|[Hne Ea]]%lookup_insert_Some; [exists p; by rewrite lookup_insert_eq|].
    destruct (ro_erc20 _ Hok _ _ Ea) as (q & Eq & <-). exists q. by rewrite lookup_insert_ne by congruence.
  - intros a id [[<- <-]|[Hne Ea]]%lookup_insert_Some; [exists p; by rewrite lookup_insert_eq|].
    destruct (ro_denom _ Hok _ _ Ea) as (q & Eq & <-). exists q. by rewrite lookup_insert_ne by congruence.
  - intros e o sp al Eal. destruct (ro_allowance _ Hok _ _ _ _ Eal) as ([id Eid] & ?).
    split; [|done]. exists id. by rewrite lookup_insert_ne by congruence.
  - apply Hok.
Qed.

(** A pair is found under its own identifier, and no other pair has its contract or
    its denomination. *)
Lemma pair_unique st id p id' q :
  registry_ok st → es_pairs st !! id = Some p → es_pairs st !! id' = Some q →
  GetERC20Contract p = GetERC20Contract q ∨ tp_Denom p = tp_Denom q → id = id' ∧ p = q.
Proof.
  intros Hok Ep Eq Hor. destruct (ro_pair _ Hok _ _ Ep) as (_ & _ & Hpe & Hpd), (ro_pair _ Hok _ _ Eq) as (_ & _ & Hqe & Hqd).
  assert (id = id') as <- by (destruct Hor; congruence). split; congruence.
Qed.

Lemma toggle_ok id p st : registry_ok st → es_pairs st !! id = Some p → registry_ok (SetTokenPair (toggled p) st).
Proof.
  intros Hok Ep. destruct (ro_pair _ Hok _ _ Ep) as (-> & Hx & He & Hd). change (GetID p) with (GetID (toggled p)) in *.
  split; cbn.
  - intros id q [[<- <-]|[Hne Eq]]%lookup_insert_Some; [done|]. by apply Hok.
  - intros a id Ea. destruct (ro_erc20 _ Hok _ _ Ea) as (q & Eq & <-).
    destruct (decide (id = GetID (toggled p))) as [->|]; [|exists q; by rewrite lookup_insert_ne].
    exists (toggled p). rewrite lookup_insert_eq. assert (p = q) as <- by congruence. done.
  - intros a id Ea. destruct (ro_denom _ Hok _ _ Ea) as (q & Eq & <-).
    destruct (decide (id = GetID (toggled p))) as [->|]; [|exists q; by rewrite lookup_insert_ne].
    exists (toggled p). rewrite lookup_insert_eq. assert (p = q) as <- by congruence. done.
  - apply Hok.
  - apply Hok.
Qed.

(** ** Deletion *)

Lemma foldl_delete_lookup {K A} `{Countable K} (ks : list K) (m : gmap K A) k :
  foldl (λ m k, delete k m) m ks !! k = if decide (k ∈ ks) then None else m !! k.
Proof.
  revert m. induction ks as [|x r IH]; intros m; cbn; [by rewrite decide_False by set_solver|].
  rewrite IH. destruct (decide (k = x)) as [->|Hne].
  - rewrite lookup_delete_eq. rewrite (decide_True (P := x ∈ x :: r)) by set_solver. by case_decide.
  - rewrite lookup_delete_ne by done. by apply decide_ext; set_solver.
Qed.

Lemma deleteAllowances_lookup e st k :
  es_allowances (deleteAllowances e st) !! k = if decide (k.1.1 = e) then None else es_allowances st !! k.
Proof.
  unfold deleteAllowances. cbn. rewrite foldl_delete_lookup.
  destruct (es_allowances st !! k) as [al|] eqn:Ek; [|by repeat case_decide].
  apply decide_ext. rewrite list_elem_of_filter, merge_sort_Permutation, list_elem_of_fmap. split; [naive_solver|].
  intros Hk. split; [done|]. exists (k, al). split; [done|]. by apply elem_of_map_to_list.
Qed.

Lemma DeleteTokenPair_ok id p st : registry_ok st → es_pairs st !! id = Some p → registry_ok (DeleteTokenPair p st).
Proof.
  intros Hok Ep. destruct (ro_pair _ Hok _ _ Ep) as (-> & Hx & He & Hd).
  split.
  - cbn. intros id q [Hne Eq]%lookup_delete_Some. destruct (ro_pair _ Hok _ _ Eq) as (-> & Hq & Hqe & Hqd).
    split_and!; [done..| |]; rewrite lookup_delete_ne; try done; intros E;
      apply Hne; by apply (pair_unique st (GetID p) p (GetID q) q); auto.
  - cbn. intros a id [Hne Ea]%lookup_delete_Some. destruct (ro_erc20 _ Hok _ _ Ea) as (q & Eq & <-). exists q.
    rewrite lookup_delete_ne; [done|]. intros <-. apply Hne. congruence.
  - cbn. intros a id [Hne Ea]%lookup_delete_Some. destruct (ro_denom _ Hok _ _ Ea) as (q & Eq & <-). exists q.
    rewrite lookup_delete_ne; [done|]. intros <-. apply Hne. congruence.
  - intros e o sp al. unfold DeleteTokenPair. rewrite deleteAllowances_lookup. cbn. case_decide as Hne; [done|].
    intros Eal. destruct (ro_allowance _ Hok _ _ _ _ Eal) as ([id Eid] & ?).
    split; [|done]. exists id. by rewrite lookup_delete_ne.
  - apply Hok.
Qed.

(** ** Allowances *)

Lemma GetTokenPair_inv st id p : GetTokenPair st id = Some p → ∃ i, id = Some i ∧ es_pairs st !! i = Some p.
Proof.
  unfold GetTokenPair. destruct id as [i|]; [|done]. destruct (es_pairs st !! i) as [q|] eqn:E; [|done].
  case_bool_decide; [done|]. intros [= ->]. eauto.
Qed.

(** What a successful call of [setAllowance] has checked, and what it wrote. *)
Lemma setAllowance_inv e o sp v b st st' u :
  setAllowance e o sp v b st = (st', Ok u) →
  ∃ p n, GetTokenPair st (es_byERC20 st !! e) = Some p ∧ (b = true ∨ Enabled p = true) ∧
    o ≠ 0 ∧ sp ≠ 0 ∧ v = Some n ∧ 0 ≤ n < u256_max ∧
    st' = set_allowances (if decide (n = 0) then delete (e, o, sp) (es_allowances st)
            else <[(e, o, sp) := mkAllowance (Address_String e) (Address_String o) (Address_String sp) n]> (es_allowances st)) st.
Proof.
  unfold setAllowance. cbn. destruct (GetTokenPair st (es_byERC20 st !! e)) as [p|]; [|done].
  destruct (negb b && negb (Enabled p)) eqn:Eb; [done|].
  destruct (Z.eqb_spec o 0) as [|Ho]; [done|]. destruct (Z.eqb_spec sp 0) as [|Hs]; [done|].
  destruct v as [n|]; [|done]. destruct (Z.ltb_spec n 0); [done|]. destruct (Z.leb_spec u256_max n); [done|].
  intros E. exists p, n. split_and!; try done; [by destruct b, (Enabled p); auto|].
  destruct (Z.eqb_spec n 0) as [->|].
  - by injection E as <-.
  - rewrite decide_False by done. apply bind_Ok_inv in E as (s1 & al & E1 & E). unfold NewAllowance in E1.
    apply bind_Ok_inv in E1 as (s2 & v & [-> ->]%ichk_inv & [= <- <-]). by injection E as <-.
Qed.

Lemma setAllowance_ok e o sp v b st st' :
  registry_ok st → setAllowance e o sp v b st = (st', Ok tt) → registry_ok st'.
Proof.
  intros Hok (p & n & Hp & _ & Ho & Hs & -> & Hn & ->)%setAllowance_inv.
  apply GetTokenPair_inv in Hp as (i & Ei & _). split; [apply Hok..| |apply Hok]. cbn.
  intros e' o' sp' al Eal. case_decide.
  - apply lookup_delete_Some in Eal as [_ Eal]. by apply Hok.
  - apply lookup_insert_Some in Eal as [[[= <- <- <-] <-]|[_ Eal]]; [|by apply Hok].
    split_and!; try done; cbn; lia.
Qed.

Lemma same_maps_ok st st' :
  es_pairs st' = es_pairs st → es_byERC20 st' = es_byERC20 st → es_byDenom st' = es_byDenom st →
  es_allowances st' = es_allowances st →
  (∀ x, x ∈ es_native st' ∪ es_dynamic st' → x ∈ es_native st ∪ es_dynamic st ∨ ∃ a, x = Address_String a) →
  registry_ok st → registry_ok st'.
Proof.
  intros E1 E2 E3 E4 E5 []. split; rewrite ?E1, ?E2, ?E3, ?E4; auto. intros x [?|?]%E5; auto.
Qed.

Lemma step_ok st st' : store_step st st' → registry_ok st → registry_ok st'.
Proof.
  destruct 1; eauto using SetToken_ok, toggle_ok, DeleteTokenPair_ok, setAllowance_ok;
    apply (same_maps_ok st); cbn; auto; set_solver.
Qed.

Lemma steps_ok st st' : rtc store_step st st' → registry_ok st → registry_ok st'.
Proof. induction 1; eauto using step_ok. Qed.
End registry.

(** * The operations of the module *)

(** Contracts reach the store of x/erc20 through the token precompiles, which call
    the keeper. *)
Class Erc20EvmSteps (Host : Type) `{!Erc20Evm Host, SdkTypes, GethHex, TmHash} : Prop := {
  call_data_steps from to data commit cap (s : Erc20State Host) :
    rtc store_step (e_store s) (e_store (evk_CallEVMWithData from to data commit cap s).1);
  call_steps pack from to commit cap (s : Erc20State Host) :
    rtc store_step (e_store s) (e_store (evk_CallEVM pack from to commit cap s).1)
}.
Section machine.
Context `{SdkTypes, AccountKeeper, AddrCodec, Crypto, GethAddress, GethHex, SdkEvents, IbcTransfer, TmHash}.
Context {Host : Type} `{!Erc20Bank Host, !Erc20Evm Host, !Erc20Accounts Host, Erc20ABI}.
Context `{!GethHexLaws, !Erc20Laws}.
Context (authority : string) (ModuleAddress : Address) (Erc20Bytecode : bytes).
Context {Ack : Type} (NewErrorAcknowledgement : error → Ack).
Implicit Types (p : TokenPair) (st : Erc20Store).

Abbreviation ES := (Erc20State Host).

Context `{!Erc20EvmSteps Host}.

(** The store was reached from [st0] by steps of the keeper. *)
Definition tracked st0 (s : ES) : Prop := rtc store_step st0 (e_store s).

Lemma tracked_host {A} st0 (m : M Host A) : preserves (tracked st0) (host m).
Proof. intros s Hs. unfold host, zoom. by destruct (m (e_host s)). Qed.

Lemma tracked_store {A} st0 (m : M Erc20Store A) :
  (∀ st, rtc store_step st (m st).1) → preserves (tracked st0) (store m).
Proof.
  intros Hm s Hs. unfold store, zoom, tracked. specialize (Hm (e_store s)). destruct (m (e_store s)).
  by etrans.
Qed.

Lemma tracked_emit st0 ev : preserves (tracked st0) (emit (Host := Host) ev).
Proof. by apply preserves_modify. Qed.

Lemma tracked_read {A} st0 (f : Erc20Store → A) : preserves (tracked st0) (read (Host := Host) f).
Proof. apply preserves_gets. Qed.

Lemma tracked_call_data st0 from to data commit cap :
  preserves (tracked st0) (evk_CallEVMWithData from to data commit cap).
Proof. intros s Hs. unfold tracked. etrans; [exact Hs|apply call_data_steps]. Qed.

Lemma tracked_call st0 pack from to commit cap : preserves (tracked st0) (evk_CallEVM pack from to commit cap).
Proof. intros s Hs. unfold tracked. etrans; [exact Hs|apply call_steps]. Qed.

Lemma SetToken_steps p st : IsHexAddress (Erc20Address p) = true → rtc store_step st (SetToken p st).1.
Proof.
  intros Hx. destruct (SetToken p st) as [st' [[]|e|w]] eqn:E; cbn; [by apply rtc_once, (step_set_token p)|..];
    revert E; unfold SetToken; cbn; repeat case_match; by intros [= <-].
Qed.

Lemma setAllowance_steps e o sp v b st : rtc store_step st (setAllowance e o sp v b st).1.
Proof.
  destruct (setAllowance e o sp v b st) as [st' [[]|x|w]] eqn:E; cbn; [by eapply rtc_once, step_allowance|..];
    revert E; unfold setAllowance, NewAllowance, ichk; cbn; unfold bind, panic, throw, ret, modify; cbn; repeat case_match; intros;
    assert (st' = st) as -> by congruence; done.
Qed.

Ltac track := repeat (preserves_step || apply tracked_host || apply tracked_emit || apply tracked_read
  || apply tracked_call_data || apply tracked_call).

Lemma modify_step (f : Erc20Store → Erc20Store) st0 :
  (∀ st, store_step st (f st)) → preserves (tracked st0) (store (modify f)).
Proof. intros Hf. apply tracked_store. intros st. apply rtc_once, Hf. Qed.

Lemma BalanceOf_tracked st0 c a : preserves (tracked st0) (BalanceOf ModuleAddress c a).
Proof. unfold BalanceOf. track. Qed.

Lemma QueryERC20_tracked st0 c : preserves (tracked st0) (QueryERC20 ModuleAddress c).
Proof. unfold QueryERC20, queryERC20String. track. Qed.

Lemma EnableNative_tracked st0 a : preserves (tracked st0) (EnableNativePrecompile Erc20Bytecode a).
Proof.
  unfold EnableNativePrecompile, RegisterCodeHash, RegisterERC20CodeHash. track. apply modify_step, step_native.
Qed.

Lemma EnableDynamic_tracked st0 a : preserves (tracked st0) (EnableDynamicPrecompile Erc20Bytecode a).
Proof.
  unfold EnableDynamicPrecompile, RegisterCodeHash, RegisterERC20CodeHash. track. apply modify_step, step_dynamic.
Qed.

(** ** Messages *)

(** A call that leaves the store alone, and what holds when it returns. *)
Lemma bind_kept {A C} (m : M ES A) (f : A → M ES C) (Q : A → ES → Prop) s :
  (∀ s' o, m s = (s', o) → e_store s' = e_store s ∧ ∀ a, o = Ok a → Q a s') →
  (∀ a s', Q a s' → rtc store_step (e_store s') (e_store (f a s').1)) →
  rtc store_step (e_store s) (e_store (bind m f s).1).
Proof.
  intros Hm Hf. unfold bind. destruct (m s) as [s' [a|e|w]] eqn:E; destruct (Hm _ _ eq_refl) as [Hs Ha]; rewrite <-Hs; [|done..].
  by apply Hf, Ha.
Qed.

Lemma tracked_run {A} (m : M ES A) s :
  (∀ st0, preserves (tracked st0) m) → rtc store_step (e_store s) (e_store (m s).1).
Proof. intros Hm. apply (Hm (e_store s) s), rtc_refl. Qed.

Definition registered p (s : ES) : Prop := ∃ i, es_pairs (e_store s) !! i = Some p.

Lemma host_kept {A} (m : M Host A) s s' o : host m s = (s', o) → e_store s' = e_store s.
Proof. unfold host, zoom. destruct (m (e_host s)). by intros [= <- _]. Qed.

Lemma MintingEnabled_kept r tok s s' o :
  MintingEnabled r tok s = (s', o) → e_store s' = e_store s ∧ ∀ p, o = Ok p → registered p s'.
Proof.
  unfold MintingEnabled. rewrite (bind_Ok (gets _) _ s s _ eq_refl).
  destruct (negb _); [by intros [= <- <-]|]. destruct (no_id _); [by intros [= <- <-]|].
  destruct (GetTokenPair _ _) as [p|] eqn:Ep; [|by intros [= <- <-]].
  apply GetTokenPair_inv in Ep as (i & _ & Ep).
  destruct (negb _); [by intros [= <- <-]|]. destruct (eb_BlockedAddr r); [by intros [= <- <-]|].
  unfold bind. destruct (host _ s) as [s1 [[]|e|w]] eqn:Eh; apply host_kept in Eh; cbn; intros [= <- <-]; split; try done.
  intros q [= <-]. exists i. by rewrite Eh.
Qed.

Lemma contract_gone_kept p q s s' o :
  contract_gone p s = (s', o) → registered q s → e_store s' = e_store s ∧ ∀ b, o = Ok b → registered q s'.
Proof.
  unfold contract_gone, bind, registered. destruct (host _ s) as [s1 [a|e|w]] eqn:Eh; apply host_kept in Eh;
    cbn; intros [= <- <-] Hq; rewrite Eh; done.
Qed.

Lemma delete_steps p (s : ES) : registered p s → rtc store_step (e_store s) (e_store (store (modify (DeleteTokenPair p)) s).1).
Proof. intros [i Hp]. by apply rtc_once, (step_delete i). Qed.

Lemma convert_in_tracked st0 p msg r a :
  preserves (tracked st0) (convertERC20IntoCoinsForNativeToken ModuleAddress p msg r a).
Proof.
  unfold convertERC20IntoCoinsForNativeToken, read_balance, check_transfer, iadd, ichk.
  repeat (apply BalanceOf_tracked || (progress track)).
Qed.

Lemma convert_out_tracked st0 p n r a : preserves (tracked st0) (ConvertCoinNativeERC20 ModuleAddress p n r a).
Proof.
  unfold ConvertCoinNativeERC20, read_balance, check_transfer, wrap_error.
  repeat (apply BalanceOf_tracked || (progress track)).
Qed.

(** [ConvertERC20] and [ConvertCoin] after the address was parsed. *)
Lemma convert_steps {A} r tok (del : TokenPair → M ES A) (conv : TokenPair → M ES A) s :
  (∀ p s, registered p s → rtc store_step (e_store s) (e_store (del p s).1)) →
  (∀ p st0, preserves (tracked st0) (conv p)) →
  rtc store_step (e_store s) (e_store (
    (let! p := MintingEnabled r tok in
     if IsNativeERC20 p then let! gone := contract_gone p in if gone then del p else conv p
     else if IsNativeCoin p then throw (errorf ErrNativeConversionDisabled "native coins manual conversion is disabled")
     else throw (errorf ErrUndefinedOwner "undefined owner of contract pair")) s).1).
Proof.
  intros Hdel Hconv. eapply bind_kept; [intros ??; apply MintingEnabled_kept|]. intros p s1 Hp.
  destruct (IsNativeERC20 p); [|by destruct (IsNativeCoin p)].
  apply (bind_kept _ _ (λ _, registered p)); [intros ?? E; by apply (contract_gone_kept p p _ _ _ E)|].
  intros [] s2 Hp2; [by apply Hdel|]. apply tracked_run. intros. apply Hconv.
Qed.

Lemma must_outcome_kept {A C} (o : outcome A) why (f : A → M ES C) s :
  (∀ a, rtc store_step (e_store s) (e_store (f a s).1)) →
  rtc store_step (e_store s) (e_store (bind (must (of_outcome o) why) f s).1).
Proof. intros Hf. unfold bind, must, of_outcome. by destruct o; [apply Hf|..]. Qed.

Lemma ConvertERC20_steps msg (s : ES) : rtc store_step (e_store s) (e_store (ConvertERC20 ModuleAddress msg s).1).
Proof.
  apply must_outcome_kept. intros a. apply convert_steps.
  - intros p s1 Hp. unfold bind. by apply delete_steps in Hp.
  - intros p st0. track. apply convert_in_tracked.
Qed.

Lemma ConvertCoin_steps msg (s : ES) : rtc store_step (e_store s) (e_store (ConvertCoin ModuleAddress msg s).1).
Proof.
  apply must_outcome_kept. intros a. apply convert_steps; [apply delete_steps|]. intros. apply convert_out_tracked.
Qed.

Lemma register_one_tracked st0 a : preserves (tracked st0) (register_one ModuleAddress a).
Proof.
  unfold register_one, registerERC20, CreateCoinMetadata, wrap_error. track; try apply QueryERC20_tracked.
  apply tracked_store. intros st. apply SetToken_steps, IsHexAddress_String.
Qed.

Lemma RegisterERC20_tracked st0 signer l : preserves (tracked st0) (RegisterERC20 authority ModuleAddress signer l).
Proof. unfold RegisterERC20, validateAuthority. track. apply register_one_tracked. Qed.

Lemma toggle_steps tok (s : ES) : rtc store_step (e_store s) (e_store (toggleConversion tok s).1).
Proof.
  unfold toggleConversion. rewrite (bind_Ok (gets _) _ s s _ eq_refl). destruct (no_id _); [done|].
  destruct (GetTokenPair _ _) as [p|] eqn:Ep; [|done]. apply GetTokenPair_inv in Ep as (i & _ & Ep).
  by apply rtc_once, (step_toggle i p).
Qed.

Lemma ToggleConversion_tracked st0 req tok : preserves (tracked st0) (ToggleConversion authority req tok).
Proof.
  unfold ToggleConversion, validateAuthority. track. intros s Hs. unfold tracked. etrans; [exact Hs|apply toggle_steps].
Qed.

(** ** Packets *)

Lemma preserves_outcome {S A C} (I : S → Prop) (o : outcome A) (f : A → M S C) :
  (∀ a, o = Ok a → preserves I (f a)) → preserves I (bind (of_outcome o) f).
Proof. intros Hf s Hs. unfold bind, of_outcome. by destruct o; [apply Hf|..]. Qed.

Lemma new_pair_hex d p : NewTokenPairSTRv2 d = Ok p → IsHexAddress (Erc20Address p) = true.
Proof. unfold NewTokenPairSTRv2. destruct (GetIBCDenomAddress d); [|done..]. intros [= <-]. apply IsHexAddress_String. Qed.

Lemma extension_tracked st0 d : preserves (tracked st0) (RegisterERC20Extension Erc20Bytecode d).
Proof.
  unfold RegisterERC20Extension. track; [|apply EnableDynamic_tracked].
  unfold CreateNewTokenPair. apply preserves_outcome. intros p Hp%new_pair_hex. track.
  apply tracked_store. intros st. by apply SetToken_steps.
Qed.

Lemma or_error_ack_tracked st0 m :
  preserves (tracked st0) m → preserves (tracked st0) (or_error_ack NewErrorAcknowledgement m).
Proof. intros Hm s Hs. unfold or_error_ack. specialize (Hm s Hs). by destruct (m s) as [s1 []]. Qed.

Lemma tracked_minting st0 r tok : preserves (tracked st0) (MintingEnabled r tok).
Proof. unfold MintingEnabled. track. Qed.

Lemma OnRecvPacket_tracked st0 packet ack :
  preserves (tracked st0) (OnRecvPacket ModuleAddress Erc20Bytecode NewErrorAcknowledgement packet ack).
Proof.
  unfold OnRecvPacket, recv_native, wrap_error.
  repeat (apply or_error_ack_tracked || apply extension_tracked || apply tracked_minting || apply convert_out_tracked
    || (progress track)).
Qed.

Lemma refund_tracked st0 data : preserves (tracked st0) (ConvertCoinToERC20FromPacket ModuleAddress data).
Proof.
  unfold ConvertCoinToERC20FromPacket. repeat (apply convert_out_tracked || (progress track)).
Qed.

(** ** Histories *)

(** A message, a packet callback, a call of the keeper by a token precompile or by
    the upgrade of a precompile, or any run of contracts. *)
Inductive erc20_op : Type :=
  | OpConvertERC20 (msg : MsgConvertERC20)
  | OpConvertCoin (msg : MsgConvertCoin)
  | OpRegisterERC20 (signer : string) (addresses : list string)
  | OpToggleConversion (requester token : string)
  | OpUpdateParams (requester : string) (params : Erc20Params)
  | OpRecvPacket (packet : Packet) (ack : Ack)
  | OpAcknowledgement (data : FungibleTokenPacketData) (error : bool)
  | OpTimeout (data : FungibleTokenPacketData)
  | OpSetAllowance (erc20 owner spender : Address) (value : option Z)
  | OpRegisterExtension (denom : string)
  | OpEnableNative (a : Address)
  | OpDisablePrecompile (a : Address)
  | OpEvm (from : Address) (to : option Address) (data : bytes).

Definition discard {A} (m : M ES A) : M ES unit := m >>! ret tt.

Definition run_op (op : erc20_op) : M ES unit :=
  match op with
  | OpConvertERC20 msg => discard (ConvertERC20 ModuleAddress msg)
  | OpConvertCoin msg => ConvertCoin ModuleAddress msg
  | OpRegisterERC20 signer l => RegisterERC20 authority ModuleAddress signer l
  | OpToggleConversion r tok => ToggleConversion authority r tok
  | OpUpdateParams r ps => UpdateParams authority r ps
  | OpRecvPacket packet ack => discard (OnRecvPacket ModuleAddress Erc20Bytecode NewErrorAcknowledgement packet ack)
  | OpAcknowledgement data b => OnAcknowledgementPacket ModuleAddress data b
  | OpTimeout data => OnTimeoutPacket ModuleAddress data
  | OpSetAllowance e o sp v => store (SetAllowance e o sp v)
  | OpRegisterExtension d => discard (RegisterERC20Extension Erc20Bytecode d)
  | OpEnableNative a => EnableNativePrecompile Erc20Bytecode a
  | OpDisablePrecompile a => store (modify (DeleteNativePrecompile a)) >>! store (modify (DeleteDynamicPrecompile a))
  | OpEvm from to data => discard (evk_CallEVMWithData from to data true None)
  end.

(** The state after the calls, whether they return or fail; the SDK discards what a
    failed message wrote, so this allows more states than a chain has. *)
Definition run_ops (ops : list erc20_op) (s : ES) : ES := foldl (λ s op, (run_op op s).1) s ops.

Lemma run_op_steps op (s : ES) : rtc store_step (e_store s) (e_store (run_op op s).1).
Proof.
  apply tracked_run. intros st0. destruct op; cbn [run_op];
    unfold discard, UpdateParams, OnAcknowledgementPacket, OnTimeoutPacket, SetAllowance.
  - intros s' Hs. unfold bind, tracked in *. etrans; [exact Hs|]. generalize (ConvertERC20_steps msg s').
    by destruct (ConvertERC20 ModuleAddress msg s') as [? []].
  - intros s' Hs. unfold tracked in *. etrans; [exact Hs|apply ConvertCoin_steps].
  - apply RegisterERC20_tracked.
  - apply ToggleConversion_tracked.
  - track. apply modify_step, step_params.
  - track. apply OnRecvPacket_tracked.
  - track. apply refund_tracked.
  - apply refund_tracked.
  - apply tracked_store, setAllowance_steps.
  - track. apply extension_tracked.
  - apply EnableNative_tracked.
  - track; apply modify_step; [apply step_native_off|apply step_dynamic_off].
  - track.
Qed.

Lemma run_ops_steps ops (s : ES) : rtc store_step (e_store s) (e_store (run_ops ops s)).
Proof.
  revert s. induction ops as [|op ops IH]; intros s; [done|]. etrans; [apply (run_op_steps op)|apply IH].
Qed.

(** ** Genesis *)

Lemma validate_pairs_hex l e d r :
  validate_pairs l e d = Ok r → Forall (λ p, IsHexAddress (Erc20Address p) = true) l.
Proof.
  revert e d. induction l as [|p l IH]; intros e d; [constructor|]. cbn.
  case_bool_decide; [done|]. case_bool_decide; [done|]. unfold TokenPair_Validate, ValidateAddress.
  destruct (negb _); [done|]. destruct (IsHexAddress _) eqn:Ex; [|done]. constructor; [done|by eapply IH].
Qed.

Lemma init_pairs_tracked st0 l :
  Forall (λ p, IsHexAddress (Erc20Address p) = true) l → preserves (tracked st0) (init_pairs (Host := Host) l).
Proof.
  induction 1; cbn; track; [|done]. apply tracked_store. intros st. by apply SetToken_steps.
Qed.

Lemma InitGenesis_steps gs (s : ES) :
  Erc20Genesis_Validate gs = Ok tt → rtc store_step (e_store s) (e_store (InitGenesis Erc20Bytecode gs s).1).
Proof.
  intros Hv. apply tracked_run. intros st0. unfold Erc20Genesis_Validate in Hv.
  destruct (validate_pairs _ _ _) as [r|e|w] eqn:Ep; [|done..]. apply validate_pairs_hex in Ep.
  unfold InitGenesis, init_allowance. track.
  - apply modify_step, step_params.
  - by apply init_pairs_tracked.
  - apply EnableNative_tracked.
  - apply EnableDynamic_tracked.
  - apply tracked_store, setAllowance_steps.
Qed.
End machine.
