(* ===== verification/Erc20Conv.v ===== *)
(** Conversions between an ERC-20 token and its coin: what a successful conversion
    moves, and that coins never outnumber the tokens in escrow.  The bank and the
    token are interfaces: [Erc20BankLaws] states what conversions rely on of the bank,
    which Erc20Chain.v proves of x/precisebank over x/bank, and [StandardToken] what
    they rely on of the contract. *)

From S2P Require Import Prelude.
From S2P Require Import Sdk.
From S2P Require Import PreciseBankGenesis.
From S2P Require Import AccessList.
From S2P Require Import StateDB.
From S2P Require Import VmKeeper.
From S2P Require Import VmParams.
From S2P Require Import Precompile.
From S2P Require Import Transition.
From S2P Require Import Erc20Denoms.
From S2P Require Import Erc20.
From S2P Require Import Erc20Msgs.
From S2P Require Import Erc20Reg.

(** * The bank *)

(** The bank as conversions see it: [plain] denominations are those it stores as they
    are.  Every operation is on one positive coin. *)
Class Erc20BankLaws (Host : Type) `{SdkTypes, AccountKeeper, !Erc20Bank Host, !Erc20Evm Host} : Type := {
  plain : denom → Prop;
  coin_balance : Host → addr → denom → Z;
  coin_supply : Host → denom → Z;
  balance_read a d h h' c :
    plain d → eb_GetBalance a d h = (h', Ok c) → h' = h ∧ c = mkCoin d (coin_balance h a d);
  enabled_read c h h' b : eb_IsSendEnabledCoin c h = (h', Ok b) → h' = h;
  account_read a h h' acc : evk_GetAccountWithoutBalance a h = (h', Ok acc) → h' = h;
  mint_moves d n h h' :
    plain d → 0 < n → eb_MintCoins Erc20ModuleName [mkCoin d n] h = (h', Ok tt) →
    coin_supply h' d = coin_supply h d + n ∧
    ∀ a, coin_balance h' a d = coin_balance h a d + if decide (a = GetModuleAddress Erc20ModuleName) then n else 0;
  burn_moves d n h h' :
    plain d → 0 < n → eb_BurnCoins Erc20ModuleName [mkCoin d n] h = (h', Ok tt) →
    coin_supply h' d = coin_supply h d - n ∧
    ∀ a, coin_balance h' a d = coin_balance h a d - if decide (a = GetModuleAddress Erc20ModuleName) then n else 0;
  pay_moves r d n h h' :
    plain d → 0 < n → eb_SendCoinsFromModuleToAccount Erc20ModuleName r [mkCoin d n] h = (h', Ok tt) →
    coin_supply h' d = coin_supply h d ∧
    ∀ a, coin_balance h' a d = coin_balance h a d + (if decide (a = r) then n else 0)
      - if decide (a = GetModuleAddress Erc20ModuleName) then n else 0;
  escrow_moves r d n h h' :
    plain d → 0 < n → eb_SendCoinsFromAccountToModule r Erc20ModuleName [mkCoin d n] h = (h', Ok tt) →
    coin_supply h' d = coin_supply h d ∧
    ∀ a, coin_balance h' a d = coin_balance h a d + (if decide (a = GetModuleAddress Erc20ModuleName) then n else 0)
      - if decide (a = r) then n else 0
}.

Section conversions.
Context `{SdkTypes, !SdkTypesLaws, AccountKeeper, AddrCodec, Crypto, GethAddress, GethHex, SdkEvents, IbcTransfer, TmHash}.
Context {Host : Type} `{!Erc20Bank Host, !Erc20Evm Host, !Erc20Accounts Host, Erc20ABI}.
Context `{!Erc20BankLaws Host}.
Context (ModuleAddress : Address).
Implicit Types (p : TokenPair) (h : Host) (d : denom).

Abbreviation ES := (Erc20State Host).
Abbreviation escrow := (GetModuleAddress Erc20ModuleName).

(** The bank operations of a conversion. *)
Inductive bank_moves d : Host → Host → Prop :=
  | bm_mint n h h' : eb_MintCoins Erc20ModuleName [mkCoin d n] h = (h', Ok tt) → bank_moves d h h'
  | bm_burn n h h' : eb_BurnCoins Erc20ModuleName [mkCoin d n] h = (h', Ok tt) → bank_moves d h h'
  | bm_pay r n h h' : eb_SendCoinsFromModuleToAccount Erc20ModuleName r [mkCoin d n] h = (h', Ok tt) → bank_moves d h h'
  | bm_escrow r n h h' : eb_SendCoinsFromAccountToModule r Erc20ModuleName [mkCoin d n] h = (h', Ok tt) → bank_moves d h h'.

(** [h'] has the coins of [h] of denomination [d]. *)
Definition same_coins_of d h h' : Prop :=
  coin_supply h' d = coin_supply h d ∧ ∀ a, coin_balance h' a d = coin_balance h a d.

(** * The token *)

(** A contract that keeps an ERC-20 ledger [tok_balance]: it answers [balanceOf] from
    it, a transfer it executes takes no more than the amount from the caller, and it
    has nothing to do with the coins of denomination [d]. *)
Record StandardToken (contract : Address) d : Type := {
  tok_balance : Host → Address → Z;
  tok_read a (s s' : ES) n :
    BalanceOf ModuleAddress contract a s = (s', Ok (Some n)) →
    n = tok_balance (e_host s) a ∧ (∀ x, tok_balance (e_host s') x = tok_balance (e_host s) x) ∧
    same_coins_of d (e_host s) (e_host s');
  tok_call_data from to n data (s s' : ES) res :
    Pack_transfer to n = Ok data → evk_CallEVMWithData from (Some contract) data true None s = (s', Ok res) →
    tok_balance (e_host s) from - n ≤ tok_balance (e_host s') from ∧ same_coins_of d (e_host s) (e_host s');
  tok_call from to n (s s' : ES) res :
    evk_CallEVM (Pack_transfer to n) from contract true None s = (s', Ok res) →
    tok_balance (e_host s) from - n ≤ tok_balance (e_host s') from ∧ same_coins_of d (e_host s) (e_host s');
  tok_bank h h' : bank_moves d h h' → ∀ x, tok_balance h' x = tok_balance h x
}.
Arguments tok_balance {contract d}.
Arguments tok_read {contract d}.
Arguments tok_call_data {contract d}.
Arguments tok_call {contract d}.
Arguments tok_bank {contract d}.

(** * Runs of the parts *)

Lemma host_Ok {A} (m : M Host A) (s s' : ES) a :
  host m s = (s', Ok a) → ∃ h', m (e_host s) = (h', Ok a) ∧ s' = set_host h' s.
Proof. unfold host, zoom. destruct (m (e_host s)) as [h' o]. intros [= <- ->]. eauto. Qed.

Lemma check_transfer_inv res c why (s s' : ES) u : check_transfer res c why s = (s', Ok u) → s' = s.
Proof.
  unfold check_transfer. destruct (_ =? _)%nat; [by intros [= <- _]|]. intros E.
  apply bind_Ok_inv in E as (s1 & b & E1 & E). injection E1 as <- _. destruct (negb b); [done|by injection E].
Qed.

Section token.
Context {contract : Address} {d : denom} (T : StandardToken contract d) (Hplain : plain d).

Lemma read_balance_inv a (s s' : ES) n :
  read_balance ModuleAddress contract a s = (s', Ok n) →
  n = tok_balance T (e_host s) a ∧ (∀ x, tok_balance T (e_host s') x = tok_balance T (e_host s) x) ∧
  same_coins_of d (e_host s) (e_host s').
Proof.
  intros E. apply bind_Ok_inv in E as (s1 & [b|] & E1 & E); [|done]. injection E as <- <-. by apply (tok_read T).
Qed.

Context (p : TokenPair) (Hc : GetERC20Contract p = contract) (Hd : tp_Denom p = d).

(** Tokens become coins: the receiver has the amount more, the coins in circulation
    and the tokens in escrow grow by it. *)
Lemma convert_in_spec msg r sender (s s' : ES) u :
  0 < mce_Amount msg → convertERC20IntoCoinsForNativeToken ModuleAddress p msg r sender s = (s', Ok u) →
  coin_balance (e_host s') r d = coin_balance (e_host s) r d + mce_Amount msg ∧
  coin_supply (e_host s') d = coin_supply (e_host s) d + mce_Amount msg ∧
  tok_balance T (e_host s') ModuleAddress = tok_balance T (e_host s) ModuleAddress + mce_Amount msg.
Proof.
  intros Hn E. unfold convertERC20IntoCoinsForNativeToken in E. rewrite Hc, Hd in E.
  apply bind_Ok_inv in E as (s1 & c & (h1 & Eb & ->)%host_Ok & E). apply balance_read in Eb as [-> ->]; [|done].
  apply bind_Ok_inv in E as (s2 & n & (-> & Ht2 & Hs2)%read_balance_inv & E).
  apply bind_Ok_inv in E as (s3 & data & [= <- Epack] & E).
  apply bind_Ok_inv in E as (s4 & res & (_ & Hs4)%(tok_call_data T _ _ _ _ _ _ _ Epack) & E).
  apply bind_Ok_inv in E as (s5 & [] & ->%check_transfer_inv & E).
  apply bind_Ok_inv in E as (s6 & n6 & (-> & Ht6 & Hs6)%read_balance_inv & E).
  destruct (Z.eqb_spec (tok_balance T (e_host s4) ModuleAddress)
              (tok_balance T (e_host (set_host (e_host s) s)) ModuleAddress + mce_Amount msg)) as [Et|]; [|done].
  apply bind_Ok_inv in E as (s7 & [] & (h7 & Em & ->)%host_Ok & E). pose proof (bm_mint _ _ _ _ Em) as Bm.
  apply mint_moves in Em as [Hms _]; [|done..].
  apply bind_Ok_inv in E as (s8 & [] & (h8 & Ep & ->)%host_Ok & E). pose proof (bm_pay _ _ _ _ _ Ep) as Bp.
  apply pay_moves in Ep as [Hps _]; [|done..].
  apply bind_Ok_inv in E as (s9 & c9 & (h9 & Eb9 & ->)%host_Ok & E). apply balance_read in Eb9 as [-> ->]; [|done].
  apply bind_Ok_inv in E as (s10 & exp & Ee & E). rewrite bool_decide_eq_false_2 in Ee by (intros []; done).
  apply ichk_inv in Ee as [-> ->]. case_bool_decide as Ec; [|done]. injection Ec as Ec.
  injection E as <- _. cbn in *. destruct Hs2 as [Hs2 _], Hs4 as [Hs4 _], Hs6 as [Hs6 _].
  split_and!; [done|lia|]. rewrite (tok_bank T _ _ Bp), (tok_bank T _ _ Bm), Ht6. lia.
Qed.

(** Coins become tokens: the receiver has the amount more, the coins are gone, and
    the escrow gave no more than the amount. *)
Lemma convert_out_spec n r sender (s s' : ES) u :
  ConvertCoinNativeERC20 ModuleAddress p (Some n) r sender s = (s', Ok u) →
  0 < n ∧ tok_balance T (e_host s') r = tok_balance T (e_host s) r + n ∧
  coin_supply (e_host s') d = coin_supply (e_host s) d - n ∧
  (sender ≠ escrow → coin_balance (e_host s') sender d = coin_balance (e_host s) sender d - n) ∧
  tok_balance T (e_host s) ModuleAddress - n ≤ tok_balance T (e_host s') ModuleAddress.
Proof.
  intros E. cbn in E. destruct (Z.leb_spec n 0) as [|Hn]; [done|]. rewrite Hc, Hd in E.
  apply bind_Ok_inv in E as (s1 & m & (-> & Ht1 & Hs1)%read_balance_inv & E).
  apply bind_Ok_inv in E as (s2 & [] & (h2 & Ee & ->)%on_error_Ok_inv%host_Ok & E).
  pose proof (bm_escrow _ _ _ _ _ Ee) as Be. apply escrow_moves in Ee as [Hes Heb]; [|done..].
  apply bind_Ok_inv in E as (s3 & res & (Hm3 & Hs3)%(tok_call T) & E).
  apply bind_Ok_inv in E as (s4 & [] & ->%check_transfer_inv & E).
  apply bind_Ok_inv in E as (s5 & n5 & (-> & Ht5 & Hs5)%read_balance_inv & E).
  destruct (Z.eqb_spec (tok_balance T (e_host s3) r) (tok_balance T (e_host s) r + n)) as [Et|]; [|done].
  apply on_error_Ok_inv in E. apply host_Ok in E as (h6 & Eb & ->). destruct u.
  pose proof (bm_burn _ _ _ _ Eb) as Bb. apply burn_moves in Eb as [Hbs Hbb]; [|done..].
  cbn in *. destruct Hs1 as [Hs1 Hb1], Hs3 as [Hs3 Hb3], Hs5 as [Hs5 Hb5].
  split_and!; [done| |lia| |].
  - by rewrite (tok_bank T _ _ Bb), Ht5.
  - intros Hne. rewrite Hbb, Hb5, Hb3, Heb, Hb1. rewrite !(decide_False (P := sender = escrow)) by done.
    rewrite decide_True by done. lia.
  - rewrite (tok_bank T _ _ Bb), Ht5. rewrite <-Ht1, <-(tok_bank T _ _ Be). exact Hm3.
Qed.
End token.

(** * Messages *)

(** The gate lets a conversion through exactly when the module and the pair are
    enabled, the receiver is not blocked and transfers of the coin are enabled. *)
Lemma MintingEnabled_inv r tok (s s' : ES) p :
  MintingEnabled r tok s = (s', Ok p) →
  s' = s ∧ find_pair (e_store s) tok = Some p ∧ es_EnableErc20 (e_store s) = true ∧ Enabled p = true ∧
  eb_BlockedAddr r = false ∧ eb_IsSendEnabledCoin (mkCoin (tp_Denom p) 0) (e_host s) = (e_host s, Ok true).
Proof.
  unfold MintingEnabled, find_pair. rewrite (bind_Ok (gets _) _ s s _ eq_refl).
  destruct (es_EnableErc20 _); [|done]. cbn [negb]. destruct (no_id _); [done|].
  destruct (GetTokenPair _ _) as [q|]; [|done]. destruct (Enabled q) eqn:En; [|done]. cbn [negb].
  destruct (eb_BlockedAddr r); [done|]. intros E. apply bind_Ok_inv in E as (s1 & b & (h1 & Eb & ->)%host_Ok & E).
  destruct b; [|done]. injection E as <- <-. pose proof Eb as ->%enabled_read. by destruct s.
Qed.

Lemma contract_gone_inv p (s s' : ES) b : contract_gone p s = (s', Ok b) → s' = s.
Proof.
  intros E. apply bind_Ok_inv in E as (s1 & acc & (h1 & Ea & ->)%host_Ok & E). injection E as <- _.
  apply account_read in Ea as ->. by destruct s.
Qed.

Lemma ConvertERC20_inv msg (s s' : ES) b :
  ConvertERC20 ModuleAddress msg s = (s', Ok b) →
  ∃ r p, AccAddressFromBech32 (mce_Receiver msg) = Ok r ∧ MintingEnabled r (mce_ContractAddress msg) s = (s, Ok p) ∧
    IsNativeERC20 p = true ∧
    if b then convertERC20IntoCoinsForNativeToken ModuleAddress p msg r (HexToAddress (mce_Sender msg)) s = (s', Ok tt)
    else s' = set_store (DeleteTokenPair p (e_store s)) s.
Proof.
  intros E. apply bind_Ok_inv in E as (s1 & r & E1%must_Ok_inv & E). injection E1 as <- Er.
  apply bind_Ok_inv in E as (s2 & p & Em & E). pose proof Em as [-> _]%MintingEnabled_inv.
  exists r, p. destruct (IsNativeERC20 p); [|by destruct (IsNativeCoin p)].
  apply bind_Ok_inv in E as (s3 & [] & ->%contract_gone_inv & E).
  - by injection E as <- <-.
  - apply bind_Ok_inv in E as (s4 & [] & Ec & E). by injection E as <- <-.
Qed.

Lemma ConvertCoin_inv msg (s s' : ES) :
  ConvertCoin ModuleAddress msg s = (s', Ok tt) →
  ∃ sender p, AccAddressFromBech32 (mcc_Sender msg) = Ok sender ∧
    MintingEnabled (Address_Bytes (HexToAddress (mcc_Receiver msg))) (Denom (mcc_Coin msg)) s = (s, Ok p) ∧
    IsNativeERC20 p = true ∧
    (s' = set_store (DeleteTokenPair p (e_store s)) s ∨
     ConvertCoinNativeERC20 ModuleAddress p (Some (Amount (mcc_Coin msg))) (HexToAddress (mcc_Receiver msg)) sender s = (s', Ok tt)).
Proof.
  intros E. apply bind_Ok_inv in E as (s1 & r & E1%must_Ok_inv & E). injection E1 as <- Er.
  apply bind_Ok_inv in E as (s2 & p & Em & E). pose proof Em as [-> _]%MintingEnabled_inv.
  exists r, p. destruct (IsNativeERC20 p); [|by destruct (IsNativeCoin p)].
  apply bind_Ok_inv in E as (s3 & [] & ->%contract_gone_inv & E); [|by auto].
  injection E as <-. auto.
Qed.

Section history.
Context {contract : Address} {d : denom} (T : StandardToken contract d) (Hplain : plain d).
Context (p : TokenPair) (Hc : GetERC20Contract p = contract) (Hd : tp_Denom p = d).

(** The coins in circulation are covered by the tokens in escrow. *)
Definition backed (s : ES) : Prop := coin_supply (e_host s) d ≤ tok_balance T (e_host s) ModuleAddress.

(** Conversions of the pair, in either direction, and anything else that neither
    creates the coin nor takes tokens from the escrow. *)
Inductive pair_step : ES → ES → Prop :=
  | ps_in msg s s' b :
      MsgConvertERC20_ValidateBasic msg = Ok tt → find_pair (e_store s) (mce_ContractAddress msg) = Some p →
      ConvertERC20 ModuleAddress msg s = (s', Ok b) → pair_step s s'
  | ps_out msg s s' :
      find_pair (e_store s) (Denom (mcc_Coin msg)) = Some p →
      ConvertCoin ModuleAddress msg s = (s', Ok tt) → pair_step s s'
  | ps_recv n r sender s s' :
      ConvertCoinNativeERC20 ModuleAddress p n r sender s = (s', Ok tt) → pair_step s s'
  | ps_other s s' :
      coin_supply (e_host s') d ≤ coin_supply (e_host s) d →
      tok_balance T (e_host s) ModuleAddress ≤ tok_balance T (e_host s') ModuleAddress → pair_step s s'.

Lemma ValidateBasic_amount msg : MsgConvertERC20_ValidateBasic msg = Ok tt → 0 < mce_Amount msg.
Proof. unfold MsgConvertERC20_ValidateBasic. destruct (negb _); [done|]. by destruct (Z.leb_spec (mce_Amount msg) 0). Qed.

Lemma convert_out_backed n r sender s s' :
  ConvertCoinNativeERC20 ModuleAddress p n r sender s = (s', Ok tt) → backed s → backed s'.
Proof.
  unfold backed. destruct n as [n|]; [|done].
  intros (_ & _ & Hs & _ & Ht)%(convert_out_spec T Hplain p Hc Hd) Hb. lia.
Qed.

Lemma pair_step_backed s s' : pair_step s s' → backed s → backed s'.
Proof.
  unfold backed. destruct 1 as [msg s s' b Hv Hf E|msg s s' Hf E|n r sender s s' E|]; [| |by apply (convert_out_backed n r sender)|lia].
  - apply ConvertERC20_inv in E as (r & q & _ & (_ & Hq & _)%MintingEnabled_inv & _ & E).
    assert (q = p) as -> by congruence. destruct b; [|by subst s'].
    apply (convert_in_spec T Hplain p Hc Hd) in E as (_ & -> & ->); [lia|by apply ValidateBasic_amount].
  - apply ConvertCoin_inv in E as (sender & q & _ & (_ & Hq & _)%MintingEnabled_inv & _ & E).
    assert (q = p) as -> by congruence. destruct E as [->|E]; [done|]. by apply (convert_out_backed _ _ _ _ _ E).
Qed.

Lemma pair_history_backed s s' : rtc pair_step s s' → backed s → backed s'.
Proof. induction 1; eauto using pair_step_backed. Qed.
End history.
End conversions.

Arguments tok_balance {H H1 Host Erc20Bank0 Erc20Evm0 H9 Erc20BankLaws0 ModuleAddress contract d}.
