(* ===== verification/Erc20Chain.v ===== *)
(** x/erc20 on the rest of the chain: its bank is x/precisebank over x/bank, its EVM
    keeper is x/vm, as integra/app.go wires them.  The contract calls are those of
    Transition.v, with the token precompiles the store of x/erc20 names; what such a
    precompile writes to that store is not part of the state the EVM runs on there.
    The bank discharges the laws conversions rely on. *)

From S2P Require Import Prelude.
From S2P Require Import Sdk.
From S2P Require Import SdkAuth.
From S2P Require Import EvmDenom.
From S2P Require Import PreciseBank.
From S2P Require Import AccessList.
From S2P Require Import StateDB.
From S2P Require Import VmKeeper.
From S2P Require Import Dec.
From S2P Require Import FeeMarket.
From S2P Require Import TxFees.
From S2P Require Import AnteEvm.
From S2P Require Import VmParams.
From S2P Require Import Precompile.
From S2P Require Import Transition.
From S2P Require Import Erc20Denoms.
From S2P Require Import Erc20.
From S2P Require Import Erc20Msgs.
From S2P Require Import Erc20Reg.
From S2P Require Import Erc20Conv.

(** The metadata of coins, in x/bank. *)
Class BankMetadata (B : Type) : Type := {
  bk_GetDenomMetaData : B → denom → option Metadata;
  bk_SetDenomMetaData : Metadata → M B unit
}.

Section chain.
Context `{SdkTypes, !SdkTypesLaws, AccountKeeper, !AccountKeeperLaws} {B : Type} `{!BankKeeper B, !BankKeeperLaws B, !BankMetadata B}.
Context `{AuthKeeper B, Crypto, GethAddress, GethTx, !GethConfig, DecTypes, ParamsCodec, GethParams}.
Context `{GethHex, VmLibraries, StakingKeeper, SdkEvents} {Contract : Type} `{!GethEVM (VmState B) Contract}.
Context {G : Type} `{!GasMeterOps G}.
Context (info : EvmCoinInfo) (precompiles : gmap Address Contract) (Contract_Address : Contract → Address).
(** [NewPrecompile] of precompiles/erc20 and precompiles/werc20 *)
Context (new_precompile : Erc20Precompile → Contract) (ctx : TransCtx).

Abbreviation Host := (TxState B G).

(** A call of x/precisebank. *)
Definition pbank {A} (m : M (PState B) A) : M Host A := stores (store_vm (VmKeeper.pb m)).

#[local] Instance chain_bank : Erc20Bank Host := {|
  eb_GetBalance a d := pbank (PreciseBank.GetBalance info a d);
  eb_IsSendEnabledCoin c := pbank (PreciseBank.IsSendEnabledCoin info c);
  eb_BlockedAddr := bk_BlockedAddr;
  eb_MintCoins m cs := pbank (PreciseBank.MintCoins info m cs);
  eb_BurnCoins m cs := pbank (PreciseBank.BurnCoins info m cs);
  eb_SendCoinsFromModuleToAccount m a cs := pbank (PreciseBank.SendCoinsFromModuleToAccount info m a cs);
  eb_SendCoinsFromAccountToModule a m cs := pbank (PreciseBank.SendCoinsFromAccountToModule info a m cs);
  eb_GetDenomMetaData d := pbank (gets (λ s, bk_GetDenomMetaData (ps_bank s) d));
  eb_SetDenomMetaData md := pbank (bank (bk_SetDenomMetaData md))
|}.

(** What [erc20Keeper] of x/vm is given: the precompiles the store names. *)
Definition token_precompiles (st : Erc20Store) (a : Address) : outcome (option Contract) :=
  match GetERC20PrecompileInstance st a with
  | Ok r => Ok (new_precompile <$> r)
  | Err e => Err e
  | Panic w => Panic w
  end.

#[local] Instance chain_evm : Erc20Evm Host := {|
  evk_GetAccount a := stores (store_vm (VmKeeper.GetAccount info a));
  evk_GetAccountWithoutBalance a := stores (store_vm (VmKeeper.GetAccountWithoutBalance a));
  evk_GetCode h := stores (store_vm (VmKeeper.GetCode h));
  evk_SetCode h code := stores (store_vm (modify (VmKeeper.SetCode h code)));
  evk_SetAccount a acc := stores (store_vm (VmKeeper.SetAccount info a acc));
  evk_CallEVMWithData from to data commit cap := λ s,
    host (CallEVMWithData info BytesToAddress precompiles Contract_Address (Some (token_precompiles (e_store s))) ctx
            from to data commit cap) s;
  evk_CallEVM pack from to commit cap := λ s,
    host (CallEVM info BytesToAddress precompiles Contract_Address (Some (token_precompiles (e_store s))) ctx
            pack from to commit cap) s
|}.

(** * The bank keeps its promises *)

Abbreviation pb_of h := (vs_pb (an_vm (st_ante (ts_stores h)))).

Lemma pbank_run {A} (m : M (PState B) A) (h h' : Host) o :
  pbank m h = (h', o) → m (pb_of h) = (pb_of h', o).
Proof.
  unfold pbank, stores, store_vm, ante, vm, VmKeeper.pb, zoom. destruct (m (pb_of h)) as [x r]. by intros [= <- ->].
Qed.

(** A call that reads leaves the whole state as it is. *)
Lemma pbank_read {A} (m : M (PState B) A) (h h' : Host) o :
  m (pb_of h) = (pb_of h, o) → pbank m h = (h', o) → h' = h.
Proof.
  intros E. unfold pbank, stores, store_vm, ante, vm, VmKeeper.pb, zoom. rewrite E. intros [= <-].
  destruct h as [[[[] ] ] ]; done.
Qed.

Definition plain_denom (d : denom) : Prop := valid_denom d = true ∧ d ≠ eci_ExtendedDenom info.

Section one_coin.
Context (d : denom) (n : Z) (Hd : plain_denom d) (Hn : 0 < n).

Lemma one_valid : Coins_IsValid [mkCoin d n] = true.
Proof. rewrite <-NewCoins_single by apply Hd || done. apply NewCoins_valid; [apply Hd|done]. Qed.

Lemma one_amount e : Coins_AmountOf [mkCoin d n] e = if decide (e = d) then n else 0.
Proof. rewrite <-(NewCoins_single d n) by apply Hd || done. apply NewCoins_amount; [apply Hd|done]. Qed.

Lemma one_nonempty : Coins_Empty [mkCoin d n] = false.
Proof.
  destruct (Coins_Empty [mkCoin d n]) eqn:E; [|done]. apply (Empty_amount _ d) in E. rewrite one_amount in E.
  rewrite decide_True in E by done. lia.
Qed.

Lemma one_split (s : PState B) : split_coins info [mkCoin d n] s = (s, Ok ([mkCoin d n], 0)).
Proof. unfold split_coins, ExtendedCoinDenom. rewrite one_amount, decide_False by (intros E; by destruct Hd). done. Qed.

Lemma SendCoins_one from to (s : PState B) :
  PreciseBank.SendCoins info from to [mkCoin d n] s = bank (bk_SendCoins from to [mkCoin d n]) s.
Proof.
  unfold PreciseBank.SendCoins. rewrite one_valid. cbn [negb]. rewrite (bind_Ok _ _ _ _ _ (one_split s)).
  rewrite IsAllPositive_valid, one_nonempty by apply one_valid. cbn.
  unfold bind. by destruct (bank _ s) as [s' [[]|e|w]].
Qed.

Lemma MintCoins_one m (s s' : PState B) :
  PreciseBank.MintCoins info m [mkCoin d n] s = (s', Ok tt) → bank (bk_MintCoins m [mkCoin d n]) s = (s', Ok tt).
Proof.
  unfold PreciseBank.MintCoins. case_bool_decide; [done|]. destruct (GetModuleAccount m); [|done].
  destruct (negb _); [done|]. rewrite one_valid. cbn [negb]. rewrite (bind_Ok _ _ _ _ _ (one_split s)), one_nonempty.
  cbn. intros E. apply bind_Ok_inv in E as (s1 & [] & E1 & E). by injection E as <-.
Qed.

Lemma BurnCoins_one m (s s' : PState B) :
  PreciseBank.BurnCoins info m [mkCoin d n] s = (s', Ok tt) → bank (bk_BurnCoins m [mkCoin d n]) s = (s', Ok tt).
Proof.
  unfold PreciseBank.BurnCoins. case_bool_decide; [done|]. destruct (GetModuleAccount m); [|done].
  destruct (negb _); [done|]. rewrite one_valid. cbn [negb]. rewrite (bind_Ok _ _ _ _ _ (one_split s)), one_nonempty.
  cbn. intros E. apply bind_Ok_inv in E as (s1 & [] & E1 & E). by injection E as <-.
Qed.

Lemma bank_Ok {A} (m : M B A) (s s' : PState B) a : bank m s = (s', Ok a) → m (ps_bank s) = (ps_bank s', Ok a).
Proof. unfold bank, zoom. destruct (m (ps_bank s)). by intros [= <- ->]. Qed.

(** What a transfer of the coin does to balances and supply. *)
Lemma send_one from to (s s' : PState B) :
  PreciseBank.SendCoins info from to [mkCoin d n] s = (s', Ok tt) →
  bk_GetSupply (ps_bank s') d = bk_GetSupply (ps_bank s) d ∧
  ∀ a, bk_GetBalance (ps_bank s') a d = bk_GetBalance (ps_bank s) a d + (if decide (a = to) then n else 0)
         - if decide (a = from) then n else 0.
Proof.
  rewrite SendCoins_one. intros E%bank_Ok. apply bk_send_effect in E as (Hb & _ & Hs); [|apply one_valid].
  split; [done|]. intros a. rewrite Hb. unfold moved. rewrite one_amount, (decide_True (P := d = d)) by done. lia.
Qed.
End one_coin.

(** A read of x/precisebank. *)
Lemma GetBalance_plain a d (s : PState B) :
  plain_denom d → PreciseBank.GetBalance info a d s = (s, Ok (mkCoin d (bk_GetBalance (ps_bank s) a d))).
Proof.
  intros [_ Hx]. unfold PreciseBank.GetBalance, ExtendedCoinDenom. by rewrite !(bool_decide_eq_false_2 (d = _)).
Qed.

Lemma IsSendEnabled_reads c (s : PState B) : (PreciseBank.IsSendEnabledCoin info c s).1 = s.
Proof.
  unfold PreciseBank.IsSendEnabledCoin, iquo, newCoin, bind, of_outcome. case_bool_decide; [|done].
  destruct (_ =? 0); [done|]. cbn. by destruct (NewCoin _ _).
Qed.

Lemma account_without_balance_reads a (s : VmState B) : (VmKeeper.GetAccountWithoutBalance a s).1 = s.
Proof. unfold VmKeeper.GetAccountWithoutBalance, bind. cbn. by destruct (ak_GetAccount _ _). Qed.

#[local] Instance chain_bank_laws : Erc20BankLaws Host.
Proof.
  refine {| plain := plain_denom;
            coin_balance h a d := bk_GetBalance (ps_bank (pb_of h)) a d;
            coin_supply h d := bk_GetSupply (ps_bank (pb_of h)) d |}.
  - intros a d h h' c Hd E. pose proof (GetBalance_plain a d (pb_of h) Hd) as Er.
    pose proof (pbank_run _ _ _ _ E) as E'. rewrite Er in E'. split; [|congruence].
    eapply pbank_read; [exact Er|]. cbn in E. rewrite E. congruence.
  - intros c h h' b E. pose proof (pbank_run _ _ _ _ E) as E'. pose proof (IsSendEnabled_reads c (pb_of h)) as Hr.
    rewrite E' in Hr. cbn in Hr. eapply pbank_read; [|exact E]. by rewrite E', Hr.
  - intros a h h' acc E. cbn in E. pose proof (account_without_balance_reads a (an_vm (st_ante (ts_stores h)))) as Hr.
    unfold stores, store_vm, ante, vm, zoom in E. destruct (VmKeeper.GetAccountWithoutBalance a _) as [x o]. cbn in Hr.
    subst x. injection E as <- _. by destruct h as [[[]]].
  - intros d n h h' Hd Hn E%pbank_run. apply MintCoins_one in E; [|done..]. apply bank_Ok in E.
    apply bk_mint_effect in E as (Hb & _ & Hs); [|by apply one_valid]. rewrite Hs. setoid_rewrite Hb.
    rewrite one_amount, (decide_True (P := d = d)) by done. done.
  - intros d n h h' Hd Hn E%pbank_run. apply BurnCoins_one in E; [|done..]. apply bank_Ok in E.
    apply bk_burn_effect in E as (Hb & _ & Hs); [|by apply one_valid]. rewrite Hs. setoid_rewrite Hb.
    rewrite one_amount, (decide_True (P := d = d)) by done. done.
  - intros r d n h h' Hd Hn E%pbank_run. unfold PreciseBank.SendCoinsFromModuleToAccount in E.
    case_bool_decide; [done|]. case_bool_decide; [done|]. destruct (bk_BlockedAddr r); [done|]. by apply send_one.
  - intros r d n h h' Hd Hn E%pbank_run. unfold PreciseBank.SendCoinsFromAccountToModule in E.
    destruct (GetModuleAccount _) as [acc|] eqn:Ea; [|done]. case_bool_decide; [done|].
    apply module_account_address in Ea as [-> _]. by apply send_one.
Defined.

#[local] Instance chain_evm_steps `{!TmHash} : Erc20EvmSteps Host.
Proof.
  split; intros; cbn; unfold host, zoom;
    [destruct (CallEVMWithData _ _ _ _ _ _ _ _ _ _ _ _)|destruct (CallEVM _ _ _ _ _ _ _ _ _ _ _ _)]; apply rtc_refl.
Qed.
End chain.
