(* ===== verification/Erc20Gen.v ===== *)
(** Export and import of the store of x/erc20: [InitGenesis] of what [ExportGenesis]
    wrote rebuilds the store. *)

From S2P Require Import Prelude.
From S2P Require Import Sdk.
From S2P Require Import AccessList.
From S2P Require Import StateDB.
From S2P Require Import VmKeeper.
From S2P Require Import VmParams.
From S2P Require Import Precompile.
From S2P Require Import Transition.
From S2P Require Import Erc20Denoms.
From S2P Require Import Erc20.
From S2P Require Import Erc20Msgs.
From S2P Require Import Erc20Reg.
From S2P Require Import Erc20Conv.

(** A map built entry by entry from keys without duplicates. *)
Lemma foldl_insert_lookup {K V P} `{Countable K} (k : P → K) (v : P → V) l (m : gmap K V) x y :
  NoDup (k <$> l) →
  (foldl (λ m p, <[k p := v p]> m) m l) !! x = Some y ↔
  (∃ p, p ∈ l ∧ k p = x ∧ v p = y) ∨ ((x ∉ (k <$> l)) ∧ m !! x = Some y).
Proof.
  revert m. induction l as [|p l IH]; intros m; cbn; [set_solver|].
  intros [Hp Hl]%NoDup_cons. rewrite IH by done. rewrite lookup_insert_Some. set_unfold. naive_solver.
Qed.

Section genesis.
Context `{SdkTypes, !SdkTypesLaws, Crypto, GethHex, SdkEvents, IbcTransfer, TmHash}.
Context {Host : Type} `{!Erc20Bank Host, !Erc20Evm Host, !Erc20Accounts Host}.
Context `{!GethHexLaws, !Erc20Laws}.
Context (Erc20Bytecode : bytes).
Implicit Types (p : TokenPair) (st : Erc20Store).

Abbreviation ES := (Erc20State Host).

Definition add_pair st p : Erc20Store :=
  SetERC20Map (GetERC20Contract p) (GetID p) (SetDenomMap (tp_Denom p) (GetID p) (SetTokenPair p st)).

Lemma SetToken_run p st :
  es_byDenom st !! tp_Denom p = None → es_byERC20 st !! GetERC20Contract p = None →
  SetToken p st = (add_pair st p, Ok tt).
Proof.
  intros Hd He. unfold SetToken, IsDenomRegistered, IsERC20Registered. cbn. by rewrite Hd, He.
Qed.

(** ** Pairs *)

Lemma init_pairs_run l (s : ES) :
  NoDup (tp_Denom <$> l) → NoDup (GetERC20Contract <$> l) →
  (∀ p, p ∈ l → es_byDenom (e_store s) !! tp_Denom p = None ∧ es_byERC20 (e_store s) !! GetERC20Contract p = None) →
  init_pairs l s = (set_store (foldl add_pair (e_store s) l) s, Ok true).
Proof.
  revert s. induction l as [|p l IH]; intros s; cbn; [by destruct s|].
  intros [Hd Hds]%NoDup_cons [He Hes]%NoDup_cons Hf. destruct (Hf p) as [Hfd Hfe]; [set_solver|].
  assert (catch (store (SetToken p)) s = (set_store (add_pair (e_store s) p) s, Ok (inl tt))) as Eq.
  { unfold catch, store, zoom. by rewrite (SetToken_run p _ Hfd Hfe). }
  rewrite (bind_Ok _ _ _ _ _ Eq). rewrite IH by done || (intros q Hq; destruct (Hf q) as [? ?]; [set_solver|];
    cbn; rewrite !lookup_insert_ne; [done|..]; intros E; [apply He|apply Hd]; rewrite E; by apply list_elem_of_fmap_2).
  done.
Qed.

Lemma add_pairs_maps l st :
  es_pairs (foldl add_pair st l) = foldl (λ m p, <[GetID p := p]> m) (es_pairs st) l ∧
  es_byERC20 (foldl add_pair st l) = foldl (λ m p, <[GetERC20Contract p := GetID p]> m) (es_byERC20 st) l ∧
  es_byDenom (foldl add_pair st l) = foldl (λ m p, <[tp_Denom p := GetID p]> m) (es_byDenom st) l ∧
  es_allowances (foldl add_pair st l) = es_allowances st ∧ es_native (foldl add_pair st l) = es_native st ∧
  es_dynamic (foldl add_pair st l) = es_dynamic st ∧ GetParams_store (foldl add_pair st l) = GetParams_store st.
Proof.
  revert st. induction l as [|p l IH]; intros st; [done|]. cbn. destruct (IH (add_pair st p)) as (-> & -> & -> & -> & -> & -> & ->).
  done.
Qed.

Lemma GetTokenPairs_spec st p : p ∈ GetTokenPairs st ↔ ∃ id, es_pairs st !! id = Some p.
Proof.
  unfold GetTokenPairs. rewrite list_elem_of_fmap. setoid_rewrite merge_sort_Permutation. split.
  - intros ([id q] & -> & Hq%elem_of_map_to_list). by exists id.
  - intros [id Hid]. exists (id, p). split; [done|by apply elem_of_map_to_list].
Qed.

(** The exported pairs have distinct identifiers, contracts and denominations. *)
Lemma GetTokenPairs_NoDup {A} (f : TokenPair → A) st :
  (∀ i p j q, es_pairs st !! i = Some p → es_pairs st !! j = Some q → f p = f q → i = j) → NoDup (f <$> GetTokenPairs st).
Proof.
  intros Hf. unfold GetTokenPairs. rewrite <-list_fmap_compose. set (l := merge_sort _ _).
  assert (NoDup l.*1) as Hl by (unfold l; rewrite merge_sort_Permutation; apply NoDup_fst_map_to_list).
  assert (∀ x, x ∈ l → es_pairs st !! x.1 = Some x.2) as Hin.
  { intros [i p]. unfold l. rewrite merge_sort_Permutation. apply elem_of_map_to_list. }
  clearbody l. induction l as [|[i p] l IH]; cbn in *; [constructor|]. apply NoDup_cons in Hl as [Hi Hl].
  constructor; [|apply IH; [done|set_solver]]. rewrite list_elem_of_fmap. intros ([j q] & Efg & Hq). cbn in Efg.
  assert (i = j) as <- by (apply (Hf i p j q); [by apply (Hin (i, p)); set_solver|by apply (Hin (j, q)); set_solver|done]).
  apply Hi. rewrite list_elem_of_fmap. by exists (i, q).
Qed.

Lemma map_eq_Some {K V} `{Countable K} (m1 m2 : gmap K V) : (∀ i x, m1 !! i = Some x ↔ m2 !! i = Some x) → m1 = m2.
Proof. intros Hm. apply map_eq. intros i. apply option_eq, Hm. Qed.

Lemma pairs_rebuilt st st0 :
  registry_ok st → es_pairs st0 = ∅ → es_byERC20 st0 = ∅ → es_byDenom st0 = ∅ →
  es_pairs (foldl add_pair st0 (GetTokenPairs st)) = es_pairs st ∧
  es_byERC20 (foldl add_pair st0 (GetTokenPairs st)) = es_byERC20 st ∧
  es_byDenom (foldl add_pair st0 (GetTokenPairs st)) = es_byDenom st.
Proof.
  intros Hok E1 E2 E3. destruct (add_pairs_maps (GetTokenPairs st) st0) as (-> & -> & -> & _). rewrite E1, E2, E3.
  split_and!; apply map_eq_Some; intros i x; rewrite foldl_insert_lookup; rewrite ?lookup_empty;
    try setoid_rewrite GetTokenPairs_spec.
  - split; [intros [(p & [j Hj] & <- & <-)|[_ ?]]; [|done]|]; [by destruct (ro_pair _ Hok _ _ Hj) as (<- & _)|].
    intros Hi. left. exists x. destruct (ro_pair _ Hok _ _ Hi) as (-> & _). eauto.
  - apply GetTokenPairs_NoDup. intros j p k q Hj Hk E. destruct (ro_pair _ Hok _ _ Hj) as (-> & _), (ro_pair _ Hok _ _ Hk) as (-> & _).
    done.
  - split; [intros [(p & [j Hj] & <- & <-)|[_ ?]]; [|done]|].
    + by destruct (ro_pair _ Hok _ _ Hj) as (<- & _ & ? & _).
    + intros Hi. left. destruct (ro_erc20 _ Hok _ _ Hi) as (p & Hp & <-). exists p.
      destruct (ro_pair _ Hok _ _ Hp) as (<- & _). eauto.
  - apply GetTokenPairs_NoDup. intros j p k q Hj Hk E. by destruct (pair_unique st j p k q) as [-> _]; auto.
  - split; [intros [(p & [j Hj] & <- & <-)|[_ ?]]; [|done]|].
    + by destruct (ro_pair _ Hok _ _ Hj) as (<- & _ & _ & ?).
    + intros Hi. left. destruct (ro_denom _ Hok _ _ Hi) as (p & Hp & <-). exists p.
      destruct (ro_pair _ Hok _ _ Hp) as (<- & _). eauto.
  - apply GetTokenPairs_NoDup. intros j p k q Hj Hk E. by destruct (pair_unique st j p k q) as [-> _]; auto.
Qed.

(** ** Precompiles *)

Lemma host_keeps_store {A} (m : M Host A) st : preserves (λ x : ES, e_store x = st) (host m).
Proof. intros x Hx. destruct (host m x) eqn:Eh. apply host_kept in Eh. cbn. congruence. Qed.

(** Registering a precompile changes the store by its name only. *)
Lemma EnableNative_run a (s s' : ES) u :
  EnableNativePrecompile Erc20Bytecode a s = (s', Ok u) → e_store s' = SetNativePrecompile a (e_store s).
Proof.
  unfold EnableNativePrecompile. intros E. apply bind_Ok_inv in E as (s1 & [] & E1 & E). injection E as <-. cbn. f_equal.
  eapply (preserves_run (λ x : ES, e_store x = e_store s)); [|done|exact E1].
  unfold RegisterCodeHash, RegisterERC20CodeHash. repeat (preserves_step || apply host_keeps_store).
Qed.

Lemma EnableDynamic_run a (s s' : ES) u :
  EnableDynamicPrecompile Erc20Bytecode a s = (s', Ok u) → e_store s' = SetDynamicPrecompile a (e_store s).
Proof.
  unfold EnableDynamicPrecompile. intros E. apply bind_Ok_inv in E as (s1 & [] & E1 & E). injection E as <-. cbn. f_equal.
  eapply (preserves_run (λ x : ES, e_store x = e_store s)); [|done|exact E1].
  unfold RegisterCodeHash, RegisterERC20CodeHash. repeat (preserves_step || apply host_keeps_store).
Qed.

(** A loop whose rounds each apply a function to the store. *)
Lemma for_each_on_store {A} (f : A → M ES unit) (g : A → Erc20Store → Erc20Store) l (s s' : ES) :
  (∀ a s s', a ∈ l → f a s = (s', Ok tt) → e_store s' = g a (e_store s)) →
  for_each l f s = (s', Ok tt) → e_store s' = foldl (λ st a, g a st) (e_store s) l.
Proof.
  revert s. induction l as [|a l IH]; intros s Hf E; [by injection E as <-|].
  apply bind_Ok_inv in E as (s1 & [] & E1 & E). cbn. rewrite <-(Hf a s s1); [|set_solver|done].
  apply IH; [|done]. intros. eapply Hf; [set_solver|done].
Qed.

Lemma natives_rebuilt (names : gset string) l st :
  l ≡ₚ elements names → (∀ x, x ∈ names → ∃ a, x = Address_String a) →
  foldl (λ st x, SetNativePrecompile (HexToAddress x) st) st l = set_native (names ∪ es_native st) st.
Proof.
  intros Hl Hn. assert (∀ x, x ∈ l → ∃ a, x = Address_String a) as Hx.
  { intros x. rewrite Hl, elem_of_elements. apply Hn. }
  trans (set_native (list_to_set l ∪ es_native st) st); [|by rewrite Hl, list_to_set_elements_L].
  clear Hl Hn names. revert st. induction l as [|x l IH]; intros st; cbn; [rewrite left_id_L by apply _; by destruct st|].
  destruct (Hx x) as [a ->]; [set_solver|]. rewrite IH by set_solver. rewrite HexToAddress_String.
  unfold SetNativePrecompile, set_native. cbn. f_equal. set_solver.
Qed.

Lemma dynamics_rebuilt (names : gset string) l st :
  l ≡ₚ elements names → (∀ x, x ∈ names → ∃ a, x = Address_String a) →
  foldl (λ st x, SetDynamicPrecompile (HexToAddress x) st) st l = set_dynamic (names ∪ es_dynamic st) st.
Proof.
  intros Hl Hn. assert (∀ x, x ∈ l → ∃ a, x = Address_String a) as Hx.
  { intros x. rewrite Hl, elem_of_elements. apply Hn. }
  trans (set_dynamic (list_to_set l ∪ es_dynamic st) st); [|by rewrite Hl, list_to_set_elements_L].
  clear Hl Hn names. revert st. induction l as [|x l IH]; intros st; cbn; [rewrite left_id_L by apply _; by destruct st|].
  destruct (Hx x) as [a ->]; [set_solver|]. rewrite IH by set_solver. rewrite HexToAddress_String.
  unfold SetDynamicPrecompile, set_dynamic. cbn. f_equal. set_solver.
Qed.

(** ** Allowances *)

Definition allowance_addresses (al : Allowance) : Address * Address * Address :=
  (HexToAddress (al_Erc20Address al), HexToAddress (al_Owner al), HexToAddress (al_Spender al)).

Lemma allowance_key_ok st k al :
  registry_ok st → es_allowances st !! k = Some al → allowance_addresses al = k.
Proof.
  destruct k as [[e o] sp]. intros Hok (_ & _ & _ & _ & ->)%(ro_allowance _ Hok). unfold allowance_addresses. cbn.
  by rewrite !HexToAddress_String.
Qed.

Lemma GetAllowances_spec st al :
  registry_ok st → al ∈ GetAllowances st ↔ es_allowances st !! allowance_addresses al = Some al.
Proof.
  intros Hok. unfold GetAllowances. rewrite list_elem_of_fmap. setoid_rewrite merge_sort_Permutation. split.
  - intros ([k x] & -> & Hk%elem_of_map_to_list). cbn. by rewrite (allowance_key_ok st k x Hok Hk).
  - intros Hal. exists (allowance_addresses al, al). split; [done|by apply elem_of_map_to_list].
Qed.

Lemma GetAllowances_NoDup st : registry_ok st → NoDup (allowance_addresses <$> GetAllowances st).
Proof.
  intros Hok. unfold GetAllowances. rewrite <-list_fmap_compose. set (l := merge_sort _ _).
  replace ((allowance_addresses ∘ snd) <$> l) with l.*1.
  - unfold l. rewrite merge_sort_Permutation. apply NoDup_fst_map_to_list.
  - apply list_fmap_ext. intros i [k al] Hi. cbn. symmetry. apply (allowance_key_ok st); [done|].
    apply elem_of_map_to_list. apply list_elem_of_lookup_2 in Hi. unfold l in Hi. by rewrite merge_sort_Permutation in Hi.
Qed.

Lemma init_allowance_run st al (s s' : ES) :
  registry_ok st → al ∈ GetAllowances st → init_allowance al s = (s', Ok tt) →
  e_store s' = set_allowances (<[allowance_addresses al := al]> (es_allowances (e_store s))) (e_store s).
Proof.
  intros Hok Hal%GetAllowances_spec E%must_Ok_inv; [|done]. unfold store, zoom, UnsafeSetAllowance in E.
  destruct (setAllowance _ _ _ _ _ _) as [st' o] eqn:Es. injection E as <- ->.
  apply setAllowance_inv in Es as (p & n & _ & _ & _ & _ & [= <-] & _ & ->). cbn.
  destruct (ro_allowance _ Hok _ _ _ _ Hal) as (_ & _ & _ & Hv & Eal). rewrite decide_False by lia.
  unfold allowance_addresses in *. by rewrite <-Eal.
Qed.

Lemma allowances_rebuilt st st0 :
  registry_ok st → es_allowances st0 = ∅ →
  foldl (λ x al, set_allowances (<[allowance_addresses al := al]> (es_allowances x)) x) st0 (GetAllowances st)
  = set_allowances (es_allowances st) st0.
Proof.
  intros Hok E0. assert (∀ l x, foldl (λ x al, set_allowances (<[allowance_addresses al := al]> (es_allowances x)) x) x l
    = set_allowances (foldl (λ m al, <[allowance_addresses al := al]> m) (es_allowances x) l) x) as ->.
  { intros l. induction l as [|al l IH]; intros x; cbn; [by destruct x|]. by rewrite IH. }
  f_equal. rewrite E0. apply map_eq_Some. intros k al. rewrite foldl_insert_lookup by by apply GetAllowances_NoDup.
  rewrite lookup_empty. split.
  - intros [(x & Hx%GetAllowances_spec & <- & <-)|[_ ?]]; done.
  - intros Hk. left. exists al. pose proof (allowance_key_ok _ _ _ Hok Hk) as <-. by rewrite GetAllowances_spec.
Qed.

(** ** The import *)

Lemma names_sorted (x : gset string) : merge_sort string_leb (elements x) ≡ₚ elements x.
Proof. apply merge_sort_Permutation. Qed.

Lemma import_export st (s s' : ES) :
  registry_ok st → e_store s = empty_store → InitGenesis Erc20Bytecode (ExportGenesis st) s = (s', Ok tt) →
  e_store s' = st.
Proof.
  intros Hok E0 E. unfold InitGenesis in E. cbn [ExportGenesis eg_Params eg_TokenPairs eg_NativePrecompiles eg_DynamicPrecompiles eg_Allowances] in E.
  apply bind_Ok_inv in E as (s1 & [] & E1 & E). injection E1 as <-. rewrite E0 in E.
  apply bind_Ok_inv in E as (s2 & [acc|] & E2 & E); [|done]. apply host_kept in E2. cbn in E2.
  destruct (pairs_rebuilt st (e_store s2) Hok) as (Hp & He & Hd); [by rewrite E2..|].
  destruct (add_pairs_maps (GetTokenPairs st) (e_store s2)) as (_ & _ & _ & Ha & Hn & Hy & Hps).
  rewrite E2 in Hp, He, Hd, Ha, Hn, Hy, Hps.
  rewrite (bind_Ok _ _ s2 (set_store (foldl add_pair (e_store s2) (GetTokenPairs st)) s2) true) in E.
  2: { apply init_pairs_run; [apply GetTokenPairs_NoDup; intros i p j q Hi Hj Epq; by destruct (pair_unique st i p j q); auto..|].
       by rewrite E2. }
  cbn [when] in E. rewrite E2 in E. set (st1 := foldl add_pair _ _) in *.
  apply bind_Ok_inv in E as (s3 & [] & E3 & E). apply bind_Ok_inv in E as (s4 & [] & E4 & E).
  apply (for_each_on_store _ (λ x st, SetNativePrecompile (HexToAddress x) st)) in E3; [|intros; by eapply EnableNative_run, must_Ok_inv].
  apply (for_each_on_store _ (λ x st, SetDynamicPrecompile (HexToAddress x) st)) in E4; [|intros; by eapply EnableDynamic_run, must_Ok_inv].
  apply (for_each_on_store _ (λ al st, set_allowances (<[allowance_addresses al := al]> (es_allowances st)) st)) in E;
    [|intros; by eapply init_allowance_run].
  rewrite (natives_rebuilt (es_native st)) in E3 by (apply names_sorted || (intros; apply (ro_precompile _ Hok); set_solver)).
  rewrite (dynamics_rebuilt (es_dynamic st)) in E4 by (apply names_sorted || (intros; apply (ro_precompile _ Hok); set_solver)).
  cbn in E3. rewrite E3 in E4. cbn in E4. rewrite E4, allowances_rebuilt in E by done. rewrite E. cbn.
  unfold set_allowances, set_dynamic, set_native. cbn. rewrite Hp, He, Hd, Hn, Hy. cbn. rewrite !right_id_L by apply _. unfold GetParams_store in Hps. cbn in Hps.
  injection Hps as -> ->. by destruct st.
Qed.
End genesis.
