(* ===== verification/Erc20Thms.v ===== *)
(** Properties of x/erc20. *)

From S2P Require Import Prelude.
From S2P Require Import Sdk.
From S2P Require Import PreciseBankGenesis.
From S2P Require Import AccessList.
From S2P Require Import StateDB.
From S2P Require Import VmKeeper.
From S2P Require Import VmParams.
From S2P Require Import Precompile.
From S2P Require Import Transition.
From S2P Require Import Erc20Denoms.
From S2P Require Import Erc20.
From S2P Require Import Erc20Msgs.
From S2P Require Import Erc20Reg.
From S2P Require Import Erc20Conv.
From S2P Require Import Erc20Gen.
From Equations Require Import Equations.

(** * Names *)

Fixpoint all_chars (f : Ascii.ascii → bool) (s : string) : bool :=
  match s with
  | EmptyString => true
  | String c r => f c && all_chars f r
  end.

#[local] Arguments str_drop : simpl never.

Section names.
Context (f : Ascii.ascii → bool).

Lemma all_chars_drop n s : all_chars f s = true → all_chars f (str_drop n s) = true.
Proof. revert s. induction n as [|n IH]; intros [|c s]; cbn; try done. intros [_ Hs]%andb_prop. by apply IH. Qed.

Lemma all_chars_take n s : all_chars f s = true → all_chars f (str_take n s) = true.
Proof.
  revert s. induction n as [|n IH]; intros [|c s]; cbn; try done. intros [-> Hs]%andb_prop. by apply IH.
Qed.
End names.

Lemma str_take_length n s : (String.length (str_take n s) ≤ n)%nat.
Proof. revert s. induction n as [|n IH]; intros [|c s]; cbn; [lia..|]. specialize (IH s). lia. Qed.

Lemma delete_others_chars s : all_chars is_name_char (delete_others s) = true.
Proof. induction s as [|c s IH]; cbn; [done|]. destruct (is_name_char c) eqn:E; cbn; [by rewrite E|done]. Qed.

Lemma removeSpecialChars_chars s : all_chars is_name_char (removeSpecialChars s) = true.
Proof.
  destruct s as [|c s]; cbn; [done|]. destruct (is_letter c) eqn:E; cbn; [|apply delete_others_chars].
  unfold is_name_char. rewrite E. cbn. apply delete_others_chars.
Qed.

(** What is left has none of the prefixes and is a suffix of what was given. *)
Lemma removeInvalidPrefixes_spec s :
  let r := removeInvalidPrefixes s in
  (HasPrefix r "ibc/" = false ∧ HasPrefix r "erc20/" = false ∧ HasPrefix r "erc20:" = false) ∧
  (String.length r ≤ String.length s)%nat ∧ ∀ f, all_chars f s = true → all_chars f r = true.
Proof.
  cbn zeta. funelim (removeInvalidPrefixes s); rewrite <-?Heqcall; [| | |by split_and!; auto].
  all: destruct H as (? & Hl & Hf); rewrite str_drop_length in Hl; split_and!; [naive_solver..|lia|];
    intros f Hs; by apply Hf, all_chars_drop.
Qed.

(** C21: a sanitised token name consists of letters, digits, slashes, colons and
    dashes, has at most 128 characters, and starts with none of the prefixes of
    coins of the chain. *)
Theorem SanitizeERC20Name_wellformed name :
  let r := SanitizeERC20Name name in
  all_chars is_name_char r = true ∧ (String.length r ≤ 128)%nat ∧
  HasPrefix r "ibc/" = false ∧ HasPrefix r "erc20/" = false ∧ HasPrefix r "erc20:" = false.
Proof.
  cbn zeta. unfold SanitizeERC20Name. set (m := removeSpecialChars _).
  set (n := if (128 <? _) then _ else _).
  assert (all_chars is_name_char n = true ∧ (String.length n ≤ 128)%nat) as [Hc Hl].
  { assert (all_chars is_name_char m = true) as Hm by apply removeSpecialChars_chars. unfold n.
    destruct (Z.ltb_spec 128 (Z.of_nat (String.length m))); split; try done; [by apply all_chars_take|apply str_take_length|lia]. }
  destruct (removeInvalidPrefixes_spec n) as ((? & ? & ?) & ? & Hf). split_and!; try done; [by apply Hf|lia].
Qed.

(** * The registry *)

Section registry.
Context `{SdkTypes, AccountKeeper, AddrCodec, Crypto, GethAddress, GethHex, SdkEvents, IbcTransfer, TmHash}.
Context {Host : Type} `{!Erc20Bank Host, !Erc20Evm Host, !Erc20Accounts Host, Erc20ABI}.
Context `{!GethHexLaws, !Erc20Laws, !Erc20EvmSteps Host}.
Context (authority : string) (ModuleAddress : Address) (Erc20Bytecode : bytes).
Context {Ack : Type} (NewErrorAcknowledgement : error → Ack).
Implicit Types (s : Erc20State Host).

(** C17: from a validated genesis, after any messages, packets, contract runs and
    precompile calls, failed ones included, the three maps of the registry describe
    one set of pairs, with one pair per contract and per denomination, and every
    allowance is a positive 256-bit number for a registered token. *)
Theorem erc20_registry_consistent gs s ops :
  Erc20Genesis_Validate gs = Ok tt → e_store s = empty_store →
  registry_ok (e_store (run_ops authority ModuleAddress Erc20Bytecode NewErrorAcknowledgement ops
                          (InitGenesis Erc20Bytecode gs s).1)).
Proof.
  intros Hv Hs. apply (steps_ok _ _ (run_ops_steps _ _ _ _ ops _)), (steps_ok _ _ (InitGenesis_steps _ gs s Hv)).
  rewrite Hs. apply empty_ok.
Qed.

(** C20: importing what was exported from a consistent store into an empty one
    rebuilds it: parameters, pairs with both indexes, allowances and precompiles. *)
Theorem erc20_genesis_roundtrip `{!SdkTypesLaws} st s s' :
  registry_ok st → e_store s = empty_store → InitGenesis Erc20Bytecode (ExportGenesis st) s = (s', Ok tt) →
  e_store s' = st.
Proof. apply import_export. Qed.

(** When SetAllowance succeeds the token is registered and enabled, the value is
    an unsigned 256-bit number and is what GetAllowance then returns; every other
    allowance and the registry stay as they were. *)
Theorem SetAllowance_GetAllowance `{!SdkTypesLaws} st st' e o sp v :
  SetAllowance e o sp v st = (st', Ok tt) →
  (∃ p, GetTokenPair st (es_byERC20 st !! e) = Some p ∧ Enabled p = true) ∧
  (∃ n, v = Some n ∧ 0 ≤ n < u256_max ∧
     ∀ e' o' sp', GetAllowance st' e' o' sp' =
       if decide ((e', o', sp') = (e, o, sp)) then n else GetAllowance st e' o' sp') ∧
  set_allowances (es_allowances st) st' = st.
Proof.
  intros (p & n & Hp & He & Ho & Hsp & -> & Hn & ->)%setAllowance_inv. destruct He as [|He]; [done|].
  split_and!; [by exists p| |by destruct st].
  exists n. do 2 (split; [done|]). intros e' o' sp'. unfold GetAllowance. cbn.
  destruct (decide ((e', o', sp') = (e, o, sp))) as [[= -> -> ->]|Hk]; destruct (decide (n = 0)) as [->|Hz].
  - by rewrite lookup_delete_eq.
  - by rewrite lookup_insert_eq.
  - by rewrite lookup_delete_ne by congruence.
  - by rewrite lookup_insert_ne by congruence.
Qed.
End registry.

(** * Conversions *)

Section conversions.
Context `{SdkTypes, !SdkTypesLaws, AccountKeeper, AddrCodec, Crypto, GethAddress, GethHex, SdkEvents, IbcTransfer, TmHash}.
Context {Host : Type} `{!Erc20Bank Host, !Erc20Evm Host, !Erc20Accounts Host, Erc20ABI}.
Context `{!Erc20BankLaws Host} (ModuleAddress : Address).
Context {contract : Address} {d : denom} (T : StandardToken ModuleAddress contract d) (Hplain : plain d).
Context (p : TokenPair) (Hc : GetERC20Contract p = contract) (Hd : tp_Denom p = d).
Implicit Types (s : Erc20State Host).

(** C16: through any history of conversions of a token in both directions, of
    conversions of received packets, and of steps that neither create its coin nor
    take tokens from the module, the coins in circulation never exceed the tokens
    the module holds. *)
Theorem erc20_coins_backed s s' :
  rtc (pair_step ModuleAddress T p) s s' → backed ModuleAddress T s → backed ModuleAddress T s'.
Proof. by apply pair_history_backed. Qed.

(** C18: a conversion of tokens into coins that returns a response was allowed by
    governance and by the bank, gives the receiver exactly the amount in coins, and
    adds exactly the amount to the supply and to the escrowed tokens. *)
Theorem ConvertERC20_exact msg s s' :
  MsgConvertERC20_ValidateBasic msg = Ok tt → find_pair (e_store s) (mce_ContractAddress msg) = Some p →
  ConvertERC20 ModuleAddress msg s = (s', Ok true) →
  es_EnableErc20 (e_store s) = true ∧ Enabled p = true ∧ IsNativeERC20 p = true ∧
  ∃ r, AccAddressFromBech32 (mce_Receiver msg) = Ok r ∧ eb_BlockedAddr r = false ∧
    coin_balance (e_host s') r d = coin_balance (e_host s) r d + mce_Amount msg ∧
    coin_supply (e_host s') d = coin_supply (e_host s) d + mce_Amount msg ∧
    tok_balance T (e_host s') ModuleAddress = tok_balance T (e_host s) ModuleAddress + mce_Amount msg.
Proof.
  intros Hv Hf (r & q & Hr & (_ & Hq & He & Hen & Hbl & _)%MintingEnabled_inv & Hn & E)%ConvertERC20_inv.
  assert (q = p) as -> by congruence. split_and!; [done..|]. exists r. do 2 (split; [done|]). revert E.
  apply (convert_in_spec ModuleAddress T Hplain p Hc Hd). by apply ValidateBasic_amount.
Qed.

(** C19: when a conversion of coins into tokens succeeds and the contract still
    exists, the receiver has exactly the amount more in tokens, the sender and the
    supply exactly the amount less in coins, and the escrow gave up no more than the
    amount. *)
Theorem ConvertCoin_exact msg s s' :
  find_pair (e_store s) (Denom (mcc_Coin msg)) = Some p → ConvertCoin ModuleAddress msg s = (s', Ok tt) →
  e_store s' ≠ DeleteTokenPair p (e_store s) →
  ∃ sender n, AccAddressFromBech32 (mcc_Sender msg) = Ok sender ∧ n = Amount (mcc_Coin msg) ∧ 0 < n ∧
    tok_balance T (e_host s') (HexToAddress (mcc_Receiver msg))
      = tok_balance T (e_host s) (HexToAddress (mcc_Receiver msg)) + n ∧
    coin_supply (e_host s') d = coin_supply (e_host s) d - n ∧
    (sender ≠ GetModuleAddress Erc20ModuleName → coin_balance (e_host s') sender d = coin_balance (e_host s) sender d - n) ∧
    tok_balance T (e_host s) ModuleAddress - n ≤ tok_balance T (e_host s') ModuleAddress.
Proof.
  intros Hf (sender & q & Hs & (_ & Hq & _)%MintingEnabled_inv & _ & E)%ConvertCoin_inv Hne.
  assert (q = p) as -> by congruence. destruct E as [->|E]; [done|]. exists sender, (Amount (mcc_Coin msg)). do 2 (split; [done|]). revert E.
  by apply (convert_out_spec ModuleAddress T Hplain p Hc Hd).
Qed.
End conversions.
