(* ===== verification/Erc20Wit.v ===== *)
(** x/erc20 on a concrete chain: the bank of SdkModel.v and one ERC-20 contract, which
    may be paused.  The laws are proved of it, and the properties are applied to
    histories of a few steps. *)

From S2P Require Import Prelude.
From S2P Require Import Sdk.
From S2P Require Import PreciseBankGenesis.
From S2P Require Import SdkModel.
From S2P Require Import AccessList.
From S2P Require Import StateDB.
From S2P Require Import StateDBWit.
From S2P Require Import VmKeeper.
From S2P Require Import VmKeeperWit.
From S2P Require Import VmParams.
From S2P Require Import Precompile.
From S2P Require Import PrecompileWit.
From S2P Require Import Transition.
From S2P Require Import Erc20Denoms.
From S2P Require Import Erc20.
From S2P Require Import Erc20Msgs.
From S2P Require Import Erc20Reg.
From S2P Require Import Erc20Conv.
From S2P Require Import Erc20Gen.
From S2P Require Import Erc20Thms.

(** * Instances *)

(** Addresses are written with either of two prefixes, as hexadecimal text may be. *)
#[global] Instance c_hex : GethHex := {|
  Address_String a := String.append "0x" (print a);
  HexToAddress s := default 0 (parse (str_drop 2 s));
  IsHexAddress s := (HasPrefix s "0x" || HasPrefix s "0X") && negb (has_bar s)
|}.

Lemma bits_no_bar x : has_bar (bits_of x) = false.
Proof. induction x as [x IH|x IH|]; cbn [bits_of has_bar]; [by rewrite IH..|done]. Qed.

#[global] Instance c_hex_laws : GethHexLaws.
Proof.
  split; intros a; cbn -[print parse has_bar str_drop].
  - change (str_drop 2 _) with (print a). rewrite parse_print. reflexivity.
  - change ((String.prefix EmptyString (print a) || false) && negb (has_bar (bits_of (encode a))) = true).
    rewrite bits_no_bar. by destruct (print a).
Qed.

#[global] Instance c_hash : TmHash := {| tmhash_Sum x := String.append "h" x |}.

#[global] Instance c_laws : Erc20Laws.
Proof.
  split; cbn; [intros x y E; by injection E|done| |done]. intros x [_ Hx]%andb_prop. by apply negb_true_iff in Hx.
Qed.

#[global] Instance c_ibc : IbcTransfer := {|
  ParseHexHash s := Ok s;
  ExtractDenomFromPath s := mkIbcDenom s [];
  IBCDenom := Base;
  Denom_HasPrefix _ _ _ := false;
  UnmarshalPacketData t :=
    match parse t with
    | Some (d, n, a, b) => Ok (mkPacketData d n a b)
    | None => Err (errorf ErrOther "cannot unmarshal")
    end
|}.

(** The chain besides x/erc20: the bank, the ledger of the contract at address 12, and
    whether the contract is paused. *)
Record Toy : Type := mkToy { toy_bank : gmap string (gmap string Z); toy_tokens : gmap Z Z; toy_paused : bool }.

Definition with_bank {A} (m : M (gmap string (gmap string Z)) A) : M Toy A :=
  zoom toy_bank (λ b h, mkToy b (toy_tokens h) (toy_paused h)) m.

#[global] Instance c_bank : Erc20Bank Toy := {|
  eb_GetBalance a d := gets (λ h, mkCoin d (bk_GetBalance (toy_bank h) a d));
  eb_IsSendEnabledCoin c := gets (λ h, bk_IsSendEnabledCoin (toy_bank h) c);
  eb_BlockedAddr := bk_BlockedAddr;
  eb_MintCoins m cs := with_bank (bk_MintCoins m cs);
  eb_BurnCoins m cs := with_bank (bk_BurnCoins m cs);
  eb_SendCoinsFromModuleToAccount m a cs := with_bank (bk_SendCoins (GetModuleAddress m) a cs);
  eb_SendCoinsFromAccountToModule a m cs := with_bank (bk_SendCoins a (GetModuleAddress m) cs);
  eb_GetDenomMetaData _ := ret None;
  eb_SetDenomMetaData _ := ret tt
|}.

(** The call data of the contract: a transfer, a query of a balance, or a getter. *)
Abbreviation call_data := ((Z * Z) + (Z + string))%type.

#[global] Instance c_abi : Erc20ABI := {|
  Pack_transfer to n := Ok (print (inl (to, n) : call_data));
  Pack_balanceOf a := Ok (print (inr (inl a) : call_data));
  Pack_getter m := Ok (print (inr (inr m) : call_data));
  Pack_constructor _ _ _ := Ok EmptyString;
  Unpack_transfer r := Ok (bool_decide (r = "1"));
  Unpack_balanceOf r := match parse r with Some n => Ok [AbiUint n] | None => Err (errorf ErrOther "abi") end;
  Unpack_string _ r := Ok r;
  Unpack_uint8 _ := Ok 6;
  ContractBin := EmptyString;
  Metadata_Validate _ := Ok tt
|}.

Definition token_of (h : Toy) (a : Z) : Z := default 0 (toy_tokens h !! a).
Definition move_tokens (from to n : Z) (h : Toy) : Toy :=
  let t := <[from := token_of h from - n]> (toy_tokens h) in
  mkToy (toy_bank h) (<[to := default 0 (t !! to) + n]> t) (toy_paused h).

Definition toy_response (r : string) : TxResponse := mkTxResponse 0 0 EmptyString r [] 0.

Definition toy_call (from to : Z) (data : string) : M Toy TxResponse := λ h,
  if negb (to =? 12) then (h, Err (errorf ErrVMExecution "no code"))
  else match parse data : option call_data with
       | Some (inl (dst, n)) =>
           if toy_paused h || (n <? 0) || (token_of h from <? n) then (h, Err (errorf ErrVMExecution "execution reverted"))
           else (move_tokens from dst n h, Ok (toy_response "1"))
       | Some (inr (inl a)) => (h, Ok (toy_response (print (token_of h a))))
       | Some (inr (inr name)) => (h, Ok (toy_response name))
       | None => (h, Err (errorf ErrVMExecution "execution reverted"))
       end.

#[global] Instance c_evm : Erc20Evm Toy := {|
  evk_GetAccount a := ret (if a =? 12 then Some (mkRawAccount 1 (Some 0) (Some 5)) else None);
  evk_GetAccountWithoutBalance a := ret (if a =? 12 then Some (mkRawAccount 1 None (Some 5)) else None);
  evk_GetCode _ := ret None;
  evk_SetCode _ _ := ret tt;
  evk_SetAccount _ _ := ret tt;
  evk_CallEVMWithData from to data _ _ := host (toy_call from (default 0 to) data);
  evk_CallEVM pack from to _ _ := let! data := of_outcome pack in host (toy_call from to data)
|}.

#[global] Instance c_accounts : Erc20Accounts Toy := {|
  ea_GetSequence _ := ret 0;
  ea_GetModuleAccount m := ret (GetModuleAccount m);
  ea_IsModuleAccount a := ret (bool_decide (a = GetModuleAddress Erc20ModuleName));
  ea_BondDenom := ret "stake"
|}.

#[global] Instance c_evm_steps : Erc20EvmSteps Toy.
Proof.
  split; intros; cbn; unfold host, zoom, bind, of_outcome; [by destruct (toy_call _ _ _ _)|].
  destruct pack; [|done..]. by destruct (toy_call _ _ _ _).
Qed.

Lemma single_coin d n : d ≠ EmptyString → 0 < n →
  Coins_IsValid [mkCoin d n] = true ∧ Coins_AmountOf [mkCoin d n] d = n.
Proof.
  intros Hd Hn. cbn. unfold m_coins_ok. cbn. rewrite !decide_True by done. split; [|lia].
  rewrite bool_decide_eq_true_2, bool_decide_eq_false_2 by (done || apply NoDup_singleton). cbn.
  rewrite andb_true_r. by apply Z.ltb_lt.
Qed.

Lemma with_bank_Ok {A} (m : M _ A) h h' a :
  with_bank m h = (h', Ok a) → m (toy_bank h) = (toy_bank h', Ok a) ∧ toy_tokens h' = toy_tokens h.
Proof. unfold with_bank, zoom. destruct (m (toy_bank h)). by intros [= <- ->]. Qed.

Lemma toy_send src dst d n h h' :
  d ≠ EmptyString → 0 < n → with_bank (bk_SendCoins src dst [mkCoin d n]) h = (h', Ok tt) →
  bk_GetSupply (toy_bank h') d = bk_GetSupply (toy_bank h) d ∧
  ∀ a, bk_GetBalance (toy_bank h') a d = bk_GetBalance (toy_bank h) a d + (if decide (a = dst) then n else 0)
         - if decide (a = src) then n else 0.
Proof.
  intros Hd Hn [E _]%with_bank_Ok. destruct (single_coin d n Hd Hn) as [Hv Ha].
  apply bk_send_effect in E as (Hb & _ & Hs); [|done]. split; [done|]. intros a. rewrite Hb. unfold moved. rewrite Ha. lia.
Qed.

#[global] Instance c_bank_laws : Erc20BankLaws Toy.
Proof.
  refine {| plain d := d ≠ EmptyString;
            coin_balance h a d := bk_GetBalance (toy_bank h) a d;
            coin_supply h d := bk_GetSupply (toy_bank h) d |}.
  - by intros a d h h' c _ [= <- <-].
  - by intros c h h' b [= <- _].
  - by intros a h h' acc [= <- _].
  - intros d n h h' Hd Hn [E _]%with_bank_Ok. destruct (single_coin d n Hd Hn) as [Hv Ha].
    apply bk_mint_effect in E as (Hb & _ & Hs); [|done]. rewrite Hs, Ha. split; [done|]. intros a. by rewrite Hb, Ha.
  - intros d n h h' Hd Hn [E _]%with_bank_Ok. destruct (single_coin d n Hd Hn) as [Hv Ha].
    apply bk_burn_effect in E as (Hb & _ & Hs); [|done]. rewrite Hs, Ha. split; [done|]. intros a. by rewrite Hb, Ha.
  - intros r d n h h' Hd Hn E. by apply toy_send.
  - intros r d n h h' Hd Hn E. by apply toy_send.
Defined.

(** * The contract keeps a ledger *)

(** The address of the module in the EVM. *)
Definition module_evm : Z := 99.

Lemma move_tokens_from from to n h : 0 ≤ n → token_of h from - n ≤ token_of (move_tokens from to n h) from.
Proof.
  intros Hn. unfold move_tokens. set (x := token_of h from). unfold token_of. cbn. destruct (decide (to = from)) as [->|Hne].
  - rewrite lookup_insert_eq. cbn. rewrite lookup_insert_eq. cbn. lia.
  - rewrite lookup_insert_ne, lookup_insert_eq by done. done.
Qed.

Lemma toy_transfer from to n h h' res :
  toy_call from 12 (print (inl (to, n) : call_data)) h = (h', Ok res) →
  token_of h from - n ≤ token_of h' from ∧ toy_bank h' = toy_bank h.
Proof.
  unfold toy_call. cbn [negb Z.eqb Pos.eqb]. rewrite parse_print.
  destruct (toy_paused h || (n <? 0) || (token_of h from <? n)) eqn:Eg; [done|]. intros [= <- _].
  apply orb_false_iff in Eg as [[_ Hn%Z.ltb_ge]%orb_false_iff _]. split; [by apply move_tokens_from|done].
Qed.

Definition toy_token (d : denom) : StandardToken module_evm 12 d.
Proof.
  refine {| tok_balance := token_of |}.
  - intros a s s' n E. unfold BalanceOf, catch in E. cbn in E. unfold bind, of_outcome, host, zoom, toy_call in E.
    cbn [negb Z.eqb Pos.eqb] in E. rewrite parse_print in E. cbn -[parse print] in E. rewrite parse_print in E.
    injection E as <- <-. done.
  - intros from to n data s s' res [= <-] E. cbn in E. unfold host, zoom in E.
    destruct (toy_call _ _ _ _) as [h' o] eqn:Ec. injection E as <- ->. apply toy_transfer in Ec as [? Eb]. cbn.
    split; [done|]. unfold same_coins_of. cbn. by rewrite Eb.
  - intros from to n s s' res E. cbn in E. unfold host, zoom, bind, of_outcome in E.
    destruct (toy_call _ _ _ _) as [h' o] eqn:Ec. injection E as <- ->. apply toy_transfer in Ec as [? Eb]. cbn.
    split; [done|]. unfold same_coins_of. cbn. by rewrite Eb.
  - intros h h' Hm x. assert (toy_tokens h' = toy_tokens h) as Et.
    { destruct Hm as [n h h' E|n h h' E|r n h h' E|r n h h' E]; by apply with_bank_Ok in E as [_ ->]. }
    unfold token_of. by rewrite Et.
Defined.

(** * A chain *)

Definition tok_pair : TokenPair := mkTokenPair (Address_String 12) "erc20:tok" true OWNER_EXTERNAL.
Definition genesis_one : Erc20Genesis := mkErc20Genesis (mkErc20Params true true) [tok_pair]
  [mkAllowance (Address_String 12) (Address_String 3) (Address_String 4) 50] [] [Address_String 12].

(** Account 7 has a hundred tokens. *)
Definition empty_chain : Erc20State Toy := mkErc20State empty_store [] (mkToy ∅ {[ 7 := 100 ]} false).
Definition started_chain : Erc20State Toy := (InitGenesis "code" genesis_one empty_chain).1.

Definition convert_thirty : MsgConvertERC20 := mkMsgConvertERC20 (Address_String 12) 30 "alice" (Address_String 7).
Definition thirty_in : Erc20State Toy := (ConvertERC20 module_evm convert_thirty started_chain).1.
Definition convert_ten_back : MsgConvertCoin := mkMsgConvertCoin (mkCoin "erc20:tok" 10) (Address_String 8) "alice".
Definition ten_out : Erc20State Toy := (ConvertCoin module_evm convert_ten_back thirty_in).1.

Lemma erc20_registry_consistent_witness :
  registry_ok (e_store (run_ops "gov" module_evm "code" (λ e, e)
    [OpConvertERC20 convert_thirty; OpConvertCoin convert_ten_back; OpToggleConversion "gov" "erc20:tok";
     OpSetAllowance 12 3 4 (Some 9); OpConvertCoin convert_ten_back] (InitGenesis "code" genesis_one empty_chain).1)).
Proof.
  apply (erc20_registry_consistent "gov" module_evm "code" (λ e, e) genesis_one empty_chain); vm_compute; reflexivity.
Defined.

Lemma genesis_one_valid : Erc20Genesis_Validate genesis_one = Ok tt.
Proof. vm_compute. reflexivity. Qed.

Lemma started_ok : registry_ok (e_store started_chain).
Proof.
  apply (steps_ok _ _ (InitGenesis_steps "code" genesis_one empty_chain genesis_one_valid)), empty_ok.
Qed.

Lemma erc20_genesis_roundtrip_witness :
  e_store (InitGenesis "code" (ExportGenesis (e_store started_chain)) empty_chain).1 = e_store started_chain.
Proof.
  apply (erc20_genesis_roundtrip "code" (e_store started_chain) empty_chain
           (InitGenesis "code" (ExportGenesis (e_store started_chain)) empty_chain).1 started_ok);
    vm_compute; reflexivity.
Defined.

Lemma SetAllowance_GetAllowance_witness :
  GetAllowance (SetAllowance 12 3 4 (Some 9) (e_store started_chain)).1 12 3 4 = 9.
Proof.
  destruct (SetAllowance_GetAllowance (e_store started_chain) (SetAllowance 12 3 4 (Some 9) (e_store started_chain)).1
              12 3 4 (Some 9)) as (_ & (n & [= <-] & _ & Hn) & _); [vm_compute; reflexivity|].
  rewrite Hn. reflexivity.
Defined.

Lemma ConvertERC20_exact_witness :
  coin_balance (e_host thirty_in) "alice" "erc20:tok" = coin_balance (e_host started_chain) "alice" "erc20:tok" + 30.
Proof.
  destruct (ConvertERC20_exact module_evm (toy_token "erc20:tok") ltac:(done) tok_pair eq_refl eq_refl
              convert_thirty started_chain thirty_in) as (_ & _ & _ & r & [= <-] & _ & Hb & _);
    [vm_compute; reflexivity..|]. exact Hb.
Defined.

Lemma ConvertCoin_exact_witness : coin_supply (e_host ten_out) "erc20:tok" = coin_supply (e_host thirty_in) "erc20:tok" - 10.
Proof.
  destruct (ConvertCoin_exact module_evm (toy_token "erc20:tok") ltac:(done) tok_pair eq_refl eq_refl
              convert_ten_back thirty_in ten_out) as (sender & n & _ & -> & _ & _ & Hs & _);
    [vm_compute; reflexivity..| |exact Hs]. vm_compute. discriminate.
Defined.

Lemma erc20_coins_backed_witness : backed module_evm (toy_token "erc20:tok") ten_out.
Proof.
  apply (erc20_coins_backed module_evm (toy_token "erc20:tok") ltac:(done) tok_pair eq_refl eq_refl started_chain ten_out).
  - apply (rtc_l _ _ thirty_in); [|apply rtc_once].
    + apply (ps_in _ _ _ convert_thirty _ _ true); vm_compute; reflexivity.
    + apply (ps_out _ _ _ convert_ten_back); vm_compute; reflexivity.
  - vm_compute. discriminate.
Defined.

(** * Runs that do not go as intended *)

(** The contract is paused after alice's tokens became coins. *)
Definition paused_chain : Erc20State Toy :=
  mkErc20State (e_store thirty_in) (e_events thirty_in) (mkToy (toy_bank (e_host thirty_in)) (toy_tokens (e_host thirty_in)) true).
Definition refund_five : FungibleTokenPacketData := mkPacketData "erc20:tok" (print 5) "alice" "bob".

(** When the conversion after a timeout fails in the contract, the callback
    reports success and keeps what the conversion wrote before: the coins the sender
    was refunded stay in the module account, and no tokens are paid out. *)
Theorem failed_refund_strands_coins :
  let r := OnTimeoutPacket module_evm refund_five paused_chain in
  r.2 = Ok tt ∧
  coin_balance (e_host paused_chain) "alice" "erc20:tok" = 30 ∧ coin_balance (e_host r.1) "alice" "erc20:tok" = 25 ∧
  coin_balance (e_host r.1) (GetModuleAddress Erc20ModuleName) "erc20:tok" = 5 ∧
  toy_tokens (e_host r.1) = toy_tokens (e_host paused_chain).
Proof. vm_compute. by split_and!. Qed.

(** Two pairs for one contract, written with two prefixes. *)
Definition genesis_twice : Erc20Genesis := mkErc20Genesis (mkErc20Params true true)
  [tok_pair; mkTokenPair (String.append "0X" (print 12)) "erc20:other" true OWNER_EXTERNAL]
  [mkAllowance (Address_String 12) (Address_String 3) (Address_String 4) 50] [] [Address_String 12].

(** A genesis that names one contract in two spellings is valid, and its import
    reports no error, but the pair, every allowance and every precompile after the
    duplicate are silently left out. *)
Theorem genesis_import_truncated :
  Erc20Genesis_Validate genesis_twice = Ok tt ∧
  let r := InitGenesis "code" genesis_twice empty_chain in
  r.2 = Ok tt ∧ find_pair (e_store r.1) "erc20:other" = None ∧ GetAllowances (e_store r.1) = [] ∧
  GetDynamicPrecompiles (e_store r.1) = [].
Proof. vm_compute. by split_and!. Qed.

(** The first character of a sanitised name need not be a letter. *)
Example sanitize_keeps_dash : SanitizeERC20Name "--token" = "-token".
Proof. vm_compute. reflexivity. Qed.
