(* ===== verification/TokenPrecompile.v ===== *)
(** The ERC-20 precompile of a native coin (precompiles/erc20: erc20.go, tx.go,
    approve.go, query.go, events.go, types.go, errors.go, msgsrv.go), the wrapped
    coin's precompile on top of it (precompiles/werc20), the topics of their events
    (precompiles/common/abi.go) and the trace of a voucher (ibc/utils.go). *)

From S2P Require Import Prelude.
From S2P Require Import Sdk.
From S2P Require Import EvmDenom.
From S2P Require Import PreciseBank.
From S2P Require Import PreciseBankGenesis.
From S2P Require Import AccessList.
From S2P Require Import StateDB.
From S2P Require Import VmKeeper.
From S2P Require Import VmParams.
From S2P Require Import Precompile.
From S2P Require Import Erc20Denoms.
From S2P Require Import Erc20.

(** * Texts *)

(** [strings.Contains]. *)
Fixpoint str_contains (s sub : string) : bool :=
  HasPrefix s sub || match s with EmptyString => false | String _ r => str_contains r sub end.

(** The part of [s] after its last slash: the last element of [strings.Split(s, "/")],
    which always has one. *)
Fixpoint after_last_slash (s : string) : string :=
  match s with
  | EmptyString => EmptyString
  | String c r =>
      if str_contains r "/" then after_last_slash r
      else if code c =? 47 then r else String c r
  end.

(** [strings.ToUpper]: text outside ASCII goes through the Unicode tables. *)
Class Unicode : Type := { unicode_ToUpper : string → string }.

Fixpoint is_ascii_text (s : string) : bool :=
  match s with EmptyString => true | String c r => (code c <? 128) && is_ascii_text r end.

Definition upper_char (c : Ascii.ascii) : Ascii.ascii :=
  if between 97 122 c then Ascii.ascii_of_N (Ascii.N_of_ascii c - 32) else c.

Fixpoint upper_ascii (s : string) : string :=
  match s with EmptyString => EmptyString | String c r => String (upper_char c) (upper_ascii r) end.

Definition ToUpper `{Unicode} (s : string) : string :=
  if is_ascii_text s then upper_ascii s else unicode_ToUpper s.

(** [string(b)] of a byte is the UTF-8 encoding of the code point. *)
Definition string_of_byte (c : Ascii.ascii) : string :=
  if code c <? 128 then String c EmptyString
  else String (Ascii.ascii_of_N (192 + Ascii.N_of_ascii c / 64))
         (String (Ascii.ascii_of_N (128 + Ascii.N_of_ascii c mod 64)) EmptyString).

(** * Topics *)

(** What an indexed argument of an event can be; the other types have no topic. *)
Inductive TopicRule : Type :=
  | RuleHash (h : Hash)
  | RuleAddress (a : Address)
  | RuleBigInt (n : Z)
  | RuleBool (b : bool)
  | RuleInt (size : nat) (n : Z)
  | RuleUint (n : Z)
  | RuleString (s : string)
  | RuleBytes (b : bytes)
  | RuleByteArray (b : bytes)
  | RuleOther.

(** The byte at distance [i] from the end. *)
Definition set_byte (i : nat) (b topic : Z) : Z :=
  let w := 256 ^ Z.of_nat i in
  topic + (b - (topic / w) mod 256) * w.

Fixpoint gen_bytes (rule : Z) (size : nat) (topic : Z) : Z :=
  match size with
  | O => topic
  | S i => set_byte i (Z.shiftr rule (8 * Z.of_nat i) mod 256) (gen_bytes rule i topic)
  end.

Definition genIntType (rule : Z) (size : nat) : Hash :=
  gen_bytes rule size (if rule <? 0 then u256_max - 1 else 0).

(** Bytes as a big-endian number. *)
Fixpoint be_value (acc : Z) (b : bytes) : Z :=
  match b with EmptyString => acc | String c r => be_value (256 * acc + code c) r end.

Definition MakeTopic `{Crypto} (rule : TopicRule) : outcome Hash :=
  match rule with
  | RuleHash h => Ok h
  | RuleAddress a => Ok a
  | RuleBigInt n =>
      (* [topic[32-len(blob):]] of the absolute value's bytes *)
      if u256_max <=? Z.abs n then Panic "slice bounds out of range" else Ok (Z.abs n)
  | RuleBool b => Ok (if b then 1 else 0)
  | RuleInt size n => Ok (genIntType n size)
  | RuleUint n => Ok n
  | RuleString s => Ok (Keccak256Hash s)
  | RuleBytes b => Ok (Keccak256Hash b)
  | RuleByteArray b =>
      if (32 <? String.length b)%nat then Panic "slice bounds out of range"
      else Ok (be_value 0 b * 256 ^ Z.of_nat (32 - String.length b))
  | RuleOther => Err (errorf ErrOther "unsupported indexed type")
  end.

(** * Interfaces *)

(** The values the methods return, the methods' names and types, and the events of
    an [abi.ABI].  An argument that is a [*big.Int] is not nil. *)
Inductive AbiOutput : Type :=
  | OutBool (b : bool)
  | OutString (s : string)
  | OutUint8 (n : Z)
  | OutBigInt (n : Z).

Class TokenABI `{GethABI} : Type := {
  Method_Name : Method → string;
  IsFallback : Method → bool;
  IsReceive : Method → bool;
  as_Address : Argument → option Address;
  as_BigInt : Argument → option Z;
  Outputs_Pack : Method → AbiOutput → outcome bytes;
  Event_ID : ABI → string → Hash;
  (** [abi.Arguments{event.Inputs[i]}.Pack(value)] *)
  Event_Pack : ABI → string → nat → Z → outcome bytes
}.

(** [cmn.BankKeeper], as far as the precompiles use it.  [tb_msgServer] is the handler
    of [MsgSend] that [MsgServer.Send] finds by the keeper's type: those of x/bank
    and of x/precisebank have one. *)
Class TokenBank (K : Type) : Type := {
  tb_SpendableCoin : addr → denom → M K Coin;
  tb_GetSupply : denom → M K Coin;
  tb_GetDenomMetaData : K → denom → option Metadata;
  tb_SendCoins : addr → addr → Coins → M K unit;
  tb_msgServer : option (MsgSend → M K unit)
}.

(** The transfer keeper of ibc-go. *)
Class TransferKeeper : Type := { tk_GetDenom : bytes → option IbcDenom }.

(** * State *)

(** The log given to [AddLog]. *)
Record EthLog : Type := mkEthLog {
  el_Address : Address;
  el_Topics : list Hash;
  el_Data : bytes;
  el_BlockNumber : Z
}.

(** What a call works on: the store of x/erc20, the bank keeper's stores, and the
    logs added to the StateDB. *)
Record Tok (K : Type) : Type := mkTok { tk_erc20 : Erc20Store; tk_bank : K; tk_logs : list EthLog }.
Arguments mkTok {K} _ _ _.
Arguments tk_erc20 {K} _.
Arguments tk_bank {K} _.
Arguments tk_logs {K} _.

(** The parts of a [vm.Contract] that are read. *)
Record Call : Type := mkCall { c_Caller : Address; c_Value : Z; c_Input : bytes }.

(** * The ERC-20 precompile *)

Definition TransferMethod : string := "transfer".
Definition TransferFromMethod : string := "transferFrom".
Definition ApproveMethod : string := "approve".
Definition NameMethod : string := "name".
Definition SymbolMethod : string := "symbol".
Definition DecimalsMethod : string := "decimals".
Definition TotalSupplyMethod : string := "totalSupply".
Definition BalanceOfMethod : string := "balanceOf".
Definition AllowanceMethod : string := "allowance".
Definition DepositMethod : string := "deposit".
Definition WithdrawMethod : string := "withdraw".

(** [ibc.GetDenom]. *)
Definition ibc_GetDenom `{IbcTransfer, TransferKeeper} (voucherDenom : string) : outcome IbcDenom :=
  if negb (HasPrefix voucherDenom "ibc/") then Err (errorf ErrNoIBCVoucherDenom "denom is not an IBC voucher")
  else match ParseHexHash (str_drop 4 voucherDenom) with
       | Err e => Err e
       | Panic w => Panic w
       | Ok hash => match tk_GetDenom hash with
                    | None => Err (errorf ErrDenomNotFound "denom not found")
                    | Some denom => Ok denom
                    end
       end.

Section parse.
Context `{TokenABI}.

Definition bad_count {A} : outcome A := Err (errorf ErrOther "invalid number of arguments").

Definition ParseTransferArgs (args : list Argument) : outcome (Address * Z) :=
  match args with
  | [a0; a1] =>
      match as_Address a0 with
      | None => Err (errorf ErrOther "invalid to address")
      | Some to => match as_BigInt a1 with
                   | None => Err (errorf ErrOther "invalid amount")
                   | Some amount => Ok (to, amount)
                   end
      end
  | _ => bad_count
  end.

Definition ParseTransferFromArgs (args : list Argument) : outcome (Address * Address * Z) :=
  match args with
  | [a0; a1; a2] =>
      match as_Address a0 with
      | None => Err (errorf ErrOther "invalid from address")
      | Some from =>
          match as_Address a1 with
          | None => Err (errorf ErrOther "invalid to address")
          | Some to => match as_BigInt a2 with
                       | None => Err (errorf ErrOther "invalid amount")
                       | Some amount => Ok (from, to, amount)
                       end
          end
      end
  | _ => bad_count
  end.

Definition ParseApproveArgs (args : list Argument) : outcome (Address * Z) :=
  match args with
  | [a0; a1] =>
      match as_Address a0 with
      | None => Err (errorf ErrOther "invalid spender address")
      | Some spender => match as_BigInt a1 with
                        | None => Err (errorf ErrOther "invalid amount")
                        | Some amount => Ok (spender, amount)
                        end
      end
  | _ => bad_count
  end.

Definition ParseAllowanceArgs (args : list Argument) : outcome (Address * Address) :=
  match args with
  | [a0; a1] =>
      match as_Address a0 with
      | None => Err (errorf ErrOther "invalid owner address")
      | Some owner => match as_Address a1 with
                      | None => Err (errorf ErrOther "invalid spender address")
                      | Some spender => Ok (owner, spender)
                      end
      end
  | _ => bad_count
  end.

Definition ParseBalanceOfArgs (args : list Argument) : outcome Address :=
  match args with
  | [a0] => match as_Address a0 with
            | None => Err (errorf ErrOther "invalid account address")
            | Some account => Ok account
            end
  | _ => bad_count
  end.

Definition IsTransaction (method : Method) : bool :=
  bool_decide (Method_Name method ∈ [TransferMethod; TransferFromMethod; ApproveMethod]).

(** The gas of each method. *)
Definition method_gas (name : string) : Z :=
  if bool_decide (name = TransferMethod) then 9000
  else if bool_decide (name = TransferFromMethod) then 30500
  else if bool_decide (name = ApproveMethod) then 8100
  else if bool_decide (name = NameMethod) then 3421
  else if bool_decide (name = SymbolMethod) then 3464
  else if bool_decide (name = DecimalsMethod) then 427
  else if bool_decide (name = TotalSupplyMethod) then 2480
  else if bool_decide (name = BalanceOfMethod) then 2870
  else if bool_decide (name = AllowanceMethod) then 3225
  else 0.

Definition Erc20_RequiredGas (api : ABI) (input : bytes) : outcome Z :=
  if (String.length input <? 4)%nat then Ok 0
  else match MethodById api (str_take 4 input) with
       | Ok method => Ok (method_gas (Method_Name method))
       | Err _ => Ok 0
       | Panic w => Panic w
       end.
End parse.

(** [cmn.ErrIntegerOverflow]. *)
Definition ErrIntegerOverflowText : string := "integer overflow when increasing allowance".

Definition ConvertErrToERC20Error `{GethRevert} (err : error) : error :=
  let contains := str_contains (Error_String err) in
  if contains "spendable balance"
  then errorf ErrTransferAmountExceedsBalance "ERC20: transfer amount exceeds balance"
  else if contains "requested amount is more than spend limit"
  then errorf ErrInsufficientAllowance "ERC20: insufficient allowance"
  else if contains "subtracted value cannot be greater than existing allowance"
  then errorf ErrDecreasedAllowanceBelowZero "ERC20: decreased allowance below zero"
  else if contains ErrIntegerOverflowText then errorf ErrExecutionReverted "execution reverted"
  else if err_is err ErrNoIBCVoucherDenom || err_is err ErrDenomNotFound
          || contains "invalid base denomination" || contains "display denomination not found"
          || contains "invalid decimals"
  then errorf ErrExecutionReverted "execution reverted"
  else err.

(** [Precompile]: the address in [cmn.Precompile], the ABI and the token pair; the
    keepers are the interfaces above. *)
Record Precompile `{GethABI} : Type := mkPrecompile {
  pc_ContractAddress : Address;
  pc_ABI : ABI;
  pc_tokenPair : TokenPair
}.

Definition NewPrecompile `{GethABI, GethHex} (api : ABI) (tokenPair : TokenPair) : Precompile :=
  mkPrecompile _ (GetERC20Contract tokenPair) api tokenPair.

Section erc20.
Context `{SdkTypes, AddrCodec, Crypto, GethAddress, GethHex, SdkEvents, IbcTransfer, TmHash, GethRevert, Unicode}.
Context `{TokenABI, TransferKeeper} {K : Type} `{!TokenBank K} (BlockHeight : Z).
Abbreviation TS := (Tok K).
Implicit Types (p : Precompile) (method : Method) (args : list Argument) (contract : Call).

Definition erc20 {A} (m : M Erc20Store A) : M TS A :=
  zoom tk_erc20 (λ e s, mkTok e (tk_bank s) (tk_logs s)) m.
Definition kbank {A} (m : M K A) : M TS A :=
  zoom tk_bank (λ k s, mkTok (tk_erc20 s) k (tk_logs s)) m.
Definition add_log (l : EthLog) : M TS unit :=
  modify (λ s, mkTok (tk_erc20 s) (tk_bank s) (tk_logs s ++ [l])).

(** The error of a call, converted. *)
Definition converted {S A} (m : M S A) : M S A := on_error m (λ e, ret (ConvertErrToERC20Error e)).

(** ** Events *)

Definition EmitTransferEvent p (from to : Address) (value : Z) : M TS unit :=
  let! topic1 := of_outcome (MakeTopic (RuleAddress from)) in
  let! topic2 := of_outcome (MakeTopic (RuleAddress to)) in
  let! packed := of_outcome (Event_Pack (pc_ABI p) "Transfer" 2 value) in
  add_log (mkEthLog (pc_ContractAddress p) [Event_ID (pc_ABI p) "Transfer"; topic1; topic2] packed
             (wrap u64_max BlockHeight)).

Definition EmitApprovalEvent p (owner spender : Address) (value : Z) : M TS unit :=
  let! topic1 := of_outcome (MakeTopic (RuleAddress owner)) in
  let! topic2 := of_outcome (MakeTopic (RuleAddress spender)) in
  let! packed := of_outcome (Event_Pack (pc_ABI p) "Approval" 2 value) in
  add_log (mkEthLog (pc_ContractAddress p) [Event_ID (pc_ABI p) "Approval"; topic1; topic2] packed
             (wrap u64_max BlockHeight)).

(** ** Transactions *)

Definition NewMsgSend (from to : addr) (amount : Coins) : MsgSend :=
  mkMsgSend (AccAddress_String from) (AccAddress_String to) amount.

Definition MsgServer_Send (msg : MsgSend) : M TS unit :=
  match tb_msgServer with
  | Some send => converted (kbank (send msg))
  | None => throw (errorf ErrInvalidRequest "invalid keeper type")
  end.

(** The allowance left after a transfer by a spender, which is stored. *)
Definition spend_allowance p (from spenderAddr : Address) (amount : Z) : M TS Z :=
  let! prevAllowance := gets (λ s, GetAllowance (tk_erc20 s) (pc_ContractAddress p) from spenderAddr) in
  let newAllowance := prevAllowance - amount in
  if newAllowance <? 0 then throw (errorf ErrInsufficientAllowance "ERC20: insufficient allowance")
  else
    converted (erc20 (if newAllowance =? 0
                      then DeleteAllowance (pc_ContractAddress p) from spenderAddr
                      else SetAllowance (pc_ContractAddress p) from spenderAddr (Some newAllowance))) >>!
    ret newAllowance.

Definition transfer p contract method (from to : Address) (amount : Z) : M TS bytes :=
  let! n := ichk amount in
  let msg := NewMsgSend (Address_Bytes from) (Address_Bytes to) [mkCoin (tp_Denom (pc_tokenPair p)) n] in
  if negb (Coins_IsValid (MsgAmount msg)) then throw (errorf ErrInvalidCoins "invalid coins")
  else
    let isTransferFrom := bool_decide (Method_Name method = TransferFromMethod) in
    let spenderAddr := c_Caller contract in
    let! newAllowance := (if isTransferFrom then spend_allowance p from spenderAddr amount else ret 0) in
    converted (MsgServer_Send msg) >>!
    EmitTransferEvent p from to amount >>!
    when isTransferFrom (EmitApprovalEvent p from spenderAddr newAllowance) >>!
    of_outcome (Outputs_Pack method (OutBool true)).

Definition Transfer p contract method args : M TS bytes :=
  let! (to, amount) := of_outcome (ParseTransferArgs args) in
  transfer p contract method (c_Caller contract) to amount.

Definition TransferFrom p contract method args : M TS bytes :=
  let! (from, to, amount) := of_outcome (ParseTransferFromArgs args) in
  transfer p contract method from to amount.

(** [setAllowance] of the precompile; [BitLen] is that of the absolute value. *)
Definition set_allowance p (owner spender : Address) (allowance : Z) : M TS unit :=
  if u256_max <=? Z.abs allowance then throw (errorf ErrOther "amount causes integer overflow")
  else erc20 (SetAllowance (pc_ContractAddress p) owner spender (Some allowance)).

Definition Approve p contract method args : M TS bytes :=
  let! (spender, amount) := of_outcome (ParseApproveArgs args) in
  let owner := c_Caller contract in
  let! allowance := gets (λ s, GetAllowance (tk_erc20 s) (pc_ContractAddress p) owner spender) in
  (if (allowance =? 0) && (amount <? 0) then throw (errorf ErrNegativeAmount "cannot approve negative values")
   else if (allowance =? 0) && (0 <? amount) then set_allowance p owner spender amount
   else if (0 <? allowance) && (amount <=? 0)
   then erc20 (DeleteAllowance (pc_ContractAddress p) owner spender)
   else if (0 <? allowance) && (0 <? amount) then set_allowance p owner spender amount
   else ret tt) >>!
  EmitApprovalEvent p owner spender amount >>!
  of_outcome (Outputs_Pack method (OutBool true)).

(** ** Queries *)

Definition getBaseDenomFromIBCVoucher (voucherDenom : string) : outcome string :=
  match ibc_GetDenom voucherDenom with
  | Err e => Err e
  | Panic w => Panic w
  | Ok denom =>
      if (String.length (Base denom) <? 3)%nat
      then Err (errorf ErrOther "invalid base denomination; should be at least length 3")
      else Ok (Base denom)
  end.

Definition metadata p : M TS (option Metadata) :=
  gets (λ s, tb_GetDenomMetaData (tk_bank s) (tp_Denom (pc_tokenPair p))).

(** The name of a base denomination: its second byte in upper case and the rest. *)
Definition denom_name (baseDenom : string) : outcome string :=
  match baseDenom with
  | String _ (String c r) => Ok (String.append (ToUpper (string_of_byte c)) r)
  | _ => Panic "index out of range"
  end.

Definition Name p method : M TS bytes :=
  let! md := metadata p in
  match md with
  | Some md => of_outcome (Outputs_Pack method (OutString (md_Name md)))
  | None =>
      let! baseDenom := converted (of_outcome (getBaseDenomFromIBCVoucher (tp_Denom (pc_tokenPair p)))) in
      let! name := of_outcome (denom_name baseDenom) in
      of_outcome (Outputs_Pack method (OutString name))
  end.

Definition Symbol p method : M TS bytes :=
  let! md := metadata p in
  match md with
  | Some md => of_outcome (Outputs_Pack method (OutString (md_Symbol md)))
  | None =>
      let! baseDenom := converted (of_outcome (getBaseDenomFromIBCVoucher (tp_Denom (pc_tokenPair p)))) in
      of_outcome (Outputs_Pack method (OutString (ToUpper (str_drop 1 baseDenom))))
  end.

(** The exponent of the display unit, searched from the last unit on. *)
Fixpoint display_exponent (md : Metadata) (units : list DenomUnit) : option Z :=
  match units with
  | [] => None
  | u :: r =>
      let name := if HasPrefix (md_Base md) "ibc/" then after_last_slash (md_Display md) else md_Display md in
      if bool_decide (du_Denom u = name) then Some (du_Exponent u) else display_exponent md r
  end.

Definition Decimals p method : M TS bytes :=
  let! md := metadata p in
  match md with
  | None =>
      let! denom := converted (of_outcome (ibc_GetDenom (tp_Denom (pc_tokenPair p)))) in
      let! decimals := converted (of_outcome (DeriveDecimalsFromDenom (Base denom))) in
      of_outcome (Outputs_Pack method (OutUint8 decimals))
  | Some md =>
      match display_exponent md (rev (md_DenomUnits md)) with
      | None => throw (ConvertErrToERC20Error (errorf ErrOther "display denomination not found for denom"))
      | Some decimals =>
          if 255 <? decimals
          then throw (ConvertErrToERC20Error (errorf ErrOther "uint8 overflow: invalid decimals"))
          else of_outcome (Outputs_Pack method (OutUint8 decimals))
      end
  end.

Definition TotalSupply p method : M TS bytes :=
  let! supply := kbank (tb_GetSupply (tp_Denom (pc_tokenPair p))) in
  of_outcome (Outputs_Pack method (OutBigInt (Amount supply))).

Definition BalanceOf p method args : M TS bytes :=
  let! account := of_outcome (ParseBalanceOfArgs args) in
  let! balance := kbank (tb_SpendableCoin (Address_Bytes account) (tp_Denom (pc_tokenPair p))) in
  of_outcome (Outputs_Pack method (OutBigInt (Amount balance))).

(** The keeper's [GetAllowance] has no error to ignore. *)
Definition Allowance_ p method args : M TS bytes :=
  let! (owner, spender) := of_outcome (ParseAllowanceArgs args) in
  let! allowance := gets (λ s, GetAllowance (tk_erc20 s) (pc_ContractAddress p) owner spender) in
  of_outcome (Outputs_Pack method (OutBigInt allowance)).

(** ** Dispatch *)

Definition HandleMethod p contract method args : M TS bytes :=
  let name := Method_Name method in
  if bool_decide (name = TransferMethod) then Transfer p contract method args
  else if bool_decide (name = TransferFromMethod) then TransferFrom p contract method args
  else if bool_decide (name = ApproveMethod) then Approve p contract method args
  else if bool_decide (name = NameMethod) then Name p method
  else if bool_decide (name = SymbolMethod) then Symbol p method
  else if bool_decide (name = DecimalsMethod) then Decimals p method
  else if bool_decide (name = TotalSupplyMethod) then TotalSupply p method
  else if bool_decide (name = BalanceOfMethod) then BalanceOf p method args
  else if bool_decide (name = AllowanceMethod) then Allowance_ p method args
  else throw (errorf ErrOther "unknown method").

Definition Execute p contract (readOnly : bool) : M TS bytes :=
  if uint256_Sign (c_Value contract) =? 1 then throw (errorf ErrOther "cannot receive funds")
  else
    let! (method, args) := of_outcome (SetupABI (pc_ABI p) (c_Input contract) (c_Value contract) readOnly IsTransaction) in
    HandleMethod p contract method (default [] args).

(** * The wrapped coin *)

Context (info : EvmCoinInfo).

Definition createWERC20Event p (event : string) (address : Address) (amount : Z) : M TS unit :=
  let! topic1 := of_outcome (MakeTopic (RuleAddress address)) in
  let! packed := of_outcome (Event_Pack (pc_ABI p) event 1 amount) in
  add_log (mkEthLog (pc_ContractAddress p) [Event_ID (pc_ABI p) event; topic1] packed (wrap u64_max BlockHeight)).

Definition EmitDepositEvent p (caller : Address) (amount : Z) : M TS unit :=
  createWERC20Event p "Deposit" caller amount.
Definition EmitWithdrawalEvent p (src : Address) (amount : Z) : M TS unit :=
  createWERC20Event p "Withdrawal" src amount.

Definition Deposit p contract : M TS bytes :=
  let caller := c_Caller contract in
  let depositedAmount := c_Value contract in
  let! n := ichk depositedAmount in
  kbank (tb_SendCoins (Address_Bytes (pc_ContractAddress p)) (Address_Bytes caller)
           (NewCoins [mkCoin (eci_ExtendedDenom info) n])) >>!
  EmitDepositEvent p caller depositedAmount >>!
  ret EmptyString.

Definition Withdraw p contract args : M TS bytes :=
  match args with
  | [] => panic "index out of range"
  | a0 :: _ =>
      match as_BigInt a0 with
      | None => throw (errorf ErrOther "invalid argument type")
      | Some amount =>
          let! amountInt := ichk amount in
          let caller := c_Caller contract in
          let! nativeBalance := kbank (tb_SpendableCoin (Address_Bytes caller) (eci_Denom info)) in
          let! scaled := imul (Amount nativeBalance) (ConversionFactor info) in
          if scaled <? amountInt then throw (errorf ErrOther "account balance is lower than withdraw balance")
          else EmitWithdrawalEvent p caller amount >>! ret EmptyString
      end
  end.

Definition DepositRequiredGas : Z := 23878.
Definition WithdrawRequiredGas : Z := 9207.

Definition Werc20_RequiredGas (api : ABI) (input : bytes) : outcome Z :=
  if (String.length input <? 4)%nat then Ok DepositRequiredGas
  else match MethodById api (str_take 4 input) with
       | Err _ => Ok 0
       | Panic w => Panic w
       | Ok method =>
           if bool_decide (Method_Name method = DepositMethod) then Ok DepositRequiredGas
           else if bool_decide (Method_Name method = WithdrawMethod) then Ok WithdrawRequiredGas
           else Erc20_RequiredGas api input
       end.

Definition Werc20_IsTransaction method : bool :=
  if bool_decide (Method_Name method ∈ [DepositMethod; WithdrawMethod]) || (IsFallback method || IsReceive method)
  then true else IsTransaction method.

Definition Werc20_Execute p contract (readOnly : bool) : M TS bytes :=
  let! (method, args) :=
    of_outcome (SetupABI (pc_ABI p) (c_Input contract) (c_Value contract) readOnly Werc20_IsTransaction) in
  if IsFallback method || IsReceive method || bool_decide (Method_Name method = DepositMethod)
  then Deposit p contract
  else if bool_decide (Method_Name method = WithdrawMethod) then Withdraw p contract (default [] args)
  else HandleMethod p contract method (default [] args).
End erc20.
