(* ===== verification/TokenPrecompileThms.v ===== *)
(** The ERC-20 precompile implements the token of EIP-20 over the coins of the bank,
    and its events say what it did; the wrapped coin gives deposits back. *)

From S2P Require Import Prelude.
From S2P Require Import Sdk.
From S2P Require Import EvmDenom.
From S2P Require Import PreciseBank.
From S2P Require Import PreciseBankGenesis.
From S2P Require Import PreciseBankInv.
From S2P Require Import PreciseBankOps.
From S2P Require Import AccessList.
From S2P Require Import StateDB.
From S2P Require Import VmKeeper.
From S2P Require Import VmParams.
From S2P Require Import Precompile.
From S2P Require Import Erc20Denoms.
From S2P Require Import Erc20.
From S2P Require Import Erc20Reg.
From S2P Require Import Erc20Chain.
From S2P Require Import TokenPrecompile.

(** * Topics *)

Lemma gen_bytes_spec rule size t :
  gen_bytes rule size t = t - t mod 256 ^ Z.of_nat size + rule mod 256 ^ Z.of_nat size.
Proof.
  induction size as [|i IH]; cbn [gen_bytes]; [rewrite !Z.mod_1_r; lia|].
  unfold set_byte. rewrite IH. set (w := 256 ^ Z.of_nat i). assert (0 < w) as Hw by (apply Z.pow_pos_nonneg; lia).
  assert (256 ^ Z.of_nat (S i) = w * 256) as ->
    by (rewrite Nat2Z.inj_succ, Z.pow_succ_r by lia; unfold w; lia).
  assert (2 ^ (8 * Z.of_nat i) = w) as E8 by (rewrite Z.pow_mul_r by lia; done).
  rewrite Z.shiftr_div_pow2, E8 by lia.
  pose proof (Z.div_mod t w ltac:(lia)). pose proof (Z.mod_pos_bound rule w Hw). pose proof (Z.mod_pos_bound t w Hw).
  assert ((t - t mod w + rule mod w) / w = t / w) as ->.
  { replace (t - t mod w + rule mod w) with (rule mod w + t / w * w) by lia. rewrite Z.div_add, Z.div_small by lia. lia. }
  rewrite !Z.rem_mul_r by lia. lia.
Qed.

(** The topic of a signed integer of [size] bytes is its two's complement in 32 bytes. *)
Theorem genIntType_twos_complement rule size :
  (size ≤ 32)%nat → - 256 ^ Z.of_nat size ≤ rule < 256 ^ Z.of_nat size →
  genIntType rule size = rule mod u256_max.
Proof.
  intros Hs Hr. unfold genIntType. rewrite gen_bytes_spec.
  assert (256 ^ Z.of_nat size ≤ u256_max) as Hle
    by (change u256_max with (256 ^ 32); apply Z.pow_le_mono_r; lia).
  assert (0 < 256 ^ Z.of_nat size) as Hpos by (apply Z.pow_pos_nonneg; lia).
  set (w := 256 ^ Z.of_nat size) in *.
  assert (u256_max mod w = 0) as Hdiv.
  { unfold w. change u256_max with (256 ^ 32). replace 32 with ((32 - Z.of_nat size) + Z.of_nat size) by lia.
    rewrite Z.pow_add_r by lia. apply Z.mod_mul. lia. }
  destruct (Z.ltb_spec rule 0).
  - assert ((u256_max - 1) mod w = w - 1) as ->.
    { symmetry. apply (Z.mod_unique_pos _ _ (u256_max / w - 1)); [lia|]. pose proof (Z.div_mod u256_max w ltac:(lia)). lia. }
    assert (rule mod w = rule + w) as ->.
    { destruct (decide (rule = - w)) as [->|].
      - rewrite Z.mod_opp_l_z; [lia|lia|]. apply Z.mod_same. lia.
      - symmetry. apply (Z.mod_unique_pos _ _ (-1)); lia. }
    apply (Z.mod_unique_pos _ _ (-1)); lia.
  - rewrite Z.mod_0_l, (Z.mod_small rule w) by lia. rewrite Z.mod_small by lia. lia.
Qed.

(** * What the precompile relies on *)

(** The coin of denomination [d] in the bank: what each account holds and how much
    there is.  [tl_owner] tells the accounts a coin can be taken from. *)
Class TokenBankLaws (K : Type) `{SdkTypes, AddrCodec, !TokenBank K} (d : denom) : Type := {
  tl_wf : K → Prop;
  tl_bal : K → addr → Z;
  tl_total : K → Z;
  tl_owner : addr → Prop;
  tl_bal_nonneg k a : tl_wf k → 0 ≤ tl_bal k a;
  tl_msgServer send from to n k k' :
    tb_msgServer = Some send → tl_wf k → tl_owner from → from ≠ EmptyString → to ≠ EmptyString →
    0 < n < u256_max →
    send (NewMsgSend from to [mkCoin d n]) k = (k', Ok tt) →
    tl_wf k' ∧ tl_total k' = tl_total k ∧
    ∀ a, tl_bal k' a = tl_bal k a + (if decide (a = to) then n else 0) - (if decide (a = from) then n else 0);
  tl_SendCoins from to n k k' :
    tl_wf k → tl_owner from → tl_owner to → from ≠ EmptyString → to ≠ EmptyString → 0 ≤ n < u256_max →
    tb_SendCoins from to (NewCoins [mkCoin d n]) k = (k', Ok tt) →
    tl_wf k' ∧ tl_total k' = tl_total k ∧
    ∀ a, tl_bal k' a = tl_bal k a + (if decide (a = to) then n else 0) - (if decide (a = from) then n else 0)
}.

(** The reads of the bank keeper write nothing. *)
Class TokenBankReads (K : Type) `{!TokenBank K} : Prop := {
  tr_SpendableCoin a d k : (tb_SpendableCoin a d k).1 = k;
  tr_GetSupply d k : (tb_GetSupply d k).1 = k
}.

(** A valid set of one coin has a positive amount; a [uint256] argument is one. *)
Class TokenABILaws `{TokenABI, SdkTypes} : Prop := {
  single_positive d n : Coins_IsValid [mkCoin d n] = true → 0 < n;
  as_BigInt_range a n : as_BigInt a = Some n → 0 ≤ n < u256_max
}.

(** * The abstract token *)

Record Token : Type := mkToken {
  t_balance : Address → Z;
  t_allowance : Address → Address → Z;
  t_supply : Z
}.

Inductive TokenCall : Type :=
  | CallTransfer (to : Address) (n : Z)
  | CallTransferFrom (from to : Address) (n : Z)
  | CallApprove (spender : Address) (n : Z)
  | CallRead.

Inductive TokenEvent : Type :=
  | EvTransfer (from to : Address) (n : Z)
  | EvApproval (owner spender : Address) (n : Z).

(** [n] tokens go from one account, which has them, to another; nothing changes when
    both are the same, whatever [n] is. *)
Record tokens_moved (from to : Address) (n : Z) (T T' : Token) : Prop := {
  tm_covered : from ≠ to → n ≤ t_balance T from;
  tm_balance a : t_balance T' a =
    t_balance T a + (if decide (a = to) then n else 0) - (if decide (a = from) then n else 0);
  tm_supply : t_supply T' = t_supply T
}.

Definition allowance_updated (owner spender : Address) (n : Z) (T T' : Token) : Prop :=
  ∀ o sp, t_allowance T' o sp = if decide (o = owner ∧ sp = spender) then n else t_allowance T o sp.

Inductive token_step (caller : Address) : TokenCall → Token → Token → list TokenEvent → Prop :=
  | step_transfer to n T T' :
      0 < n → tokens_moved caller to n T T' → (∀ o sp, t_allowance T' o sp = t_allowance T o sp) →
      token_step caller (CallTransfer to n) T T' [EvTransfer caller to n]
  | step_transferFrom from to n T T' :
      0 < n ≤ t_allowance T from caller → tokens_moved from to n T T' →
      allowance_updated from caller (t_allowance T from caller - n) T T' →
      token_step caller (CallTransferFrom from to n) T T'
        [EvTransfer from to n; EvApproval from caller (t_allowance T from caller - n)]
  | step_approve spender n T T' :
      0 ≤ n → (∀ a, t_balance T' a = t_balance T a) → t_supply T' = t_supply T →
      allowance_updated caller spender n T T' →
      token_step caller (CallApprove spender n) T T' [EvApproval caller spender n]
  | step_read T : token_step caller CallRead T T [].

(** * The precompile's calls *)

Section calls.
Context `{SdkTypes, !SdkTypesLaws, AddrCodec, Crypto, GethAddress, !GethAddressLaws, GethHex, SdkEvents, IbcTransfer, TmHash}.
Context `{GethRevert, Unicode, TokenABI, !TokenABILaws, TransferKeeper}.
Context {K : Type} `{!TokenBank K, !TokenBankReads K} (BlockHeight : Z) (info : EvmCoinInfo).
Context (p : Precompile) (L : TokenBankLaws K (tp_Denom (pc_tokenPair p))).
Implicit Types (s : Tok K) (c : Call) (method : Method).

Abbreviation me := (pc_ContractAddress p).

Definition token_of s : Token := mkToken
  (λ a, tl_bal (tk_bank s) (Address_Bytes a))
  (λ o sp, GetAllowance (tk_erc20 s) me o sp)
  (tl_total (tk_bank s)).

(** The call a method and its arguments stand for. *)
Definition method_call (method : Method) (args : list Argument) : option TokenCall :=
  let name := Method_Name method in
  if bool_decide (name = TransferMethod)
  then match ParseTransferArgs args with Ok (to, n) => Some (CallTransfer to n) | _ => None end
  else if bool_decide (name = TransferFromMethod)
  then match ParseTransferFromArgs args with Ok (from, to, n) => Some (CallTransferFrom from to n) | _ => None end
  else if bool_decide (name = ApproveMethod)
  then match ParseApproveArgs args with Ok (spender, n) => Some (CallApprove spender n) | _ => None end
  else Some CallRead.

(** A call as the precompile reads it. *)
Definition decode_call c (readOnly : bool) : option TokenCall :=
  match SetupABI (pc_ABI p) (c_Input c) (c_Value c) readOnly IsTransaction with
  | Ok (method, args) => method_call method (default [] args)
  | _ => None
  end.

(** The log of an event. *)
Definition is_log (ev : TokenEvent) (l : EthLog) : Prop :=
  let '(name, x, y, n) := match ev with
                          | EvTransfer from to n => ("Transfer"%string, from, to, n)
                          | EvApproval owner spender n => ("Approval"%string, owner, spender, n)
                          end in
  ∃ data, Event_Pack (pc_ABI p) name 2 n = Ok data ∧
    l = mkEthLog me [Event_ID (pc_ABI p) name; x; y] data (wrap u64_max BlockHeight).

(** The stores between calls: every allowance is positive, and an account no coin can
    be taken from has granted none. *)
Record token_ok s : Prop := {
  to_bank : tl_wf (tk_bank s);
  to_positive : map_Forall (λ _ al, 0 < al_Value al) (es_allowances (tk_erc20 s));
  to_owners o sp : GetAllowance (tk_erc20 s) me o sp ≠ 0 → tl_owner (Address_Bytes o)
}.

(** ** Allowances *)

Lemma SetAllowance_exact st st' e o sp v u :
  SetAllowance e o sp (Some v) st = (st', Ok u) →
  0 ≤ v ∧
  (∀ e' o' sp', GetAllowance st' e' o' sp' =
     if decide (e' = e ∧ o' = o ∧ sp' = sp) then v else GetAllowance st e' o' sp') ∧
  (map_Forall (λ _ al, 0 < al_Value al) (es_allowances st) →
   map_Forall (λ _ al, 0 < al_Value al) (es_allowances st')).
Proof.
  intros (q & n & _ & _ & _ & _ & [= <-] & Hn & ->)%setAllowance_inv. split; [lia|]. split; cbn.
  - intros e' o' sp'. unfold GetAllowance. cbn.
    destruct (decide (e' = e ∧ o' = o ∧ sp' = sp)) as [(-> & -> & ->)|Hk]; destruct (decide (v = 0)) as [->|Hz].
    + by rewrite lookup_delete_eq.
    + by rewrite lookup_insert_eq.
    + by rewrite lookup_delete_ne by naive_solver.
    + by rewrite lookup_insert_ne by naive_solver.
  - intros Hp. destruct (decide (v = 0)); [by apply map_Forall_delete|]. apply map_Forall_insert_2; [cbn; lia|done].
Qed.

Lemma allowance_nonneg st e o sp :
  map_Forall (λ _ al, 0 < al_Value al) (es_allowances st) → 0 ≤ GetAllowance st e o sp.
Proof. intros Hp. unfold GetAllowance. destruct (_ !! _) as [al|] eqn:E; [|done]. apply Hp in E. lia. Qed.

(** What a call leaves in the store of x/erc20 when it sets one allowance. *)
Record allowance_set s s' (o sp : Address) (v : Z) : Prop := {
  as_value e' o' sp' : GetAllowance (tk_erc20 s') e' o' sp' =
    if decide (e' = me ∧ o' = o ∧ sp' = sp) then v else GetAllowance (tk_erc20 s) e' o' sp';
  as_positive : map_Forall (λ _ al, 0 < al_Value al) (es_allowances (tk_erc20 s)) →
    map_Forall (λ _ al, 0 < al_Value al) (es_allowances (tk_erc20 s'));
  as_bank : tk_bank s' = tk_bank s;
  as_logs : tk_logs s' = tk_logs s
}.

Lemma erc20_SetAllowance_inv s s' o sp v u :
  erc20 (SetAllowance me o sp (Some v)) s = (s', Ok u) → 0 ≤ v ∧ allowance_set s s' o sp v.
Proof.
  unfold erc20, zoom. destruct (SetAllowance me o sp (Some v) (tk_erc20 s)) as [st o'] eqn:E. intros [= <- ->].
  apply SetAllowance_exact in E as (Hv & Hg & Hp). split; [done|]. by split.
Qed.

Lemma spend_allowance_inv s s' from sp n x :
  spend_allowance p from sp n s = (s', Ok x) →
  x = GetAllowance (tk_erc20 s) me from sp - n ∧ 0 ≤ x ∧ allowance_set s s' from sp x.
Proof.
  unfold spend_allowance. intros (s1 & a & [= <- <-] & E)%bind_Ok_inv.
  set (x' := _ - n) in E. destruct (Z.ltb_spec x' 0) as [|Hx]; [done|].
  apply bind_Ok_inv in E as (s2 & [] & E & [= <- <-]). apply on_error_Ok_inv in E.
  assert (erc20 (SetAllowance me from sp (Some x')) s = (s2, Ok tt)) as E'
    by (destruct (Z.eqb_spec x' 0) as [Hz|]; [rewrite Hz|]; exact E).
  by apply erc20_SetAllowance_inv in E' as [_ ?].
Qed.

(** ** Events *)

Lemma EmitTransferEvent_inv from to n s s' u :
  EmitTransferEvent BlockHeight p from to n s = (s', Ok u) →
  ∃ l, is_log (EvTransfer from to n) l ∧ s' = mkTok (tk_erc20 s) (tk_bank s) (tk_logs s ++ [l]).
Proof.
  unfold EmitTransferEvent. cbn. destruct (Event_Pack _ _ _ _) as [data| |] eqn:Ed; [|done..]. intros [= <-].
  eexists. split; [|done]. by exists data.
Qed.

Lemma EmitApprovalEvent_inv owner spender n s s' u :
  EmitApprovalEvent BlockHeight p owner spender n s = (s', Ok u) →
  ∃ l, is_log (EvApproval owner spender n) l ∧ s' = mkTok (tk_erc20 s) (tk_bank s) (tk_logs s ++ [l]).
Proof.
  unfold EmitApprovalEvent. cbn. destruct (Event_Pack _ _ _ _) as [data| |] eqn:Ed; [|done..]. intros [= <-].
  eexists. split; [|done]. by exists data.
Qed.

(** ** Transactions *)

Lemma kbank_Ok {A} (m : M K A) s s' a :
  kbank m s = (s', Ok a) →
  m (tk_bank s) = (tk_bank s', Ok a) ∧ tk_erc20 s' = tk_erc20 s ∧ tk_logs s' = tk_logs s.
Proof. unfold kbank, zoom. destruct (m (tk_bank s)) as [k o]. by intros [= <- ->]. Qed.

(** What sending [n] coins does. *)
Record sent s s' (from to : Address) (n : Z) : Prop := {
  se_wf : tl_wf (tk_bank s');
  se_moved : tokens_moved from to n (token_of s) (token_of s');
  se_erc20 : tk_erc20 s' = tk_erc20 s;
  se_logs : tk_logs s' = tk_logs s
}.

Lemma bytes_eq_dec_eq (a b : Address) (n : Z) :
  (if decide (Address_Bytes a = Address_Bytes b) then n else 0) = if decide (a = b) then n else 0.
Proof.
  destruct (decide (a = b)) as [->|Hne]; [by rewrite decide_True|]. by rewrite decide_False by by intros ?%Address_Bytes_inj.
Qed.

Lemma moved_sent s s' from to n :
  tl_wf (tk_bank s') → tl_total (tk_bank s') = tl_total (tk_bank s) →
  (∀ a, tl_bal (tk_bank s') a = tl_bal (tk_bank s) a + (if decide (a = Address_Bytes to) then n else 0)
          - (if decide (a = Address_Bytes from) then n else 0)) →
  tk_erc20 s' = tk_erc20 s → tk_logs s' = tk_logs s → sent s s' from to n.
Proof.
  intros Hwf Ht Hb He Hl. split; [done| |done..]. split; cbn; [| |done].
  - intros Hne. pose proof (tl_bal_nonneg (tk_bank s') (Address_Bytes from) Hwf) as Hn. rewrite Hb in Hn.
    rewrite !bytes_eq_dec_eq, decide_False, decide_True in Hn by done. lia.
  - intros a. by rewrite Hb, !bytes_eq_dec_eq.
Qed.

Lemma Send_inv s s' from to n u :
  token_ok s → tl_owner (Address_Bytes from) → 0 < n < u256_max →
  converted (MsgServer_Send (NewMsgSend (Address_Bytes from) (Address_Bytes to)
                               [mkCoin (tp_Denom (pc_tokenPair p)) n])) s = (s', Ok u) →
  sent s s' from to n.
Proof.
  intros Hok Hfrom Hn E%on_error_Ok_inv. unfold MsgServer_Send in E. destruct tb_msgServer as [send|] eqn:Es; [|done].
  apply on_error_Ok_inv, kbank_Ok in E as (E & He & Hl). destruct u.
  apply tl_msgServer in E as (Hwf & Ht & Hb); [|done|apply Hok|done|apply Address_Bytes_nonempty..|done].
  by apply moved_sent.
Qed.

(** One transfer, whoever asks for it. *)
Lemma transfer_inv c method from to n s s' out :
  token_ok s → (tl_owner (Address_Bytes from) ∨ Method_Name method = TransferFromMethod) → 0 ≤ n < u256_max →
  transfer BlockHeight p c method from to n s = (s', Ok out) →
  0 < n ∧ ∃ s1 s2 x,
    (if decide (Method_Name method = TransferFromMethod)
     then x = t_allowance (token_of s) from (c_Caller c) - n ∧ 0 ≤ x ∧ allowance_set s s1 from (c_Caller c) x
     else s1 = s) ∧
    token_ok s1 ∧ tl_owner (Address_Bytes from) ∧ sent s1 s2 from to n ∧
    ∃ logs, s' = mkTok (tk_erc20 s2) (tk_bank s2) (tk_logs s2 ++ logs) ∧
      Forall2 is_log (EvTransfer from to n ::
        if decide (Method_Name method = TransferFromMethod) then [EvApproval from (c_Caller c) x] else []) logs.
Proof.
  intros Hok Hfrom Hn E. unfold transfer in E. erewrite bind_Ok in E by (apply ichk_run; lia).
  destruct (Coins_IsValid _) eqn:Hv; [|done]. apply single_positive in Hv. cbn [negb] in E.
  split; [done|]. apply bind_Ok_inv in E as (s1 & x & Ea & E). apply bind_Ok_inv in E as (s2 & [] & Es & E).
  apply bind_Ok_inv in E as (s3 & [] & Et & E). apply bind_Ok_inv in E as (s4 & [] & Ew & [= <- _]).
  apply EmitTransferEvent_inv in Et as (l & Hl & ->).
  assert (token_ok s1 ∧ tl_owner (Address_Bytes from) ∧
    if decide (Method_Name method = TransferFromMethod)
    then x = t_allowance (token_of s) from (c_Caller c) - n ∧ 0 ≤ x ∧ allowance_set s s1 from (c_Caller c) x
    else s1 = s) as (Hok1 & Ho & Hs1).
  { case_bool_decide as Em; [|rewrite decide_False by done; injection Ea as <- _; naive_solver].
    rewrite decide_True by done. apply spend_allowance_inv in Ea as (-> & Hx & Ha).
    assert (tl_owner (Address_Bytes from)) as Ho by (apply (to_owners _ Hok _ (c_Caller c)); lia).
    split_and!; try done. destruct Hok as [Hb Hp How]. destruct Ha as [Hval Hpos Hbank _].
    split; [by rewrite Hbank|by apply Hpos|]. intros o sp. rewrite Hval. case_decide; [naive_solver|apply How]. }
  exists s1, s2, x. split_and!; try done; [by eapply Send_inv; [..|exact Es]; [done|done|lia]|].
  case_bool_decide as Em; [rewrite decide_True by done|rewrite decide_False by done]; cbn [when] in Ew.
  - apply EmitApprovalEvent_inv in Ew as (l' & Hl' & ->). cbn. exists [l; l']. rewrite <-app_assoc.
    split; [done|]. constructor; [done|]. constructor; [done|constructor].
  - injection Ew as <-. exists [l]. split; [done|]. constructor; [done|constructor].
Qed.

(** A transfer of nothing, by [transfer] or [transferFrom], is always refused before
    anything is written, since no set of coins holds a zero amount. *)
Theorem zero_transfer_refused c method from to s :
  transfer BlockHeight p c method from to 0 s = (s, Err (errorf ErrInvalidCoins "invalid coins")).
Proof.
  unfold transfer. rewrite (bind_Ok (ichk 0) _ s s 0) by by apply ichk_run.
  cbn [NewMsgSend MsgAmount]. destruct (Coins_IsValid _) eqn:Hv; [|done]. apply single_positive in Hv. lia.
Qed.

(** What a successful call owes: it is a step of the abstract token, its logs are the
    step's events, the stores stay well formed and no other token is touched. *)
Record refines (caller : Address) (call : TokenCall) s s' : Prop := {
  rf_step : ∃ evs logs, token_step caller call (token_of s) (token_of s') evs ∧
              tk_logs s' = tk_logs s ++ logs ∧ Forall2 is_log evs logs;
  rf_ok : token_ok s';
  rf_others e o sp : e ≠ me → GetAllowance (tk_erc20 s') e o sp = GetAllowance (tk_erc20 s) e o sp
}.

Lemma refines_read caller s : token_ok s → refines caller CallRead s s.
Proof. intros. split; [|done..]. exists [], []. split_and!; [constructor|by rewrite app_nil_r|constructor]. Qed.

(** The ledger of a state only depends on the stores. *)
Lemma token_of_sent s s1 s2 from to n :
  sent s1 s2 from to n → tk_bank s1 = tk_bank s → tokens_moved from to n (token_of s) (token_of s2).
Proof. intros [_ [Hc Hb Ht] _ _] E. cbn in *. rewrite E in *. by split. Qed.

Lemma sent_ok s s' from to n logs : token_ok s → sent s s' from to n →
  token_ok (mkTok (tk_erc20 s') (tk_bank s') logs).
Proof. intros [_ Hp Ho] [Hwf _ He _]. split; cbn; [done|by rewrite He|]. rewrite He. apply Ho. Qed.

Lemma Transfer_refines c method args s s' out :
  token_ok s → tl_owner (Address_Bytes (c_Caller c)) → Method_Name method = TransferMethod →
  Transfer BlockHeight p c method args s = (s', Ok out) →
  ∃ to n, ParseTransferArgs args = Ok (to, n) ∧ refines (c_Caller c) (CallTransfer to n) s s'.
Proof.
  intros Hok Ho Hm E. unfold Transfer in E. apply bind_Ok_inv in E as (s1 & [to n] & [= <- Ea] & E).
  exists to, n. split; [done|].
  assert (0 ≤ n < u256_max) as Hn.
  { destruct args as [|a0 [|a1 [|]]]; try done. cbn in Ea. destruct (as_Address a0); [|done].
    destruct (as_BigInt a1) eqn:Eb; [|done]. injection Ea as -> ->. by eapply as_BigInt_range. }
  apply transfer_inv in E as (Hpos & s1 & s2 & x & Hs1 & Hok1 & _ & Hsent & logs & -> & Hlogs); [|naive_solver..].
  rewrite Hm, decide_False in Hs1 by done. rewrite Hm, decide_False in Hlogs by done. subst s1. pose proof (se_erc20 _ _ _ _ _ Hsent) as He.
  split; [|by eapply sent_ok|intros; cbn; by rewrite He].
  exists [EvTransfer (c_Caller c) to n], logs. split_and!; [|cbn; by rewrite (se_logs _ _ _ _ _ Hsent)|done].
  apply step_transfer; [done|exact (token_of_sent s s s2 _ _ _ Hsent eq_refl)|]. intros. cbn. by rewrite He.
Qed.

Lemma TransferFrom_refines c method args s s' out :
  token_ok s → Method_Name method = TransferFromMethod →
  TransferFrom BlockHeight p c method args s = (s', Ok out) →
  ∃ from to n, ParseTransferFromArgs args = Ok (from, to, n) ∧
    refines (c_Caller c) (CallTransferFrom from to n) s s'.
Proof.
  intros Hok Hm E. unfold TransferFrom in E. apply bind_Ok_inv in E as (s1 & [[from to] n] & [= <- Ea] & E).
  exists from, to, n. split; [done|].
  assert (0 ≤ n < u256_max) as Hn.
  { destruct args as [|a0 [|a1 [|a2 [|]]]]; try done. cbn in Ea. destruct (as_Address a0), (as_Address a1); try done.
    destruct (as_BigInt a2) eqn:Eb; [|done]. injection Ea as -> -> ->. by eapply as_BigInt_range. }
  apply transfer_inv in E as (Hpos & s1 & s2 & x & Hs1 & Hok1 & _ & Hsent & logs & -> & Hlogs); [|auto..].
  rewrite Hm, decide_True in Hs1 by done. rewrite Hm, decide_True in Hlogs by done. destruct Hs1 as (-> & Hx & [Hval _ Hbank Hl]).
  pose proof (se_erc20 _ _ _ _ _ Hsent) as He.
  split; [|by eapply sent_ok|intros e o sp Hne; cbn; rewrite He, Hval, decide_False by naive_solver; done].
  eexists _, logs. split_and!; [|cbn; by rewrite (se_logs _ _ _ _ _ Hsent), Hl|exact Hlogs].
  apply step_transferFrom; [cbn in *; lia|exact (token_of_sent s s1 s2 _ _ _ Hsent Hbank)|].
  intros o sp. cbn. rewrite He, Hval. repeat case_decide; naive_solver.
Qed.

(** Each branch of [Approve] sets the allowance to the amount. *)
Lemma approve_sets o sp n s s' u :
  token_ok s → 0 ≤ n →
  (let allowance := GetAllowance (tk_erc20 s) me o sp in
   if (allowance =? 0) && (n <? 0) then throw (errorf ErrNegativeAmount "cannot approve negative values")
   else if (allowance =? 0) && (0 <? n) then set_allowance p o sp n
   else if (0 <? allowance) && (n <=? 0) then erc20 (DeleteAllowance me o sp)
   else if (0 <? allowance) && (0 <? n) then set_allowance p o sp n
   else ret tt) s = (s', Ok u) →
  allowance_set s s' o sp n.
Proof.
  intros Hok Hn. pose proof (allowance_nonneg _ me o sp (to_positive _ Hok)) as Ha. cbn zeta.
  assert (set_allowance p o sp n s = (s', Ok u) → allowance_set s s' o sp n) as Hset.
  { unfold set_allowance. destruct (u256_max <=? _); [done|]. by intros [_ ?]%erc20_SetAllowance_inv. }
  destruct (Z.eqb_spec (GetAllowance (tk_erc20 s) me o sp) 0) as [E0|]; cbn [andb].
  - destruct (Z.ltb_spec n 0); [done|]. destruct (Z.ltb_spec 0 n); [done|]. rewrite E0. cbn.
    intros [= <-]. split; try done. intros e' o' sp'. case_decide; [|done]. destruct_and!; subst. lia.
  - rewrite (proj2 (Z.ltb_lt 0 _)) by lia. cbn [andb]. destruct (Z.leb_spec n 0).
    + intros E. assert (n = 0) as -> by lia. by eapply erc20_SetAllowance_inv in E as [_ ?].
    + by rewrite (proj2 (Z.ltb_lt 0 n)).
Qed.

Lemma Approve_refines c method args s s' out :
  token_ok s → tl_owner (Address_Bytes (c_Caller c)) →
  Approve BlockHeight p c method args s = (s', Ok out) →
  ∃ spender n, ParseApproveArgs args = Ok (spender, n) ∧ refines (c_Caller c) (CallApprove spender n) s s'.
Proof.
  intros Hok Ho E. unfold Approve in E. apply bind_Ok_inv in E as (s1 & [sp n] & [= <- Ea] & E).
  exists sp, n. split; [done|].
  assert (0 ≤ n < u256_max) as Hn.
  { destruct args as [|a0 [|a1 [|]]]; try done. cbn in Ea. destruct (as_Address a0); [|done].
    destruct (as_BigInt a1) eqn:Eb; [|done]. injection Ea as -> ->. by eapply as_BigInt_range. }
  apply bind_Ok_inv in E as (s1 & a & [= <- <-] & E). apply bind_Ok_inv in E as (s1 & [] & Es & E).
  apply approve_sets in Es as [Hval Hpos Hbank Hl]; [|done|lia].
  apply bind_Ok_inv in E as (s2 & [] & Et & [= <- _]). apply EmitApprovalEvent_inv in Et as (l & Hlog & ->).
  split; [| |intros e o sp' Hne; cbn; rewrite Hval, decide_False by naive_solver; done].
  - exists [EvApproval (c_Caller c) sp n], [l]. split_and!; [|cbn; by rewrite Hl|constructor; [done|constructor]].
    apply step_approve; [lia|cbn; by rewrite Hbank..|]. intros o sp'. cbn. rewrite Hval. repeat case_decide; naive_solver.
  - destruct Hok as [Hb Hp How]. split; cbn; [by rewrite Hbank|by apply Hpos|].
    intros o sp'. rewrite Hval. case_decide; [naive_solver|apply How].
Qed.

(** ** Queries *)

Definition reads {A} (m : M (Tok K) A) : Prop := ∀ s, (m s).1 = s.

Lemma reads_bind {A B} (m : M (Tok K) A) (f : A → M (Tok K) B) : reads m → (∀ a, reads (f a)) → reads (bind m f).
Proof. intros Hm Hf s. unfold bind. specialize (Hm s). destruct (m s) as [s1 []]; cbn in *; subst; try done. apply Hf. Qed.

Lemma reads_kbank {A} (m : M K A) : (∀ k, (m k).1 = k) → reads (kbank m).
Proof. intros Hm [e k l]. unfold kbank, zoom. cbn. specialize (Hm k). destruct (m k). cbn in *. by subst. Qed.

Lemma reads_of_outcome {A} (o : outcome A) : reads (of_outcome o).
Proof. by intros s. Qed.
Lemma reads_gets {A} (f : Tok K → A) : reads (gets f).
Proof. by intros s. Qed.
Lemma reads_converted {A} (o : outcome A) : reads (converted (of_outcome o)).
Proof. intros s. by destruct o. Qed.
Lemma reads_throw {A} e : reads (throw (A:=A) e).
Proof. by intros s. Qed.

#[local] Hint Resolve reads_of_outcome reads_gets reads_converted reads_throw reads_bind : core.

(** A method that is not a transaction writes nothing. *)
Lemma HandleMethod_reads c method args :
  IsTransaction method = false → reads (HandleMethod BlockHeight p c method args).
Proof.
  intros Ht. apply bool_decide_eq_false in Ht. unfold HandleMethod.
  rewrite !(bool_decide_eq_false_2 (Method_Name method = _)) by (intros E; apply Ht; rewrite E; set_solver).
  repeat case_bool_decide; unfold Name, Symbol, Decimals, TotalSupply, BalanceOf, Allowance_, metadata; auto.
  1-3: apply reads_bind; [auto|]; intros [md|]; auto.
  - destruct (display_exponent _ _); [|auto]. destruct (255 <? _); auto.
  - apply reads_bind; [|auto]. apply reads_kbank, tr_GetSupply.
  - apply reads_bind; [auto|]. intros a. apply reads_bind; [|auto]. apply reads_kbank. intros k. apply tr_SpendableCoin.
  - apply reads_bind; [auto|]. intros [o sp]. auto.
Qed.

(** ** Calls *)

Lemma HandleMethod_refines c method args s s' out :
  token_ok s → tl_owner (Address_Bytes (c_Caller c)) →
  HandleMethod BlockHeight p c method args s = (s', Ok out) →
  ∃ call, method_call method args = Some call ∧ refines (c_Caller c) call s s'.
Proof.
  intros Hok Ho E. unfold method_call. destruct (IsTransaction method) eqn:Et.
  - unfold HandleMethod in E. apply bool_decide_eq_true in Et. case_bool_decide as E1.
    { apply Transfer_refines in E as (to & n & -> & ?); eauto. }
    case_bool_decide as E2; [apply TransferFrom_refines in E as (from & to & n & -> & ?); eauto|].
    case_bool_decide as E3; [apply Approve_refines in E as (sp & n & -> & ?); eauto|]. set_solver.
  - pose proof (HandleMethod_reads c method args Et s) as Hr. rewrite E in Hr. cbn in Hr. subst s'.
    apply bool_decide_eq_false in Et. rewrite !bool_decide_eq_false_2 by (intros E1; apply Et; rewrite E1; set_solver).
    exists CallRead. split; [done|]. by apply refines_read.
Qed.

(** A call, its errors and panics undone by the EVM's snapshot. *)
Definition call_precompile c (readOnly : bool) s : Tok K :=
  match Execute BlockHeight p c readOnly s with (s', Ok _) => s' | _ => s end.

(** The successful calls of a history, with their callers. *)
Fixpoint run_calls (cs : list (Call * bool)) s : Tok K * list (Address * TokenCall) :=
  match cs with
  | [] => (s, [])
  | (c, readOnly) :: r =>
      let '(s', done) := run_calls r (call_precompile c readOnly s) in
      (s', match (Execute BlockHeight p c readOnly s).2, decode_call c readOnly with
           | Ok _, Some call => (c_Caller c, call) :: done
           | _, _ => done
           end)
  end.

Lemma Execute_refines c readOnly s s' out :
  token_ok s → tl_owner (Address_Bytes (c_Caller c)) →
  Execute BlockHeight p c readOnly s = (s', Ok out) →
  ∃ call, decode_call c readOnly = Some call ∧ refines (c_Caller c) call s s'.
Proof.
  intros Hok Ho E. unfold Execute in E. destruct (_ =? 1); [done|].
  apply bind_Ok_inv in E as (s1 & [method args] & [= <- Ea] & E). unfold decode_call. rewrite Ea.
  by eapply HandleMethod_refines.
Qed.

(** C22: the ERC-20 precompile implements EIP-20 over the coins of the bank.  A call
    that succeeds is a step of the abstract token: [transfer] and [transferFrom]
    between two accounts move a positive amount the source has, while a transfer from
    an account to itself is accepted whatever the amount and moves nothing;
    [transferFrom] takes the amount off the caller's allowance, [approve] sets the
    allowance, and everything else reads; supply never changes.  The logs it adds are exactly
    the step's Transfer and Approval events, and no other token's allowance moves. *)
Theorem token_call_refines c readOnly s s' out :
  token_ok s → tl_owner (Address_Bytes (c_Caller c)) →
  Execute BlockHeight p c readOnly s = (s', Ok out) →
  ∃ call evs logs, decode_call c readOnly = Some call ∧
    token_step (c_Caller c) call (token_of s) (token_of s') evs ∧
    tk_logs s' = tk_logs s ++ logs ∧ Forall2 is_log evs logs ∧ token_ok s' ∧
    ∀ e o sp, e ≠ me → GetAllowance (tk_erc20 s') e o sp = GetAllowance (tk_erc20 s) e o sp.
Proof.
  intros Hok Ho (call & Ec & [(evs & logs & ?) Hok' Hother])%Execute_refines; [|done..].
  exists call, evs, logs. naive_solver.
Qed.

(** ** Histories *)

(** What [spender] took from [owner], and what [owner] let it take. *)
Fixpoint taken (owner spender : Address) (l : list (Address * TokenCall)) : Z :=
  match l with
  | [] => 0
  | (caller, CallTransferFrom from _ n) :: r =>
      (if decide (from = owner ∧ caller = spender) then n else 0) + taken owner spender r
  | _ :: r => taken owner spender r
  end.

Fixpoint approved (owner spender : Address) (l : list (Address * TokenCall)) : Z :=
  match l with
  | [] => 0
  | (caller, CallApprove sp n) :: r =>
      (if decide (caller = owner ∧ sp = spender) then n else 0) + approved owner spender r
  | _ :: r => approved owner spender r
  end.

(** The net amount an account received. *)
Fixpoint received (a : Address) (l : list (Address * TokenCall)) : Z :=
  match l with
  | [] => 0
  | (caller, CallTransfer to n) :: r =>
      (if decide (a = to) then n else 0) - (if decide (a = caller) then n else 0) + received a r
  | (_, CallTransferFrom from to n) :: r =>
      (if decide (a = to) then n else 0) - (if decide (a = from) then n else 0) + received a r
  | _ :: r => received a r
  end.

Lemma token_step_budget caller call T T' evs o sp :
  token_step caller call T T' evs → 0 ≤ t_allowance T o sp →
  taken o sp [(caller, call)] + t_allowance T' o sp ≤ approved o sp [(caller, call)] + t_allowance T o sp.
Proof. intros [? ? ? ? ? _ ->|? ? ? ? ? ? _ ->|? ? ? ? ? _ _ ->|] Ha; cbn; repeat case_decide; naive_solver lia. Qed.

Lemma token_step_balance caller call T T' evs a :
  token_step caller call T T' evs → t_balance T' a = t_balance T a + received a [(caller, call)].
Proof. intros [? ? ? ? _ [_ -> _] _|? ? ? ? ? _ [_ -> _] _|? ? ? ? _ -> _ _|]; cbn; lia. Qed.

Lemma token_step_supply caller call T T' evs : token_step caller call T T' evs → t_supply T' = t_supply T.
Proof. by intros [? ? ? ? _ [_ _ ->] _|? ? ? ? ? _ [_ _ ->] _|? ? ? ? _ _ -> _|]. Qed.

Lemma taken_cons o sp x l : taken o sp (x :: l) = taken o sp [x] + taken o sp l.
Proof. destruct x as [? []]; cbn; lia. Qed.
Lemma approved_cons o sp x l : approved o sp (x :: l) = approved o sp [x] + approved o sp l.
Proof. destruct x as [? []]; cbn; lia. Qed.
Lemma received_cons a x l : received a (x :: l) = received a [x] + received a l.
Proof. destruct x as [? []]; cbn; lia. Qed.

(** C23: over any history of calls, failed ones included, by callers that are not the
    reserve: each balance is what it was plus what the successful transfers brought
    and minus what they took, the supply is unchanged, and what a spender took from
    an owner never exceeds the allowance it started with plus all the owner approved
    to it since. *)
Theorem token_history_within_approvals cs s s' l :
  token_ok s → Forall (λ x, tl_owner (Address_Bytes (c_Caller x.1))) cs → run_calls cs s = (s', l) →
  token_ok s' ∧ t_supply (token_of s') = t_supply (token_of s) ∧
  (∀ a, t_balance (token_of s') a = t_balance (token_of s) a + received a l) ∧
  ∀ o sp, taken o sp l + t_allowance (token_of s') o sp ≤ approved o sp l + t_allowance (token_of s) o sp.
Proof.
  revert s l. induction cs as [|[c ro] cs IH]; intros s l Hok Hcs E.
  { injection E as <- <-. split_and!; try done; intros; cbn; lia. }
  apply Forall_cons in Hcs as [Ho Hcs]. cbn in E, Ho. unfold call_precompile in E.
  destruct (Execute BlockHeight p c ro s) as [s1 [out|e|w]] eqn:Ee; cbn in E.
  2-3: destruct (run_calls cs s) as [s2 l2] eqn:Er; injection E as <- <-; by apply IH.
  destruct (run_calls cs s1) as [s2 l2] eqn:Er. apply Execute_refines in Ee as (call & Ec & [(evs & logs & Hst & _) Hok1 _]); [|done..].
  rewrite Ec in E. injection E as <- <-. apply IH in Er as (Hok2 & Hsup & Hb & Hal); [|done..]. split_and!; [done| | |].
  - rewrite Hsup. by eapply token_step_supply.
  - intros a. rewrite Hb, received_cons, (token_step_balance _ _ _ _ _ a Hst). lia.
  - intros o sp. rewrite taken_cons, approved_cons. specialize (Hal o sp).
    pose proof (token_step_budget _ _ _ _ _ o sp Hst (allowance_nonneg _ me o sp (to_positive _ Hok))). lia.
Qed.

(** ** Static calls *)

Lemma SetupABI_protects (api : ABI) input value (isTx : Method → bool) method args :
  SetupABI api input value true isTx = Ok (method, args) → isTx method = false.
Proof.
  unfold SetupABI. set (o := if Nat.eqb _ 0 then _ else _). destruct o as [m| |]; try done. cbn [andb].
  destruct (isTx m) eqn:E; [done|]. destruct (IsFunction m); [|by intros [= <- _]].
  destruct (Nat.ltb _ _); [done|]. by destruct (Inputs_Unpack _ _); try done; intros [= <- _].
Qed.

(** C24: a static call of either precompile, of any method and with any data, leaves
    the stores and the logs as they are, whether it succeeds or fails. *)
Theorem static_calls_write_nothing c s :
  (Execute BlockHeight p c true s).1 = s ∧ (Werc20_Execute BlockHeight info p c true s).1 = s.
Proof.
  split; revert s; change (reads (Execute BlockHeight p c true)) || change (reads (Werc20_Execute BlockHeight info p c true)).
  - unfold Execute. destruct (_ =? 1); [auto|]. intros s. unfold bind, of_outcome.
    destruct (SetupABI _ _ _ _ _) as [[m args]| |] eqn:E; try done. apply SetupABI_protects in E.
    by apply HandleMethod_reads.
  - intros s. unfold Werc20_Execute, bind, of_outcome.
    destruct (SetupABI _ _ _ _ _) as [[m args]| |] eqn:E; try done. apply SetupABI_protects in E.
    unfold Werc20_IsTransaction in E. destruct (bool_decide (_ ∈ _) || _) eqn:Et; [done|].
    apply orb_false_iff in Et as [Hn Hf]. rewrite Hf. apply bool_decide_eq_false in Hn.
    rewrite !(bool_decide_eq_false_2 (Method_Name m = _)) by (intros En; apply Hn; rewrite En; set_solver).
    by apply HandleMethod_reads.
Qed.

(** ** The wrapped coin *)

Section wrapped.
Context (Hdenom : tp_Denom (pc_tokenPair p) = eci_ExtendedDenom info).

Lemma createWERC20Event_inv event a n s s' u :
  createWERC20Event BlockHeight p event a n s = (s', Ok u) →
  ∃ data, Event_Pack (pc_ABI p) event 1 n = Ok data ∧
    s' = mkTok (tk_erc20 s) (tk_bank s)
           (tk_logs s ++ [mkEthLog me [Event_ID (pc_ABI p) event; a] data (wrap u64_max BlockHeight)]).
Proof.
  unfold createWERC20Event. cbn. destruct (Event_Pack _ _ _ _) as [data| |] eqn:Ed; [|done..]. intros [= <-].
  by exists data.
Qed.

Lemma Deposit_inv c s s' out :
  token_ok s → tl_owner (Address_Bytes (c_Caller c)) → tl_owner (Address_Bytes me) → 0 ≤ c_Value c < u256_max →
  Deposit BlockHeight info p c s = (s', Ok out) →
  ∃ s1 data, sent s s1 me (c_Caller c) (c_Value c) ∧ Event_Pack (pc_ABI p) "Deposit" 1 (c_Value c) = Ok data ∧
    s' = mkTok (tk_erc20 s1) (tk_bank s1)
           (tk_logs s1 ++ [mkEthLog me [Event_ID (pc_ABI p) "Deposit"; c_Caller c] data (wrap u64_max BlockHeight)]).
Proof.
  intros Hok Ho Hme Hv E. unfold Deposit in E. erewrite bind_Ok in E by (apply ichk_run; lia).
  apply bind_Ok_inv in E as (s1 & [] & Es & E). apply kbank_Ok in Es as (Es & He & Hl).
  apply bind_Ok_inv in E as (s2 & [] & Ed & [= <- _]). apply createWERC20Event_inv in Ed as (data & Ed & ->).
  rewrite <-Hdenom in Es. exists s1, data. split_and!; [|done..].
  apply tl_SendCoins in Es as (Hwf & Ht & Hb); [|apply Hok|done..|apply Address_Bytes_nonempty|apply Address_Bytes_nonempty|done].
  by apply moved_sent.
Qed.

(** A deposit into the wrapped coin, by its method or by a plain transfer of value,
    sends the whole value back from the precompile to the caller, who had just paid
    it, records it in one Deposit log and grants no allowance: the precompile keeps
    nothing, and wrapped and native coins stay one balance. *)
Theorem deposit_returns_value c s s' out :
  token_ok s → tl_owner (Address_Bytes (c_Caller c)) → tl_owner (Address_Bytes me) → 0 ≤ c_Value c < u256_max →
  Deposit BlockHeight info p c s = (s', Ok out) →
  tokens_moved me (c_Caller c) (c_Value c) (token_of s) (token_of s') ∧
  tk_erc20 s' = tk_erc20 s ∧
  ∃ data, Event_Pack (pc_ABI p) "Deposit" 1 (c_Value c) = Ok data ∧
    tk_logs s' = tk_logs s ++ [mkEthLog me [Event_ID (pc_ABI p) "Deposit"; c_Caller c] data (wrap u64_max BlockHeight)].
Proof.
  intros Hok Ho Hme Hv (s1 & data & Hsent & Ed & ->)%Deposit_inv; [|done..]. split_and!; [|apply Hsent|].
  - exact (token_of_sent s s s1 _ _ _ Hsent eq_refl).
  - exists data. split; [done|]. cbn. by rewrite (se_logs _ _ _ _ _ Hsent).
Qed.

(** Every successful call of the wrapped coin keeps the stores well formed and the
    supply; all but a deposit are steps of the abstract token, a withdrawal a read. *)
Theorem wrapped_calls_conserve c readOnly s s' out :
  token_ok s → tl_owner (Address_Bytes (c_Caller c)) → tl_owner (Address_Bytes me) → 0 ≤ c_Value c < u256_max →
  Werc20_Execute BlockHeight info p c readOnly s = (s', Ok out) →
  token_ok s' ∧ t_supply (token_of s') = t_supply (token_of s).
Proof.
  intros Hok Ho Hme Hv E. unfold Werc20_Execute in E. apply bind_Ok_inv in E as (s1 & [m args] & [= <- Ea] & E).
  destruct (_ || bool_decide _).
  - apply Deposit_inv in E as (s1 & data & Hsent & _ & ->); [|done..]. split; [by eapply sent_ok|]. apply Hsent.
  - case_bool_decide.
    + unfold Withdraw in E. destruct (default [] args) as [|a0 r]; [done|]. destruct (as_BigInt a0); [|done].
      apply bind_Ok_inv in E as (s1 & x & [-> _]%ichk_inv & E). apply bind_Ok_inv in E as (s1 & bal & Eb & E).
      pose proof (reads_kbank (tb_SpendableCoin (Address_Bytes (c_Caller c)) (eci_Denom info)) (tr_SpendableCoin _ _) s) as Hr.
      rewrite Eb in Hr. cbn in Hr. subst s1.
      apply bind_Ok_inv in E as (s1 & y & [-> _]%ichk_inv & E). destruct (_ <? _); [done|].
      apply bind_Ok_inv in E as (s1 & [] & Ew & [= <- _]). apply createWERC20Event_inv in Ew as (data & _ & ->).
      split; [|done]. by destruct Hok.
    + apply HandleMethod_refines in E as (call & _ & [(evs & logs & Hst & _) Hok' _]); [|done..].
      split; [done|]. by eapply token_step_supply.
Qed.
End wrapped.
End calls.

(** * The bank of the chain *)

(** x/precisebank over x/bank, as integra/app.go gives it to x/erc20, is such a bank
    for every plain coin and for the extended coin. *)
Section bank.
Context `{SdkTypes, !SdkTypesLaws, AccountKeeper, !AccountKeeperLaws, AddrCodec}.
Context {B : Type} `{!BankKeeper B, !BankKeeperLaws B, !BankMetadata B}.
Context (info : EvmCoinInfo) (Hinfo : valid_coin_info info) (Hreserve : reserve ≠ EmptyString).
(** The printed form of an address is read back, and the reserve receives nothing by
    message. *)
Context (Hcodec : ∀ a, a ≠ EmptyString → StringToBytes (AccAddress_String a) = Ok a).
Context (Hblocked : bk_BlockedAddr reserve = true).
Implicit Types (s : PState B).

#[local] Instance precisebank_bank : TokenBank (PState B) := {|
  tb_SpendableCoin := PreciseBank.SpendableCoin info;
  tb_GetSupply := PreciseBank.GetSupply;
  tb_GetDenomMetaData s d := bk_GetDenomMetaData (ps_bank s) d;
  tb_SendCoins := PreciseBank.SendCoins info;
  tb_msgServer := Some (PreciseBank.Send info)
|}.

#[local] Instance precisebank_reads : TokenBankReads (PState B).
Proof.
  split; [|done]. intros a d s. cbn. unfold PreciseBank.SpendableCoin, newCoin. destruct (_ && _); [done|].
  destruct (negb _); [done|]. unfold gets, imul, iadd, ichk, bind, ret, panic, GetFractionalBalance.
  clear Hinfo Hreserve Hcodec Hblocked. repeat (cbn; case_match); naive_solver.
Qed.

Lemma SendEnabled_reads cs s : (PreciseBank.IsSendEnabledCoins info cs s).1 = s.
Proof.
  induction cs as [|c cs IH]; [done|]. cbn. unfold bind. pose proof (IsSendEnabled_reads info c s) as Hr.
  destruct (PreciseBank.IsSendEnabledCoin info c s) as [s1 [[]|e|w]]; cbn in *; by subst.
Qed.

Lemma PreciseBank_Send_inv from to cs s s' :
  from ≠ EmptyString → to ≠ EmptyString → PreciseBank.Send info (NewMsgSend from to cs) s = (s', Ok tt) →
  bk_BlockedAddr to = false ∧ PreciseBank.SendCoins info from to cs s = (s', Ok tt).
Proof.
  intros Hf Ht. unfold PreciseBank.Send. cbn [FromAddress ToAddress NewMsgSend MsgAmount]. rewrite !Hcodec by done.
  rewrite !bind_ret. destruct (negb (Coins_IsValid cs)); [done|]. destruct (negb (Coins_IsAllPositive cs)); [done|].
  intros (s1 & [] & E1 & E)%bind_Ok_inv. pose proof (SendEnabled_reads cs s) as Hr. rewrite E1 in Hr. cbn in Hr. subst s1.
  by destruct (bk_BlockedAddr to).
Qed.

Lemma single_amount d n e : valid_denom d = true → 0 ≤ n →
  Coins_AmountOf (NewCoins [mkCoin d n]) e = if decide (e = d) then n else 0.
Proof.
  intros Hd Hn. destruct (decide (n = 0)) as [->|]; [rewrite NewCoins_zero; by case_decide|].
  apply NewCoins_amount; [done|lia].
Qed.

Lemma single_ext_value n : 0 ≤ n → ext_value info (NewCoins [mkCoin (ExtendedCoinDenom info) n]) = n.
Proof.
  intros Hn. unfold ext_value. assert (valid_denom (ExtendedCoinDenom info) = true) as Hd by apply Hinfo.
  rewrite !single_amount by done. rewrite (decide_True (P := ExtendedCoinDenom info = _)) by done.
  destruct (decide _); lia.
Qed.

Lemma single_in_range d n : valid_denom d = true → 0 ≤ n < u256_max → in_range (NewCoins [mkCoin d n]).
Proof. intros Hd Hn e. apply int_ok_spec. rewrite single_amount by (done || lia). case_decide; lia. Qed.

Lemma extended_send from to n s s' :
  pb_wf info s → from ≠ reserve → to ≠ reserve → from ≠ EmptyString → to ≠ EmptyString → 0 ≤ n < u256_max →
  PreciseBank.SendCoins info from to (NewCoins [mkCoin (ExtendedCoinDenom info) n]) s = (s', Ok tt) →
  pb_wf info s' ∧ ext_supply info s' = ext_supply info s ∧
  ∀ a, ext info s' a = ext info s a + (if decide (a = to) then n else 0) - (if decide (a = from) then n else 0).
Proof.
  intros Hwf Hf Ht Hfe Hte Hn E. apply (SendCoins_effect info Hinfo Hreserve) in E; try done;
    [|apply single_in_range; [apply Hinfo|done]].
  destruct E as [Hwf' _ Hext Hsup _ _]. rewrite single_ext_value in Hext by lia. split_and!; [done|lia|].
  intros a. destruct (decide (a = reserve)) as [->|Ha].
  - rewrite !(decide_False (P := reserve = _)) by congruence. unfold ext. rewrite !decide_True by done. lia.
  - rewrite Hext by done. unfold point. lia.
Qed.

(** The extended coin: a whole balance of the chain's coin, fraction included. *)
#[local] Instance extended_laws : TokenBankLaws (PState B) (ExtendedCoinDenom info).
Proof.
  refine {| tl_wf := pb_wf info; tl_bal s a := ext info s a; tl_total := ext_supply info; tl_owner a := a ≠ reserve |}.
  - intros s a Hwf. unfold ext. case_decide; [done|]. pose proof (CF_bounds info Hinfo). pose proof (frac_range info Hinfo s a Hwf).
    pose proof (bk_balance_nonneg (ps_bank s) a (IntegerCoinDenom info)). unfold ibal. nia.
  - intros send from to n s s' [= <-] Hwf Hf Hfe Hte Hn E. apply PreciseBank_Send_inv in E as [Hb E]; [|done..].
    rewrite <-(NewCoins_single (ExtendedCoinDenom info) n) in E by (apply Hinfo || lia).
    apply extended_send in E; try done; [congruence|lia].
  - intros from to n s s' Hwf Hf Ht Hfe Hte Hn E. by apply extended_send in E.
Defined.

(** A send of no coins. *)
Lemma send_nothing from to d s s' :
  PreciseBank.SendCoins info from to (NewCoins [mkCoin d 0]) s = (s', Ok tt) → s' = s.
Proof.
  unfold PreciseBank.SendCoins. destruct (Coins_IsValid _) eqn:Hv; [|done]. cbn [negb]. unfold split_coins.
  rewrite NewCoins_zero. cbn. rewrite IsAllPositive_valid, Empty_of_zero by (done || intros; apply NewCoins_zero).
  cbn. by intros [= <-].
Qed.

(** Any other coin: what x/bank holds. *)
Definition plain_laws d (Hd : plain_denom info d) : TokenBankLaws (PState B) d.
Proof.
  refine {| tl_wf _ := True; tl_bal s a := bk_GetBalance (ps_bank s) a d; tl_total s := bk_GetSupply (ps_bank s) d;
            tl_owner _ := True |}.
  - intros s a _. apply bk_balance_nonneg.
  - intros send from to n s s' [= <-] _ _ Hfe Hte Hn E. apply PreciseBank_Send_inv in E as [_ E]; [|done..].
    apply (send_one info d n Hd) in E as [? ?]; [|lia]. done.
  - intros from to n s s' _ _ _ Hfe Hte Hn E. destruct (decide (n = 0)) as [->|].
    + apply send_nothing in E as ->. split_and!; [done..|]. intros a. repeat case_decide; lia.
    + rewrite NewCoins_single in E by (apply Hd || lia). apply (send_one info d n Hd) in E as [? ?]; [|lia]. done.
Defined.
End bank.
