(* ===== verification/TokenPrecompileWit.v ===== *)
(** The token precompiles on a concrete chain: the extended coin of x/precisebank over
    the bank of SdkModel.v, with an interface description of a few bytes per method. *)

From S2P Require Import Prelude.
From S2P Require Import Sdk.
From S2P Require Import EvmDenom.
From S2P Require Import PreciseBank.
From S2P Require Import PreciseBankGenesis.
From S2P Require Import PreciseBankInv.
From S2P Require Import SdkModel.
From S2P Require Import PreciseBankWit.
From S2P Require Import AccessList.
From S2P Require Import StateDB.
From S2P Require Import StateDBWit.
From S2P Require Import VmKeeper.
From S2P Require Import VmKeeperWit.
From S2P Require Import VmParams.
From S2P Require Import Precompile.
From S2P Require Import PrecompileWit.
From S2P Require Import Erc20Denoms.
From S2P Require Import Erc20.
From S2P Require Import Erc20Chain.
From S2P Require Import Erc20Wit.
From S2P Require Import TokenPrecompile.
From S2P Require Import TokenPrecompileThms.

(** * Instances *)

Abbreviation mbank := (gmap string (gmap string Z)).

(** Addresses are printed as they are. *)
#[local] Instance k_codec : AddrCodec := {| AccAddressFromBech32 := Ok; AccAddress_String a := a |}.
#[local] Instance k_metadata : BankMetadata mbank := {| bk_GetDenomMetaData _ _ := None; bk_SetDenomMetaData _ := ret tt |}.
#[local] Instance k_unicode : Unicode := {| unicode_ToUpper s := s |}.
#[local] Instance k_transfer : TransferKeeper := {| tk_GetDenom _ := None |}.

(** A method is its name, the fallback has none; an argument is an address or a number. *)
#[local] Instance k_abi : GethABI := {
  ABI := unit;
  Method := option string;
  HasReceive _ := false;
  HasFallback _ := true;
  Receive _ := None;
  Fallback _ := None;
  MethodById _ id := if decide (id = "tran") then Ok (Some TransferMethod)
                     else if decide (id = "from") then Ok (Some TransferFromMethod)
                     else if decide (id = "appr") then Ok (Some ApproveMethod)
                     else if decide (id = "supp") then Ok (Some TotalSupplyMethod)
                     else if decide (id = "bala") then Ok (Some BalanceOfMethod)
                     else Err (errorf ErrOther "no method with id");
  IsFunction m := bool_decide (is_Some m);
  Argument := Z + Z;
  Inputs_Unpack _ x := match parse x with Some l => Ok l | None => Err (errorf ErrOther "abi") end
}.

#[local] Instance k_token : TokenABI := {|
  Method_Name := default EmptyString;
  IsFallback m := bool_decide (m = None);
  IsReceive _ := false;
  as_Address (x : Z + Z) := match x with inl a => Some a | inr _ => None end;
  as_BigInt (x : Z + Z) := match x with inr n => if decide (0 ≤ n < u256_max) then Some n else None | inl _ => None end;
  Outputs_Pack _ v := Ok match v with OutBool b => print b | OutString s => s | OutUint8 n | OutBigInt n => print n end;
  Event_ID _ name := Z.of_nat (String.length name);
  Event_Pack _ _ _ n := Ok (print n)
|}.

#[local] Instance k_laws : TokenABILaws.
Proof.
  split.
  - intros d n (_ & _ & Hn & _)%m_coins_cons. done.
  - intros [a|n] m; [done|]. cbn. case_decide; [|done]. by intros [= <-].
Qed.

Lemma k_codec_ok a : a ≠ EmptyString → StringToBytes (AccAddress_String a) = Ok a.
Proof. intros Ha. cbn. by rewrite decide_False. Qed.

Lemma k_blocked : bk_BlockedAddr (B := mbank) reserve = true.
Proof. reflexivity. Qed.

#[local] Instance k_bank : TokenBank (PState mbank) := precisebank_bank info6.
#[local] Instance k_reads : TokenBankReads (PState mbank) := precisebank_reads info6.
#[local] Instance k_coin : TokenBankLaws (PState mbank) "aatom" :=
  extended_laws info6 info6_valid reserve_set k_codec_ok k_blocked.

(** * A token and its calls *)

Definition token_pair : TokenPair := mkTokenPair (Address_String 7) "aatom" true OWNER_MODULE.
Definition token : Precompile := NewPrecompile tt token_pair.

Definition k_store : Erc20Store :=
  (SetToken token_pair empty_store).1.
Definition k_state : Tok (PState mbank) := mkTok k_store x_pb [].

Definition data (sel : string) (args : list (Z + Z)) : bytes := String.append sel (print args).
Definition approve_25 : Call := mkCall 1 0 (data "appr" [inl 3; inr (25 * 10 ^ 11)]).
Definition take_15 : Call := mkCall 3 0 (data "from" [inl 1; inl 2; inr (15 * 10 ^ 11)]).
Definition take_20 : Call := mkCall 3 0 (data "from" [inl 1; inl 2; inr (20 * 10 ^ 11)]).
Definition send_10 : Call := mkCall 1 0 (data "tran" [inl 2; inr (10 * 10 ^ 11)]).
Definition balance_2 : Call := mkCall 3 0 (data "bala" [inl 2]).

Abbreviation exec := (Execute (K := PState mbank) 100 token).

Lemma k_state_ok : token_ok token k_coin k_state.
Proof. split; [exact x_pb_wf|apply map_Forall_empty|]. intros o sp Hne. by destruct Hne. Qed.

Lemma owner_not_reserve a : Address_Bytes a ≠ reserve.
Proof. intros E. injection E. discriminate. Qed.

(** After the approval, the spender moves some of it. *)
Definition k_approved := (exec approve_25 false k_state).1.
Definition k_taken := (exec take_15 false k_approved).1.

(** The state of a call that succeeded. *)
Lemma ok_call {S} (r : S * outcome bytes) : is_ok r.2 = true → ∃ out, r = (r.1, Ok out).
Proof. destruct r as [? [out| |]]; [by exists out|done..]. Qed.

Lemma token_call_refines_witness :
  token_ok token k_coin k_taken ∧ taken 1 3 [(3, CallTransferFrom 1 2 (15 * 10 ^ 11))] = 15 * 10 ^ 11 ∧
  ∃ call evs logs, decode_call token take_15 false = Some call ∧
    token_step 3 call (token_of token k_coin k_approved) (token_of token k_coin k_taken) evs ∧
    tk_logs k_taken = tk_logs k_approved ++ logs ∧ Forall2 (is_log 100 token) evs logs ∧ length logs = 2%nat.
Proof.
  destruct (ok_call (exec approve_25 false k_state)) as [o1 E1]; [vm_compute; reflexivity|].
  destruct (token_call_refines 100 token k_coin approve_25 false k_state k_approved o1 k_state_ok (owner_not_reserve 1) E1)
    as (c1 & ev1 & l1 & _ & _ & _ & _ & Hok1 & _).
  destruct (ok_call (exec take_15 false k_approved)) as [o2 E2]; [vm_compute; reflexivity|].
  destruct (token_call_refines 100 token k_coin take_15 false k_approved k_taken o2 Hok1 (owner_not_reserve 3) E2)
    as (c2 & ev2 & l2 & Hc & Hst & Hl & Hf & Hok2 & _).
  split; [exact Hok2|]. split; [reflexivity|]. exists c2, ev2, l2. repeat (split; [assumption|]).
  assert (length (tk_logs k_taken) = 3%nat) as Hn by (vm_compute; reflexivity).
  assert (length (tk_logs k_approved) = 1%nat) as Hm by (vm_compute; reflexivity).
  rewrite Hl, length_app, Hm in Hn. lia.
Defined.

(** The second call of the spender fails: only 1.0 is left of what was approved. *)
Definition k_history : list (Call * bool) :=
  [(approve_25, false); (take_15, false); (take_20, false); (send_10, false); (balance_2, true)].

Lemma token_history_within_approvals_witness :
  let '(s', l) := run_calls 100 token k_history k_state in
  l = [(1, CallApprove 3 (25 * 10 ^ 11)); (3, CallTransferFrom 1 2 (15 * 10 ^ 11)); (1, CallTransfer 2 (10 * 10 ^ 11));
       (3, CallRead)] ∧
  t_balance (token_of token k_coin s') 2 = t_balance (token_of token k_coin k_state) 2 + 25 * 10 ^ 11 ∧
  taken 1 3 l + t_allowance (token_of token k_coin s') 1 3 ≤ 25 * 10 ^ 11.
Proof.
  destruct (run_calls 100 token k_history k_state) as [s' l] eqn:E.
  pose proof (token_history_within_approvals 100 token k_coin k_history k_state s' l k_state_ok) as Hh.
  destruct Hh as (_ & _ & Hb & Ha); [repeat constructor; apply owner_not_reserve|exact E|].
  assert (l = (run_calls 100 token k_history k_state).2) as El by (rewrite E; reflexivity).
  clear E. vm_compute in El. subst l. split; [reflexivity|]. split; [rewrite (Hb 2); reflexivity|exact (Ha 1 3)].
Defined.

Lemma static_calls_write_nothing_witness :
  (exec send_10 true k_state).1 = k_state ∧ (Werc20_Execute 100 info6 token send_10 true k_state).1 = k_state.
Proof. exact (static_calls_write_nothing 100 info6 token send_10 k_state). Defined.

Lemma zero_transfer_refused_witness :
  transfer 100 token send_10 (Some TransferMethod) 1 2 0 k_state = (k_state, Err (errorf ErrInvalidCoins "invalid coins")).
Proof. exact (zero_transfer_refused 100 token send_10 (Some TransferMethod) 1 2 k_state). Defined.

(** * The wrapped coin *)

(** The account of address 1 has just paid 2.5 coins to the precompile. *)
Definition deposit_25 : Call := mkCall 1 (25 * 10 ^ 11) EmptyString.
Definition paid_pb := (PreciseBank.SendCoins info6 acc1 (Address_Bytes 7) (aatom (25 * 10 ^ 11)) x_pb).1.
Definition k_paid : Tok (PState mbank) := mkTok k_store paid_pb [].

Lemma paid_wf : pb_wf info6 paid_pb.
Proof.
  assert (PreciseBank.SendCoins info6 acc1 (Address_Bytes 7) (aatom (25 * 10 ^ 11)) x_pb = (paid_pb, Ok tt)) as E by run_ok.
  apply (extended_send info6 info6_valid reserve_set) in E; [apply E|exact x_pb_wf|run..|by split].
Qed.

Lemma deposit_returns_value_witness :
  tokens_moved 7 1 (25 * 10 ^ 11) (token_of token k_coin k_paid)
    (token_of token k_coin (Deposit 100 info6 token deposit_25 k_paid).1).
Proof.
  destruct (ok_call (Deposit 100 info6 token deposit_25 k_paid)) as [out E]; [vm_compute; reflexivity|].
  refine (proj1 (deposit_returns_value 100 info6 token k_coin eq_refl deposit_25 k_paid _ out _ (owner_not_reserve 1)
                   (owner_not_reserve 7) _ E)); [|by split].
  split; [exact paid_wf|apply map_Forall_empty|]. intros o sp Hne. by destruct Hne.
Defined.

(** What the wrapped coin reports of itself: an account may transfer to itself more
    than it has, and the event is emitted; the supply it states is that of a
    denomination x/bank never holds. *)
Definition boast : Call := mkCall 1 0 (data "tran" [inl 1; inr (10 ^ 30)]).
Definition ask_supply : Call := mkCall 1 0 (data "supp" []).

Theorem wrapped_coin_misreports :
  (exec boast false k_state).2 = Ok (print true) ∧
  t_balance (token_of token k_coin k_state) 1 = 53 * 10 ^ 11 ∧
  (el_Topics <$> tk_logs (exec boast false k_state).1) = [[Event_ID tt "Transfer"; 1; 1]] ∧
  (el_Data <$> tk_logs (exec boast false k_state).1) = [print (10 ^ 30)] ∧
  (exec ask_supply false k_state).2 = Ok (print 0) ∧ t_supply (token_of token k_coin k_state) <> 0.
Proof. vm_compute. split_and!; congruence || discriminate. Qed.
