(* ===== verification/GoHeap.v ===== *)
(** Go's container/heap on a slice: [down], [up], [Init], [Fix] and [Pop], with the heap
    order they keep.  The loops of [down] and [up] run on fuel: one unit per element
    suffices, because the index at least doubles or halves. *)

From S2P Require Import Prelude.

Section heap.
Context {A : Type} (Less : A → A → bool).
Implicit Types (l : list A) (i j n : nat).
Open Scope nat_scope.

(** * Operations *)

(** [h.Less(i, j)] and [h.Swap(i, j)]; the callers stay in range. *)
Definition less_at l i j : bool :=
  match l !! i, l !! j with Some x, Some y => Less x y | _, _ => false end.

Definition Swap i j l : list A :=
  match l !! i, l !! j with Some x, Some y => <[i:=y]> (<[j:=x]> l) | _, _ => l end.

(** The loop of [down]; the result also says where the element ended. *)
Fixpoint down_loop (fuel : nat) l i n : list A * nat :=
  match fuel with
  | O => (l, i)
  | S fuel =>
      let j1 := 2 * i + 1 in
      if n <=? j1 then (l, i)
      else
        let j := if (j1 + 1 <? n) && less_at l (j1 + 1) j1 then j1 + 1 else j1 in
        if negb (less_at l j i) then (l, i) else down_loop fuel (Swap i j l) j n
  end.

Definition down l i0 n : list A * bool :=
  let '(l', i) := down_loop n l i0 n in (l', i0 <? i).

Fixpoint up_loop (fuel : nat) l j : list A :=
  match fuel with
  | O => l
  | S fuel =>
      let i := (j - 1) / 2 in
      if (i =? j) || negb (less_at l j i) then l else up_loop fuel (Swap i j l) i
  end.

Definition up l j : list A := up_loop (S j) l j.

(** The loop of [Init] down from [i - 1]. *)
Fixpoint init_loop i l : list A :=
  match i with
  | O => l
  | S i => init_loop i (down l i (length l)).1
  end.

Definition Init l : list A := init_loop (length l / 2) l.

Definition Fix l i : list A :=
  let '(l', moved) := down l i (length l) in if moved then l' else up l' i.

(** [Pop] of an empty heap panics. *)
Definition Pop l : option (list A * A) :=
  match l with
  | [] => None
  | _ =>
      let n := length l - 1 in
      let l' := (down (Swap 0 n l) 0 n).1 in
      x ← l' !! n; Some (take n l', x)
  end.

(** * Permutations *)

Lemma Swap_length i j l : length (Swap i j l) = length l.
Proof. unfold Swap. destruct (l !! i), (l !! j); rewrite ?length_insert; done. Qed.

Lemma Swap_lookup i j k l x y :
  l !! i = Some x → l !! j = Some y →
  Swap i j l !! k = if decide (k = i) then Some y else if decide (k = j) then Some x else l !! k.
Proof.
  intros Hi Hj. unfold Swap. rewrite Hi, Hj. pose proof (lookup_lt_Some _ _ _ Hi). pose proof (lookup_lt_Some _ _ _ Hj).
  case_decide as Ei; [subst; by rewrite list_lookup_insert_eq by by rewrite length_insert|].
  rewrite list_lookup_insert_ne by done. case_decide as Ej; [subst; by rewrite list_lookup_insert_eq|].
  by rewrite list_lookup_insert_ne.
Qed.

Lemma insert_Permutation l i x y : l !! i = Some x → y :: l ≡ₚ x :: <[i:=y]> l.
Proof.
  intros Hi. apply lookup_lt_Some in Hi as Hl. rewrite insert_take_drop by done.
  rewrite <-(take_drop_middle l i x Hi) at 1. rewrite <-!Permutation_middle. constructor.
Qed.

Lemma Swap_Permutation i j l : Swap i j l ≡ₚ l.
Proof.
  unfold Swap. destruct (l !! i) as [x|] eqn:Hi, (l !! j) as [y|] eqn:Hj; try done.
  pose proof (lookup_lt_Some _ _ _ Hi) as Hl. pose proof (lookup_lt_Some _ _ _ Hj).
  assert (<[j:=x]> l !! i = Some x) as Hx.
  { destruct (decide (i = j)) as [->|]; [by rewrite list_lookup_insert_eq|by rewrite list_lookup_insert_ne]. }
  pose proof (insert_Permutation _ _ _ y Hx) as H1. pose proof (insert_Permutation _ _ _ x Hj) as H2.
  apply (Permutation_cons_inv (a := x)). rewrite <-H1. by rewrite <-H2.
Qed.

Lemma down_loop_Permutation fuel l i n : (down_loop fuel l i n).1 ≡ₚ l.
Proof.
  revert l i. induction fuel as [|fuel IH]; intros l i; cbn -[Nat.mul Nat.ltb Nat.leb]; [done|].
  destruct (n <=? _); [done|]. destruct (negb _); [done|]. rewrite IH. apply Swap_Permutation.
Qed.

Lemma down_Permutation l i n : (down l i n).1 ≡ₚ l.
Proof. unfold down. pose proof (down_loop_Permutation n l i n) as Hp. by destruct (down_loop n l i n). Qed.

Lemma init_loop_Permutation i l : init_loop i l ≡ₚ l.
Proof. revert l. induction i as [|i IH]; intros l; cbn; [done|]. rewrite IH. apply down_Permutation. Qed.

Lemma Init_Permutation l : Init l ≡ₚ l.
Proof. apply init_loop_Permutation. Qed.

(** * The heap order *)

(** [y] does not come before [x]. *)
Definition not_before (x y : A) : Prop := Less y x = false.

Definition child p c : Prop := c = 2 * p + 1 ∨ c = 2 * p + 2.

(** Every node from [k] on comes before its children, in the first [n] elements. *)
Definition heap_from k l n : Prop :=
  ∀ p c x y, child p c → c < n → k ≤ p → l !! p = Some x → l !! c = Some y → not_before x y.

(** The same, except that [i] may be out of order with its children, of which its
    parent still comes before. *)
Record heap_but k l n i : Prop := {
  hb_heap p c x y : child p c → c < n → k ≤ p → p ≠ i → l !! p = Some x → l !! c = Some y → not_before x y;
  hb_grand g c x y : child g i → child i c → c < n → k ≤ g → l !! g = Some x → l !! c = Some y → not_before x y
}.

Context (asym : ∀ x y, Less x y = true → Less y x = false).
Context (trans : ∀ x y z, not_before x y → not_before y z → not_before x z).

(** The child [down] compares with: the other one does not come before it. *)
Lemma chosen_child l i n :
  n ≤ length l → 2 * i + 1 < n →
  let j1 := 2 * i + 1 in
  let j := if (j1 + 1 <? n) && less_at l (j1 + 1) j1 then j1 + 1 else j1 in
  child i j ∧ j < n ∧ ∀ c x y, child i c → c < n → c ≠ j → l !! j = Some x → l !! c = Some y → not_before x y.
Proof.
  intros Hl Hn. cbn zeta. set (j1 := 2 * i + 1) in *. assert (j1 = 2 * i + 1) as Hj1 by done. clearbody j1.
  unfold child. destruct (Nat.ltb_spec (j1 + 1) n) as [H2|H2]; cbn [andb].
  - destruct (lookup_lt_is_Some_2 l j1) as [x1 E1]; [lia|]. destruct (lookup_lt_is_Some_2 l (j1 + 1)) as [x2 E2]; [lia|].
    unfold less_at. rewrite E1, E2. unfold not_before. destruct (Less x2 x1) eqn:E.
    + split; [right; lia|]. split; [done|]. intros c x y [->| ->] _ Hne Ex Ey; [|lia].
      rewrite <-Hj1 in Ey. rewrite E1 in Ey. rewrite E2 in Ex. injection Ex as <-. injection Ey as <-. by apply asym.
    + split; [left; lia|]. split; [lia|]. intros c x y [->| ->] _ Hne Ex Ey; [lia|].
      replace (2 * i + 2) with (j1 + 1) in Ey by lia. rewrite E2 in Ey. rewrite E1 in Ex. congruence.
  - split; [left; lia|]. split; [lia|]. intros c x y [->| ->] Hc Hne; lia.
Qed.

Lemma swap_heap_but k l i j n xi xj :
  k ≤ i → child i j → j < n → l !! i = Some xi → l !! j = Some xj → Less xj xi = true →
  (∀ c x y, child i c → c < n → c ≠ j → l !! j = Some x → l !! c = Some y → not_before x y) →
  heap_but k l n i → heap_but k (Swap i j l) n j.
Proof.
  intros Hk Hij Hj Ei Ej Hless Hsib [Hh Hg]. split; unfold child in *.
  - intros p c x y Hpc Hc Hkp Hp. rewrite !(Swap_lookup _ _ _ _ _ _ Ei Ej).
    rewrite (decide_False (P := p = j)) by done. intros Ex Ey. destruct (decide (p = i)) as [->|Hpi].
    + injection Ex as <-. rewrite (decide_False (P := c = i)) in Ey by lia. destruct (decide (c = j)); simplify_eq; [by apply asym|by eapply Hsib].
    + destruct (decide (c = i)) as [->|]; [injection Ey as <-; by eapply Hg|].
      rewrite (decide_False (P := c = j)) in Ey by lia. by eapply Hh.
  - intros g c x y Hgj Hjc Hc Hkg. rewrite !(Swap_lookup _ _ _ _ _ _ Ei Ej). assert (g = i) as -> by lia.
    rewrite decide_True, !(decide_False (P := c = _)) by lia. intros [= <-] Ey. eapply (Hh j c); eauto; lia.
Qed.

Lemma down_loop_heap fuel k l i n :
  n ≤ length l → n - i ≤ fuel → k ≤ i → heap_but k l n i → heap_from k (down_loop fuel l i n).1 n.
Proof.
  revert l i. induction fuel as [|fuel IH]; intros l i Hl Hf Hk Hb; cbn -[Nat.mul Nat.ltb Nat.leb].
  { intros p c x y Hpc Hc Hkp. apply (hb_heap _ _ _ _ Hb); try done. unfold child in *. lia. }
  destruct (Nat.leb_spec n (2 * i + 1)) as [Hn|Hn].
  { intros p c x y Hpc Hc Hkp. apply (hb_heap _ _ _ _ Hb); try done. unfold child in *. lia. }
  destruct (chosen_child l i n Hl Hn) as (Hij & Hj & Hsib). cbn zeta in *. set (j := if _ && _ then _ else _) in *.
  destruct (lookup_lt_is_Some_2 l i) as [xi Ei]; [lia|]. destruct (lookup_lt_is_Some_2 l j) as [xj Ej]; [lia|].
  unfold less_at at 1. rewrite Ei, Ej. destruct (Less xj xi) eqn:E; cbn [negb].
  - apply IH; [by rewrite Swap_length|unfold child in *; lia|unfold child in *; lia|]. by eapply swap_heap_but.
  - cbn [fst]. intros p c x y Hpc Hc Hkp Ex Ey. destruct (decide (p = i)) as [->|]; [|by eapply (hb_heap _ _ _ _ Hb)].
    rewrite Ei in Ex. injection Ex as <-. destruct (decide (c = j)) as [->|].
    + rewrite Ej in Ey. by injection Ey as <-.
    + apply trans with xj; [done|]. by eapply Hsib.
Qed.

Lemma down_heap k l i n : n ≤ length l → k ≤ i → heap_but k l n i → heap_from k (down l i n).1 n.
Proof.
  intros Hl Hk Hb. unfold down. pose proof (down_loop_heap n k l i n Hl ltac:(lia) Hk Hb) as Hh.
  by destruct (down_loop n l i n).
Qed.

Lemma down_loop_above fuel l i n k : i < n → n ≤ k → (down_loop fuel l i n).1 !! k = l !! k.
Proof.
  revert l i. induction fuel as [|fuel IH]; intros l i Hi Hk; cbn -[Nat.mul Nat.ltb Nat.leb]; [done|].
  destruct (Nat.leb_spec n (2 * i + 1)) as [|Hn]; [done|]. set (j := if _ && _ then _ else _).
  assert (j < n) as Hj.
  { unfold j. destruct (Nat.ltb_spec (2 * i + 1 + 1) n); cbn [andb]; [destruct (less_at l _ _)|]; lia. }
  destruct (less_at l j i) eqn:E; cbn [negb]; [|done]. rewrite IH by lia. unfold less_at in E.
  destruct (l !! j) as [xj|] eqn:Ej, (l !! i) as [xi|] eqn:Ei; try done.
  rewrite (Swap_lookup _ _ _ _ _ _ Ei Ej), !decide_False by lia. done.
Qed.

(** The order of the whole slice. *)
Definition heap l : Prop := heap_from 0 l (length l).

Lemma heap_nil : heap [].
Proof. intros p c x y _ Hc. cbn in Hc. lia. Qed.

(** [Init] makes a heap of any slice. *)
Lemma Init_heap l : heap (Init l).
Proof.
  unfold Init. assert (∀ i l', length l' = length l → heap_from i l' (length l') → heap (init_loop i l')) as Hi.
  { intros i. induction i as [|i IH]; intros l' Hl Hh; cbn; [done|].
    assert (length (down l' i (length l')).1 = length l') as Hd by apply Permutation_length, down_Permutation.
    apply IH; [congruence|]. rewrite Hd. apply down_heap; [done|done|]. split.
    - intros p c x y Hpc Hc Hip Hne. apply Hh; try done. lia.
    - intros g c x y Hgi. unfold child in *. lia. }
  apply Hi; [done|]. intros p c x y Hpc Hc Hp. unfold child in *.
  pose proof (Nat.div_mod_eq (length l) 2). pose proof (Nat.mod_upper_bound (length l) 2). lia.
Qed.

(** The first element of a heap comes first. *)
Lemma heap_first l x y : heap l → head l = Some x → y ∈ l → not_before x y.
Proof.
  intros Hh Hx. rewrite head_lookup in Hx. intros [c Hc]%list_elem_of_lookup. revert y Hc.
  induction (lt_wf c) as [c _ IH]. intros y Hy. destruct c as [|c'].
  { rewrite Hx in Hy. injection Hy as <-. unfold not_before. destruct (Less x x) eqn:E; [|done].
    pose proof (asym _ _ E). congruence. }
  set (c := S c') in *. set (p := (c - 1) / 2). assert (child p c) as Hpc.
  { unfold child, p. pose proof (Nat.div_mod_eq (c - 1) 2). pose proof (Nat.mod_upper_bound (c - 1) 2). lia. }
  pose proof (lookup_lt_Some _ _ _ Hy) as Hl. assert (p < c) as Hlt by (unfold child in Hpc; lia).
  destruct (lookup_lt_is_Some_2 l p) as [z Hz]; [lia|].
  apply trans with z; [by apply (IH p)|]. apply (Hh p c); try done. lia.
Qed.

Lemma up_0 l : up l 0 = l.
Proof. done. Qed.

(** Changing the first element, then [Fix] at 0. *)
Lemma Fix_0_spec x y l : heap (x :: l) → heap (Fix (y :: l) 0) ∧ Fix (y :: l) 0 ≡ₚ y :: l.
Proof.
  intros Hh. unfold Fix. pose proof (down_Permutation (y :: l) 0 (length (y :: l))) as Hp.
  assert (heap_from 0 (down (y :: l) 0 (length (y :: l))).1 (length (y :: l))) as Hd.
  { apply down_heap; [done|done|]. split.
    - intros p c a b Hpc Hc _ Hne Ea Eb. apply (Hh p c); try done; destruct p, c; unfold child in Hpc; cbn in *; done || lia.
    - intros g c a b Hg. unfold child in Hg. lia. }
  destruct (down _ _ _) as [l' moved]. cbn [fst] in *. rewrite up_0.
  replace (if moved then l' else l') with l' by by destruct moved. split; [|done].
  unfold heap. by rewrite (Permutation_length Hp).
Qed.

(** [Pop] takes the first element out. *)
Lemma Pop_spec x l : heap (x :: l) → ∃ l', Pop (x :: l) = Some (l', x) ∧ heap l' ∧ l' ≡ₚ l.
Proof.
  intros Hh. unfold Pop. replace (length (x :: l) - 1) with (length l) by (cbn; lia). set (n := length l).
  set (s := Swap 0 n (x :: l)). set (d := (down s 0 n).1).
  assert (length s = S n) as Hs by (unfold s; by rewrite Swap_length).
  destruct (lookup_lt_is_Some_2 (x :: l) n) as [z Hz]; [cbn; lia|].
  assert (s !! n = Some x) as Hsn.
  { unfold s. rewrite (Swap_lookup 0 n n (x :: l) x z) by done. case_decide as E; [|by rewrite decide_True].
    unfold n in *. destruct l; [|done]. by injection Hz as ->. }
  assert (d !! n = Some x) as Hdn.
  { unfold d, down. destruct (decide (n = 0)) as [E|]; [rewrite E in *; by cbn|].
    pose proof (down_loop_above n s 0 n n ltac:(lia) ltac:(lia)) as Ha. destruct (down_loop n s 0 n). cbn in *. congruence. }
  assert (d ≡ₚ x :: l) as Hp by (unfold d; rewrite down_Permutation; apply Swap_Permutation).
  assert (length d = S n) as Hd by by rewrite (Permutation_length Hp).
  exists (take n d). rewrite Hdn. cbn. split; [done|].
  assert (d = take n d ++ [x]) as Ed.
  { rewrite <-(take_drop n d) at 1. f_equal. rewrite (drop_S d x n Hdn). by rewrite drop_ge by lia. }
  split.
  - assert (heap_from 0 d n) as Hdh.
    { apply down_heap; [lia|done|]. split; [|intros g c a b Hg; unfold child in Hg; lia].
      intros p c a b Hpc Hc _ Hne Ea Eb. unfold s in Ea, Eb. rewrite (Swap_lookup 0 n p (x :: l) x z) in Ea by done.
      rewrite (Swap_lookup 0 n c (x :: l) x z) in Eb by done.
      unfold child in Hpc. rewrite !decide_False in Ea by lia. rewrite !decide_False in Eb by lia.
      apply (Hh p c); try done; cbn; lia. }
    unfold heap. rewrite length_take, Nat.min_l by lia. intros p c a b Hpc Hc Hk.
    rewrite !lookup_take_lt by (unfold child in Hpc; lia). by apply (Hdh p c).
  - apply (Permutation_cons_inv (a := x)). transitivity (take n d ++ [x]); [|by rewrite <-Ed].
    apply Permutation_cons_append.
Qed.
End heap.
