(* ===== verification/Mempool.v ===== *)
(** The mempool of the chain: Ethereum transactions by price and nonce
    (mempool/miner/ordering.go), the iterator that merges them with Cosmos
    transactions (mempool/iterator.go), insertion, removal and selection
    (mempool/mempool.go, check_tx.go, signer.go) and the chain as the pool sees it
    (mempool/blockchain.go).  The pool of Ethereum transactions is go-ethereum's and
    the pool of Cosmos transactions the SDK's: both are classes. *)

From S2P Require Import Prelude.
From S2P Require Import Sdk.
From S2P Require Import EvmDenom.
From S2P Require Import AccessList.
From S2P Require Import StateDB.
From S2P Require Import VmKeeper.
From S2P Require Import TxFees.
From S2P Require Import AnteEvm.
From S2P Require Import GoHeap.

(** * 256-bit integers *)

(** [uint256.FromBig]: the two's complement, or [None] for an overflow. *)
Definition uint256_FromBig (b : Z) : option Z :=
  if u256_max <=? Z.abs b then None else Some (wrap u256_max b).

(** [uint256.MustFromBig] of a pointer that may be nil. *)
Definition MustFromBig (b : option Z) : outcome (option Z) :=
  match b with
  | None => Ok None
  | Some b => match uint256_FromBig b with Some u => Ok (Some u) | None => Panic "overflow" end
  end.

(** * Ethereum transactions by price and nonce *)

Section ordering.
Context `{GethTx}.

(** [txpool.LazyTransaction]; its transaction is resolved. *)
Record LazyTransaction : Type := mkLazy {
  lt_Tx : EthTx;
  lt_Time : Z;
  lt_GasFeeCap : Z;
  lt_GasTipCap : Z
}.

Record txWithMinerFee : Type := mkTxWithMinerFee {
  mf_tx : LazyTransaction;
  mf_from : Address;
  mf_fees : Z
}.

Definition newTxWithMinerFee (tx : LazyTransaction) (from : Address) (baseFee : option Z) : outcome txWithMinerFee :=
  match baseFee with
  | None => Ok (mkTxWithMinerFee tx from (lt_GasTipCap tx))
  | Some baseFee =>
      if lt_GasFeeCap tx <? baseFee then Err (errorf ErrOther "max fee per gas less than block base fee")
      else
        let tip := wrap u256_max (lt_GasFeeCap tx - baseFee) in
        let tip := if tip >? lt_GasTipCap tx then lt_GasTipCap tx else tip in
        Ok (mkTxWithMinerFee tx from tip)
  end.

(** [Less] of txByPriceAndTime. *)
Definition priceLess (a b : txWithMinerFee) : bool :=
  if mf_fees a =? mf_fees b then lt_Time (mf_tx a) <? lt_Time (mf_tx b) else mf_fees a >? mf_fees b.

Record TransactionsByPriceAndNonce : Type := mkByPrice {
  bp_txs : gmap Address (list LazyTransaction);
  bp_heads : list txWithMinerFee;
  bp_baseFee : option Z
}.

(** The loop over the map of transactions, which Go runs in any order: [order] lists
    the accounts. *)
Fixpoint init_heads (order : list Address) (baseFee : option Z) (txs : gmap Address (list LazyTransaction))
    (heads : list txWithMinerFee) : outcome (gmap Address (list LazyTransaction) * list txWithMinerFee) :=
  match order with
  | [] => Ok (txs, heads)
  | from :: r =>
      match txs !! from with
      | Some (tx :: rest) =>
          match newTxWithMinerFee tx from baseFee with
          | Ok wrapped => init_heads r baseFee (<[from := rest]> txs) (heads ++ [wrapped])
          | Err _ => init_heads r baseFee (delete from txs) heads
          | Panic w => Panic w
          end
      | _ => Panic "index out of range"
      end
  end.

Definition NewTransactionsByPriceAndNonce (order : list Address) (txs : gmap Address (list LazyTransaction))
    (baseFee : option Z) : outcome TransactionsByPriceAndNonce :=
  match MustFromBig baseFee with
  | Ok baseFeeUint =>
      match init_heads order baseFeeUint txs [] with
      | Ok (txs, heads) => Ok (mkByPrice txs (Init priceLess heads) baseFeeUint)
      | Err e => Err e
      | Panic w => Panic w
      end
  | Err e => Err e
  | Panic w => Panic w
  end.

Definition Peek (t : TransactionsByPriceAndNonce) : option (LazyTransaction * Z) :=
  match bp_heads t with [] => None | h :: _ => Some (mf_tx h, mf_fees h) end.

(** [heap.Pop(&t.heads)]. *)
Definition pop_head (t : TransactionsByPriceAndNonce) : outcome TransactionsByPriceAndNonce :=
  match GoHeap.Pop priceLess (bp_heads t) with
  | Some (heads, _) => Ok (mkByPrice (bp_txs t) heads (bp_baseFee t))
  | None => Panic "index out of range"
  end.

Definition Shift (t : TransactionsByPriceAndNonce) : outcome TransactionsByPriceAndNonce :=
  match bp_heads t with
  | [] => Panic "index out of range"
  | h :: heads =>
      let acc := mf_from h in
      match bp_txs t !! acc with
      | Some (tx :: rest) =>
          match newTxWithMinerFee tx acc (bp_baseFee t) with
          | Ok wrapped =>
              Ok (mkByPrice (<[acc := rest]> (bp_txs t)) (GoHeap.Fix priceLess (wrapped :: heads) 0) (bp_baseFee t))
          | _ => pop_head t
          end
      | _ => pop_head t
      end
  end.

Definition ByPrice_Pop (t : TransactionsByPriceAndNonce) : outcome TransactionsByPriceAndNonce := pop_head t.
Definition Empty (t : TransactionsByPriceAndNonce) : bool := match bp_heads t with [] => true | _ => false end.
Definition Clear (t : TransactionsByPriceAndNonce) : TransactionsByPriceAndNonce := mkByPrice ∅ [] (bp_baseFee t).
End ordering.

(** * The chain as the pool sees it *)

(** [types.Header], as far as it is filled in. *)
Record Header : Type := mkHeader {
  hd_Number : Z;
  hd_Time : Z;
  hd_GasLimit : Z;
  hd_GasUsed : Z;
  hd_ParentHash : Hash;
  hd_Root : Hash;
  hd_BaseFee : option Z
}.

Definition zeroHeader : Header := mkHeader 0 0 0 0 zero_hash zero_hash None.

(** An [sdk.Context] with the keepers' answers in it, and the hash of a header. *)
Class ChainContext (Ctx : Type) : Type := {
  cx_BlockHeight : Ctx → Z;
  cx_BlockTime : Ctx → Z;
  cx_AppHash : Ctx → Hash;
  cx_BlockGasWanted : Ctx → Z;
  cx_BaseFee : Ctx → option Z;
  cx_IsLondon : Z → bool;
  (** [WithBlockGasMeter(NewGasMeter(limit))] *)
  cx_WithBlockGasLimit : Z → Ctx → Ctx;
  Header_Hash : Header → Hash
}.

Section chain.
Context {Ctx : Type} `{!ChainContext Ctx}.

(** A context that was not set is [None]; [getCtx] is what the callback returns. *)
Record Blockchain : Type := mkBlockchain {
  bc_latestCtx : option Ctx;
  bc_previousHeaderHash : Hash;
  bc_blockGasLimit : Z
}.

Definition NewBlockchain (blockGasLimit : Z) : Blockchain := mkBlockchain None zero_hash blockGasLimit.

Definition newLatestContext (getCtx : outcome Ctx) (b : Blockchain) : outcome Ctx :=
  match getCtx with
  | Ok ctx => Ok (cx_WithBlockGasLimit (bc_blockGasLimit b) ctx)
  | Err e => Err (mkError (err_code e) "failed to get latest context" (err_coins e))
  | Panic w => Panic w
  end.

Definition GetLatestContext (getCtx : outcome Ctx) (b : Blockchain) : outcome Ctx :=
  match bc_latestCtx b with Some ctx => Ok ctx | None => newLatestContext getCtx b end.

Definition CurrentBlock (getCtx : outcome Ctx) (b : Blockchain) : outcome Header :=
  match GetLatestContext getCtx b with
  | Panic w => Panic w
  | Err _ => Ok zeroHeader
  | Ok ctx =>
      let blockHeight := cx_BlockHeight ctx in
      if (1 <? blockHeight) && (bc_previousHeaderHash b =? zero_hash) then Ok zeroHeader
      else Ok (mkHeader blockHeight (wrap u64_max (cx_BlockTime ctx)) (bc_blockGasLimit b) (cx_BlockGasWanted ctx)
                 (bc_previousHeaderHash b) (cx_AppHash ctx)
                 (if cx_IsLondon blockHeight then cx_BaseFee ctx else None))
  end.

Definition GetBlock (getCtx : outcome Ctx) (b : Blockchain) : outcome Header :=
  match CurrentBlock getCtx b with
  | Ok h =>
      if hd_Number h =? 0
      then Ok (mkHeader (hd_Number h) (hd_Time h) (hd_GasLimit h) (hd_GasUsed h) zero_hash (hd_Root h) (hd_BaseFee h))
      else if hd_Number h =? 1 then Ok h
      else Panic "GetBlock should never be called on a Cosmos chain due to instant finality"
  | Err e => Err e
  | Panic w => Panic w
  end.

(** [StateAt]: the context a StateDB is opened on, [None] for the nil StateDB. *)
Definition StateAt `{Crypto} (getCtx : outcome Ctx) (b : Blockchain) (hash : Hash) : outcome (option Ctx) :=
  if (hash =? zero_hash) || (hash =? EmptyCodeHash) then Ok None
  else match GetLatestContext getCtx b with
       | Ok ctx => Ok (Some ctx)
       | Err e => Err (mkError (err_code e) "failed to get latest context for StateAt" (err_coins e))
       | Panic w => Panic w
       end.

(** The header that is sent to the subscribers, and the chain after it. *)
Definition NotifyNewBlock (getCtx : outcome Ctx) (b : Blockchain) : outcome (Header * Blockchain) :=
  match newLatestContext getCtx b with
  | Panic w => Panic w
  | r =>
      let latestCtx := match r with Ok ctx => Some ctx | _ => None end in
      let b := mkBlockchain latestCtx (bc_previousHeaderHash b) (bc_blockGasLimit b) in
      match CurrentBlock getCtx b with
      | Ok header => Ok (header, mkBlockchain (bc_latestCtx b) (Header_Hash header) (bc_blockGasLimit b))
      | Err e => Err e
      | Panic w => Panic w
      end
  end.
End chain.
Arguments Blockchain : clear implicits.

(** * The merged iterator *)

(** The iterator of the Cosmos pool, and the signers and builders of transactions. *)
Class SdkIterator `{GethTx} (C : Type) : Type := {
  ci_Tx : C → option SdkTx;
  ci_Next : C → option C
}.

Class TxBuilder `{GethTx} : Type := {
  (** [ethtypes.Sender] of the latest signer of a chain *)
  Sender_of_chain : Z → EthTx → outcome Address;
  (** a builder given extension options, messages, fee and gas limit, then [GetTx] *)
  GetTx : list string → list SdkMsg → Coins → Z → outcome SdkTx
}.

Definition ExtensionOptionsEthereumTxURL : string := "/cosmos.evm.vm.v1.ExtensionOptionsEthereumTx".

Section iterator.
Context `{SdkTypes, GethTx, GethAddress, !TxBuilder} {C : Type} `{!SdkIterator C}.
Context {Ctx : Type} `{!ChainContext Ctx} (getCtx : outcome Ctx) (ExtendedDenom : denom) (sort : Coins → Coins).

(** [FromSignedEthereumTx] and [BuildTx] of x/vm/types/msg.go. *)
Definition FromSignedEthereumTx (chainID : Z) (tx : EthTx) : outcome MsgEthereumTx :=
  match Sender_of_chain chainID tx with
  | Ok from => Ok (mkMsgEthereumTx (Address_Bytes from) (Some tx))
  | Err e => Err e
  | Panic w => Panic w
  end.

Definition ConvertCoinsDenomToExtendedDenomWithEvmParams (coins : Coins) (evmDenom extendedDenom : denom) : Coins :=
  sort (map (λ coin, if bool_decide (Denom coin = evmDenom) then mkCoin extendedDenom (Amount coin) else coin) coins).

Definition BuildTxWithEvmParams (msg : MsgEthereumTx) (tx : EthTx) (evmDenom extendedDenom : denom) : outcome SdkTx :=
  let feeAmt := GetFee tx in
  if negb (int_ok feeAmt) then Panic "NewIntFromBigInt() out of bound"
  else
    let fees := if 0 <? feeAmt then match NewCoin evmDenom feeAmt with
                                    | Ok coin => Ok (ConvertCoinsDenomToExtendedDenomWithEvmParams [coin] evmDenom extendedDenom)
                                    | Err e => Err e
                                    | Panic w => Panic w
                                    end
                else Ok [] in
    match fees with
    | Ok fees => GetTx [ExtensionOptionsEthereumTxURL] [EthMsg msg] fees (Tx_Gas tx)
    | Err e => Err e
    | Panic w => Panic w
    end.

Definition BuildTx (msg : MsgEthereumTx) (tx : EthTx) (evmDenom : denom) : outcome SdkTx :=
  BuildTxWithEvmParams msg tx evmDenom ExtendedDenom.

Record EVMMempoolIterator : Type := mkIterator {
  it_evm : option TransactionsByPriceAndNonce;
  it_cosmos : option C;
  it_bondDenom : denom;
  it_chainID : Z;
  it_blockchain : option (Blockchain Ctx)
}.

Definition cosmos_tx (i : option C) : option SdkTx := i ≫= ci_Tx.

Definition NewEVMMempoolIterator (evmIterator : option TransactionsByPriceAndNonce) (cosmosIterator : option C)
    (bondDenom : denom) (chainID : Z) (blockchain : option (Blockchain Ctx)) : option EVMMempoolIterator :=
  let hasEVM := match evmIterator with Some t => negb (Empty t) | None => false end in
  let hasCosmos := bool_decide (is_Some (cosmos_tx cosmosIterator)) in
  if negb hasEVM && negb hasCosmos then None
  else Some (mkIterator evmIterator cosmosIterator bondDenom chainID blockchain).

Definition getNextEVMTx (i : EVMMempoolIterator) : option (LazyTransaction * Z) := it_evm i ≫= Peek.

Definition getCurrentBaseFee (i : EVMMempoolIterator) : outcome (option Z) :=
  match it_blockchain i with
  | None => Ok None
  | Some b => match CurrentBlock getCtx b with
              | Ok header => Ok (hd_BaseFee header ≫= uint256_FromBig)
              | Err e => Err e
              | Panic w => Panic w
              end
  end.

(** The loop over the fee: the last coin of the denomination counts. *)
Definition bond_fee (bondDenom : denom) (fees : Coins) : Z :=
  foldl (λ acc coin, if bool_decide (Denom coin = bondDenom) then Amount coin else acc) 0 fees.

Definition extractCosmosEffectiveTip (i : EVMMempoolIterator) (tx : SdkTx) : outcome (option Z) :=
  match tx_FeeTx tx with
  | None => Ok None
  | Some feeTx =>
      if ftx_Gas feeTx =? 0 then Panic "division by zero"
      else match uint256_FromBig (Z.quot (bond_fee (it_bondDenom i) (ftx_Fee feeTx)) (ftx_Gas feeTx)) with
           | None => Ok None
           | Some gasPrice =>
               match getCurrentBaseFee i with
               | Ok None => Ok (Some gasPrice)
               | Ok (Some baseFee) => Ok (Some (if gasPrice <? baseFee then 0 else gasPrice - baseFee))
               | Err e => Err e
               | Panic w => Panic w
               end
           end
  end.

Definition getNextCosmosTx (i : EVMMempoolIterator) : outcome (option (SdkTx * Z)) :=
  match cosmos_tx (it_cosmos i) with
  | None => Ok None
  | Some tx => match extractCosmosEffectiveTip i tx with
               | Ok tip => Ok (Some (tx, default 0 tip))
               | Err e => Err e
               | Panic w => Panic w
               end
  end.

Definition shouldUseEVM (i : EVMMempoolIterator) : outcome bool :=
  match getNextCosmosTx i with
  | Err e => Err e
  | Panic w => Panic w
  | Ok nextCosmos =>
      match getNextEVMTx i, nextCosmos with
      | None, _ => Ok false
      | Some _, None => Ok true
      | Some (_, evmFee), Some (_, cosmosFee) =>
          if cosmosFee =? 0 then Ok true else Ok (negb (cosmosFee >? evmFee))
      end
  end.

(** [None] when the conversion fails. *)
Definition convertEVMToSDKTx (i : EVMMempoolIterator) (nextEVMTx : LazyTransaction) : outcome (option SdkTx) :=
  match FromSignedEthereumTx (it_chainID i) (lt_Tx nextEVMTx) with
  | Panic w => Panic w
  | Err _ => Ok None
  | Ok msg => match BuildTx msg (lt_Tx nextEVMTx) (it_bondDenom i) with
              | Ok tx => Ok (Some tx)
              | Err _ => Ok None
              | Panic w => Panic w
              end
  end.

Definition getPreferredTransaction (i : EVMMempoolIterator) (nextEVMTx : option LazyTransaction) (nextCosmosTx : option SdkTx)
    : outcome (option SdkTx) :=
  match nextEVMTx, nextCosmosTx with
  | None, None => Ok None
  | _, _ =>
      match shouldUseEVM i with
      | Err e => Err e
      | Panic w => Panic w
      | Ok false => Ok nextCosmosTx
      | Ok true =>
          match nextEVMTx with
          | None => Ok nextCosmosTx
          | Some tx => match convertEVMToSDKTx i tx with
                       | Ok (Some evmTx) => Ok (Some evmTx)
                       | Ok None => Ok nextCosmosTx
                       | Err e => Err e
                       | Panic w => Panic w
                       end
          end
      end
  end.

Definition Tx (i : EVMMempoolIterator) : outcome (option SdkTx) :=
  match getNextCosmosTx i with
  | Ok nextCosmos => getPreferredTransaction i (fst <$> getNextEVMTx i) (fst <$> nextCosmos)
  | Err e => Err e
  | Panic w => Panic w
  end.

Definition advanceCurrentIterator (i : EVMMempoolIterator) : outcome EVMMempoolIterator :=
  match shouldUseEVM i with
  | Err e => Err e
  | Panic w => Panic w
  | Ok true =>
      match it_evm i with
      | None => Ok i
      | Some t => match Shift t with
                  | Ok t' => Ok (mkIterator (Some t') (it_cosmos i) (it_bondDenom i) (it_chainID i) (it_blockchain i))
                  | Err e => Err e
                  | Panic w => Panic w
                  end
      end
  | Ok false =>
      Ok (mkIterator (it_evm i) (it_cosmos i ≫= ci_Next) (it_bondDenom i) (it_chainID i) (it_blockchain i))
  end.

Definition hasMoreTransactions (i : EVMMempoolIterator) : outcome bool :=
  match getNextCosmosTx i with
  | Ok nextCosmos => Ok (bool_decide (is_Some (getNextEVMTx i)) || bool_decide (is_Some nextCosmos))
  | Err e => Err e
  | Panic w => Panic w
  end.

(** [None] when no transaction is left. *)
Definition Next (i : EVMMempoolIterator) : outcome (option EVMMempoolIterator) :=
  match hasMoreTransactions i with
  | Err e => Err e
  | Panic w => Panic w
  | Ok false => Ok None
  | Ok true =>
      match advanceCurrentIterator i with
      | Err e => Err e
      | Panic w => Panic w
      | Ok i' => match hasMoreTransactions i' with
                 | Ok true => Ok (Some i')
                 | Ok false => Ok None
                 | Err e => Err e
                 | Panic w => Panic w
                 end
      end
  end.

(** The loop of [SelectBy]: the transactions a filter is shown until it returns
    false.  [f] is the filter and its state; [None] when the fuel runs out. *)
Fixpoint select_loop {S} (fuel : nat) (f : option SdkTx → M S bool) (it : option EVMMempoolIterator) : M S (option unit) :=
  match it with
  | None => ret (Some tt)
  | Some i =>
      match fuel with
      | O => ret None
      | Datatypes.S fuel =>
          let! tx := of_outcome (Tx i) in
          let! more := f tx in
          if more then
            let! it' := of_outcome (Next i) in
            select_loop fuel f it'
          else ret (Some tt)
      end
  end.
End iterator.
Arguments EVMMempoolIterator {_} _ _.

(** * The mempool *)

Record PendingFilter : Type := mkPendingFilter {
  pd_MinTip : option Z;
  pd_BaseFee : option Z;
  pd_BlobFee : option Z;
  pd_OnlyPlainTxs : bool;
  pd_OnlyBlobTxs : bool
}.

(** The pool of Ethereum transactions.  [Add] returns one error per transaction;
    [pool_Order] is the order Go ranges over the pending accounts. *)
Class EvmPool `{GethTx} (E : Type) : Type := {
  pool_Add : list EthTx → bool → E → E * list (option error);
  pool_RemoveTx : Hash → bool → bool → E → E;
  pool_Pending : PendingFilter → E → gmap Address (list LazyTransaction);
  pool_Order : gmap Address (list LazyTransaction) → list Address;
  pool_Stats : E → Z * Z;
  pool_Has : E → Hash → bool
}.

(** The pool of Cosmos transactions of the SDK; transactions are excluded from a
    selection by their bytes. *)
Class CosmosPool `{GethTx} (P C : Type) : Type := {
  cp_Insert : SdkTx → M P unit;
  cp_Remove : SdkTx → M P unit;
  cp_Select : list bytes → P → option C;
  cp_CountTx : P → Z
}.

Record Pools (E P : Type) : Type := mkPools { mp_evm : E; mp_cosmos : P }.
Arguments mkPools {E P} _ _.
Arguments mp_evm {E P} _.
Arguments mp_cosmos {E P} _.

#[global] Instance error_eq_dec : EqDecision error.
Proof. solve_decision. Defined.

(** The errors of mempool/errors.go that are told apart. *)
Definition ErrNoMessages : error := errorf ErrOther "transaction has no messages".
Definition ErrExpectedOneMessage : error := errorf ErrOther "expected 1 message".
Definition ErrExpectedOneError : error := errorf ErrOther "expected 1 error".
Definition ErrNotEVMTransaction : error := errorf ErrOther "transaction is not an EVM transaction".

Definition fallbackBlockGasLimit : Z := 100000000.

Section mempool.
Context `{SdkTypes, GethTx, GethAddress, !TxBuilder} {C : Type} `{!SdkIterator C}.
Context {Ctx : Type} `{!ChainContext Ctx} {E P : Type} `{!EvmPool E, !CosmosPool P C}.
Context (getCtx : outcome Ctx) (sort : Coins → Coins) (info : EvmCoinInfo).
Abbreviation MP := (Pools E P).

(** What does not change after the mempool is made. *)
Record MempoolConfig : Type := mkMempoolConfig {
  mc_blockchain : Blockchain Ctx;
  mc_minTip : option Z;
  mc_anteHandler : option (Ctx → SdkTx → bool → outcome Ctx);
  mc_chainID : Z;
  mc_TxDecoder : bytes → outcome SdkTx
}.

(** The block gas limit the blockchain is made with. *)
Definition config_gas_limit (BlockGasLimit : Z) : Z := if BlockGasLimit =? 0 then fallbackBlockGasLimit else BlockGasLimit.

(** The default priority of a Cosmos transaction. *)
Definition GetTxPriority (Coins_Find : Coins → denom → option Coin) (tx : SdkTx) : outcome Z :=
  match tx_FeeTx tx with
  | None => Ok 0
  | Some feeTx =>
      match Coins_Find (ftx_Fee feeTx) (eci_Denom info) with
      | None => Ok 0
      | Some coin => if ftx_Gas feeTx =? 0 then Panic "division by zero" else Ok (Z.quot (Amount coin) (ftx_Gas feeTx))
      end
  end.

Definition evm {A} (f : E → E * A) : M MP A := λ s,
  let '(e, a) := f (mp_evm s) in (mkPools e (mp_cosmos s), Ok a).
Definition cosmos {A} (m : M P A) : M MP A := zoom mp_cosmos (λ p s, mkPools (mp_evm s) p) m.

Definition getEVMMessage (tx : SdkTx) : outcome MsgEthereumTx :=
  match tx_Msgs tx with
  | [] => Err ErrNoMessages
  | [EthMsg m] => Ok m
  | [_] => Err ErrNotEVMTransaction
  | _ => Err ErrExpectedOneMessage
  end.

(** [AsTransaction], on which [Hash] is called: a nil transaction panics. *)
Definition as_transaction (m : MsgEthereumTx) : outcome EthTx :=
  match Raw m with Some tx => Ok tx | None => Panic "nil pointer dereference" end.

Definition Insert (tx : SdkTx) : M MP unit :=
  match getEVMMessage tx with
  | Ok ethMsg =>
      let! ethTx := of_outcome (as_transaction ethMsg) in
      let! errs := evm (pool_Add [ethTx] false) in
      match errs with
      | Some e :: _ => throw e
      | _ => ret tt
      end
  | Err _ => cosmos (cp_Insert tx)
  | Panic w => panic w
  end.

(** The Ethereum transactions among the messages. *)
Fixpoint eth_txs (msgs : list SdkMsg) : outcome (list EthTx) :=
  match msgs with
  | [] => Ok []
  | EthMsg m :: r => match as_transaction m, eth_txs r with
                     | Ok tx, Ok txs => Ok (tx :: txs)
                     | Panic w, _ | _, Panic w => Panic w
                     | Err e, _ | _, Err e => Err e
                     end
  | _ :: r => eth_txs r
  end.

Definition InsertInvalidNonce (cfg : MempoolConfig) (txBytes : bytes) : M MP unit :=
  let! tx := of_outcome (mc_TxDecoder cfg txBytes) in
  if negb (Nat.eqb (length (tx_Msgs tx)) 1) then throw ErrExpectedOneMessage
  else
    let! ethTxs := of_outcome (eth_txs (tx_Msgs tx)) in
    let! errs := evm (pool_Add ethTxs false) in
    match errs with
    | [None] => ret tt
    | [Some e] => throw e
    | _ => throw ErrExpectedOneError
    end.

Definition getIterators (cfg : MempoolConfig) (ctx : Ctx) (exclude : list bytes) (s : MP)
    : outcome (TransactionsByPriceAndNonce * option C) :=
  let baseFee := cx_BaseFee ctx in
  match MustFromBig baseFee with
  | Err e => Err e
  | Panic w => Panic w
  | Ok baseFeeUint =>
      let pending := pool_Pending (mkPendingFilter (mc_minTip cfg) baseFeeUint None true false) (mp_evm s) in
      match NewTransactionsByPriceAndNonce (pool_Order pending) pending baseFee with
      | Ok ordered => Ok (ordered, cp_Select exclude (mp_cosmos s))
      | Err e => Err e
      | Panic w => Panic w
      end
  end.

Definition Select (cfg : MempoolConfig) (ctx : Ctx) (exclude : list bytes) (s : MP) : outcome (option (EVMMempoolIterator C Ctx)) :=
  match getIterators cfg ctx exclude s with
  | Ok (evmIterator, cosmosIterator) =>
      Ok (NewEVMMempoolIterator (Some evmIterator) cosmosIterator (eci_Denom info) (mc_chainID cfg) (Some (mc_blockchain cfg)))
  | Err e => Err e
  | Panic w => Panic w
  end.

Definition SelectBy {S} (fuel : nat) (cfg : MempoolConfig) (ctx : Ctx) (exclude : list bytes) (s : MP)
    (f : option SdkTx → M S bool) : M S (option unit) :=
  let! it := of_outcome (Select cfg ctx exclude s) in
  select_loop getCtx (eci_ExtendedDenom info) sort fuel f it.

Definition CountTx (s : MP) : Z := cp_CountTx (mp_cosmos s) + fst (pool_Stats (mp_evm s)).
Definition Has (s : MP) (hash : Hash) : bool := pool_Has (mp_evm s) hash.

Definition shouldRemoveFromEVMPool (cfg : MempoolConfig) (tx : SdkTx) : outcome bool :=
  match mc_anteHandler cfg with
  | None => Ok false
  | Some anteHandler =>
      match GetLatestContext getCtx (mc_blockchain cfg) with
      | Panic w => Panic w
      | Err _ => Ok false
      | Ok ctx =>
          match anteHandler ctx tx true with
          | Panic w => Panic w
          | Ok _ => Ok false
          | Err err => Ok (negb (err_is err ErrNonceGap || err_is err ErrInvalidSequence || err_is err ErrOutOfGas))
          end
      end
  end.

(** The height of a context that was not set is 0. *)
Definition latest_height (b : Blockchain Ctx) : Z := match bc_latestCtx b with Some ctx => cx_BlockHeight ctx | None => 0 end.

Definition Remove (cfg : MempoolConfig) (tx : SdkTx) : M MP unit :=
  if latest_height (mc_blockchain cfg) =? 0 then ret tt
  else match getEVMMessage tx with
       | Panic w => panic w
       | Ok msg =>
           let! ethTx := of_outcome (as_transaction msg) in
           let! remove := of_outcome (shouldRemoveFromEVMPool cfg tx) in
           when remove (evm (λ e, (pool_RemoveTx (Tx_Hash ethTx) false true e, tt)))
       | Err err =>
           if bool_decide (err = ErrNoMessages) then throw err else cosmos (cp_Remove tx)
       end.

(** ** CheckTx *)

(** [sdk.GasInfo], and the response: its error, if any, and the gas. *)
Record CheckTxResponse : Type := mkCheckTxResponse { cr_error : option error; cr_GasWanted : Z; cr_GasUsed : Z }.

Definition int64_of (z : Z) : Z := let w := wrap u64_max z in if w <? 2 ^ 63 then w else w - u64_max.

(** [txpool.ErrAlreadyKnown]. *)
Definition is_already_known (e : error) : bool := bool_decide (err_text e = "already known"%string).

(** [runTx] has run and returned the gas figures and an error or a result.  The error
    of [InsertInvalidNonce] shadows it inside the block. *)
Definition CheckTxHandler (cfg : MempoolConfig) (txBytes : bytes) (gasWanted gasUsed : Z) (run : option error)
    : M MP CheckTxResponse :=
  let respond e := ret (mkCheckTxResponse e (int64_of gasWanted) (int64_of gasUsed)) in
  match run with
  | None => respond None
  | Some err =>
      let! inserted := (if err_is err ErrNonceGap || err_is err ErrNonceLow
                        then catch (InsertInvalidNonce cfg txBytes) else ret (inl tt)) in
      match inserted with
      | inr e => respond (Some e)
      | inl _ => if is_already_known err then respond None else respond (Some err)
      end
  end.

(** ** Signers *)

(** The first signer of a transaction with its nonce; [fallback] is the SDK's. *)
Fixpoint first_eth_signer (msgs : list SdkMsg) : outcome (option (addr * Z)) :=
  match msgs with
  | [] => Ok None
  | EthMsg m :: _ => match as_transaction m with
                     | Ok tx => Ok (Some (From m, Tx_Nonce tx))
                     | Err e => Err e
                     | Panic w => Panic w
                     end
  | _ :: r => first_eth_signer r
  end.

Definition GetSigners (fallback : SdkTx → outcome (list (addr * Z))) (tx : SdkTx) : outcome (list (addr * Z)) :=
  match tx_ExtensionOptions tx with
  | Some (opt :: _) =>
      if bool_decide (opt = ExtensionOptionsEthereumTxURL)
      then match first_eth_signer (tx_Msgs tx) with
           | Ok (Some signer) => Ok [signer]
           | Ok None => fallback tx
           | Err e => Err e
           | Panic w => Panic w
           end
      else fallback tx
  | _ => fallback tx
  end.
End mempool.
