(* ===== verification/MempoolThms.v ===== *)
(** Properties of the mempool: the heap of Ethereum transactions is a set of queues of
    which the best head is served, block proposals are the merge of the two pools,
    and insertion and removal keep to their pool. *)

From S2P Require Import Prelude.
From S2P Require Import Sdk.
From S2P Require Import EvmDenom.
From S2P Require Import AccessList.
From S2P Require Import StateDB.
From S2P Require Import VmKeeper.
From S2P Require Import TxFees.
From S2P Require Import AnteEvm.
From S2P Require Import GoHeap.
From S2P Require Import Mempool.

(** * Ethereum transactions by price and nonce *)

Section ordering.
Context `{GethTx}.
Implicit Types (t : TransactionsByPriceAndNonce) (h : txWithMinerFee) (a b : Address).

Lemma priceLess_asym h h' : priceLess h h' = true → priceLess h' h = false.
Proof.
  unfold priceLess. rewrite (Z.eqb_sym (mf_fees h')). destruct (Z.eqb_spec (mf_fees h) (mf_fees h')); lia.
Qed.

Lemma priceLess_trans x y z :
  not_before priceLess x y → not_before priceLess y z → not_before priceLess x z.
Proof.
  unfold not_before, priceLess.
  destruct (Z.eqb_spec (mf_fees y) (mf_fees x)), (Z.eqb_spec (mf_fees z) (mf_fees y)), (Z.eqb_spec (mf_fees z) (mf_fees x)); lia.
Qed.

(** The transactions of an account that are served: the list up to the first that does
    not pay the base fee. *)
Fixpoint affordable (baseFee : option Z) a (l : list LazyTransaction) : list txWithMinerFee :=
  match l with
  | [] => []
  | tx :: r => match newTxWithMinerFee tx a baseFee with
               | Ok h => h :: affordable baseFee a r
               | _ => []
               end
  end.

Lemma newTx_from tx a base h : newTxWithMinerFee tx a base = Ok h → mf_from h = a ∧ mf_tx h = tx.
Proof. unfold newTxWithMinerFee. destruct base as [b|]; [destruct (_ <? _); [done|]|]; by intros [= <-]. Qed.

Lemma newTx_no_panic tx a base w : newTxWithMinerFee tx a base ≠ Panic w.
Proof. unfold newTxWithMinerFee. destruct base as [b|]; [destruct (_ <? _)|]; done. Qed.

(** ** Queues *)

(** The queue of an account: its head in the heap, and what follows. *)
Definition queue t a : list txWithMinerFee :=
  match filter (λ h, mf_from h = a) (bp_heads t) with
  | h :: _ => h :: affordable (bp_baseFee t) a (default [] (bp_txs t !! a))
  | [] => []
  end.

Record ordered t : Prop := {
  or_heap : heap priceLess (bp_heads t);
  or_nodup : NoDup (mf_from <$> bp_heads t)
}.

Lemma filter_none (P : txWithMinerFee → Prop) `{∀ x, Decision (P x)} l : (∀ x, x ∈ l → ¬ P x) → filter P l = [].
Proof.
  induction l as [|x l IH]; intros Hn; [done|]. rewrite filter_cons_False by (apply Hn; by left).
  apply IH. intros y Hy. apply Hn. by right.
Qed.

Lemma filter_from (l : list txWithMinerFee) h :
  NoDup (mf_from <$> l) → h ∈ l → filter (λ x, mf_from x = mf_from h) l = [h].
Proof.
  induction l as [|x l IH]; intros Hnd Hh; [by apply elem_of_nil in Hh|].
  rewrite fmap_cons in Hnd. apply NoDup_cons in Hnd as [Hx Hnd]. apply elem_of_cons in Hh as [->|Hh].
  - rewrite filter_cons_True by done. f_equal. apply filter_none. intros y Hy E. apply Hx. rewrite <-E. by apply list_elem_of_fmap_2.
  - rewrite filter_cons_False by (intros E; apply Hx; rewrite E; by apply list_elem_of_fmap_2). by apply IH.
Qed.

Lemma filter_absent (l : list txWithMinerFee) a : a ∉ mf_from <$> l → filter (λ x, mf_from x = a) l = [].
Proof. intros Ha. apply filter_none. intros y Hy E. apply Ha. rewrite <-E. by apply list_elem_of_fmap_2. Qed.

Lemma queue_in t h :
  NoDup (mf_from <$> bp_heads t) → h ∈ bp_heads t →
  queue t (mf_from h) = h :: affordable (bp_baseFee t) (mf_from h) (default [] (bp_txs t !! mf_from h)).
Proof. intros Hnd Hh. unfold queue. by rewrite filter_from. Qed.

Lemma queue_out t a : a ∉ mf_from <$> bp_heads t → queue t a = [].
Proof. intros Ha. unfold queue. by rewrite filter_absent. Qed.

(** Accounts with the same head and the same rest have the same queue. *)
Lemma queue_same t t' b :
  NoDup (mf_from <$> bp_heads t) → NoDup (mf_from <$> bp_heads t') →
  (∀ h, mf_from h = b → h ∈ bp_heads t' ↔ h ∈ bp_heads t) →
  bp_txs t' !! b = bp_txs t !! b → bp_baseFee t' = bp_baseFee t → queue t' b = queue t b.
Proof.
  intros Hn Hn' Hh Ht Hb. destruct (decide (b ∈ mf_from <$> bp_heads t)) as [Hin|Hout].
  - apply list_elem_of_fmap in Hin as (h & -> & Hin). rewrite !queue_in by (done || by apply Hh). by rewrite Ht, Hb.
  - rewrite !queue_out; try done. intros (h & -> & Hin)%list_elem_of_fmap. apply Hout.
    apply list_elem_of_fmap_2. by apply Hh.
Qed.

(** Taking the head of the heap advances the queue of its account. *)
Record shifted t t' h : Prop := {
  sh_ordered : ordered t';
  sh_baseFee : bp_baseFee t' = bp_baseFee t;
  sh_queue b : queue t' b = if decide (b = mf_from h) then tail (queue t b) else queue t b
}.

Lemma shift_replace t h hs tx rest w :
  ordered t → bp_heads t = h :: hs → bp_txs t !! mf_from h = Some (tx :: rest) →
  newTxWithMinerFee tx (mf_from h) (bp_baseFee t) = Ok w →
  shifted t (mkByPrice (<[mf_from h := rest]> (bp_txs t)) (GoHeap.Fix priceLess (w :: hs) 0) (bp_baseFee t)) h.
Proof.
  intros [Hh Hnd] Eh Et Ew. rewrite Eh in Hh, Hnd.
  destruct (newTx_from _ _ _ _ Ew) as [Hw _].
  destruct (Fix_0_spec priceLess priceLess_asym priceLess_trans h w hs Hh) as [Hheap Hp].
  assert (NoDup (mf_from <$> GoHeap.Fix priceLess (w :: hs) 0)) as Hnd'.
  { rewrite Hp. cbn. rewrite Hw. by cbn in Hnd. }
  split; [by split|done|]. intros b. case_decide as Eb.
  - subst b. assert (w ∈ GoHeap.Fix priceLess (w :: hs) 0) as Hin by (rewrite Hp; by left).
    set (t' := mkByPrice _ _ _). pose proof (queue_in t' w Hnd' Hin) as Eq. rewrite Hw in Eq. rewrite Eq. cbn.
    rewrite lookup_insert_eq. cbn.
    rewrite (queue_in t h); [|by rewrite Eh|rewrite Eh; by left]. cbn. rewrite Et. cbn. by rewrite Ew.
  - apply queue_same; cbn; [by rewrite Eh|done| |by rewrite lookup_insert_ne|done].
    intros g Hg. rewrite Hp, Eh, !elem_of_cons. naive_solver.
Qed.

Lemma shift_pop t h hs :
  ordered t → bp_heads t = h :: hs →
  affordable (bp_baseFee t) (mf_from h) (default [] (bp_txs t !! mf_from h)) = [] →
  ∃ t', pop_head t = Ok t' ∧ shifted t t' h ∧ bp_txs t' = bp_txs t ∧ length (bp_heads t') = length hs.
Proof.
  intros [Hh Hnd] Eh Ea. rewrite Eh in Hh, Hnd. unfold pop_head. rewrite Eh.
  destruct (Pop_spec priceLess priceLess_asym priceLess_trans h hs Hh) as (hs' & -> & Hheap & Hp).
  eexists. split; [done|]. split; [|by rewrite <-(Permutation_length Hp)].
  rewrite fmap_cons in Hnd. apply NoDup_cons in Hnd as [Hout Hnd].
  assert (NoDup (mf_from <$> hs')) as Hnd' by by rewrite Hp. split; [by split|done|]. intros b. case_decide as Eb.
  - subst b. rewrite (queue_in t h); [|rewrite Eh; cbn; by constructor|rewrite Eh; by left]. cbn. rewrite Ea.
    apply queue_out. cbn. by rewrite Hp.
  - apply queue_same; cbn; [rewrite Eh; cbn; by constructor|done| |done|done].
    intros g Hg. rewrite Hp, Eh, elem_of_cons. naive_solver.
Qed.

Lemma Shift_spec t h hs :
  ordered t → bp_heads t = h :: hs → ∃ t', Shift t = Ok t' ∧ shifted t t' h.
Proof.
  intros Ho Eh. unfold Shift. rewrite Eh.
  assert (affordable (bp_baseFee t) (mf_from h) (default [] (bp_txs t !! mf_from h)) = [] →
    ∃ t', pop_head t = Ok t' ∧ shifted t t' h) as Hpop.
  { intros Ea. destruct (shift_pop t h hs Ho Eh Ea) as (t' & ? & ? & _). by exists t'. }
  destruct (bp_txs t !! mf_from h) as [[|tx rest]|] eqn:Et; [by apply Hpop| |by apply Hpop].
  destruct (newTxWithMinerFee tx (mf_from h) (bp_baseFee t)) as [w|e|w] eqn:Ew.
  - eexists. split; [done|]. by eapply shift_replace.
  - apply Hpop. cbn. by rewrite Ew.
  - by apply newTx_no_panic in Ew.
Qed.

(** The head of the heap is a best head of the queues, and [Shift] takes exactly this
    transaction off its queue. *)
Lemma Shift_best t h hs :
  ordered t → bp_heads t = h :: hs →
  ∃ rest t', queue t (mf_from h) = h :: rest ∧
    (∀ b h' r, queue t b = h' :: r → priceLess h' h = false) ∧
    Shift t = Ok t' ∧ ordered t' ∧ ∀ b, queue t' b = if decide (b = mf_from h) then rest else queue t b.
Proof.
  intros Ho Eh. destruct (Shift_spec t h hs Ho Eh) as (t' & Es & [Ho' _ Hq]).
  assert (queue t (mf_from h) = h :: tail (queue t (mf_from h))) as Eq
    by (rewrite queue_in; [done|apply Ho|rewrite Eh; by left]).
  eexists _, t'. split_and!; [exact Eq| |done|done|].
  - intros b h' r E. destruct (decide (b ∈ mf_from <$> bp_heads t)) as [Hin|Hout]; [|by rewrite queue_out in E].
    apply list_elem_of_fmap in Hin as (g & -> & Hin). rewrite queue_in in E by (done || apply Ho). injection E as <- _.
    apply (heap_first priceLess priceLess_asym priceLess_trans (bp_heads t)); [apply Ho|by rewrite Eh|done].
  - intros b. rewrite Hq. by case_decide as Eb; [rewrite Eb|].
Qed.

(** ** The heap of a set of pending transactions *)

(** What the loop has done for the accounts of [order]: a head each, unless the first
    transaction does not pay the base fee. *)
Record heads_of (base : option Z) (order : list Address) (txs txs' : gmap Address (list LazyTransaction))
    (hs : list txWithMinerFee) : Prop := {
  ho_nodup : NoDup (mf_from <$> hs);
  ho_from a : a ∈ mf_from <$> hs → a ∈ order;
  ho_other a : a ∉ order → txs' !! a = txs !! a;
  ho_queue a : a ∈ order →
    match affordable base a (default [] (txs !! a)) with
    | [] => a ∉ mf_from <$> hs
    | h :: r => h ∈ hs ∧ mf_from h = a ∧ affordable base a (default [] (txs' !! a)) = r
    end
}.

Lemma heads_of_cons base a order txs tx rest h txs' hs :
  a ∉ order → txs !! a = Some (tx :: rest) → newTxWithMinerFee tx a base = Ok h →
  heads_of base order (<[a := rest]> txs) txs' hs → heads_of base (a :: order) txs txs' (h :: hs).
Proof.
  intros Ha Et Eh [Hn Hf Ho Hq]. destruct (newTx_from _ _ _ _ Eh) as [Hh _]. subst a. split.
  - cbn. constructor; [|done]. intros Hin. by apply Ha, Hf.
  - intros b. cbn. rewrite !elem_of_cons. naive_solver.
  - intros b Hb. apply not_elem_of_cons in Hb as [??]. rewrite Ho by done. by rewrite lookup_insert_ne.
  - intros b Hb. destruct (decide (b = mf_from h)) as [->|Hne].
    + rewrite Et. cbn. rewrite Eh. split_and!; [by left|done|]. by rewrite Ho, lookup_insert_eq by done.
    + apply elem_of_cons in Hb as [?|Hb]; [done|]. specialize (Hq b Hb). rewrite lookup_insert_ne in Hq by done.
      destruct (affordable _ _ _); cbn; [rewrite not_elem_of_cons; done|]. destruct Hq as (? & ? & ?).
      split_and!; [by right|done|done].
Qed.

Lemma heads_of_skip base a order txs tx rest e txs' hs :
  a ∉ order → txs !! a = Some (tx :: rest) → newTxWithMinerFee tx a base = Err e →
  heads_of base order (delete a txs) txs' hs → heads_of base (a :: order) txs txs' hs.
Proof.
  intros Ha Et Eh [Hn Hf Ho Hq]. split; [done| | |].
  - intros b Hb. right. by apply Hf.
  - intros b Hb. apply not_elem_of_cons in Hb as [??]. rewrite Ho by done. by rewrite lookup_delete_ne.
  - intros b Hb. destruct (decide (b = a)) as [->|Hne].
    + rewrite Et. cbn. rewrite Eh. intros Hin. by apply Ha, Hf.
    + apply elem_of_cons in Hb as [?|Hb]; [done|]. specialize (Hq b Hb). by rewrite lookup_delete_ne in Hq.
Qed.

Lemma init_heads_spec base order : ∀ txs heads,
  NoDup order → (∀ a, a ∈ order → ∃ tx rest, txs !! a = Some (tx :: rest)) →
  ∃ txs' hs, init_heads order base txs heads = Ok (txs', heads ++ hs) ∧ heads_of base order txs txs' hs.
Proof.
  induction order as [|a order IH]; intros txs heads Hnd Hne; cbn [init_heads].
  { exists txs, []. rewrite app_nil_r. split; [done|]. by split; [constructor| | |intros a Hin%elem_of_nil]. }
  apply NoDup_cons in Hnd as [Ha Hnd]. destruct (Hne a) as (tx & rest & Et); [by left|]. rewrite Et.
  assert (∀ txs2 : gmap Address (list LazyTransaction), (∀ b, b ≠ a → txs2 !! b = txs !! b) → ∀ b, b ∈ order →
    ∃ tx rest, txs2 !! b = Some (tx :: rest)) as Hne'.
  { intros txs2 E b Hb. rewrite E by (intros ->; done). apply Hne. by right. }
  destruct (newTxWithMinerFee tx a base) as [h|e|w] eqn:Eh; [| |by apply newTx_no_panic in Eh].
  - destruct (IH (<[a := rest]> txs) (heads ++ [h]) Hnd) as (txs' & hs & -> & Hs).
    { apply Hne'. intros b Hb. by rewrite lookup_insert_ne. }
    exists txs', (h :: hs). rewrite <-app_assoc. split; [done|]. by eapply heads_of_cons.
  - destruct (IH (delete a txs) heads Hnd) as (txs' & hs & -> & Hs).
    { apply Hne'. intros b Hb. by rewrite lookup_delete_ne. }
    exists txs', hs. split; [done|]. by eapply heads_of_skip.
Qed.

(** The pending transactions of an account, as the pool returns them: no account with
    an empty list, and [order] lists every account once. *)
Record pending_in_order (order : list Address) (txs : gmap Address (list LazyTransaction)) : Prop := {
  po_nodup : NoDup order;
  po_complete a : a ∈ order ↔ is_Some (txs !! a);
  po_nonempty a : txs !! a ≠ Some []
}.

Lemma heap_of_pending order txs base u :
  pending_in_order order txs → MustFromBig base = Ok u →
  ∃ t, NewTransactionsByPriceAndNonce order txs base = Ok t ∧ ordered t ∧ bp_baseFee t = u ∧
    ∀ a, queue t a = affordable u a (default [] (txs !! a)).
Proof.
  intros [Hnd Hc Hne] Hu. unfold NewTransactionsByPriceAndNonce. rewrite Hu.
  destruct (init_heads_spec u order txs [] Hnd) as (txs' & hs & -> & [Hn Hf Ho Hq]).
  { intros a [l Hl]%Hc. destruct l as [|tx rest]; [by apply Hne in Hl|eauto]. }
  pose proof (Init_Permutation priceLess ([] ++ hs)) as Hp. cbn [app] in *.
  eexists. split; [done|]. assert (NoDup (mf_from <$> Init priceLess hs)) as Hn' by by rewrite Hp.
  split_and!; [split; cbn; [by apply Init_heap; [apply priceLess_asym|apply priceLess_trans]|done]|done|].
  intros a. set (t := mkByPrice _ _ _). destruct (decide (a ∈ order)) as [Hin|Hout].
  - specialize (Hq a Hin). destruct (affordable u a (default [] (txs !! a))) as [|h r].
    + apply queue_out. cbn. by rewrite Hp.
    + destruct Hq as (Hh & <- & <-). rewrite (queue_in t h); [done|done|cbn; by rewrite Hp].
  - rewrite queue_out by (cbn; rewrite Hp; intros ?%Hf; done).
    destruct (txs !! a) as [l|] eqn:El; [|done]. exfalso. apply Hout, Hc. by rewrite El.
Qed.

(** ** The order of service *)

(** The specification: queues are served one head at a time, always a best one. *)
Inductive best_first : (Address → list txWithMinerFee) → list txWithMinerFee → Prop :=
  | best_done q : (∀ a, q a = []) → best_first q []
  | best_step q q' a h rest l :
      q a = h :: rest →
      (∀ b h' r, q b = h' :: r → priceLess h' h = false) →
      (∀ b, q' b = if decide (b = a) then rest else q b) →
      best_first q' l → best_first q (h :: l).

(** The implementation: [Peek] and [Shift] until the heap is empty. *)
Inductive serves : TransactionsByPriceAndNonce → list txWithMinerFee → Prop :=
  | serves_done t : bp_heads t = [] → serves t []
  | serves_step t h hs t' l : bp_heads t = h :: hs → Shift t = Ok t' → serves t' l → serves t (h :: l).

(** Queues hold transactions of their account, and only these accounts have any. *)
Lemma best_first_filter q l :
  best_first q l → (∀ a h, h ∈ q a → mf_from h = a) → ∀ a, filter (λ h, mf_from h = a) l = q a.
Proof.
  induction 1 as [q Hq|q q' a h rest l Ea Hb Hq' _ IH]; intros Hf b; [by rewrite Hq|].
  assert (∀ a' h', h' ∈ q' a' → mf_from h' = a') as Hf'.
  { intros a' h'. rewrite Hq'. case_decide as E; [|apply Hf]. intros Hh. apply Hf. rewrite E, Ea. by right. }
  assert (mf_from h = a) as Eh by (apply Hf; rewrite Ea; by left).
  specialize (IH Hf' b). rewrite Hq' in IH. case_decide as E.
  - rewrite filter_cons_True by congruence. rewrite IH, E. by rewrite Ea.
  - by rewrite filter_cons_False by congruence.
Qed.

Lemma affordable_from base a l h : h ∈ affordable base a l → mf_from h = a.
Proof.
  induction l as [|tx l IH]; cbn; [by intros ?%elem_of_nil|].
  destruct (newTxWithMinerFee tx a base) eqn:E; [|by intros ?%elem_of_nil..].
  intros [->|Hh]%elem_of_cons; [by apply (newTx_from _ _ _ _ E)|by apply IH].
Qed.

Lemma affordable_tx base a l h : h ∈ affordable base a l → mf_tx h ∈ l.
Proof.
  induction l as [|tx l IH]; cbn; [by intros ?%elem_of_nil|].
  destruct (newTxWithMinerFee tx a base) eqn:E; [|by intros ?%elem_of_nil..].
  intros [->|Hh]%elem_of_cons; [|right; by apply IH]. destruct (newTx_from _ _ _ _ E) as [_ ->]. by left.
Qed.

(** The number of transactions left in the queues of a list of accounts. *)
Definition backlog (accts : list Address) (q : Address → list txWithMinerFee) : nat :=
  sum_list_with (λ a, length (q a)) accts.

Lemma backlog_other accts q q' : (∀ a, a ∈ accts → q' a = q a) → backlog accts q' = backlog accts q.
Proof.
  induction accts as [|a accts IH]; intros E; [done|]. unfold backlog in *. cbn. rewrite E by by left.
  rewrite IH; [done|]. intros b Hb. apply E. by right.
Qed.

Lemma backlog_step accts q q' a h rest :
  NoDup accts → a ∈ accts → q a = h :: rest → (∀ b, q' b = if decide (b = a) then rest else q b) →
  backlog accts q = S (backlog accts q').
Proof.
  induction accts as [|b accts IH]; intros Hnd Hin Ea Eq; [by apply elem_of_nil in Hin|].
  apply NoDup_cons in Hnd as [Hb Hnd]. unfold backlog in *. cbn. destruct (decide (b = a)) as [->|Hne].
  - pose proof (backlog_other accts q q') as Eo. unfold backlog in Eo. rewrite Ea, Eo.
    { rewrite Eq, decide_True by done. cbn. lia. }
    intros c Hc. rewrite Eq, decide_False; [done|]. intros ->. done.
  - apply elem_of_cons in Hin as [->|Hin]; [done|]. rewrite (IH Hnd Hin Ea Eq). rewrite (Eq b), decide_False by done. lia.
Qed.

Lemma queue_nonempty t a : queue t a ≠ [] → a ∈ mf_from <$> bp_heads t.
Proof. intros Hq. destruct (decide (a ∈ mf_from <$> bp_heads t)); [done|]. by rewrite queue_out in Hq. Qed.

(** Serving ends, and is best first. *)
Lemma serves_all accts n : ∀ t,
  NoDup accts → (∀ a, queue t a ≠ [] → a ∈ accts) → backlog accts (queue t) = n → ordered t →
  ∃ l, serves t l ∧ best_first (queue t) l.
Proof.
  induction n as [n IH] using lt_wf_ind. intros t Hnd Hc Hn Ho.
  destruct (bp_heads t) as [|h hs] eqn:Eh.
  { exists []. split; [by constructor|]. constructor. intros a. apply queue_out. rewrite Eh. apply not_elem_of_nil. }
  destruct (Shift_best t h hs Ho Eh) as (rest & t' & Eq & Hb & Es & Ho' & Hq).
  assert (mf_from h ∈ accts) as Hin by (apply Hc; by rewrite Eq).
  pose proof (backlog_step accts _ _ _ _ _ Hnd Hin Eq Hq) as Hs.
  destruct (IH (backlog accts (queue t'))) with (t := t') as (l & Hl & Hbl); [lia|done| |done|done|].
  { intros a. rewrite Hq. case_decide as E; [by rewrite E|apply Hc]. }
  exists (h :: l). split; [by econstructor|by econstructor].
Qed.

Lemma ordered_serves t : ordered t → ∃ l, serves t l ∧ best_first (queue t) l.
Proof. intros Ho. by eapply (serves_all (mf_from <$> bp_heads t)); [apply Ho|apply queue_nonempty| |]. Qed.

(** The queues of a set of pending transactions. *)
Definition pending_queue (base : option Z) (txs : gmap Address (list LazyTransaction)) a : list txWithMinerFee :=
  affordable base a (default [] (txs !! a)).

Lemma best_first_ext q q' l : (∀ a, q a = q' a) → best_first q l → best_first q' l.
Proof.
  intros E Hb. destruct Hb as [q Hq|q q2 a h rest l Ea Hb Hq2 Hl].
  - constructor. intros a. by rewrite <-E.
  - econstructor; [by rewrite <-E|intros b h' r; rewrite <-E; apply Hb| |done]. intros b. by rewrite Hq2, E.
Qed.

Lemma pending_service order txs base u :
  pending_in_order order txs → MustFromBig base = Ok u →
  ∃ t l, NewTransactionsByPriceAndNonce order txs base = Ok t ∧ serves t l ∧
    best_first (pending_queue u txs) l ∧ ∀ a, filter (λ h, mf_from h = a) l = pending_queue u txs a.
Proof.
  intros Hp Hu. destruct (heap_of_pending order txs base u Hp Hu) as (t & Et & Ho & _ & Hq).
  destruct (ordered_serves t Ho) as (l & Hl & Hb). apply (best_first_ext _ (pending_queue u txs)) in Hb; [|done].
  exists t, l. split_and!; [done..|]. apply best_first_filter; [done|]. intros a h. apply affordable_from.
Qed.

(** C26: the pending Ethereum transactions are served by price and nonce.  For any order
    in which Go ranges over the accounts, the heap is built, [Peek] and [Shift] empty
    it after finitely many steps, and the transactions that come out are the service of
    one queue per account, at each step a head with the highest effective tip and, among
    equal tips, the earliest time; each account's transactions come out in the pool's
    (nonce) order, up to the first that does not pay the base fee, none twice and none
    left out. *)
Theorem ordering_serves_best_first order txs base u :
  pending_in_order order txs → MustFromBig base = Ok u →
  ∃ t l, NewTransactionsByPriceAndNonce order txs base = Ok t ∧ serves t l ∧
    best_first (pending_queue u txs) l ∧ ∀ a, filter (λ h, mf_from h = a) l = pending_queue u txs a.
Proof. apply pending_service. Qed.
End ordering.

(** * The merged iterator *)

(** An SDK iterator walks a list of transactions. *)
Class SdkIteratorLaws `{GethTx} (C : Type) `{!SdkIterator C} (ci_list : C → list SdkTx) : Prop := {
  ci_Tx_head c : ci_Tx c = head (ci_list c);
  ci_Next_tail c : match ci_Next c with Some c' => ci_list c' | None => [] end = tail (ci_list c)
}.

Section iterator.
Context `{SdkTypes, GethTx, GethAddress, !TxBuilder} {C : Type} `{!SdkIterator C}.
Context (ci_list : C → list SdkTx) `{!SdkIteratorLaws C ci_list}.
Context {Ctx : Type} `{!ChainContext Ctx} (getCtx : outcome Ctx) (ExtendedDenom : denom) (sort : Coins → Coins).
Implicit Types (i : EVMMempoolIterator C Ctx) (h : txWithMinerFee) (c : SdkTx).

(** ** The reference: a merge of two lists *)

(** The merge of Ethereum and Cosmos transactions by their tips: a Cosmos transaction
    goes first only with a tip that is not zero and strictly higher. *)
Fixpoint merge (tip : SdkTx → Z) (l : list txWithMinerFee) : list SdkTx → list (txWithMinerFee + SdkTx) :=
  fix go cs :=
    match l, cs with
    | [], _ => map inr cs
    | _, [] => map inl l
    | h :: l', c :: cs' =>
        if (tip c =? 0) || negb (tip c >? mf_fees h) then inl h :: merge tip l' cs else inr c :: go cs'
    end.

Lemma merge_nil_l tip cs : merge tip [] cs = map inr cs.
Proof. by destruct cs. Qed.

Lemma merge_nil_r tip l : merge tip l [] = map inl l.
Proof. by destruct l. Qed.

Lemma merge_cons tip h l c cs :
  merge tip (h :: l) (c :: cs) =
  if (tip c =? 0) || negb (tip c >? mf_fees h) then inl h :: merge tip l (c :: cs) else inr c :: merge tip (h :: l) cs.
Proof. done. Qed.

(** Both lists are kept in order, and nothing is lost or shown twice. *)
Lemma merge_evm tip l : ∀ cs, omap (λ x, match x with inl h => Some h | inr _ => None end) (merge tip l cs) = l.
Proof.
  induction l as [|h l IH]; intros cs.
  { rewrite merge_nil_l. by induction cs. }
  induction cs as [|c cs IHc].
  - rewrite merge_nil_r. cbn. f_equal. clear. by induction l as [|x l IH]; [|cbn; f_equal].
  - rewrite merge_cons. destruct (_ || _); cbn; [f_equal; apply IH|apply IHc].
Qed.

Lemma merge_cosmos tip l : ∀ cs, omap (λ x, match x with inl _ => None | inr c => Some c end) (merge tip l cs) = cs.
Proof.
  induction l as [|h l IH]; intros cs.
  { rewrite merge_nil_l. by induction cs as [|c cs IHc]; [|cbn; f_equal]. }
  induction cs as [|c cs IHc].
  - rewrite merge_nil_r. clear. by induction (h :: l).
  - rewrite merge_cons. destruct (_ || _); cbn; [apply IH|f_equal; apply IHc].
Qed.

Lemma merge_length tip l cs : length (merge tip l cs) = (length l + length cs)%nat.
Proof.
  revert cs. induction l as [|h l IH]; intros cs; [by rewrite merge_nil_l, length_map|].
  induction cs as [|c cs IHc]; [rewrite merge_nil_r, length_map; cbn; lia|].
  rewrite merge_cons. destruct (_ || _); cbn [length]; [rewrite IH; cbn; lia|rewrite IHc; cbn; lia].
Qed.

(** A filter is shown a list until it returns false. *)
Fixpoint feed {S} (f : option SdkTx → M S bool) (l : list SdkTx) : M S (option unit) :=
  match l with
  | [] => ret (Some tt)
  | tx :: r => let! more := f (Some tx) in if more then feed f r else ret (Some tt)
  end.

(** ** What the iterator holds *)

(** The tip of a Cosmos transaction, and a transaction as it is shown. *)
Definition cosmos_tip i c : Z :=
  match extractCosmosEffectiveTip getCtx i c with Ok (Some tip) => tip | _ => 0 end.

Definition shown i (x : txWithMinerFee + SdkTx) : option SdkTx :=
  match x with
  | inr c => Some c
  | inl h => match convertEVMToSDKTx ExtendedDenom sort i (mf_tx h) with Ok (Some tx) => Some tx | _ => None end
  end.

Definition cosmos_list (o : option C) : list SdkTx := match o with Some c => ci_list c | None => [] end.

Lemma cosmos_tx_head o : cosmos_tx o = head (cosmos_list o).
Proof. destruct o as [c|]; [|done]. cbn. apply ci_Tx_head. Qed.

Lemma cosmos_next_tail o : cosmos_list (o ≫= ci_Next) = tail (cosmos_list o).
Proof. destruct o as [c|]; [|done]. cbn. rewrite <-(ci_Next_tail c). by destruct (ci_Next c). Qed.

(** The iterator holds the Ethereum transactions [l] and the Cosmos transactions [cs],
    their tips can be computed and the Ethereum transactions converted. *)
Record holds i (l : list txWithMinerFee) (cs : list SdkTx) : Prop := {
  ih_evm : match it_evm i with Some t => serves t l | None => l = [] end;
  ih_cosmos : cosmos_list (it_cosmos i) = cs;
  ih_tip c : c ∈ cs → ∃ tip, extractCosmosEffectiveTip getCtx i c = Ok tip;
  ih_convert h : h ∈ l → is_Some (shown i (inl h))
}.

Lemma holds_getNextEVMTx i l cs : holds i l cs → getNextEVMTx i = (λ h, (mf_tx h, mf_fees h)) <$> head l.
Proof.
  intros [He _ _ _]. unfold getNextEVMTx. destruct (it_evm i) as [t|]; [|by subst]. cbn. unfold Peek.
  by destruct He as [t ->|t h hs t' l -> _ _].
Qed.

Lemma holds_getNextCosmosTx i l cs :
  holds i l cs → getNextCosmosTx getCtx i = Ok ((λ c, (c, cosmos_tip i c)) <$> head cs).
Proof.
  intros [_ Hc Ht _]. unfold getNextCosmosTx. rewrite cosmos_tx_head, Hc. destruct cs as [|c cs]; [done|]. cbn.
  unfold cosmos_tip. destruct (Ht c) as [tip ->]; [by left|]. by destruct tip.
Qed.

(** The choice between the two heads. *)
Definition evm_first i (l : list txWithMinerFee) (cs : list SdkTx) : bool :=
  match l, cs with
  | [], _ => false
  | _, [] => true
  | h :: _, c :: _ => (cosmos_tip i c =? 0) || negb (cosmos_tip i c >? mf_fees h)
  end.

Lemma holds_shouldUseEVM i l cs : holds i l cs → shouldUseEVM getCtx i = Ok (evm_first i l cs).
Proof.
  intros Hh. unfold shouldUseEVM. rewrite (holds_getNextCosmosTx _ _ _ Hh), (holds_getNextEVMTx _ _ _ Hh).
  destruct l as [|h l], cs as [|c cs]; cbn; try done. by destruct (cosmos_tip i c =? 0).
Qed.

Lemma merge_step i l cs :
  merge (cosmos_tip i) l cs =
  if evm_first i l cs
  then match l with h :: l' => inl h :: merge (cosmos_tip i) l' cs | [] => [] end
  else match cs with c :: cs' => inr c :: merge (cosmos_tip i) l cs' | [] => [] end.
Proof.
  destruct l as [|h l]; [rewrite merge_nil_l; by destruct cs as [|c [|c' cs]]|].
  destruct cs as [|c cs]; [rewrite merge_nil_r; cbn [evm_first]; by rewrite merge_nil_r|]. by rewrite merge_cons.
Qed.

Lemma evm_first_nonempty i l cs : evm_first i l cs = true → ∃ h l', l = h :: l'.
Proof. destruct l as [|h l]; [done|eauto]. Qed.

(** [Tx] is the first transaction of the merge. *)
Lemma holds_Tx i l cs x r :
  holds i l cs → merge (cosmos_tip i) l cs = x :: r → Tx getCtx ExtendedDenom sort i = Ok (shown i x).
Proof.
  intros Hh Hm. unfold Tx. rewrite (holds_getNextCosmosTx _ _ _ Hh). unfold getPreferredTransaction.
  rewrite (holds_shouldUseEVM _ _ _ Hh), (holds_getNextEVMTx _ _ _ Hh). rewrite merge_step in Hm.
  destruct (evm_first i l cs) eqn:Ef.
  - destruct (evm_first_nonempty _ _ _ Ef) as (h & l' & ->). injection Hm as <- _. cbn.
    destruct (ih_convert _ _ _ Hh h) as [tx Htx]; [by left|]. cbn in Htx. rewrite Htx.
    destruct (convertEVMToSDKTx _ _ _ _) as [[tx'|]| |]; try done. by injection Htx as ->.
  - destruct cs as [|c cs]; [done|]. injection Hm as <- _. by destruct l.
Qed.

(** The parts of the iterator that do not change. *)
Definition same_setting i i' : Prop :=
  it_bondDenom i' = it_bondDenom i ∧ it_chainID i' = it_chainID i ∧ it_blockchain i' = it_blockchain i.

Lemma same_setting_tip i i' c :
  same_setting i i' → extractCosmosEffectiveTip getCtx i' c = extractCosmosEffectiveTip getCtx i c.
Proof. intros (E1 & _ & E3). unfold extractCosmosEffectiveTip, getCurrentBaseFee. by rewrite E1, E3. Qed.

Lemma same_setting_shown i i' x : same_setting i i' → shown i' x = shown i x.
Proof. intros (E1 & E2 & _). unfold shown, convertEVMToSDKTx. by rewrite E1, E2. Qed.

Lemma holds_move i i' l cs l' cs' :
  holds i l cs → same_setting i i' → l' ⊆ l → cs' ⊆ cs →
  match it_evm i' with Some t => serves t l' | None => l' = [] end →
  cosmos_list (it_cosmos i') = cs' → holds i' l' cs'.
Proof.
  intros [_ _ Ht Hx] Hs Hl Hc He Hcs. split; [done|done| |].
  - intros c Hin. rewrite (same_setting_tip i i' c Hs). by apply Ht, Hc.
  - intros h Hin. rewrite (same_setting_shown i i' _ Hs). by apply Hx, Hl.
Qed.

(** [advanceCurrentIterator] takes the first transaction of the merge away. *)
Lemma holds_advance i l cs x r :
  holds i l cs → merge (cosmos_tip i) l cs = x :: r →
  ∃ i' l' cs', advanceCurrentIterator getCtx i = Ok i' ∧ same_setting i i' ∧ holds i' l' cs' ∧
    merge (cosmos_tip i) l' cs' = r.
Proof.
  intros Hh Hm. unfold advanceCurrentIterator. rewrite (holds_shouldUseEVM _ _ _ Hh). rewrite merge_step in Hm.
  pose proof (ih_evm _ _ _ Hh) as He. pose proof (ih_cosmos _ _ _ Hh) as Hc. destruct (evm_first i l cs) eqn:Ef.
  - destruct (evm_first_nonempty _ _ _ Ef) as (h & l' & ->). injection Hm as _ Hr.
    destruct (it_evm i) as [t|]; [|done]. inversion He as [|? ? ? t' ? _ Es Hl']; subst. rewrite Es.
    eexists _, l', _. split_and!; [done|by split_and!| |done].
    by eapply holds_move; [done|by split_and!|by apply list_subseteq_cons| | |].
  - destruct cs as [|c cs]; [done|]. injection Hm as _ Hr.
    eexists _, l, cs. split_and!; [done|by split_and!| |done].
    eapply holds_move; [done|by split_and!|done| |done|]; [by apply list_subseteq_cons|].
    cbn. by rewrite cosmos_next_tail, Hc.
Qed.

Lemma holds_more i l cs :
  holds i l cs →
  hasMoreTransactions getCtx i = Ok (match merge (cosmos_tip i) l cs with [] => false | _ => true end).
Proof.
  intros Hh. unfold hasMoreTransactions. rewrite (holds_getNextCosmosTx _ _ _ Hh), (holds_getNextEVMTx _ _ _ Hh).
  destruct l as [|h l], cs as [|c cs]; [done..|]. rewrite merge_cons. by destruct (_ =? 0), (_ >? _).
Qed.

Lemma merge_same_setting i i' l cs : same_setting i i' → merge (cosmos_tip i') l cs = merge (cosmos_tip i) l cs.
Proof.
  intros Hs. revert cs. induction l as [|h l IH]; intros cs; [by rewrite !merge_nil_l|].
  induction cs as [|c cs IHc]; [by rewrite !merge_nil_r|]. rewrite !merge_cons, IH, IHc.
  unfold cosmos_tip. by rewrite (same_setting_tip i i' c Hs).
Qed.

Lemma holds_Next i l cs x r :
  holds i l cs → merge (cosmos_tip i) l cs = x :: r →
  match r with
  | [] => Next getCtx i = Ok None
  | _ => ∃ i' l' cs', Next getCtx i = Ok (Some i') ∧ same_setting i i' ∧ holds i' l' cs' ∧
           merge (cosmos_tip i') l' cs' = r
  end.
Proof.
  intros Hh Hm. unfold Next. rewrite (holds_more _ _ _ Hh), Hm.
  destruct (holds_advance _ _ _ _ _ Hh Hm) as (i' & l' & cs' & -> & Hs & Hh' & Hr).
  rewrite (holds_more _ _ _ Hh'), (merge_same_setting i i' l' cs' Hs), Hr.
  destruct r as [|y r]; [done|]. eexists _, l', cs'. split_and!; [done..|]. by rewrite (merge_same_setting i i').
Qed.

Lemma holds_shown i l cs x : holds i l cs → x ∈ merge (cosmos_tip i) l cs → is_Some (shown i x).
Proof.
  intros Hh Hx. destruct x as [h|c]; [|by eexists]. apply (ih_convert _ _ _ Hh).
  rewrite <-(merge_evm (cosmos_tip i) l cs). apply list_elem_of_omap. eauto.
Qed.

Lemma omap_same_setting i i' (r : list (txWithMinerFee + SdkTx)) : same_setting i i' → omap (shown i') r = omap (shown i) r.
Proof. intros Hs. induction r as [|x r IH]; [done|]. cbn. by rewrite IH, (same_setting_shown i i' x Hs). Qed.

(** The loop of [SelectBy] shows the merge to the filter. *)
Lemma select_loop_feed {S} (f : option SdkTx → M S bool) r : ∀ fuel i l cs s,
  holds i l cs → merge (cosmos_tip i) l cs = r → r ≠ [] → (length r ≤ fuel)%nat →
  select_loop getCtx ExtendedDenom sort fuel f (Some i) s = feed f (omap (shown i) r) s.
Proof.
  induction r as [|x r IH]; intros fuel i l cs s Hh Hm Hne Hf; [done|].
  destruct fuel as [|fuel]; [cbn in Hf; lia|]. cbn [select_loop].
  destruct (holds_shown _ _ _ x Hh) as [tx Hx]; [rewrite Hm; by left|].
  unfold of_outcome at 1. erewrite bind_Ok by (by rewrite (holds_Tx _ _ _ _ _ Hh Hm)).
  cbn [omap list_omap]. rewrite Hx. cbn [feed]. apply bind_ext. intros s' more _. destruct more; [|done].
  pose proof (holds_Next _ _ _ _ _ Hh Hm) as Hn. destruct r as [|y r].
  - unfold of_outcome. erewrite bind_Ok by (by rewrite Hn). by destruct fuel.
  - destruct Hn as (i' & l' & cs' & En & Hs & Hh' & Hm'). unfold of_outcome. erewrite bind_Ok by (by rewrite En).
    rewrite (IH fuel i' l' cs' s' Hh' Hm') by (done || cbn in *; lia). by rewrite (omap_same_setting i i' _ Hs).
Qed.

(** ** When tips can be computed *)

Definition priced_tx c : Prop := match tx_FeeTx c with Some feeTx => ftx_Gas feeTx ≠ 0 | None => True end.

Lemma CurrentBlock_no_panic (b : Blockchain Ctx) :
  (∀ w, getCtx ≠ Panic w) → ∃ header, CurrentBlock getCtx b = Ok header.
Proof.
  intros Hg. unfold CurrentBlock, GetLatestContext, newLatestContext.
  destruct (bc_latestCtx b) as [ctx|]; [by destruct (_ && _); eexists|].
  destruct getCtx as [ctx|e|w]; [by destruct (_ && _); eexists|by eexists|by destruct (Hg w)].
Qed.

Lemma tip_computed i c : (∀ w, getCtx ≠ Panic w) → priced_tx c → ∃ tip, extractCosmosEffectiveTip getCtx i c = Ok tip.
Proof.
  unfold priced_tx, extractCosmosEffectiveTip. intros Hg Hp. destruct (tx_FeeTx c) as [feeTx|]; [|by eexists].
  destruct (Z.eqb_spec (ftx_Gas feeTx) 0); [done|]. destruct (uint256_FromBig _); [|by eexists].
  unfold getCurrentBaseFee. destruct (it_blockchain i) as [b|]; [|by eexists].
  destruct (CurrentBlock_no_panic b Hg) as [header ->]. destruct (hd_BaseFee header ≫= uint256_FromBig); by eexists.
Qed.
End iterator.

(** * Block proposals *)

Section proposals.
Context `{SdkTypes, GethTx, GethAddress, !TxBuilder} {C : Type} `{!SdkIterator C}.
Context (ci_list : C → list SdkTx) `{!SdkIteratorLaws C ci_list}.
Context {Ctx : Type} `{!ChainContext Ctx} {E P : Type} `{!EvmPool E, !CosmosPool P C}.
Context (getCtx : outcome Ctx) (sort : Coins → Coins) (info : EvmCoinInfo).
Implicit Types (cfg : MempoolConfig (Ctx := Ctx)) (s : Pools E P) (ctx : Ctx).

(** The transactions of the two pools a selection is made from. *)
Definition pending_txs cfg ctx s : gmap Address (list LazyTransaction) :=
  pool_Pending (mkPendingFilter (mc_minTip cfg) (cx_BaseFee ctx ≫= uint256_FromBig) None true false) (mp_evm s).

Definition cosmos_txs (exclude : list bytes) s : list SdkTx := cosmos_list ci_list (cp_Select exclude (mp_cosmos s)).

(** The setting of the iterators of this mempool. *)
Definition setting cfg : EVMMempoolIterator C Ctx :=
  mkIterator None None (eci_Denom info) (mc_chainID cfg) (Some (mc_blockchain cfg)).

(** What is shown of a transaction: the converted one for Ethereum transactions. *)
Abbreviation shown_by cfg := (shown (eci_ExtendedDenom info) sort (setting cfg)).
Abbreviation tip_by cfg := (cosmos_tip getCtx (setting cfg)).

(** The context is found, the base fee fits in 256 bits, the pool lists every pending
    account once, fees come with a gas limit and Ethereum transactions convert. *)
Record selectable cfg ctx (exclude : list bytes) s : Prop := {
  sl_ctx w : getCtx ≠ Panic w;
  sl_baseFee : match cx_BaseFee ctx with Some b => is_Some (uint256_FromBig b) | None => True end;
  sl_pending : pending_in_order (pool_Order (pending_txs cfg ctx s)) (pending_txs cfg ctx s);
  sl_priced c : c ∈ cosmos_txs exclude s → priced_tx c;
  sl_convert a l tx fee : pending_txs cfg ctx s !! a = Some l → tx ∈ l →
    is_Some (shown_by cfg (inl (mkTxWithMinerFee tx a fee)))
}.

Lemma base_fee_ok o : match o with Some b => is_Some (uint256_FromBig b) | None => True end →
  MustFromBig o = Ok (o ≫= uint256_FromBig).
Proof. destruct o as [b|]; [|done]. intros [u Hu]. cbn. by rewrite Hu. Qed.

Lemma selectable_getIterators cfg ctx exclude s :
  selectable cfg ctx exclude s →
  ∃ t l, getIterators cfg ctx exclude s = Ok (t, cp_Select exclude (mp_cosmos s)) ∧ serves t l ∧
    best_first (pending_queue (cx_BaseFee ctx ≫= uint256_FromBig) (pending_txs cfg ctx s)) l ∧
    ∀ a, filter (λ h, mf_from h = a) l = pending_queue (cx_BaseFee ctx ≫= uint256_FromBig) (pending_txs cfg ctx s) a.
Proof.
  intros [_ Hb Hp _ _]. apply base_fee_ok in Hb. unfold getIterators. rewrite Hb.
  destruct (pending_service _ _ _ _ Hp Hb) as (t & l & Et & Hl & Hbf & Hf). unfold pending_txs in Et. rewrite Et. eauto 6.
Qed.

Lemma shown_tx cfg h fee a : shown_by cfg (inl (mkTxWithMinerFee (mf_tx h) a fee)) = shown_by cfg (inl h).
Proof. done. Qed.

Lemma selectable_convert cfg ctx exclude s l h :
  selectable cfg ctx exclude s →
  (∀ a, filter (λ h, mf_from h = a) l = pending_queue (cx_BaseFee ctx ≫= uint256_FromBig) (pending_txs cfg ctx s) a) →
  h ∈ l → is_Some (shown_by cfg (inl h)).
Proof.
  intros Hs Hf Hh. assert (h ∈ filter (λ h', mf_from h' = mf_from h) l) as Hin by by apply list_elem_of_filter.
  rewrite Hf in Hin. unfold pending_queue in Hin. apply affordable_tx in Hin.
  destruct (pending_txs cfg ctx s !! mf_from h) as [r|] eqn:Er; [|by apply elem_of_nil in Hin].
  rewrite <-(shown_tx cfg h (mf_fees h) (mf_from h)). by eapply (sl_convert _ _ _ _ Hs).
Qed.

(** The iterator of a selection holds what the pools have. *)
Lemma selection_holds cfg ctx exclude s t l :
  selectable cfg ctx exclude s → serves t l → (∀ h, h ∈ l → is_Some (shown_by cfg (inl h))) →
  holds ci_list getCtx (eci_ExtendedDenom info) sort
    (mkIterator (Some t) (cp_Select exclude (mp_cosmos s)) (eci_Denom info) (mc_chainID cfg) (Some (mc_blockchain cfg)))
    l (cosmos_txs exclude s).
Proof.
  intros Hs Hl Hc. split; [done|done| |done].
  intros c Hin. apply tip_computed; [apply (sl_ctx _ _ _ _ Hs)|by apply (sl_priced _ _ _ _ Hs)].
Qed.

Lemma new_iterator_empty (t : TransactionsByPriceAndNonce) l (o : option C) d chainID (b : option (Blockchain Ctx)) :
  serves t l →
  NewEVMMempoolIterator (Some t) o d chainID b =
  match l, cosmos_list ci_list o with [], [] => None | _, _ => Some (mkIterator (Some t) o d chainID b) end.
Proof.
  intros Hl. unfold NewEVMMempoolIterator, Empty. rewrite (cosmos_tx_head ci_list).
  by destruct Hl as [t ->|t h hs t' l -> _ _], (cosmos_list ci_list o).
Qed.

Lemma merge_nonempty tip l cs : merge tip l cs = [] → l = [] ∧ cs = [].
Proof. intros Em. pose proof (merge_length tip l cs) as Hl. rewrite Em in Hl. destruct l, cs; done. Qed.

(** C25: a block proposal is the merge of the two pools.  [SelectBy] shows its filter, one
    after the other until the filter returns false, the merge of the Ethereum
    transactions, best tip first and in nonce order per account, with the Cosmos
    transactions in the order of their pool: an Ethereum transaction goes first unless
    the Cosmos transaction's tip is not zero and strictly higher.  The loop ends after at
    most as many steps as there are transactions, and leaves the filter's state as if the
    list were shown to it. *)
Theorem SelectBy_shows_merge cfg ctx exclude s :
  selectable cfg ctx exclude s →
  ∃ l, best_first (pending_queue (cx_BaseFee ctx ≫= uint256_FromBig) (pending_txs cfg ctx s)) l ∧
    (∀ a, filter (λ h, mf_from h = a) l = pending_queue (cx_BaseFee ctx ≫= uint256_FromBig) (pending_txs cfg ctx s) a) ∧
    ∀ (S : Type) (f : option SdkTx → M S bool) (st : S) fuel,
      (length l + length (cosmos_txs exclude s) ≤ fuel)%nat →
      SelectBy getCtx sort info fuel cfg ctx exclude s f st =
      feed f (omap (shown_by cfg) (merge (tip_by cfg) l (cosmos_txs exclude s))) st.
Proof.
  intros Hs. destruct (selectable_getIterators _ _ _ _ Hs) as (t & l & Et & Hl & Hb & Hf).
  exists l. split_and!; [done..|]. intros S f st fuel Hfuel.
  pose proof (selection_holds _ _ _ _ t l Hs Hl (λ h, selectable_convert _ _ _ _ l h Hs Hf)) as Hh.
  unfold SelectBy, of_outcome. erewrite bind_Ok by (unfold Select; by rewrite Et). cbn.
  rewrite (new_iterator_empty t l _ _ _ _ Hl). fold (cosmos_txs exclude s).
  set (i := mkIterator _ _ _ _ _) in *. assert (same_setting i (setting cfg)) as Hset by done.
  rewrite (merge_same_setting _ i (setting cfg) _ _ Hset).
  destruct (merge (cosmos_tip getCtx i) l (cosmos_txs exclude s)) as [|x r] eqn:Em.
  { destruct (merge_nonempty _ _ _ Em) as [-> ->]. by destruct fuel. }
  replace (match l with [] => _ | _ => _ end) with (Some i)
    by (destruct l, (cosmos_txs exclude s); done).
  rewrite (select_loop_feed ci_list getCtx _ sort f (x :: r) fuel i l _ st Hh Em) by (done || by rewrite <-Em, merge_length).
  by rewrite (omap_same_setting _ _ i (setting cfg) (x :: r) Hset).
Qed.

(** ** Removal and insertion *)

(** A transaction without a single Ethereum message. *)
Definition is_cosmos_tx (tx : SdkTx) : bool := match getEVMMessage tx with Ok _ => false | _ => true end.

(** An Ethereum transaction leaves its pool only when the ante handler, run on the latest
    state, rejects it for another reason than a nonce gap, a wrong sequence or the gas
    of the block; then exactly this transaction is removed. *)
Lemma Remove_evm_only_dead cfg tx s s' o :
  Remove getCtx cfg tx s = (s', o) → mp_evm s' ≠ mp_evm s →
  ∃ m ethTx handler ctx err,
    getEVMMessage tx = Ok m ∧ Raw m = Some ethTx ∧ mc_anteHandler cfg = Some handler ∧
    GetLatestContext getCtx (mc_blockchain cfg) = Ok ctx ∧ handler ctx tx true = Err err ∧
    err_code err ≠ ErrNonceGap ∧ err_code err ≠ ErrInvalidSequence ∧ err_code err ≠ ErrOutOfGas ∧
    s' = mkPools (pool_RemoveTx (Tx_Hash ethTx) false true (mp_evm s)) (mp_cosmos s).
Proof.
  unfold Remove. destruct (_ =? _); [by intros [= <- _]|].
  destruct (getEVMMessage tx) as [m|e|w]; [| |by intros [= <- _]].
  2:{ case_bool_decide; [by intros [= <- _]|]. unfold cosmos, zoom. destruct (cp_Remove tx _). by intros [= <- _]. }
  unfold bind, of_outcome, as_transaction, shouldRemoveFromEVMPool. destruct (Raw m) as [ethTx|] eqn:Er; [|by intros [= <- _]].
  destruct (mc_anteHandler cfg) as [handler|]; [|by intros [= <- _]].
  destruct (GetLatestContext getCtx _) as [ctx| |]; [|by intros [= <- _]..].
  destruct (handler ctx tx true) as [|err|] eqn:Eh; [by intros [= <- _]| |by intros [= <- _]].
  destruct (err_is err ErrNonceGap || err_is err ErrInvalidSequence || err_is err ErrOutOfGas) eqn:Ek; [by intros [= <- _]|].
  cbn. intros [= <- _] _. unfold err_is in Ek. apply orb_false_iff in Ek as [[Ek1 Ek2]%orb_false_iff Ek3].
  apply bool_decide_eq_false in Ek1, Ek2, Ek3. eexists m, ethTx, handler, ctx, err. by split_and!.
Qed.

(** Every operation keeps to the pool of its transaction. *)
Lemma Insert_cosmos_pool tx s s' o : is_cosmos_tx tx = false → Insert tx s = (s', o) → mp_cosmos s' = mp_cosmos s.
Proof.
  unfold is_cosmos_tx, Insert. destruct (getEVMMessage tx) as [m| |]; [|done..]. intros _.
  unfold bind, of_outcome, as_transaction, evm. destruct (Raw m) as [ethTx|]; [|by intros [= <- _]].
  destruct (pool_Add [ethTx] false (mp_evm s)) as [e errs]. destruct errs as [|[err|] errs]; by intros [= <- _].
Qed.

Lemma Insert_evm_pool tx s s' o : is_cosmos_tx tx = true → Insert tx s = (s', o) → mp_evm s' = mp_evm s.
Proof.
  unfold is_cosmos_tx, Insert. destruct (getEVMMessage tx) as [m|e|w]; [done| |by intros _ [= <- _]]. intros _.
  unfold cosmos, zoom. destruct (cp_Insert tx (mp_cosmos s)). by intros [= <- _].
Qed.
End proposals.
