(* ===== verification/MempoolWit.v ===== *)
(** A concrete mempool: two accounts with Ethereum transactions, a few Cosmos
    transactions, and what a selection shows of them. *)

From S2P Require Import Prelude.
From S2P Require Import Sdk.
From S2P Require Import SdkModel.
From S2P Require Import EvmDenom.
From S2P Require Import PreciseBankWit.
From S2P Require Import AccessList.
From S2P Require Import StateDB.
From S2P Require Import VmKeeper.
From S2P Require Import VmKeeperWit.
From S2P Require Import TxFees.
From S2P Require Import TxFeesWit.
From S2P Require Import AnteEvm.
From S2P Require Import GoHeap.
From S2P Require Import Mempool.
From S2P Require Import MempoolThms.

(** * Instances *)

(** The sender of a dynamic-fee transaction is account 7, of others none is found. *)
#[local] Instance p_builder : TxBuilder := {|
  Sender_of_chain _ tx := if st_dynamic tx then Ok 7 else Err (errorf ErrOther "invalid chain id for signer");
  GetTx opts msgs fee gas := Ok (mkSdkTx None None true (Some (mkFeeTx gas fee None)) false (Some opts) msgs)
|}.

(** Block 5 with a base fee of 10; a header's hash is made of its number. *)
#[local] Instance p_chain : ChainContext unit := {|
  cx_BlockHeight _ := 5;
  cx_BlockTime _ := 1700000000;
  cx_AppHash _ := 77;
  cx_BlockGasWanted _ := 0;
  cx_BaseFee _ := Some 10;
  cx_IsLondon _ := true;
  cx_WithBlockGasLimit _ c := c;
  Header_Hash h := 1000 + hd_Number h
|}.

(** Pools as lists, the Cosmos one first in first out; an iterator is what is left. *)
#[local] Instance p_iterator : SdkIterator (list SdkTx) := {|
  ci_Tx c := head c;
  ci_Next c := match tail c with [] => None | c' => Some c' end
|}.

#[local] Instance p_iterator_laws : SdkIteratorLaws (list SdkTx) id.
Proof. split; [done|]. intros [|x [|y c]]; done. Qed.

(** Added transactions are pending at once, for account 7. *)
#[local] Instance p_evm_pool : EvmPool (gmap Address (list LazyTransaction)) := {|
  pool_Add txs _ e :=
    (<[7 := default [] (e !! 7) ++ map (λ tx, mkLazy tx 0 (Tx_GasFeeCap tx) (Tx_GasTipCap tx)) txs]> e, map (λ _, None) txs);
  pool_RemoveTx h _ _ e := filter (λ tx, Tx_Hash (lt_Tx tx) ≠ h) <$> e;
  pool_Pending _ e := e;
  pool_Order e := (map_to_list e).*1;
  pool_Stats e := (Z.of_nat (map_fold (λ _ l n, length l + n)%nat 0%nat e), 0);
  pool_Has e h := existsb (λ p, existsb (λ tx, Tx_Hash (lt_Tx tx) =? h) p.2) (map_to_list e)
|}.

#[local] Instance p_cosmos_pool : CosmosPool (list SdkTx) (list SdkTx) := {|
  cp_Insert tx := modify (λ p, p ++ [tx]);
  cp_Remove _ := modify tail;
  cp_Select _ p := Some p;
  cp_CountTx p := Z.of_nat (length p)
|}.

(** * Transactions *)

Definition p_eth (nonce time feeCap tipCap : Z) (signed : bool) : LazyTransaction :=
  mkLazy (mkSimpleTx nonce (Some 9) 21000 feeCap tipCap 0 signed) time feeCap tipCap.

(** Account 1 has tips 5 and 9, account 2 a tip of 7 and a transaction below the base fee. *)
Definition p_pending : gmap Address (list LazyTransaction) :=
  {[ 1 := [p_eth 0 1 30 5 true; p_eth 1 2 30 9 true]; 2 := [p_eth 0 3 30 7 true; p_eth 1 4 5 1 true] ]}.

(** A Cosmos transaction that pays a gas price. *)
Definition p_cosmos (price : Z) : SdkTx :=
  mkSdkTx None None true (Some (mkFeeTx 100000 [mkCoin "airl" (price * 100000)] None)) false None
    [OtherMsg "/cosmos.bank.v1beta1.MsgSend"].

Definition p_config (signed : bool) : MempoolConfig (Ctx := unit) :=
  mkMempoolConfig (mkBlockchain (Some tt) 1004 fallbackBlockGasLimit) None None 1
    (λ _, Ok (mkSdkTx None None true None false None [EthMsg (mkMsgEthereumTx bytes7 (Some (lt_Tx (p_eth 5 9 30 2 signed))))])).

Definition p_state : Pools (gmap Address (list LazyTransaction)) (list SdkTx) :=
  mkPools p_pending [p_cosmos 16; p_cosmos 10].

(** The filter of these examples takes everything and keeps it. *)
Definition keep (tx : option SdkTx) : M (list (option SdkTx)) bool :=
  let! _ := modify (λ l, l ++ [tx]) in ret true.

(** What a transaction is told by: the nonce and tip of Ethereum ones, the fee of others. *)
Definition label (tx : option SdkTx) : option (Z * Z) :=
  tx ≫= λ t, match tx_Msgs t with
             | [EthMsg m] => (λ e, (Tx_Nonce e, Tx_GasTipCap e)) <$> Raw m
             | _ => (λ f, (-1, bond_fee "airl" (ftx_Fee f))) <$> tx_FeeTx t
             end.

(** Tips 7, then the Cosmos transaction of tip 6, then 5 and 9 in nonce order, and last
    the Cosmos transaction without a tip. *)
Example selection_order :
  label <$> fst (SelectBy (Ok tt) id info18 5 (p_config true) tt [] p_state keep []) =
  [Some (0, 7); Some (-1, 1600000); Some (0, 5); Some (1, 9); Some (-1, 1000000)].
Proof. vm_compute. reflexivity. Qed.

(** An Ethereum transaction that cannot be converted is passed over, and the Cosmos
    transaction shown in its place is shown again at the next step. *)
Example unconverted_shows_cosmos_twice :
  let s := mkPools {[ 1 := [p_eth 0 1 30 7 false] ]} [p_cosmos 16] in
  label <$> fst (SelectBy (Ok tt) id info18 2 (p_config true) tt [] s keep []) = [Some (-1, 1600000); Some (-1, 1600000)].
Proof. vm_compute. reflexivity. Qed.

(** With 6 decimals the price in the integer coin is compared with tips of 18 decimals:
    a price of 20 uatom, or 2 * 10^13 aatom, comes after a tip of 1000 aatom. *)
Example integer_price_never_wins :
  let tx := mkSdkTx None None true (Some (mkFeeTx 100000 [mkCoin "uatom" (20 * 100000)] None)) false None [] in
  let s := mkPools {[ 1 := [p_eth 0 1 (10 ^ 12) 1000 true] ]} [tx] in
  (λ t : option SdkTx, match tx_Msgs <$> t with Some [] => true | _ => false end) <$>
    fst (SelectBy (Ok tt) id info6 2 (p_config true) tt [] s keep []) = [false; true].
Proof. vm_compute. reflexivity. Qed.

(** A transaction with a nonce gap is queued and still answered with the error. *)
Example queued_but_refused :
  let '(s, r) := CheckTxHandler (p_config true) EmptyString 21000 0 (Some (errorf ErrNonceGap "nonce gap")) p_state in
  r = Ok (mkCheckTxResponse (Some (errorf ErrNonceGap "nonce gap")) 21000 0) ∧ CountTx s = CountTx p_state + 1.
Proof. vm_compute. split; reflexivity. Qed.

(** * Witnesses *)

Lemma p_pending_in_order : pending_in_order ((map_to_list p_pending).*1) p_pending.
Proof.
  split; [apply NoDup_fst_map_to_list| |].
  - intros a. rewrite list_elem_of_fmap. split.
    + intros ([b l] & -> & Hb%elem_of_map_to_list). by exists l.
    + intros [l Hl]. exists (a, l). split; [done|]. by apply elem_of_map_to_list.
  - intros a. unfold p_pending. rewrite lookup_insert_Some, lookup_singleton_Some. naive_solver.
Qed.

Lemma ordering_serves_best_first_witness :
  ∃ t l, NewTransactionsByPriceAndNonce ((map_to_list p_pending).*1) p_pending (Some 10) = Ok t ∧ serves t l ∧
    best_first (pending_queue (Some 10) p_pending) l ∧
    (λ h, (lt_Time (mf_tx h), mf_fees h)) <$> filter (λ h, mf_from h = 1) l = [(1, 5); (2, 9)] ∧
    (λ h, (lt_Time (mf_tx h), mf_fees h)) <$> filter (λ h, mf_from h = 2) l = [(3, 7)].
Proof.
  destruct (ordering_serves_best_first ((map_to_list p_pending).*1) p_pending (Some 10) (Some 10))
    as (t & l & Et & Hl & Hb & Hf); [exact p_pending_in_order|reflexivity|].
  exists t, l. split; [exact Et|]. split; [exact Hl|]. split; [exact Hb|].
  rewrite !Hf. split; reflexivity.
Defined.

Lemma p_selectable : selectable id (Ok tt) id info18 (p_config true) tt [] p_state.
Proof.
  split; [done|by vm_compute; eexists|exact p_pending_in_order| |].
  - intros c. unfold cosmos_txs. cbn. rewrite !elem_of_cons, elem_of_nil. intros [->|[->|[]]]; done.
  - intros a l tx fee. unfold pending_txs. cbn. unfold p_pending. rewrite lookup_insert_Some, lookup_singleton_Some.
    intros [[_ <-]|(_ & _ & <-)]; rewrite !elem_of_cons, elem_of_nil; intros [->|[->|[]]]; by eexists.
Qed.

Lemma SelectBy_shows_merge_witness :
  ∃ l, filter (λ h, mf_from h = 2) l = pending_queue (Some 10) p_pending 2 ∧
    SelectBy (Ok tt) id info18 (length l + 2) (p_config true) tt [] p_state keep [] =
    feed keep (omap (shown (eci_ExtendedDenom info18) id (setting (C := list SdkTx) info18 (p_config true)))
      (merge (cosmos_tip (Ok tt) (setting (C := list SdkTx) info18 (p_config true))) l [p_cosmos 16; p_cosmos 10])) [].
Proof.
  destruct (SelectBy_shows_merge id (Ok tt) id info18 (p_config true) tt [] p_state) as (l & _ & Hf & Hs);
    [exact p_selectable|].
  exists l. split; [apply Hf|]. apply Hs. reflexivity.
Defined.
