(* ===== verification/Indexer.v ===== *)
(** The index of Ethereum transactions that JSON-RPC reads: the events of a transaction
    (ante/evm/11_emit_event.go, x/vm/keeper/msg_server.go), their parser
    (rpc/types/events.go), the index in a key-value database (indexer/kv_indexer.go)
    and the service that feeds it (server/indexer_service.go). *)

From S2P Require Import Prelude.
From S2P Require Import Sdk.
From S2P Require Import AccessList.
From S2P Require Import StateDB.
From S2P Require Import FeeMarket.
From S2P Require Import TxFees.
From S2P Require Import AnteEvm.
From S2P Require Import Erc20Denoms.

(** * Integers and bytes *)

(** [int32(z)]. *)
Definition int32_of (z : Z) : Z := let w := wrap u32_max z in if w <? 2 ^ 31 then w else w - u32_max.

(** [int64(z)]. *)
Definition int64_wrap (z : Z) : Z := let w := wrap u64_max z in if w <? 2 ^ 63 then w else w - u64_max.

Definition byte_of (z : Z) : Ascii.ascii := Ascii.ascii_of_N (Z.to_N (z mod 256)).
Definition byte_value (c : Ascii.ascii) : Z := Z.of_N (Ascii.N_of_ascii c).

(** The [n] big-endian bytes of an integer, and the integer of some bytes:
    [sdk.Uint64ToBigEndian], [Hash.Bytes] and their inverses. *)
Fixpoint be_bytes (n : nat) (z : Z) : bytes :=
  match n with
  | O => EmptyString
  | S m => String (byte_of (z / 256 ^ Z.of_nat m)) (be_bytes m z)
  end.

Fixpoint be_value_from (acc : Z) (s : bytes) : Z :=
  match s with
  | EmptyString => acc
  | String c r => be_value_from (acc * 256 + byte_value c) r
  end.
Definition be_value (s : bytes) : Z := be_value_from 0 s.

(** [common.BytesToHash]: the last 32 bytes. *)
Definition BytesToHash (b : bytes) : Hash := be_value (str_drop (String.length b - 32) b).

(** ** [strconv] *)

Definition digit (d : Z) : Ascii.ascii := Ascii.ascii_of_N (Z.to_N (48 + d)).
Definition digit_value (c : Ascii.ascii) : option Z :=
  let v := byte_value c - 48 in if (0 <=? v) && (v <=? 9) then Some v else None.

(** [strconv.FormatUint(n, 10)]: digits from the last one; 20 are enough for 64 bits. *)
Fixpoint format_digits (fuel : nat) (n : Z) (acc : string) : string :=
  match fuel with
  | O => acc
  | S fuel =>
      let acc := String (digit (n mod 10)) acc in
      if n <? 10 then acc else format_digits fuel (n / 10) acc
  end.
Definition FormatUint (n : Z) : string := format_digits 20 n EmptyString.

(** [strconv.ParseUint(s, 10, 64)]. *)
Fixpoint parse_digits (n : Z) (s : string) : outcome Z :=
  match s with
  | EmptyString => Ok n
  | String c r =>
      match digit_value c with
      | None => Err (errorf ErrOther "invalid syntax")
      | Some d => let n := n * 10 + d in
                  if u64_max <=? n then Err (errorf ErrOther "value out of range") else parse_digits n r
      end
  end.
Definition ParseUint (s : string) : outcome Z :=
  match s with EmptyString => Err (errorf ErrOther "invalid syntax") | _ => parse_digits 0 s end.

(** * Events *)

(** [common.Hash.Hex] (which is [String]) and [common.HexToHash]. *)
Class GethHash : Type := { Hash_Hex : Hash → string; HexToHash : string → Hash }.
Class GethHashLaws `{GethHash} : Prop := { HexToHash_Hex h : HexToHash (Hash_Hex h) = h }.

Definition EventTypeEthereumTx : string := "ethereum_tx".
Definition AttributeKeyEthereumTxHash : string := "ethereumTxHash".
Definition AttributeKeyTxIndex : string := "txIndex".
Definition AttributeKeyTxGasUsed : string := "txGasUsed".
Definition AttributeKeyTxHash : string := "txHash".
Definition AttributeKeyRecipient : string := "recipient".
Definition AttributeKeyEthereumTxFailed : string := "ethereumTxFailed".
Definition AttributeKeyAmount : string := "amount".

(** [abci.ExecTxResult], as far as it is read. *)
Record ExecTxResult : Type := mkExecTxResult {
  er_Code : Z;
  er_Log : string;
  er_GasUsed : Z;
  er_Events : list Event
}.

(** [strings.Contains]. *)
Definition Contains (s sub : string) : bool := match String.index 0 sub s with Some _ => true | None => false end.

Definition ExceedBlockGasLimitError : string := "out of gas in location: block gas meter; gasWanted:".
Definition StateDBCommitError : string := "failed to commit stateDB".
Definition TxExceedBlockGasLimit (res : ExecTxResult) : bool := Contains (er_Log res) ExceedBlockGasLimitError.
Definition TxStateDBCommitError (res : ExecTxResult) : bool := Contains (er_Log res) StateDBCommitError.
Definition TxSucessOrExpectedFailure (res : ExecTxResult) : bool :=
  (er_Code res =? 0) || TxExceedBlockGasLimit res || TxStateDBCommitError res.

Section events.
Context `{GethTx, GethHash}.

(** ** Emission *)

(** The event of the ante handler, [EvEthereumTx] of AnteEvm.v. *)
Definition tx_hash_event (hash index : Z) : Event :=
  mkEvent EventTypeEthereumTx [(AttributeKeyEthereumTxHash, Hash_Hex hash); (AttributeKeyTxIndex, FormatUint index)].

(** The first event of the handler [EthereumTx].  [amount], [cometHash] and [recipient]
    are the texts of the value, of the hash of the transaction's bytes and of the
    receiver, where there is one; [VmError] is empty unless execution failed. *)
Definition ethereum_tx_event (amount : string) (hash txIndex gasUsed : Z) (cometHash recipient : option string)
    (VmError : string) : Event :=
  let attrs := [(AttributeKeyAmount, amount); (AttributeKeyEthereumTxHash, Hash_Hex hash);
                (AttributeKeyTxIndex, FormatUint txIndex); (AttributeKeyTxGasUsed, FormatUint gasUsed)] in
  let attrs := attrs ++ match cometHash with Some h => [(AttributeKeyTxHash, h)] | None => [] end in
  let attrs := attrs ++ match recipient with Some r => [(AttributeKeyRecipient, r)] | None => [] end in
  let attrs := attrs ++ match VmError with EmptyString => [] | e => [(AttributeKeyEthereumTxFailed, e)] end in
  mkEvent EventTypeEthereumTx attrs.

(** ** Parsing *)

Inductive EventFormat : Type := eventFormatUnknown | eventFormat1 | eventFormat2.

Record ParsedTx : Type := mkParsedTx {
  px_MsgIndex : Z;
  px_Hash : Hash;
  px_EthTxIndex : Z;
  px_GasUsed : Z;
  px_Failed : bool
}.

Definition NewParsedTx (msgIndex : Z) : ParsedTx := mkParsedTx msgIndex zero_hash (-1) 0 false.

Record ParsedTxs : Type := mkParsedTxs {
  ps_Txs : list ParsedTx;
  ps_TxHashes : gmap Hash Z
}.

Definition fillTxAttribute (tx : ParsedTx) (key value : string) : outcome ParsedTx :=
  if bool_decide (key = AttributeKeyEthereumTxHash) then
    Ok (mkParsedTx (px_MsgIndex tx) (HexToHash value) (px_EthTxIndex tx) (px_GasUsed tx) (px_Failed tx))
  else if bool_decide (key = AttributeKeyTxIndex) then
    match ParseUint value with
    | Ok txIndex =>
        if 2 ^ 31 - 1 <? txIndex then Err (errorf ErrOther "tx index exceeds max int32")
        else Ok (mkParsedTx (px_MsgIndex tx) (px_Hash tx) txIndex (px_GasUsed tx) (px_Failed tx))
    | Err e => Err e
    | Panic w => Panic w
    end
  else if bool_decide (key = AttributeKeyTxGasUsed) then
    match ParseUint value with
    | Ok gasUsed => Ok (mkParsedTx (px_MsgIndex tx) (px_Hash tx) (px_EthTxIndex tx) gasUsed (px_Failed tx))
    | Err e => Err e
    | Panic w => Panic w
    end
  else if bool_decide (key = AttributeKeyEthereumTxFailed) then
    Ok (mkParsedTx (px_MsgIndex tx) (px_Hash tx) (px_EthTxIndex tx) (px_GasUsed tx)
          (match value with EmptyString => false | _ => true end))
  else Ok tx.

Fixpoint fillTxAttributes (tx : ParsedTx) (attrs : list (string * string)) : outcome ParsedTx :=
  match attrs with
  | [] => Ok tx
  | (key, value) :: r => match fillTxAttribute tx key value with
                         | Ok tx => fillTxAttributes tx r
                         | Err e => Err e
                         | Panic w => Panic w
                         end
  end.

Definition newTx (p : ParsedTxs) (attrs : list (string * string)) : outcome ParsedTxs :=
  let msgIndex := Z.of_nat (length (ps_Txs p)) in
  match fillTxAttributes (NewParsedTx msgIndex) attrs with
  | Ok tx => Ok (mkParsedTxs (ps_Txs p ++ [tx]) (<[px_Hash tx := msgIndex]> (ps_TxHashes p)))
  | Err e => Err e
  | Panic w => Panic w
  end.

Definition updateTx (p : ParsedTxs) (eventIndex : nat) (attrs : list (string * string)) : outcome ParsedTxs :=
  match fillTxAttributes (NewParsedTx (Z.of_nat eventIndex)) attrs with
  | Ok tx =>
      match ps_Txs p !! eventIndex with
      | None => Panic "index out of range"
      | Some old =>
          let hashes := if px_Hash tx =? px_Hash old then ps_TxHashes p
                        else <[px_Hash tx := Z.of_nat eventIndex]> (ps_TxHashes p) in
          Ok (mkParsedTxs (<[eventIndex := tx]> (ps_Txs p)) hashes)
      end
  | Err e => Err e
  | Panic w => Panic w
  end.

(** The loop over the events; [next] is the index after [eventIndex]. *)
Fixpoint parse_events (format : EventFormat) (next : nat) (p : ParsedTxs) (events : list Event) : outcome ParsedTxs :=
  match events with
  | [] => Ok p
  | event :: r =>
      if negb (bool_decide (ev_Type event = EventTypeEthereumTx)) then parse_events format next p r
      else
        let attrs := ev_Attributes event in
        let format := match format with
                      | eventFormatUnknown => if Nat.ltb 2 (length attrs) then eventFormat1 else eventFormat2
                      | f => f
                      end in
        let '(parsed, next) :=
          if Nat.eqb (length attrs) 2 then (newTx p attrs, next)
          else match format with
               | eventFormat1 => (newTx p attrs, S next)
               | _ => (updateTx p next attrs, S next)
               end in
        match parsed with
        | Ok p => parse_events format next p r
        | Err e => Err e
        | Panic w => Panic w
        end
  end.

(** [msgs[i].( *MsgEthereumTx)] and its transaction. *)
Definition eth_msg (msgs : list SdkMsg) (i : nat) : outcome EthTx :=
  match msgs !! i with
  | None => Panic "index out of range"
  | Some (EthMsg m) => match Raw m with Some tx => Ok tx | None => Panic "nil pointer dereference" end
  | Some _ => Panic "interface conversion"
  end.

Definition set_gas (gas : Z) (failed : bool) (tx : ParsedTx) : ParsedTx :=
  mkParsedTx (px_MsgIndex tx) (px_Hash tx) (px_EthTxIndex tx) gas failed.

(** The loop that marks the transactions of a failed one from index [i] on. *)
Fixpoint fail_txs (msgs : list SdkMsg) (i : nat) (txs : list ParsedTx) : outcome (list ParsedTx) :=
  match txs with
  | [] => Ok []
  | tx :: r => match eth_msg msgs i with
               | Ok ethTx => match fail_txs msgs (S i) r with
                             | Ok r => Ok (set_gas (Tx_Gas ethTx) true tx :: r)
                             | Err e => Err e
                             | Panic w => Panic w
                             end
               | Err e => Err e
               | Panic w => Panic w
               end
  end.

Definition ParseTxResult (result : ExecTxResult) (tx : option SdkTx) : outcome ParsedTxs :=
  match parse_events eventFormatUnknown 0 (mkParsedTxs [] ∅) (er_Events result) with
  | Err e => Err e
  | Panic w => Panic w
  | Ok p =>
      if er_GasUsed result <? 0 then Err (errorf ErrOther "negative gas used in tx result")
      else
        let txs := match ps_Txs p with [t] => [set_gas (er_GasUsed result) (px_Failed t) t] | txs => txs end in
        match tx with
        | Some tx =>
            if negb (er_Code result =? 0) then
              match fail_txs (tx_Msgs tx) 0 txs with
              | Ok txs => Ok (mkParsedTxs txs (ps_TxHashes p))
              | Err e => Err e
              | Panic w => Panic w
              end
            else Ok (mkParsedTxs txs (ps_TxHashes p))
        | None => Ok (mkParsedTxs txs (ps_TxHashes p))
        end
  end.

(** ** Access *)

Definition GetTxByMsgIndex (p : ParsedTxs) (i : Z) : option ParsedTx :=
  if (i <? 0) || (Z.of_nat (length (ps_Txs p)) <=? i) then None else ps_Txs p !! Z.to_nat i.

(** A hash whose index is out of range would panic. *)
Definition GetTxByHash (p : ParsedTxs) (hash : Hash) : outcome (option ParsedTx) :=
  match ps_TxHashes p !! hash with
  | None => Ok None
  | Some idx => match ps_Txs p !! Z.to_nat idx with
                | Some tx => Ok (Some tx)
                | None => Panic "index out of range"
                end
  end.

Definition GetTxByTxIndex (p : ParsedTxs) (txIndex : Z) : option ParsedTx :=
  match ps_Txs p with
  | [] => None
  | t :: _ => GetTxByMsgIndex p (txIndex - px_EthTxIndex t)
  end.

Fixpoint sum_gas (n : nat) (txs : list ParsedTx) (result : Z) : outcome Z :=
  match n with
  | O => Ok result
  | S n => match txs with
           | [] => Panic "index out of range"
           | t :: r => sum_gas n r (wrap u64_max (result + px_GasUsed t))
           end
  end.
Definition AccumulativeGasUsed (p : ParsedTxs) (msgIndex : Z) : outcome Z :=
  sum_gas (Z.to_nat (msgIndex + 1)) (ps_Txs p) 0.
End events.

(** * The index *)

Record TxResult : Type := mkTxResult {
  tr_Height : Z;
  tr_TxIndex : Z;
  tr_MsgIndex : Z;
  tr_EthTxIndex : Z;
  tr_Failed : bool;
  tr_GasUsed : Z;
  tr_CumulativeGasUsed : Z
}.

(** The protobuf code of a record. *)
Class TxResultCodec : Type := {
  MarshalTxResult : TxResult → bytes;
  UnmarshalTxResult : bytes → outcome TxResult
}.

(** The fields are in the range of their Go types. *)
Record tx_result_range (r : TxResult) : Prop := {
  tr_height_range : - 2 ^ 63 ≤ tr_Height r < 2 ^ 63;
  tr_txIndex_range : 0 ≤ tr_TxIndex r < 2 ^ 32;
  tr_msgIndex_range : 0 ≤ tr_MsgIndex r < 2 ^ 32;
  tr_ethTxIndex_range : - 2 ^ 31 ≤ tr_EthTxIndex r < 2 ^ 31;
  tr_gasUsed_range : 0 ≤ tr_GasUsed r < u64_max;
  tr_cumulative_range : 0 ≤ tr_CumulativeGasUsed r < u64_max
}.

(** A field with its default value is left out, so the record of zeros is empty. *)
Class TxResultCodecLaws `{TxResultCodec} : Prop := {
  Unmarshal_Marshal r : tx_result_range r → UnmarshalTxResult (MarshalTxResult r) = Ok r;
  Marshal_nonempty r : tr_Height r ≠ 0 → MarshalTxResult r ≠ EmptyString
}.

Abbreviation Batch := (list (bytes * bytes)).

(** A database of cosmos-db.  [Get] is empty for a key that is not there; a batch is
    written at once; [Keys] are those an iterator goes through, from [start] to
    before [end]. *)
Class KVDB (D : Type) : Type := {
  db_Get : D → bytes → outcome bytes;
  db_Keys : D → bytes → bytes → outcome (list bytes);
  batch_Set : bytes → bytes → Batch → outcome Batch;
  batch_Write : Batch → M D unit
}.

Definition KeyPrefixTxHash : Z := 1.
Definition KeyPrefixTxIndex : Z := 2.
Definition TxIndexKeyLength : nat := 1 + 8 + 8.

Definition Hash_Bytes (h : Hash) : bytes := be_bytes 32 h.

Definition TxHashKey (hash : Hash) : bytes := String (byte_of KeyPrefixTxHash) (Hash_Bytes hash).

Definition TxIndexKey (blockNumber txIndex : Z) : bytes :=
  String (byte_of KeyPrefixTxIndex) (be_bytes 8 (wrap u64_max blockNumber) ++ be_bytes 8 (wrap u64_max txIndex)).

Definition parseBlockNumberFromKey (key : bytes) : outcome Z :=
  if negb (Nat.eqb (String.length key) TxIndexKeyLength) then Err (errorf ErrOther "wrong tx index key length")
  else Ok (int64_wrap (be_value (str_take 8 (str_drop 1 key)))).

Definition isEthTx `{GethTx} (tx : SdkTx) : bool :=
  match tx_ExtensionOptions tx with
  | Some [opt] => bool_decide (opt = "/cosmos.evm.vm.v1.ExtensionOptionsEthereumTx"%string)
  | _ => false
  end.

Section indexer.
Context `{GethTx, GethHash, TxResultCodec} {D : Type} `{!KVDB D} (TxDecoder : bytes → outcome SdkTx).

Definition saveTxResult (batch : Batch) (txHash : Hash) (txResult : TxResult) : outcome Batch :=
  match batch_Set (TxHashKey txHash) (MarshalTxResult txResult) batch with
  | Err e => Err (mkError (err_code e) "set tx-hash key" (err_coins e))
  | Panic w => Panic w
  | Ok batch =>
      match batch_Set (TxIndexKey (tr_Height txResult) (tr_EthTxIndex txResult)) (Hash_Bytes txHash) batch with
      | Err e => Err (mkError (err_code e) "set tx-index key" (err_coins e))
      | r => r
      end
  end.

(** The state of the loops: the batch and the index of the next Ethereum transaction. *)
Abbreviation Progress := (Batch * Z)%type.

(** The gas and the status of a message; [None] when the events do not have it. *)
Definition msg_status (result : ExecTxResult) (txs : ParsedTxs) (msgIndex : nat) (ethTx : EthTx) : option (Z * bool) :=
  if negb (er_Code result =? 0) then Some (Tx_Gas ethTx, true)
  else (λ p, (px_GasUsed p, px_Failed p)) <$> GetTxByMsgIndex txs (Z.of_nat msgIndex).

(** The loop over the messages of a transaction. *)
Fixpoint index_msgs (height : Z) (txIndex : nat) (result : ExecTxResult) (txs : ParsedTxs) (msgs : list SdkMsg) (msgIndex : nat)
    (cumulativeGasUsed : Z) (s : Progress) : outcome Progress :=
  match msgs with
  | [] => Ok s
  | msg :: r =>
      match eth_msg [msg] 0 with
      | Err e => Err e
      | Panic w => Panic w
      | Ok ethTx =>
          match msg_status result txs msgIndex ethTx with
          | None => index_msgs height txIndex result txs r (S msgIndex) cumulativeGasUsed s
          | Some (gasUsed, failed) =>
              let '(batch, ethTxIndex) := s in
              let cumulativeGasUsed := wrap u64_max (cumulativeGasUsed + gasUsed) in
              let txResult := mkTxResult height (wrap u32_max (Z.of_nat txIndex)) (wrap u32_max (Z.of_nat msgIndex)) ethTxIndex
                                failed gasUsed cumulativeGasUsed in
              match saveTxResult batch (Tx_Hash ethTx) txResult with
              | Ok batch => index_msgs height txIndex result txs r (S msgIndex) cumulativeGasUsed (batch, int32_of (ethTxIndex + 1))
              | Err e => Err (mkError (err_code e) "IndexBlock" (err_coins e))
              | Panic w => Panic w
              end
          end
      end
  end.

(** The body of the loop over the transactions of a block. *)
Definition index_tx (height : Z) (txIndex : nat) (tx : bytes) (result : ExecTxResult) (s : Progress) : outcome Progress :=
  if negb (TxSucessOrExpectedFailure result) then Ok s
  else match TxDecoder tx with
       | Panic w => Panic w
       | Err _ => Ok s
       | Ok tx =>
           if negb (isEthTx tx) then Ok s
           else match ParseTxResult result (Some tx) with
                | Panic w => Panic w
                | Err _ => Ok s
                | Ok txs => index_msgs height txIndex result txs (tx_Msgs tx) 0 0 s
                end
       end.

Fixpoint index_txs (height : Z) (txIndex : nat) (txs : list bytes) (txResults : list ExecTxResult) (s : Progress) : outcome Progress :=
  match txs, txResults with
  | [], _ => Ok s
  | _ :: _, [] => Panic "index out of range"
  | tx :: txs, result :: results =>
      match index_tx height txIndex tx result s with
      | Ok s => index_txs height (S txIndex) txs results s
      | Err e => Err e
      | Panic w => Panic w
      end
  end.

Definition IndexBlock (height : Z) (txs : list bytes) (txResults : list ExecTxResult) : M D unit :=
  let! progress := of_outcome (index_txs height 0 txs txResults ([], 0)) in
  on_error (batch_Write (fst progress)) (λ e, ret (mkError (err_code e) "IndexBlock, write batch" (err_coins e))).

Definition GetByTxHash (d : D) (hash : Hash) : outcome TxResult :=
  match db_Get d (TxHashKey hash) with
  | Err e => Err (mkError (err_code e) "GetByTxHash" (err_coins e))
  | Panic w => Panic w
  | Ok EmptyString => Err (errorf ErrOther "tx not found")
  | Ok bz => match UnmarshalTxResult bz with
             | Err e => Err (mkError (err_code e) "GetByTxHash" (err_coins e))
             | r => r
             end
  end.

Definition GetByBlockAndIndex (d : D) (blockNumber txIndex : Z) : outcome TxResult :=
  match db_Get d (TxIndexKey blockNumber txIndex) with
  | Err e => Err (mkError (err_code e) "GetByBlockAndIndex" (err_coins e))
  | Panic w => Panic w
  | Ok EmptyString => Err (errorf ErrOther "tx not found")
  | Ok bz => GetByTxHash d (BytesToHash bz)
  end.

(** The keys with the prefix of the index. *)
Definition index_keys (d : D) : outcome (list bytes) :=
  db_Keys d (String (byte_of KeyPrefixTxIndex) EmptyString) (String (byte_of (KeyPrefixTxIndex + 1)) EmptyString).

Definition LoadLastBlock (d : D) : outcome Z :=
  match index_keys d with
  | Err e => Err (mkError (err_code e) "LoadLastBlock" (err_coins e))
  | Panic w => Panic w
  | Ok keys => match last keys with None => Ok (-1) | Some key => parseBlockNumberFromKey key end
  end.

Definition LoadFirstBlock (d : D) : outcome Z :=
  match index_keys d with
  | Err e => Err (mkError (err_code e) "LoadFirstBlock" (err_coins e))
  | Panic w => Panic w
  | Ok keys => match head keys with None => Ok (-1) | Some key => parseBlockNumberFromKey key end
  end.

(** ** The index of CometBFT, used when there is no other *)

(** [coretypes.ResultTx]. *)
Record ResultTx : Type := mkResultTx { rt_Height : Z; rt_Index : Z; rt_TxResult : ExecTxResult; rt_Tx : bytes }.

Definition ParseTxIndexerResult (txResult : ResultTx) (tx : option SdkTx) (getter : ParsedTxs → outcome (option ParsedTx))
    : outcome TxResult :=
  match ParseTxResult (rt_TxResult txResult) tx with
  | Err e => Err (mkError (err_code e) "failed to parse tx events" (err_coins e))
  | Panic w => Panic w
  | Ok txs =>
      match getter txs with
      | Err e => Err e
      | Panic w => Panic w
      | Ok None => Err (errorf ErrOther "ethereum tx not found in msgs")
      | Ok (Some p) =>
          match AccumulativeGasUsed txs (px_MsgIndex p) with
          | Ok cumulative =>
              Ok (mkTxResult (rt_Height txResult) (rt_Index txResult) (wrap u32_max (px_MsgIndex p)) (px_EthTxIndex p)
                    (px_Failed p) (px_GasUsed p) cumulative)
          | Err e => Err e
          | Panic w => Panic w
          end
      end
  end.

(** [found] is what the search for the transaction returned. *)
Definition QueryCometTxIndexer (found : outcome (list ResultTx)) (txGetter : ParsedTxs → outcome (option ParsedTx))
    : outcome TxResult :=
  match found with
  | Err e => Err e
  | Panic w => Panic w
  | Ok [] => Err (errorf ErrOther "ethereum tx not found")
  | Ok (txResult :: _) =>
      if negb (TxSucessOrExpectedFailure (rt_TxResult txResult)) then Err (errorf ErrOther "invalid ethereum tx")
      else if negb (er_Code (rt_TxResult txResult) =? 0) then
        match TxDecoder (rt_Tx txResult) with
        | Ok tx => ParseTxIndexerResult txResult (Some tx) txGetter
        | Err _ => Err (errorf ErrOther "invalid ethereum tx")
        | Panic w => Panic w
        end
      else ParseTxIndexerResult txResult None txGetter
  end.

(** [indexer] is the database of the index, if there is one. *)
Definition GetTxByEthHash (indexer : option D) (found : outcome (list ResultTx)) (hash : Hash) : outcome TxResult :=
  match indexer with
  | Some d => GetByTxHash d hash
  | None => match QueryCometTxIndexer found (λ txs, GetTxByHash txs hash) with
            | Err e => Err (mkError (err_code e) "GetTxByEthHash" (err_coins e))
            | r => r
            end
  end.

Definition Backend_GetTxByTxIndex (indexer : option D) (found : outcome (list ResultTx)) (height index : Z) : outcome TxResult :=
  match indexer with
  | Some d => GetByBlockAndIndex d height (int32_of index)
  | None => match QueryCometTxIndexer found (λ txs, Ok (GetTxByTxIndex txs (int64_wrap index))) with
            | Err e => Err (mkError (err_code e) "GetTxByTxIndex" (err_coins e))
            | r => r
            end
  end.
End indexer.

(** * The service *)

(** The main loop is between rounds, about to index block [i], or has panicked. *)
Inductive ServicePC : Type := Waiting | Indexing (i : Z) | Crashed.

Record Service (D : Type) : Type := mkService {
  sv_pc : ServicePC;
  sv_lastBlock : Z;
  sv_latestBlock : Z;
  sv_blockErr : bool;
  sv_db : D;
  (** the blocks that were handed to the index, the last one first *)
  sv_indexed : list Z
}.
Arguments mkService {D}.
Arguments sv_pc {D}.
Arguments sv_lastBlock {D}.
Arguments sv_latestBlock {D}.
Arguments sv_blockErr {D}.
Arguments sv_db {D}.
Arguments sv_indexed {D}.

Section service.
Context `{GethTx, GethHash, TxResultCodec} {D : Type} `{!KVDB D} (TxDecoder : bytes → outcome SdkTx).

(** [OnStart] up to the loop: [latest] is the height of the chain. *)
Definition service_start (latest : Z) (d : D) : outcome (Service D) :=
  match LoadLastBlock d with
  | Ok last => Ok (mkService Waiting (if last =? -1 then latest else last) latest false d [])
  | Err e => Err e
  | Panic w => Panic w
  end.

(** The goroutine that receives headers. *)
Definition new_header (h : Z) (s : Service D) : Service D :=
  mkService (sv_pc s) (sv_lastBlock s) (if sv_latestBlock s <? h then h else sv_latestBlock s) (sv_blockErr s) (sv_db s)
    (sv_indexed s).

(** One turn of the loops.  [block] and [results] are the answers to a request for
    block [i] and its results, with the heights they come with; [None] for an error. *)
Definition service_turn (block : option (Z * list bytes)) (results : option (Z * list ExecTxResult)) (s : Service D) : Service D :=
  match sv_pc s with
  | Crashed => s
  | Waiting =>
      if (sv_latestBlock s <=? sv_lastBlock s) || sv_blockErr s then s
      else mkService (Indexing (sv_lastBlock s + 1)) (sv_lastBlock s) (sv_latestBlock s) (sv_blockErr s) (sv_db s) (sv_indexed s)
  | Indexing i =>
      if negb (i <=? sv_latestBlock s)
      then mkService Waiting (sv_lastBlock s) (sv_latestBlock s) (sv_blockErr s) (sv_db s) (sv_indexed s)
      else match block, results with
           | Some (blockHeight, txs), Some (height, txResults) =>
               match IndexBlock TxDecoder blockHeight txs txResults (sv_db s) with
               | (d, Panic _) => mkService Crashed (sv_lastBlock s) (sv_latestBlock s) false d (sv_indexed s)
               | (d, _) => mkService (Indexing (i + 1)) height (sv_latestBlock s) false d (i :: sv_indexed s)
               end
           | _, _ => mkService Waiting (sv_lastBlock s) (sv_latestBlock s) true (sv_db s) (sv_indexed s)
           end
  end.

Inductive service_step : Service D → Service D → Prop :=
  | step_header h s : service_step s (new_header h s)
  | step_turn block results s : service_step s (service_turn block results s).
End service.
