(* ===== verification/IndexerThms.v ===== *)
(** Properties of the index of Ethereum transactions: encodings and their order, what
    is found after a block was indexed, the parser of events, and the service. *)

From S2P Require Import Prelude.
From S2P Require Import Sdk.
From S2P Require Import AccessList.
From S2P Require Import StateDB.
From S2P Require Import FeeMarket.
From S2P Require Import TxFees.
From S2P Require Import AnteEvm.
From S2P Require Import Erc20Denoms.
From S2P Require Import Indexer.

(** * Encodings *)

(** ** Big-endian integers *)

Lemma byte_value_of z : byte_value (byte_of z) = z mod 256.
Proof.
  unfold byte_value, byte_of. assert (0 ≤ z mod 256 < 256) by (apply Z.mod_pos_bound; lia).
  rewrite Ascii.N_ascii_embedding by lia. lia.
Qed.

Lemma mod_pow_succ z m : z mod 256 ^ (Z.of_nat (S m)) = (z / 256 ^ Z.of_nat m) mod 256 * 256 ^ Z.of_nat m + z mod 256 ^ Z.of_nat m.
Proof.
  assert (0 < 256 ^ Z.of_nat m) by (apply Z.pow_pos_nonneg; lia).
  rewrite Nat2Z.inj_succ, Z.pow_succ_r, (Z.mul_comm 256), Z.rem_mul_r by lia. lia.
Qed.

Lemma be_value_from_bytes n acc z :
  be_value_from acc (be_bytes n z) = acc * 256 ^ Z.of_nat n + z mod 256 ^ Z.of_nat n.
Proof.
  revert acc. induction n as [|m IH]; intros acc; cbn [be_bytes be_value_from].
  - change (256 ^ Z.of_nat 0) with 1. rewrite Z.mod_1_r. lia.
  - rewrite IH, byte_value_of, mod_pow_succ, Nat2Z.inj_succ, Z.pow_succ_r by lia. lia.
Qed.

Lemma be_value_bytes n z : 0 ≤ z < 256 ^ Z.of_nat n → be_value (be_bytes n z) = z.
Proof. intros Hz. unfold be_value. rewrite be_value_from_bytes, Z.mod_small by done. lia. Qed.

Lemma be_bytes_length n z : String.length (be_bytes n z) = n.
Proof. induction n as [|n IH]; cbn; [done|by rewrite IH]. Qed.

Lemma be_bytes_inj n a b :
  0 ≤ a < 256 ^ Z.of_nat n → 0 ≤ b < 256 ^ Z.of_nat n → be_bytes n a = be_bytes n b → a = b.
Proof. intros Ha Hb E. by rewrite <-(be_value_bytes n a Ha), <-(be_value_bytes n b Hb), E. Qed.

(** The order of big-endian bytes is the order of the integers. *)
Lemma byte_compare a b : Ascii.compare (byte_of a) (byte_of b) = (a mod 256 ?= b mod 256).
Proof. unfold Ascii.compare. rewrite <-N2Z.inj_compare. by rewrite <-!byte_value_of. Qed.

Lemma append_cons c r s : String.append (String c r) s = String c (String.append r s).
Proof. done. Qed.

Lemma be_bytes_compare_mod n a b r s :
  String.compare (String.append (be_bytes n a) r) (String.append (be_bytes n b) s) =
  match a mod 256 ^ Z.of_nat n ?= b mod 256 ^ Z.of_nat n with Eq => String.compare r s | c => c end.
Proof.
  induction n as [|m IH]; cbn [be_bytes]; rewrite ?append_cons; cbn [String.compare].
  { change (256 ^ Z.of_nat 0) with 1. by rewrite !Z.mod_1_r. }
  rewrite byte_compare, IH, !mod_pow_succ.
  assert (0 < 256 ^ Z.of_nat m) as Hp by (apply Z.pow_pos_nonneg; lia).
  pose proof (Z.mod_pos_bound a _ Hp) as Ha. pose proof (Z.mod_pos_bound b _ Hp) as Hb. clear IH.
  generalize dependent (a mod 256 ^ Z.of_nat m). generalize dependent (b mod 256 ^ Z.of_nat m).
  generalize ((a / 256 ^ Z.of_nat m) mod 256) ((b / 256 ^ Z.of_nat m) mod 256). intros x y v Hv u Hu.
  destruct (Z.compare_spec x y) as [->|Hxy|Hxy].
  - by rewrite Z.add_compare_mono_l.
  - replace (_ ?= _) with Lt; [done|]. symmetry. apply Z.compare_lt_iff. nia.
  - replace (_ ?= _) with Gt; [done|]. symmetry. apply Z.compare_gt_iff. nia.
Qed.

Lemma be_bytes_compare n a b r s :
  0 ≤ a < 256 ^ Z.of_nat n → 0 ≤ b < 256 ^ Z.of_nat n →
  String.compare (String.append (be_bytes n a) r) (String.append (be_bytes n b) s) =
  match a ?= b with Eq => String.compare r s | c => c end.
Proof. intros Ha Hb. by rewrite be_bytes_compare_mod, !Z.mod_small. Qed.

(** ** Decimal numbers *)

Lemma digit_value_digit d : 0 ≤ d < 10 → digit_value (digit d) = Some d.
Proof.
  intros Hd. unfold digit_value, digit, byte_value. rewrite Ascii.N_ascii_embedding by lia.
  rewrite Z2N.id by lia. replace (48 + d - 48) with d by lia.
  destruct (Z.leb_spec 0 d), (Z.leb_spec d 9); try lia. done.
Qed.

Lemma parse_format_digits fuel n acc :
  0 ≤ n < 10 ^ Z.of_nat fuel → n < u64_max → (0 < fuel)%nat →
  parse_digits 0 (format_digits fuel n acc) = parse_digits n acc.
Proof.
  revert n acc. induction fuel as [|fuel IH]; intros n acc Hn Hu Hf; [lia|]. cbn [format_digits].
  assert (0 ≤ n mod 10 < 10) as Hd by (apply Z.mod_pos_bound; lia).
  destruct (Z.ltb_spec n 10).
  - rewrite Z.mod_small by lia. cbn [parse_digits]. rewrite digit_value_digit by lia.
    destruct (Z.leb_spec u64_max (0 * 10 + n)); [lia|]. f_equal; lia.
  - rewrite Nat2Z.inj_succ, Z.pow_succ_r in Hn by lia.
    destruct fuel as [|fuel]; [cbn in Hn; lia|]. rewrite IH; [| | |lia].
    + cbn [parse_digits]. rewrite digit_value_digit by lia.
      replace (n / 10 * 10 + n mod 10) with n by (pose proof (Z.div_mod n 10); lia).
      destruct (Z.leb_spec u64_max n); [lia|done].
    + split; [apply Z.div_pos; lia|]. apply Z.div_lt_upper_bound; lia.
    + pose proof (Z.div_lt n 10). lia.
Qed.

Lemma format_digits_nonempty fuel n acc : (0 < fuel)%nat → format_digits fuel n acc ≠ EmptyString.
Proof.
  revert n acc. induction fuel as [|fuel IH]; intros n acc Hf; [lia|]. cbn [format_digits].
  destruct (n <? 10); [done|]. destruct fuel; [done|]. apply IH. lia.
Qed.

(** What is printed is read back. *)
Lemma ParseUint_FormatUint n : 0 ≤ n < u64_max → ParseUint (FormatUint n) = Ok n.
Proof.
  intros Hn. unfold ParseUint. pose proof (format_digits_nonempty 20 n EmptyString) as Hne. unfold FormatUint.
  destruct (format_digits 20 n EmptyString) eqn:E; [by destruct Hne; [lia|]|].
  rewrite <-E, parse_format_digits; [done| |lia|lia]. unfold u64_max in Hn.
  split; [lia|]. change (10 ^ Z.of_nat 20) with 100000000000000000000. lia.
Qed.

(** ** Keys *)

Lemma str_drop_0 s : str_drop 0 s = s.
Proof. by destruct s. Qed.

Lemma str_take_append r s : str_take (String.length r) (String.append r s) = r.
Proof. induction r as [|c r IH]; [by destruct s|]. rewrite append_cons. cbn. by rewrite IH. Qed.

Lemma append_length r s : String.length (String.append r s) = (String.length r + String.length s)%nat.
Proof. induction r as [|c r IH]; [done|]. rewrite append_cons. cbn. by rewrite IH. Qed.

Lemma append_inj_l r1 r2 s1 s2 :
  String.length r1 = String.length r2 → String.append r1 s1 = String.append r2 s2 → r1 = r2 ∧ s1 = s2.
Proof.
  revert r2. induction r1 as [|c r1 IH]; intros [|c2 r2] Hl E; try done.
  rewrite !append_cons in E. injection E as -> E. injection Hl as Hl. by destruct (IH r2 Hl E) as [-> ->].
Qed.

Lemma pow_256_8 : 256 ^ Z.of_nat 8 = u64_max.
Proof. done. Qed.

Lemma pow_256_32 : 256 ^ Z.of_nat 32 = u256_max.
Proof. done. Qed.

Lemma String_tail_inj c1 c2 r1 r2 : String c1 r1 = String c2 r2 → r1 = r2.
Proof. by intros [= _ ->]. Qed.

Lemma TxHashKey_inj h1 h2 : 0 ≤ h1 < u256_max → 0 ≤ h2 < u256_max → TxHashKey h1 = TxHashKey h2 → h1 = h2.
Proof.
  intros H1 H2 E. apply (be_bytes_inj 32); [by rewrite pow_256_32..|]. exact (String_tail_inj _ _ _ _ E).
Qed.

Lemma TxIndexKey_inj b1 i1 b2 i2 :
  0 ≤ b1 < u64_max → 0 ≤ b2 < u64_max → 0 ≤ i1 < u64_max → 0 ≤ i2 < u64_max →
  TxIndexKey b1 i1 = TxIndexKey b2 i2 → b1 = b2 ∧ i1 = i2.
Proof.
  intros Hb1 Hb2 Hi1 Hi2 E. unfold TxIndexKey in E. rewrite !wrap_small in E by done.
  apply String_tail_inj, append_inj_l in E as [Eb Ei]; [|by rewrite !be_bytes_length].
  split; (eapply be_bytes_inj; [| |eassumption]); by rewrite pow_256_8.
Qed.

Lemma TxHashKey_TxIndexKey h b i : TxHashKey h ≠ TxIndexKey b i.
Proof. discriminate. Qed.

Lemma BytesToHash_Bytes h : 0 ≤ h < u256_max → BytesToHash (Hash_Bytes h) = h.
Proof.
  intros Hh. unfold BytesToHash, Hash_Bytes. rewrite be_bytes_length, Nat.sub_diag, str_drop_0.
  apply be_value_bytes. by rewrite pow_256_32.
Qed.

Lemma int64_wrap_small z : 0 ≤ z < 2 ^ 63 → int64_wrap z = z.
Proof.
  intros Hz. unfold int64_wrap. rewrite wrap_small by (unfold u64_max; lia). by destruct (Z.ltb_spec z (2 ^ 63)); [|lia].
Qed.

(** The height of a key is read back. *)
Lemma parseBlockNumber_TxIndexKey b i :
  0 ≤ b < 2 ^ 63 → parseBlockNumberFromKey (TxIndexKey b i) = Ok b.
Proof.
  intros Hb. assert (0 ≤ b < u64_max) as Hb' by (unfold u64_max; lia).
  unfold parseBlockNumberFromKey, TxIndexKey. cbn [String.length]. rewrite append_length, !be_bytes_length.
  cbn [Nat.eqb Nat.add TxIndexKeyLength negb str_drop].
  pose proof (str_take_append (be_bytes 8 (wrap u64_max b)) (be_bytes 8 (wrap u64_max i))) as Et.
  rewrite be_bytes_length in Et. rewrite Et, wrap_small by done.
  rewrite be_value_bytes by by rewrite pow_256_8. by rewrite int64_wrap_small.
Qed.

(** Keys are ordered by height first. *)
Lemma TxIndexKey_le b1 i1 b2 i2 :
  0 ≤ b1 < u64_max → 0 ≤ b2 < u64_max →
  String.compare (TxIndexKey b1 i1) (TxIndexKey b2 i2) ≠ Gt → b1 ≤ b2.
Proof.
  intros Hb1 Hb2. unfold TxIndexKey. cbn [String.compare].
  replace (Ascii.compare (byte_of KeyPrefixTxIndex) (byte_of KeyPrefixTxIndex)) with Eq by done.
  rewrite !(wrap_small _ b1), !(wrap_small _ b2) by done. rewrite be_bytes_compare by by rewrite pow_256_8.
  destruct (Z.compare_spec b1 b2); [lia|lia|done].
Qed.

(** * The database *)

Definition apply_batch (b : Batch) (m : gmap bytes bytes) : gmap bytes bytes := foldl (λ m '(k, v), <[k := v]> m) m b.

(** A database holds a map; a batch is written as a whole or not at all; an iterator
    goes through the keys of a range in their order. *)
Class KVDBLaws (D : Type) `{!KVDB D} (db_map : D → gmap bytes bytes) : Prop := {
  Get_spec d k : db_Get d k = Ok (default EmptyString (db_map d !! k));
  Keys_spec d s e : ∃ l, db_Keys d s e = Ok l ∧
    StronglySorted (λ a b, String.compare a b ≠ Gt) l ∧
    ∀ k, k ∈ l ↔ is_Some (db_map d !! k) ∧ String.compare s k ≠ Gt ∧ String.compare k e = Lt;
  Set_spec k v b : k ≠ EmptyString → batch_Set k v b = Ok (b ++ [(k, v)]);
  Write_spec b d : ∃ d', (batch_Write b d = (d', Ok tt) ∧ db_map d' = apply_batch b (db_map d)) ∨
    ∃ e, batch_Write b d = (d', Err e) ∧ db_map d' = db_map d
}.

Lemma apply_batch_app b1 b2 m : apply_batch (b1 ++ b2) m = apply_batch b2 (apply_batch b1 m).
Proof. apply foldl_app. Qed.

Lemma apply_batch_other b m k : k ∉ b.*1 → apply_batch b m !! k = m !! k.
Proof.
  revert m. induction b as [|[k' v] b IH]; intros m Hk; [done|]. cbn in Hk. apply not_elem_of_cons in Hk as [Hne Hk].
  unfold apply_batch in *. cbn. rewrite IH by done. by rewrite lookup_insert_ne.
Qed.

Lemma apply_batch_in b m k v : NoDup b.*1 → (k, v) ∈ b → apply_batch b m !! k = Some v.
Proof.
  revert m. induction b as [|[k' v'] b IH]; intros m Hnd Hin; [by apply elem_of_nil in Hin|].
  cbn in Hnd. apply NoDup_cons in Hnd as [Hk Hnd]. change (apply_batch ((k', v') :: b) m) with (apply_batch b (<[k' := v']> m)).
  apply elem_of_cons in Hin as [[= -> ->]|Hin]; [|by apply IH].
  rewrite apply_batch_other by done. apply lookup_insert_eq.
Qed.

(** * What a block holds *)

Section indexing.
Context `{GethTx, GethHash, TxResultCodec, !TxResultCodecLaws} {D : Type} `{!KVDB D} (db_map : D → gmap bytes bytes).
Context `{!KVDBLaws D db_map} (TxDecoder : bytes → outcome SdkTx).

(** An Ethereum transaction of a block: its hash, the index of its message, and what
    its events say of gas and failure. *)
Record BlockTx : Type := mkBlockTx { bt_hash : Hash; bt_msg : nat; bt_gas : Z; bt_failed : bool }.

(** The Ethereum transactions of one transaction. *)
Definition msg_entry (result : ExecTxResult) (txs : ParsedTxs) (msgIndex : nat) (msg : SdkMsg) : option BlockTx :=
  match msg with
  | EthMsg m => Raw m ≫= λ ethTx, (λ '(gas, failed), mkBlockTx (Tx_Hash ethTx) msgIndex gas failed) <$> msg_status result txs msgIndex ethTx
  | _ => None
  end.

Fixpoint msg_entries (result : ExecTxResult) (txs : ParsedTxs) (msgIndex : nat) (msgs : list SdkMsg) : list BlockTx :=
  match msgs with
  | [] => []
  | msg :: r => match msg_entry result txs msgIndex msg with
                | Some e => e :: msg_entries result txs (S msgIndex) r
                | None => msg_entries result txs (S msgIndex) r
                end
  end.

(** Failed transactions and those that are not Ethereum transactions have none. *)
Definition tx_entries (tx : bytes) (result : ExecTxResult) : list BlockTx :=
  if TxSucessOrExpectedFailure result then
    match TxDecoder tx with
    | Ok tx => if isEthTx tx then match ParseTxResult result (Some tx) with
                                  | Ok txs => msg_entries result txs 0 (tx_Msgs tx)
                                  | _ => []
                                  end
               else []
    | _ => []
    end
  else [].

(** The records of the entries of one transaction, numbered from [k]; the gas is
    summed up from [cum]. *)
Fixpoint tx_records (height : Z) (txIndex k : nat) (cum : Z) (l : list BlockTx) : list (Hash * TxResult) :=
  match l with
  | [] => []
  | e :: r =>
      let cum := wrap u64_max (cum + bt_gas e) in
      (bt_hash e, mkTxResult height (Z.of_nat txIndex) (Z.of_nat (bt_msg e)) (Z.of_nat k) (bt_failed e) (bt_gas e) cum)
        :: tx_records height txIndex (S k) cum r
  end.

(** The records of a block: its Ethereum transactions, numbered. *)
Fixpoint block_records (height : Z) (txIndex k : nat) (txs : list bytes) (results : list ExecTxResult) : list (Hash * TxResult) :=
  match txs, results with
  | tx :: txs, result :: results =>
      let l := tx_entries tx result in
      tx_records height txIndex k 0 l ++ block_records height (S txIndex) (k + length l) txs results
  | _, _ => []
  end.

(** The writes of a record. *)
Definition record_writes (r : Hash * TxResult) : Batch :=
  [(TxHashKey r.1, MarshalTxResult r.2); (TxIndexKey (tr_Height r.2) (tr_EthTxIndex r.2), Hash_Bytes r.1)].

(** A block as CometBFT makes them: a result for each transaction, and Ethereum
    transactions that have only Ethereum messages. *)
Definition well_formed_tx (tx : bytes) (result : ExecTxResult) : Prop :=
  (∀ w, TxDecoder tx ≠ Panic w) ∧
  ∀ t, TxDecoder tx = Ok t → isEthTx t = true →
    (∀ w, ParseTxResult result (Some t) ≠ Panic w) ∧
    Z.of_nat (length (tx_Msgs t)) < 2 ^ 32 ∧
    Forall (λ msg, match msg with EthMsg m => is_Some (Raw m) | _ => False end) (tx_Msgs t).

Lemma saveTxResult_run batch h r : saveTxResult batch h r = Ok (batch ++ record_writes (h, r)).
Proof. unfold saveTxResult. rewrite !Set_spec by done. by rewrite <-app_assoc. Qed.

Lemma int32_of_small z : 0 ≤ z < 2 ^ 31 → int32_of z = z.
Proof.
  intros Hz. unfold int32_of. rewrite wrap_small by (unfold u32_max; lia). by destruct (Z.ltb_spec z (2 ^ 31)); [|lia].
Qed.

Abbreviation all_writes rs := (concat (record_writes <$> rs)).

Lemma index_msgs_run height txIndex result txs msgs : ∀ msgIndex cum batch k,
  Forall (λ msg, match msg with EthMsg m => is_Some (Raw m) | _ => False end) msgs →
  Z.of_nat txIndex < 2 ^ 32 → Z.of_nat (msgIndex + length msgs) < 2 ^ 32 →
  Z.of_nat (k + length (msg_entries result txs msgIndex msgs)) < 2 ^ 31 →
  index_msgs height txIndex result txs msgs msgIndex cum (batch, Z.of_nat k) =
  Ok (batch ++ all_writes (tx_records height txIndex k cum (msg_entries result txs msgIndex msgs)),
      Z.of_nat (k + length (msg_entries result txs msgIndex msgs))).
Proof.
  induction msgs as [|msg msgs IH]; intros msgIndex cum batch k Hm Ht Hl Hk; cbn [index_msgs msg_entries] in *.
  { cbn. by rewrite app_nil_r, Nat.add_0_r. }
  apply Forall_cons in Hm as [Hmsg Hm]. destruct msg as [m| | |]; try done. destruct Hmsg as [ethTx Er].
  unfold eth_msg, msg_entry in *. cbn [lookup list_lookup] in *. rewrite Er in *. cbn [mbind option_bind length] in *.
  destruct (msg_status result txs msgIndex ethTx) as [[gas failed]|]; cbn [fmap option_fmap option_map] in *.
  2:{ apply IH; [done|done|lia|done]. }
  rewrite saveTxResult_run. cbn [length] in Hk. rewrite int32_of_small by lia.
  replace (Z.of_nat k + 1) with (Z.of_nat (S k)) by lia. rewrite IH; [|done|done|lia|lia].
  cbn [tx_records fmap list_fmap concat bt_hash bt_msg bt_gas bt_failed length].
  rewrite !wrap_small with (m := u32_max) by (unfold u32_max; lia).
  by rewrite <-app_assoc, <-Nat.add_succ_comm.
Qed.

Lemma index_tx_run height txIndex tx result batch k :
  well_formed_tx tx result → Z.of_nat txIndex < 2 ^ 32 → Z.of_nat (k + length (tx_entries tx result)) < 2 ^ 31 →
  index_tx TxDecoder height txIndex tx result (batch, Z.of_nat k) =
  Ok (batch ++ all_writes (tx_records height txIndex k 0 (tx_entries tx result)), Z.of_nat (k + length (tx_entries tx result))).
Proof.
  intros [Hd Hw] Ht Hk.
  assert (∀ o : outcome (Batch * Z), o = Ok (batch, Z.of_nat k) → tx_entries tx result = [] →
    o = Ok (batch ++ all_writes (tx_records height txIndex k 0 (tx_entries tx result)), Z.of_nat (k + length (tx_entries tx result)))) as Hnone.
  { intros o -> ->. cbn. by rewrite app_nil_r, Nat.add_0_r. }
  unfold index_tx, tx_entries in *. destruct (TxSucessOrExpectedFailure result); [|by apply Hnone].
  destruct (TxDecoder tx) as [t| |w]; [|by apply Hnone|by destruct (Hd w)]. cbn [negb].
  destruct (isEthTx t) eqn:Ee; [|by apply Hnone]. destruct (Hw t eq_refl Ee) as (Hp & Hl & Hm). cbn [negb].
  destruct (ParseTxResult result (Some t)) as [txs| |w]; [|by apply Hnone|by destruct (Hp w)].
  by apply index_msgs_run.
Qed.

Lemma tx_records_length height txIndex k cum l : length (tx_records height txIndex k cum l) = length l.
Proof. revert k cum. induction l as [|e l IH]; intros k cum; cbn; [done|by rewrite IH]. Qed.

Lemma index_txs_run height txs : ∀ results txIndex batch k,
  Forall2 well_formed_tx txs results → Z.of_nat (txIndex + length txs) < 2 ^ 32 →
  Z.of_nat (k + length (block_records height txIndex k txs results)) < 2 ^ 31 →
  ∃ n, index_txs TxDecoder height txIndex txs results (batch, Z.of_nat k) =
       Ok (batch ++ all_writes (block_records height txIndex k txs results), n).
Proof.
  induction txs as [|tx txs IH]; intros results txIndex batch k Hw Ht Hk; inversion Hw as [|? result ? results' Hw1 Hw2]; subst.
  { exists (Z.of_nat k). cbn. by rewrite app_nil_r. }
  cbn [index_txs block_records] in *. rewrite length_app in Hk.
  rewrite tx_records_length in Hk. cbn in Ht. rewrite index_tx_run; [|done|lia|lia].
  destruct (IH results' (S txIndex) (batch ++ all_writes (tx_records height txIndex k 0 (tx_entries tx result)))
    (k + length (tx_entries tx result))%nat Hw2) as [n ->]; [lia|lia|].
  exists n. by rewrite fmap_app, concat_app, app_assoc.
Qed.

(** ** The records of a block *)

Lemma tx_records_lookup height txIndex l : ∀ k cum j p,
  tx_records height txIndex k cum l !! j = Some p →
  tr_Height p.2 = height ∧ tr_EthTxIndex p.2 = Z.of_nat (k + j) ∧ tr_TxIndex p.2 = Z.of_nat txIndex ∧
  0 ≤ tr_CumulativeGasUsed p.2 < u64_max ∧ ∃ e, l !! j = Some e ∧ tr_MsgIndex p.2 = Z.of_nat (bt_msg e).
Proof.
  induction l as [|e l IH]; intros k cum j p Hj; cbn [tx_records] in Hj; [done|]. destruct j as [|j].
  - injection Hj as <-. cbn. split_and!; [done|lia|done|apply wrap_bound; done|apply wrap_bound; done|eauto].
  - apply IH in Hj as (? & ? & ? & ? & e' & ? & ?). split_and!; [done|lia|done|lia|lia|]. by exists e'.
Qed.

Lemma msg_entries_bound result txs msgs : ∀ i e,
  e ∈ msg_entries result txs i msgs → (bt_msg e < i + length msgs)%nat.
Proof.
  induction msgs as [|msg msgs IH]; intros i e He; cbn [msg_entries] in He; [by apply elem_of_nil in He|].
  assert (∀ e, e ∈ msg_entries result txs (S i) msgs → (bt_msg e < i + length (msg :: msgs))%nat) as Hr
    by (intros e' He'; apply IH in He'; cbn; lia).
  destruct (msg_entry result txs i msg) as [e'|] eqn:Em; [|by apply Hr].
  apply elem_of_cons in He as [->|He]; [|by apply Hr]. unfold msg_entry in Em.
  destruct msg as [m| | |]; try done. destruct (Raw m); [|done]. cbn in Em.
  destruct (msg_status _ _ _ _) as [[gas failed]|]; [|done]. injection Em as <-. cbn. lia.
Qed.

Lemma tx_entries_bound tx result e :
  well_formed_tx tx result → e ∈ tx_entries tx result → Z.of_nat (bt_msg e) < 2 ^ 32.
Proof.
  intros [_ Hw]. unfold tx_entries. destruct (TxSucessOrExpectedFailure result); [|by intros ?%elem_of_nil].
  destruct (TxDecoder tx) as [t| |]; [|by intros ?%elem_of_nil..]. destruct (isEthTx t) eqn:Ee; [|by intros ?%elem_of_nil].
  destruct (Hw t eq_refl Ee) as (_ & Hl & _). destruct (ParseTxResult result (Some t)); [|by intros ?%elem_of_nil..].
  intros He%msg_entries_bound. lia.
Qed.

Lemma block_records_lookup height txs : ∀ results txIndex k j p,
  Forall2 well_formed_tx txs results →
  block_records height txIndex k txs results !! j = Some p →
  tr_Height p.2 = height ∧ tr_EthTxIndex p.2 = Z.of_nat (k + j) ∧
  0 ≤ tr_TxIndex p.2 < Z.of_nat (txIndex + length txs) ∧ 0 ≤ tr_MsgIndex p.2 < 2 ^ 32 ∧
  0 ≤ tr_CumulativeGasUsed p.2 < u64_max.
Proof.
  induction txs as [|tx txs IH]; intros results txIndex k j p Hw Hj; inversion Hw as [|? result ? results' Hw1 Hw2]; subst; [done|].
  cbn [block_records] in Hj.
  apply lookup_app_Some in Hj as [Hj|[Hle Hj]].
  - apply tx_records_lookup in Hj as (? & ? & -> & ? & e & He & ->). cbn [length].
    apply list_elem_of_lookup_2 in He. apply (tx_entries_bound tx result e Hw1) in He. split_and!; (done || lia).
  - rewrite tx_records_length in *. apply (IH _ _ _ _ _ Hw2) in Hj as (? & ? & ? & ? & ?). cbn [length]. split_and!; (done || lia).
Qed.

(** What is assumed of a block: a result per transaction, well-formed Ethereum
    transactions, sizes that fit the indices, distinct hashes. *)
Record indexable (height : Z) (txs : list bytes) (results : list ExecTxResult) : Prop := {
  ib_height : 0 < height < 2 ^ 63;
  ib_txs : Forall2 well_formed_tx txs results;
  ib_count : Z.of_nat (length txs) < 2 ^ 32;
  ib_records : Z.of_nat (length (block_records height 0 0 txs results)) < 2 ^ 31;
  ib_distinct : NoDup (block_records height 0 0 txs results).*1;
  ib_hash h : h ∈ (block_records height 0 0 txs results).*1 → 0 ≤ h < u256_max;
  ib_gas p : p ∈ block_records height 0 0 txs results → 0 ≤ tr_GasUsed p.2 < u64_max
}.

Lemma indexable_range height txs results j p :
  indexable height txs results → block_records height 0 0 txs results !! j = Some p →
  tx_result_range p.2 ∧ tr_Height p.2 = height ∧ tr_EthTxIndex p.2 = Z.of_nat j ∧ Z.of_nat j < 2 ^ 31.
Proof.
  intros [Hh Hw Hc Hr _ _ Hg] Hj. pose proof (lookup_lt_Some _ _ _ Hj) as Hlt.
  pose proof (Hg p (list_elem_of_lookup_2 _ _ _ Hj)) as Hgas.
  apply (block_records_lookup _ _ _ _ _ _ _ Hw) in Hj as (Eh & Ee & Ht & Hm & Hcum). split_and!; [|done|by rewrite Ee|lia].
  split; [rewrite Eh|..|rewrite Ee| |]; lia.
Qed.

(** ** The writes of a block *)

Lemma elem_of_writes k rs :
  k ∈ (all_writes rs).*1 ↔ ∃ p, p ∈ rs ∧ (k = TxHashKey p.1 ∨ k = TxIndexKey (tr_Height p.2) (tr_EthTxIndex p.2)).
Proof.
  induction rs as [|p rs IH]; cbn.
  - split; [by intros ?%elem_of_nil|]. by intros (p & ?%elem_of_nil & _).
  - rewrite !elem_of_cons, IH. setoid_rewrite elem_of_cons. naive_solver.
Qed.

Lemma writes_nodup height rs :
  NoDup rs.*1 → NoDup ((λ p, tr_EthTxIndex p.2) <$> rs) →
  (∀ p, p ∈ rs → 0 ≤ p.1 < u256_max ∧ tr_Height p.2 = height ∧ 0 ≤ tr_EthTxIndex p.2 < u64_max) →
  0 ≤ height < u64_max → NoDup (all_writes rs).*1.
Proof.
  intros Hh Hi Hr Hb. induction rs as [|p rs IH]; cbn; [constructor|].
  rewrite fmap_cons in Hh. rewrite fmap_cons in Hi. apply NoDup_cons in Hh as [Hph Hh]. apply NoDup_cons in Hi as [Hpi Hi].
  destruct (Hr p) as (Hrp & Ehp & Eip); [by left|].
  assert (∀ q, q ∈ rs → 0 ≤ q.1 < u256_max ∧ tr_Height q.2 = height ∧ 0 ≤ tr_EthTxIndex q.2 < u64_max) as Hr'
    by (intros q Hq; apply Hr; by right).
  constructor; [|constructor; [|by apply IH]].
  - rewrite elem_of_cons. intros [E|Hin]; [by apply TxHashKey_TxIndexKey in E|].
    apply elem_of_writes in Hin as (q & Hq & [E|E]); [|by apply TxHashKey_TxIndexKey in E].
    apply TxHashKey_inj in E; [|done|by apply Hr']. apply Hph. rewrite E. by apply (list_elem_of_fmap_2 fst).
  - intros Hin. apply elem_of_writes in Hin as (q & Hq & [E|E]); [symmetry in E; by apply TxHashKey_TxIndexKey in E|].
    destruct (Hr' q Hq) as (_ & Ehq & Eiq). rewrite Ehp, Ehq in E. apply TxIndexKey_inj in E as [_ E]; [|done..].
    apply Hpi. rewrite E. by apply (list_elem_of_fmap_2 (λ p, tr_EthTxIndex p.2)).
Qed.

Lemma indexable_writes height txs results :
  indexable height txs results → NoDup (all_writes (block_records height 0 0 txs results)).*1.
Proof.
  intros Hi. pose proof (ib_height _ _ _ Hi) as Hh. assert (0 ≤ height < u64_max) as Hh' by (unfold u64_max; lia).
  apply (writes_nodup height); [apply (ib_distinct _ _ _ Hi)| | |done].
  - apply NoDup_alt. intros i j x Ei Ej. rewrite list_lookup_fmap in Ei. rewrite list_lookup_fmap in Ej.
    destruct (block_records height 0 0 txs results !! i) as [p|] eqn:Ep; [|done].
    destruct (block_records height 0 0 txs results !! j) as [q|] eqn:Eq; [|done].
    injection Ei as <-. injection Ej as Ej.
    destruct (indexable_range _ _ _ _ _ Hi Ep) as (_ & _ & E1 & _).
    destruct (indexable_range _ _ _ _ _ Hi Eq) as (_ & _ & E2 & _). lia.
  - intros p [j Hj]%list_elem_of_lookup. destruct (indexable_range _ _ _ _ _ Hi Hj) as (_ & E1 & E2 & ?).
    split_and!; [apply (ib_hash _ _ _ Hi), (list_elem_of_fmap_2 fst); by eapply list_elem_of_lookup_2|
      apply (ib_hash _ _ _ Hi), (list_elem_of_fmap_2 fst); by eapply list_elem_of_lookup_2|done|lia|unfold u64_max; lia].
Qed.

Lemma IndexBlock_run height txs results d :
  indexable height txs results →
  ∃ d', (IndexBlock TxDecoder height txs results d = (d', Ok tt) ∧
         db_map d' = apply_batch (all_writes (block_records height 0 0 txs results)) (db_map d)) ∨
        ∃ e, IndexBlock TxDecoder height txs results d = (d', Err e) ∧ db_map d' = db_map d.
Proof.
  intros Hi. unfold IndexBlock, of_outcome.
  destruct (index_txs_run height txs results 0 [] 0 (ib_txs _ _ _ Hi)) as [n En];
    [apply (ib_count _ _ _ Hi)|apply (ib_records _ _ _ Hi)|].
  erewrite bind_Ok by (change 0 with (Z.of_nat 0); by rewrite En). cbn [fst app]. unfold on_error.
  destruct (Write_spec (all_writes (block_records height 0 0 txs results)) d) as [d' [[-> Em]|[e [-> Em]]]].
  - exists d'. by left.
  - exists d'. right. eexists. by split.
Qed.

(** ** Lookups *)

Lemma GetByTxHash_map d d' h :
  db_map d' !! TxHashKey h = db_map d !! TxHashKey h → GetByTxHash d' h = GetByTxHash d h.
Proof. intros Em. unfold GetByTxHash. by rewrite !Get_spec, Em. Qed.

Lemma GetByTxHash_found d h r :
  tx_result_range r → tr_Height r ≠ 0 → db_map d !! TxHashKey h = Some (MarshalTxResult r) → GetByTxHash d h = Ok r.
Proof.
  intros Hr Hh Em. unfold GetByTxHash. rewrite Get_spec, Em. cbn.
  pose proof (Marshal_nonempty r Hh) as Hne. destruct (MarshalTxResult r) eqn:E; [done|].
  by rewrite <-E, Unmarshal_Marshal.
Qed.

Lemma GetByBlockAndIndex_found d b i h :
  0 ≤ h < u256_max → db_map d !! TxIndexKey b i = Some (Hash_Bytes h) → GetByBlockAndIndex d b i = GetByTxHash d h.
Proof.
  intros Hh Em. unfold GetByBlockAndIndex. rewrite Get_spec, Em.
  change (default EmptyString (Some (Hash_Bytes h))) with (Hash_Bytes h).
  destruct (Hash_Bytes h) eqn:E; [done|]. by rewrite <-E, BytesToHash_Bytes.
Qed.

Lemma indexed_lookup height txs results d' m j h r :
  indexable height txs results → block_records height 0 0 txs results !! j = Some (h, r) →
  db_map d' = apply_batch (all_writes (block_records height 0 0 txs results)) m →
  GetByTxHash d' h = Ok r ∧ GetByBlockAndIndex d' height (Z.of_nat j) = Ok r ∧ tr_EthTxIndex r = Z.of_nat j.
Proof.
  intros Hi Hj Em. destruct (indexable_range _ _ _ _ _ Hi Hj) as (Hr & Eh & Ei & _). cbn in *.
  pose proof (ib_height _ _ _ Hi) as Hh. pose proof (indexable_writes _ _ _ Hi) as Hnd.
  assert (∀ w, w ∈ record_writes (h, r) → w ∈ all_writes (block_records height 0 0 txs results)) as Hin.
  { intros w Hw. apply list_elem_of_In, in_concat. exists (record_writes (h, r)).
    split; apply list_elem_of_In; [|done]. apply list_elem_of_fmap_2. by eapply list_elem_of_lookup_2. }
  assert (GetByTxHash d' h = Ok r) as Hfound.
  { apply GetByTxHash_found; [done|lia|]. rewrite Em. apply apply_batch_in; [done|]. apply Hin. by left. }
  split_and!; [done| |done]. rewrite <-Hfound, <-Ei. apply GetByBlockAndIndex_found.
  - apply (ib_hash _ _ _ Hi), (list_elem_of_fmap_2 fst _ (h, r)). by eapply list_elem_of_lookup_2.
  - rewrite Em. apply apply_batch_in; [done|]. apply Hin. unfold record_writes. cbn. rewrite Eh. by right; left.
Qed.

Lemma unindexed_hash height txs results d d' h :
  indexable height txs results → 0 ≤ h < u256_max → h ∉ (block_records height 0 0 txs results).*1 →
  db_map d' = apply_batch (all_writes (block_records height 0 0 txs results)) (db_map d) →
  db_map d' !! TxHashKey h = db_map d !! TxHashKey h.
Proof.
  intros Hi Hh Hout Em. rewrite Em. apply apply_batch_other. intros (p & Hp & [E|E])%elem_of_writes;
    [|by apply TxHashKey_TxIndexKey in E]. apply TxHashKey_inj in E; [|done|].
  - apply Hout. rewrite E. by apply (list_elem_of_fmap_2 fst).
  - by apply (ib_hash _ _ _ Hi), (list_elem_of_fmap_2 fst).
Qed.

Lemma unindexed_block height txs results d d' b i :
  indexable height txs results → 0 ≤ b < u64_max → 0 ≤ i < u64_max → b ≠ height →
  db_map d' = apply_batch (all_writes (block_records height 0 0 txs results)) (db_map d) →
  db_map d' !! TxIndexKey b i = db_map d !! TxIndexKey b i.
Proof.
  intros Hi Hb Hrange Hne Em. rewrite Em. apply apply_batch_other. intros (p & Hp & [E|E])%elem_of_writes.
  { symmetry in E. by apply TxHashKey_TxIndexKey in E. }
  apply list_elem_of_lookup in Hp as [j Hj]. destruct (indexable_range _ _ _ _ _ Hi Hj) as (_ & Eh & Ei & Hl).
  pose proof (ib_height _ _ _ Hi) as Hh. rewrite Eh, Ei in E.
  apply TxIndexKey_inj in E as [E _]; [done|done|unfold u64_max; lia|done|unfold u64_max; lia].
Qed.

Lemma be_value_bound s acc :
  0 ≤ acc → 0 ≤ be_value_from acc s < (acc + 1) * 256 ^ Z.of_nat (String.length s).
Proof.
  revert acc. induction s as [|c s IH]; intros acc Ha; cbn [be_value_from String.length]; [change (256 ^ Z.of_nat 0) with 1; lia|].
  assert (0 ≤ byte_value c < 256) as Hc.
  { unfold byte_value. pose proof (Ascii.N_ascii_bounded c). lia. }
  specialize (IH (acc * 256 + byte_value c)). rewrite Nat2Z.inj_succ, Z.pow_succ_r by lia.
  assert (0 < 256 ^ Z.of_nat (String.length s)) by (apply Z.pow_pos_nonneg; lia). nia.
Qed.

Lemma BytesToHash_range b : 0 ≤ BytesToHash b < u256_max.
Proof.
  unfold BytesToHash, be_value. pose proof (be_value_bound (str_drop (String.length b - 32) b) 0) as Hv.
  assert (String.length (str_drop (String.length b - 32) b) ≤ 32)%nat as Hl.
  { rewrite str_drop_length. lia. }
  assert (256 ^ Z.of_nat (String.length (str_drop (String.length b - 32) b)) ≤ 256 ^ 32) by (apply Z.pow_le_mono_r; lia).
  change u256_max with (256 ^ 32). lia.
Qed.

Lemma GetByBlockAndIndex_kept height txs results d d' b i r :
  indexable height txs results → 0 ≤ b < u64_max → 0 ≤ i < u64_max → b ≠ height →
  (∀ h, h ∈ (block_records height 0 0 txs results).*1 → db_map d !! TxHashKey h = None) →
  db_map d' = apply_batch (all_writes (block_records height 0 0 txs results)) (db_map d) →
  GetByBlockAndIndex d b i = Ok r → GetByBlockAndIndex d' b i = Ok r.
Proof.
  intros Hi Hb Hrange Hne Hnew Em. unfold GetByBlockAndIndex. rewrite !Get_spec.
  rewrite (unindexed_block height txs results d d' b i) by done.
  destruct (default EmptyString (db_map d !! TxIndexKey b i)) as [|c s]; [done|]. intros Hr. rewrite <-Hr.
  apply GetByTxHash_map, (unindexed_hash height txs results); [done|apply BytesToHash_range| |done].
  intros Hin. apply Hnew in Hin. unfold GetByTxHash in Hr. by rewrite Get_spec, Hin in Hr.
Qed.

(** C27: what a block holds is found again.  Indexing a block either fails and leaves the
    database as it was, or afterwards every Ethereum transaction of the block that
    was executed, or failed in an expected way, is found by its hash and by its place among
    the Ethereum transactions of the block, with the indices of its transaction and
    message, the gas of its result, the status its events tell, and the gas used up to
    it in its transaction.  Every other hash gives what it gave before, and so does every place in
    another block when the hashes are new. *)
Theorem IndexBlock_found height txs results d :
  indexable height txs results →
  ∃ d',
    (∃ e, IndexBlock TxDecoder height txs results d = (d', Err e) ∧ db_map d' = db_map d) ∨
    IndexBlock TxDecoder height txs results d = (d', Ok tt) ∧
    (∀ k h r, block_records height 0 0 txs results !! k = Some (h, r) →
       GetByTxHash d' h = Ok r ∧ GetByBlockAndIndex d' height (Z.of_nat k) = Ok r ∧ tr_EthTxIndex r = Z.of_nat k) ∧
    (∀ h, 0 ≤ h < u256_max → h ∉ (block_records height 0 0 txs results).*1 → GetByTxHash d' h = GetByTxHash d h) ∧
    (∀ b i r, 0 ≤ b < u64_max → 0 ≤ i < u64_max → b ≠ height →
       (∀ h, h ∈ (block_records height 0 0 txs results).*1 → db_map d !! TxHashKey h = None) →
       GetByBlockAndIndex d b i = Ok r → GetByBlockAndIndex d' b i = Ok r).
Proof.
  intros Hi. destruct (IndexBlock_run height txs results d Hi) as [d' [[Er Em]|[e [Er Em]]]]; exists d'; [right|left; eauto].
  split_and!; [done| | |].
  - intros k h r Hk. by eapply indexed_lookup.
  - intros h Hh Hout. by eapply GetByTxHash_map, unindexed_hash.
  - intros b i r Hb Hrange Hne Hnew Hr. by eapply GetByBlockAndIndex_kept.
Qed.

(** ** The first and the last block *)

(** The keys of the index are those of a set of places. *)
Definition places (d : D) (P : Z → Z → Prop) : Prop :=
  (∀ b i, P b i → 0 ≤ b < 2 ^ 63) ∧
  ∀ k, is_Some (db_map d !! k) → String.compare (String (byte_of KeyPrefixTxIndex) EmptyString) k ≠ Gt →
    String.compare k (String (byte_of (KeyPrefixTxIndex + 1)) EmptyString) = Lt → ∃ b i, P b i ∧ k = TxIndexKey b i.

Lemma index_keys_spec d P :
  places d P → (∀ b i, P b i → is_Some (db_map d !! TxIndexKey b i)) →
  ∃ l, index_keys d = Ok l ∧ StronglySorted (λ a b, String.compare a b ≠ Gt) l ∧
    (∀ k, k ∈ l → ∃ b i, P b i ∧ k = TxIndexKey b i) ∧ ∀ b i, P b i → TxIndexKey b i ∈ l.
Proof.
  intros [Hr Hk] Hp. unfold index_keys.
  destruct (Keys_spec d (String (byte_of KeyPrefixTxIndex) EmptyString) (String (byte_of (KeyPrefixTxIndex + 1)) EmptyString))
    as (l & -> & Hs & Hl).
  exists l. split_and!; [done|done| |].
  - intros k Hin. apply Hl in Hin as (? & ? & ?). by apply Hk.
  - intros b i Hb. apply Hl. split_and!; [by apply Hp|done|done].
Qed.

Lemma StronglySorted_last {A} (R : A → A → Prop) l x y :
  (∀ a, R a a) → StronglySorted R l → last l = Some x → y ∈ l → R y x.
Proof.
  intros Hrefl Hs Hl Hy. apply last_Some in Hl as [l' ->]. apply elem_of_app in Hy as [Hy|Hy].
  - apply list_elem_of_split in Hy as (l1 & l2 & ->). rewrite <-app_assoc in Hs. clear Hrefl.
    induction l1 as [|z l1 IH]; inversion Hs as [|? ? Hs' Hf]; subst; [|by apply IH].
    rewrite Forall_forall in Hf. apply Hf. apply elem_of_app. right. by left.
  - apply list_elem_of_singleton in Hy as ->. apply Hrefl.
Qed.

(** The index reports the highest block of its places, and -1 when there
    is none. *)
Lemma LoadLastBlock_max d P :
  places d P → (∀ b i, P b i → is_Some (db_map d !! TxIndexKey b i)) →
  ∃ n, LoadLastBlock d = Ok n ∧
    ((n = -1 ∧ ∀ b i, ¬ P b i) ∨ ((∃ i, P n i) ∧ ∀ b i, P b i → b ≤ n)).
Proof.
  intros Hp He. destruct (index_keys_spec d P Hp He) as (l & Ek & Hs & Hl & Hin). unfold LoadLastBlock. rewrite Ek.
  destruct (last l) as [k|] eqn:El.
  - destruct (Hl k) as (b & i & HP & ->). { apply last_Some in El as [l' ->]. apply elem_of_app. right. by left. }
    pose proof (proj1 Hp b i HP) as Hb. rewrite parseBlockNumber_TxIndexKey by done. exists b. split; [done|]. right.
    split; [by exists i|]. intros b' i' HP'. pose proof (proj1 Hp b' i' HP') as Hb'.
    apply (TxIndexKey_le b' i' b i); [unfold u64_max; lia..|]. apply (StronglySorted_last (λ a c, String.compare a c ≠ Gt) l); [|done|done|by apply Hin].
    intros a. destruct (String.compare a a) eqn:Ec; [done|done|]. pose proof (String.compare_antisym a a) as Ea. by rewrite Ec in Ea.
  - exists (-1). split; [done|]. left. split; [done|]. intros b i HP. apply Hin in HP. apply last_None in El as ->.
    by apply elem_of_nil in HP.
Qed.
End indexing.

(** * The events of an Ethereum transaction *)

Section own_events.
Context `{GethTx, !GethTxLaws, GethHash, !GethHashLaws}.

Definition is_ethereum_tx (e : Event) : Prop := ev_Type e = EventTypeEthereumTx.
#[local] Instance is_ethereum_tx_dec e : Decision (is_ethereum_tx e).
Proof. unfold is_ethereum_tx. apply _. Defined.

(** Other events are passed over. *)
Lemma parse_events_filter events : ∀ format next p,
  parse_events format next p events = parse_events format next p (filter is_ethereum_tx events).
Proof.
  induction events as [|e events IH]; intros format next p; [done|]. rewrite filter_cons.
  destruct (decide (is_ethereum_tx e)) as [He|He]; cbn [parse_events]; unfold is_ethereum_tx in He.
  - rewrite !bool_decide_true by done. cbn [negb].
    destruct (if Nat.eqb _ _ then _ else _) as [[p'| |] next']; [apply IH|done|done].
  - rewrite bool_decide_false by done. apply IH.
Qed.

(** ** Attributes *)

Lemma fill_hash tx h :
  fillTxAttribute tx AttributeKeyEthereumTxHash (Hash_Hex h) =
  Ok (mkParsedTx (px_MsgIndex tx) h (px_EthTxIndex tx) (px_GasUsed tx) (px_Failed tx)).
Proof. unfold fillTxAttribute. rewrite bool_decide_true by done. by rewrite HexToHash_Hex. Qed.

Lemma fill_index tx i :
  0 ≤ i < 2 ^ 31 →
  fillTxAttribute tx AttributeKeyTxIndex (FormatUint i) =
  Ok (mkParsedTx (px_MsgIndex tx) (px_Hash tx) i (px_GasUsed tx) (px_Failed tx)).
Proof.
  intros Hi. unfold fillTxAttribute. rewrite bool_decide_false, bool_decide_true by done.
  rewrite ParseUint_FormatUint by (unfold u64_max; lia). by destruct (Z.ltb_spec (2 ^ 31 - 1) i); [lia|].
Qed.

Lemma fill_gas tx g :
  0 ≤ g < u64_max →
  fillTxAttribute tx AttributeKeyTxGasUsed (FormatUint g) =
  Ok (mkParsedTx (px_MsgIndex tx) (px_Hash tx) (px_EthTxIndex tx) g (px_Failed tx)).
Proof.
  intros Hg. unfold fillTxAttribute. rewrite !bool_decide_false, bool_decide_true by done. by rewrite ParseUint_FormatUint.
Qed.

Lemma fill_failed tx v :
  fillTxAttribute tx AttributeKeyEthereumTxFailed v =
  Ok (mkParsedTx (px_MsgIndex tx) (px_Hash tx) (px_EthTxIndex tx) (px_GasUsed tx) (match v with EmptyString => false | _ => true end)).
Proof. unfold fillTxAttribute. rewrite !bool_decide_false, bool_decide_true by done. done. Qed.

Lemma fill_other tx key v :
  key ∉ [AttributeKeyEthereumTxHash; AttributeKeyTxIndex; AttributeKeyTxGasUsed; AttributeKeyEthereumTxFailed] →
  fillTxAttribute tx key v = Ok tx.
Proof.
  rewrite !not_elem_of_cons. intros (? & ? & ? & ? & _). unfold fillTxAttribute. by rewrite !bool_decide_false.
Qed.

Lemma fill_app tx tx' attrs1 attrs2 :
  fillTxAttributes tx attrs1 = Ok tx' → fillTxAttributes tx (attrs1 ++ attrs2) = fillTxAttributes tx' attrs2.
Proof.
  revert tx. induction attrs1 as [|[k v] attrs1 IH]; intros tx; cbn [fillTxAttributes app]; [by intros [= ->]|].
  destruct (fillTxAttribute tx k v); [apply IH|done|done].
Qed.

Lemma fill_tx_hash_event i h idx :
  0 ≤ idx < 2 ^ 31 →
  fillTxAttributes (NewParsedTx i) (ev_Attributes (tx_hash_event h idx)) = Ok (mkParsedTx i h idx 0 false).
Proof. intros Hi. cbn [tx_hash_event ev_Attributes fillTxAttributes]. rewrite fill_hash, fill_index by done. done. Qed.

Definition reverted (VmError : string) : bool := match VmError with EmptyString => false | _ => true end.

Lemma fill_ethereum_tx_event i amount h idx gas ch rc VmError :
  0 ≤ idx < 2 ^ 31 → 0 ≤ gas < u64_max →
  fillTxAttributes (NewParsedTx i) (ev_Attributes (ethereum_tx_event amount h idx gas ch rc VmError)) =
  Ok (mkParsedTx i h idx gas (reverted VmError)).
Proof.
  intros Hi Hg. unfold ethereum_tx_event. cbv zeta. cbn [ev_Attributes]. rewrite <-!app_assoc.
  erewrite fill_app by (cbn [fillTxAttributes];
    rewrite fill_other by (rewrite !not_elem_of_cons; split_and!; (done || apply not_elem_of_nil));
    rewrite fill_hash, fill_index, fill_gas by done; reflexivity).
  cbn [px_MsgIndex px_Hash px_EthTxIndex px_GasUsed px_Failed].
  erewrite fill_app by (destruct ch; cbn [fillTxAttributes];
    [rewrite fill_other by (rewrite !not_elem_of_cons; split_and!; (done || apply not_elem_of_nil))|]; reflexivity).
  erewrite fill_app by (destruct rc; cbn [fillTxAttributes];
    [rewrite fill_other by (rewrite !not_elem_of_cons; split_and!; (done || apply not_elem_of_nil))|]; reflexivity).
  destruct VmError; cbn [fillTxAttributes]; [done|]. by rewrite fill_failed.
Qed.

(** ** One transaction *)

(** The result of an Ethereum transaction with index [idx], and the gas and status
    it tells: executed, with the events of the ante handler and of the message handler,
    or failed in a way that is expected (over the gas limit of the block, or in the
    commit), with the event of the ante handler only. *)
Inductive reports (ethTx : EthTx) (idx : Z) (result : ExecTxResult) : Z → bool → Prop :=
  | reports_executed amount gas ch rc VmError :
      er_Code result = 0 → 0 ≤ er_GasUsed result < u64_max → 0 ≤ gas < u64_max →
      filter is_ethereum_tx (er_Events result) =
        [tx_hash_event (Tx_Hash ethTx) idx; ethereum_tx_event amount (Tx_Hash ethTx) idx gas ch rc VmError] →
      reports ethTx idx result (er_GasUsed result) (reverted VmError)
  | reports_over_limit :
      er_Code result ≠ 0 → TxSucessOrExpectedFailure result = true → 0 ≤ er_GasUsed result →
      filter is_ethereum_tx (er_Events result) = [tx_hash_event (Tx_Hash ethTx) idx] →
      reports ethTx idx result (Tx_Gas ethTx) true.

Lemma parse_tx_hash_event p h idx format next events :
  0 ≤ idx < 2 ^ 31 → format ≠ eventFormat1 → 
  parse_events format next p (tx_hash_event h idx :: events) =
  parse_events eventFormat2 next
    (mkParsedTxs (ps_Txs p ++ [mkParsedTx (Z.of_nat (length (ps_Txs p))) h idx 0 false])
       (<[h := Z.of_nat (length (ps_Txs p))]> (ps_TxHashes p))) events.
Proof.
  intros Hi Hf. cbn [parse_events]. rewrite bool_decide_true by done. cbn [negb].
  unfold newTx. rewrite fill_tx_hash_event by done. by destruct format.
Qed.

Lemma ethereum_tx_event_attrs amount h idx gas ch rc VmError :
  Nat.eqb (length (ev_Attributes (ethereum_tx_event amount h idx gas ch rc VmError))) 2 = false.
Proof. by destruct ch, rc, VmError. Qed.

Lemma parse_ethereum_tx_event p old amount h idx gas ch rc VmError next events :
  0 ≤ idx < 2 ^ 31 → 0 ≤ gas < u64_max → ps_Txs p !! next = Some old → px_Hash old = h →
  parse_events eventFormat2 next p (ethereum_tx_event amount h idx gas ch rc VmError :: events) =
  parse_events eventFormat2 (S next)
    (mkParsedTxs (<[next := mkParsedTx (Z.of_nat next) h idx gas (reverted VmError)]> (ps_Txs p)) (ps_TxHashes p)) events.
Proof.
  intros Hi Hg Ho Eh. cbn [parse_events]. rewrite bool_decide_true by done. cbn [negb].
  rewrite ethereum_tx_event_attrs. unfold updateTx. rewrite fill_ethereum_tx_event by done. rewrite Ho. cbn [px_Hash].
  by rewrite Eh, Z.eqb_refl.
Qed.

Definition single (h idx gas : Z) (failed : bool) : ParsedTxs :=
  mkParsedTxs [mkParsedTx 0 h idx gas failed] {[h := 0]}.

(** The parser tells what was reported. *)
Lemma own_events_parsed ethTx idx result gas failed m tx :
  reports ethTx idx result gas failed → 0 ≤ idx < 2 ^ 31 → tx_Msgs tx = [EthMsg m] → Raw m = Some ethTx →
  ParseTxResult result (Some tx) = Ok (single (Tx_Hash ethTx) idx gas failed).
Proof.
  intros Hr Hi Em Er. unfold ParseTxResult. rewrite parse_events_filter.
  destruct Hr as [amount g ch rc VmError Hc Hg Hg' ->|Hc _ Hg ->]; rewrite parse_tx_hash_event by done.
  - rewrite (parse_ethereum_tx_event _ (mkParsedTx 0 (Tx_Hash ethTx) idx 0 false)) by done. cbn [parse_events].
    destruct (Z.ltb_spec (er_GasUsed result) 0); [lia|]. rewrite Hc. done.
  - cbn [parse_events]. destruct (Z.ltb_spec (er_GasUsed result) 0); [lia|].
    destruct (Z.eqb_spec (er_Code result) 0); [done|]. cbn [negb ps_Txs app length fail_txs]. unfold eth_msg.
    rewrite Em. cbn [lookup list_lookup]. by rewrite Er.
Qed.

(** Without the transaction, which is given only when the result is a failure. *)
Lemma own_events_parsed_alone ethTx idx result gas failed :
  reports ethTx idx result gas failed → 0 ≤ idx < 2 ^ 31 → er_Code result = 0 →
  ParseTxResult result None = Ok (single (Tx_Hash ethTx) idx gas failed).
Proof.
  intros Hr Hi Hc. unfold ParseTxResult. rewrite parse_events_filter.
  destruct Hr as [amount g ch rc VmError _ Hg Hg' ->|Hc' _ Hg ->]; [|done]. rewrite parse_tx_hash_event by done.
  rewrite (parse_ethereum_tx_event _ (mkParsedTx 0 (Tx_Hash ethTx) idx 0 false)) by done. cbn [parse_events].
  by destruct (Z.ltb_spec (er_GasUsed result) 0); [lia|].
Qed.

Lemma reports_gas ethTx idx result gas failed : reports ethTx idx result gas failed → 0 ≤ gas < u64_max.
Proof. intros [|]; [done|apply tx_gas_range]. Qed.

Lemma reports_ok ethTx idx result gas failed :
  reports ethTx idx result gas failed → TxSucessOrExpectedFailure result = true.
Proof. intros [? ? ? ? ? Hc|]; [|done]. unfold TxSucessOrExpectedFailure. by rewrite Hc. Qed.
End own_events.

(** * The two indexes *)

Section agreement.
Context `{GethTx, !GethTxLaws, GethHash, !GethHashLaws, TxResultCodec, !TxResultCodecLaws}.
Context {D : Type} `{!KVDB D} (db_map : D → gmap bytes bytes) `{!KVDBLaws D db_map} (TxDecoder : bytes → outcome SdkTx).

(** The number of Ethereum transactions of a block before transaction [n]. *)
Fixpoint eth_before (n : nat) (txs : list bytes) (results : list ExecTxResult) : nat :=
  match n, txs, results with
  | S n, tx :: txs, result :: results => length (tx_entries TxDecoder tx result) + eth_before n txs results
  | _, _, _ => 0
  end.

Lemma block_records_at height n : ∀ txs results txIndex k tx result e,
  txs !! n = Some tx → results !! n = Some result → tx_entries TxDecoder tx result = [e] → 0 ≤ bt_gas e < u64_max →
  block_records TxDecoder height txIndex k txs results !! eth_before n txs results =
  Some (bt_hash e, mkTxResult height (Z.of_nat (txIndex + n)) (Z.of_nat (bt_msg e)) (Z.of_nat (k + eth_before n txs results))
                     (bt_failed e) (bt_gas e) (bt_gas e)).
Proof.
  induction n as [|n IH]; intros [|t txs] [|r results] txIndex k tx result e Ht Hr He Hg; try done; cbn [block_records eth_before].
  - injection Ht as ->. injection Hr as ->. rewrite He. cbn. rewrite wrap_small by done. by rewrite !Nat.add_0_r.
  - rewrite lookup_app_r by (rewrite tx_records_length; lia). rewrite tx_records_length.
    replace (length (tx_entries TxDecoder t r) + eth_before n txs results - length (tx_entries TxDecoder t r))%nat
      with (eth_before n txs results) by lia.
    rewrite (IH txs results (S txIndex) _ tx result e Ht Hr He Hg). by rewrite <-Nat.add_assoc, Nat.add_succ_comm.
Qed.

Lemma eth_before_le height n : ∀ txs results txIndex k,
  (eth_before n txs results ≤ length (block_records TxDecoder height txIndex k txs results))%nat.
Proof.
  induction n as [|n IH]; intros [|t txs] [|r results] txIndex k; cbn [eth_before]; try lia. cbn [block_records].
  rewrite length_app, tx_records_length. specialize (IH txs results (S txIndex) (k + length (tx_entries TxDecoder t r))%nat). lia.
Qed.

(** Transaction [n] of a block is an Ethereum transaction whose events tell the index
    [idx], its gas and its status.  The index is the counter the chain keeps, which a
    transaction whose message fails does not advance: it need not be the number of
    Ethereum transactions before. *)
Record reported (txs : list bytes) (results : list ExecTxResult) (n : nat) (ethTx : EthTx) (idx : Z) (result : ExecTxResult)
    (tx : bytes) (gas : Z) (failed : bool) : Prop := {
  rp_tx : txs !! n = Some tx;
  rp_result : results !! n = Some result;
  rp_decoded : ∃ t m, TxDecoder tx = Ok t ∧ isEthTx t = true ∧ tx_Msgs t = [EthMsg m] ∧ Raw m = Some ethTx;
  rp_index : 0 ≤ idx < 2 ^ 31;
  rp_reports : reports ethTx idx result gas failed
}.

Lemma reported_entry txs results n ethTx idx result tx gas failed :
  reported txs results n ethTx idx result tx gas failed →
  tx_entries TxDecoder tx result = [mkBlockTx (Tx_Hash ethTx) 0 gas failed].
Proof.
  intros [_ _ (t & m & Ed & Ee & Em & Er) Hn Hr]. unfold tx_entries.
  rewrite (reports_ok _ _ _ _ _ Hr), Ed, Ee, (own_events_parsed _ _ _ _ _ m t Hr) by done.
  rewrite Em. cbn [msg_entries]. unfold msg_entry. rewrite Er. cbn [mbind option_bind]. unfold msg_status.
  destruct Hr as [amount g ch rc VmError Hc _ _ _|Hc _ _ _]; [by rewrite Hc|].
  by destruct (Z.eqb_spec (er_Code result) 0).
Qed.

Definition reported_record (height : Z) (n : nat) (place gas : Z) (failed : bool) : TxResult :=
  mkTxResult height (Z.of_nat n) 0 place failed gas gas.

(** The search of CometBFT finds the transaction in its result. *)
Lemma comet_query height txs results n ethTx idx result tx gas failed getter :
  reported txs results n ethTx idx result tx gas failed →
  getter (single (Tx_Hash ethTx) idx gas failed) = Ok (Some (mkParsedTx 0 (Tx_Hash ethTx) idx gas failed)) →
  QueryCometTxIndexer TxDecoder (Ok [mkResultTx height (Z.of_nat n) result tx]) getter =
  Ok (reported_record height n idx gas failed).
Proof.
  intros [_ _ (t & m & Ed & Ee & Em & Er) Hn Hr] Hget. unfold QueryCometTxIndexer. cbn [rt_TxResult rt_Tx].
  rewrite (reports_ok _ _ _ _ _ Hr). cbn [negb]. pose proof (reports_gas _ _ _ _ _ Hr) as Hg.
  assert (∀ o, ParseTxResult result o = Ok (single (Tx_Hash ethTx) idx gas failed) →
    ParseTxIndexerResult (mkResultTx height (Z.of_nat n) result tx) o getter = Ok (reported_record height n idx gas failed)) as Hp.
  { intros o Eo. unfold ParseTxIndexerResult. cbn [rt_TxResult]. rewrite Eo, Hget. cbn.
    replace (AccumulativeGasUsed _ 0) with (Ok (wrap u64_max gas) : outcome Z) by done. by rewrite (wrap_small u64_max gas). }
  destruct (Z.eqb_spec (er_Code result) 0) as [Hc|Hc]; cbn [negb].
  - by apply Hp, own_events_parsed_alone.
  - rewrite Ed. by apply Hp, (own_events_parsed _ _ _ _ _ m).
Qed.

(** C28: from events to answers.  When a block whose transaction [n] is an Ethereum
    transaction has been indexed, the backend answers requests for it, by hash and by
    block and index, with its height, its position in the block, the status its
    execution reported and the gas of its result, or with its gas limit and a failure
    when it failed in an expected way; its index is the number of Ethereum
    transactions before it.  Without this index, from the events in the store of
    CometBFT, the backend gives the same answer but for the index, which is the one
    the events tell: the answers are the same when this is the number of Ethereum
    transactions before. *)
Theorem index_answers_agree height txs results d d' n ethTx idx result tx gas failed found :
  indexable TxDecoder height txs results → reported txs results n ethTx idx result tx gas failed →
  IndexBlock TxDecoder height txs results d = (d', Ok tt) →
  let count := Z.of_nat (eth_before n txs results) in
  let searched := Ok [mkResultTx height (Z.of_nat n) result tx] in
  let answer place := Ok (reported_record height n place gas failed) in
  GetTxByEthHash TxDecoder (Some d') found (Tx_Hash ethTx) = answer count ∧
  GetTxByEthHash TxDecoder (None : option D) searched (Tx_Hash ethTx) = answer idx ∧
  Backend_GetTxByTxIndex TxDecoder (Some d') found height count = answer count ∧
  Backend_GetTxByTxIndex TxDecoder (None : option D) searched height idx = answer idx.
Proof.
  intros Hi Hr Eb. cbv zeta.
  assert (Z.of_nat (eth_before n txs results) < 2 ^ 31) as Hn.
  { pose proof (eth_before_le height n txs results 0 0). pose proof (ib_records _ _ _ _ Hi). lia. }
  pose proof (reported_entry _ _ _ _ _ _ _ _ _ Hr) as He. destruct (Hr) as [Htx Hres _ Hidx Hrep].
  pose proof (reports_gas _ _ _ _ _ Hrep) as Hg.
  pose proof (block_records_at height n txs results 0 0 tx result _ Htx Hres He Hg) as Hrec.
  destruct (IndexBlock_run db_map TxDecoder height txs results d Hi) as [d2 [[E2 Em]|[e [E2 Em]]]];
    rewrite E2 in Eb; [injection Eb as ->|done].
  destruct (indexed_lookup db_map TxDecoder _ _ _ d' _ _ _ _ Hi Hrec Em) as (Eh & Ei & _).
  split_and!; unfold GetTxByEthHash, Backend_GetTxByTxIndex.
  - exact Eh.
  - rewrite (comet_query height txs results n ethTx idx result tx gas failed); [done|done|].
    unfold GetTxByHash, single. cbn [ps_TxHashes]. by rewrite lookup_singleton_eq.
  - rewrite int32_of_small by lia. exact Ei.
  - rewrite (comet_query height txs results n ethTx idx result tx gas failed); [done|done|].
    rewrite int64_wrap_small by lia. unfold GetTxByTxIndex, single. cbn [ps_Txs px_EthTxIndex]. by rewrite Z.sub_diag.
Qed.
End agreement.

(** * The service *)

Section service.
Context `{GethTx, GethHash, TxResultCodec} {D : Type} `{!KVDB D} (TxDecoder : bytes → outcome SdkTx).
Implicit Types s : Service D.

(** The answers come with the height that was asked for. *)
Inductive honest_step : Service D → Service D → Prop :=
  | honest_header h s : honest_step s (new_header h s)
  | honest_turn block results s :
      (∀ i, sv_pc s = Indexing i → match results with Some (height, _) => height = i | None => True end) →
      honest_step s (service_turn TxDecoder block results s).

(** The blocks from [first] on were indexed, each once and in order, up to the last. *)
Record in_order (first : Z) s : Prop := {
  io_indexed : ∃ n, sv_lastBlock s = first + Z.of_nat n - 1 ∧ sv_indexed s = reverse (seqZ first (Z.of_nat n));
  io_next i : sv_pc s = Indexing i → i = sv_lastBlock s + 1
}.

Lemma in_order_index first s i d :
  in_order first s → sv_pc s = Indexing i →
  in_order first (mkService (Indexing (i + 1)) i (sv_latestBlock s) false d (i :: sv_indexed s)).
Proof.
  intros [(n & El & Ei) Hn] Hpc. pose proof (Hn i Hpc) as Hi. split; [|cbn; by intros j [= <-]].
  exists (S n). cbn. split; [lia|]. rewrite Ei, Nat2Z.inj_succ, <-Z.add_1_r, seqZ_app by lia.
  rewrite reverse_app. replace (first + Z.of_nat n) with i by lia. done.
Qed.

Lemma in_order_step first s s' : in_order first s → honest_step s s' → in_order first s'.
Proof.
  intros Hio Hs. destruct Hs as [h s|block results s Hh]; [by destruct Hio; split|].
  unfold service_turn. destruct (sv_pc s) as [|i|] eqn:Hpc; [| |done].
  - destruct (_ || _); [done|]. destruct Hio as [Hx _]. split; [done|]. by intros i [= <-].
  - destruct (negb _); [destruct Hio; by split|].
    destruct block as [[bh txs]|], results as [[height rs]|]; try (destruct Hio; by split).
    rewrite (Hh i eq_refl). destruct (IndexBlock TxDecoder bh txs rs (sv_db s)) as [d [|e|w]];
      [by apply in_order_index..|destruct Hio; by split].
Qed.

(** From its start the service indexes the blocks after the last indexed one, each once
    and in order. *)
Lemma service_in_order latest d s0 s :
  service_start latest d = Ok s0 → rtc honest_step s0 s → in_order (sv_lastBlock s0 + 1) s.
Proof.
  intros E Hs.
  assert (in_order (sv_lastBlock s0 + 1) s0) as Hio.
  { unfold service_start in E. destruct (LoadLastBlock d) as [last| |]; [|done..]. injection E as <-. cbn.
    split; [|done]. exists 0%nat. cbn. split; [lia|done]. }
  revert Hio. generalize (sv_lastBlock s0 + 1). intros first Hio. clear E. induction Hs as [|s0 s1 s2 Hs _ IH]; [done|].
  by eapply IH, in_order_step.
Qed.

(** The service never indexes a block again after a request has failed: it waits for new
    blocks, and the error that makes it wait is not cleared. *)
Lemma service_stuck s s' :
  sv_pc s = Waiting → sv_blockErr s = true → rtc (service_step TxDecoder) s s' →
  sv_indexed s' = sv_indexed s ∧ sv_db s' = sv_db s ∧ sv_lastBlock s' = sv_lastBlock s.
Proof.
  intros Hpc He Hs. induction Hs as [s|s s1 s2 Hs _ IH]; [done|].
  destruct Hs as [h s|block results s]; [by apply IH|].
  unfold service_turn in *. rewrite Hpc, He, orb_true_r in IH. by apply IH.
Qed.
End service.
