(* ===== verification/IndexerWit.v ===== *)
(** A concrete index: a block with a reverted Ethereum transaction and one that did not
    fit in the block, and what is found of them. *)

From stdpp Require Import sorting.
From S2P Require Import Prelude.
From S2P Require Import Sdk.
From S2P Require Import SdkModel.
From S2P Require Import AccessList.
From S2P Require Import StateDB.
From S2P Require Import FeeMarket.
From S2P Require Import TxFees.
From S2P Require Import TxFeesWit.
From S2P Require Import AnteEvm.
From S2P Require Import Erc20Denoms.
From S2P Require Import Indexer.
From S2P Require Import IndexerThms.

(** * Instances *)

#[local] Instance i_hash : GethHash := {| Hash_Hex := print; HexToHash s := default 0 (parse s) |}.
#[local] Instance i_hash_laws : GethHashLaws.
Proof. split. intros h. cbn. by rewrite parse_print. Qed.

#[local] Instance TxResult_eq_dec : EqDecision TxResult.
Proof. solve_decision. Defined.

#[local] Instance TxResult_countable : Countable TxResult.
Proof.
  apply (inj_countable'
    (λ r, (tr_Height r, tr_TxIndex r, tr_MsgIndex r, tr_EthTxIndex r, tr_Failed r, tr_GasUsed r, tr_CumulativeGasUsed r))
    (λ '(a, b, c, d, e, f, g), mkTxResult a b c d e f g)).
  by intros [].
Defined.

#[local] Instance i_codec : TxResultCodec := {|
  MarshalTxResult r := String (byte_of 1) (print r);
  UnmarshalTxResult s := match parse (str_drop 1 s) with Some r => Ok r | None => Err (errorf ErrOther "unexpected EOF") end
|}.
#[local] Instance i_codec_laws : TxResultCodecLaws.
Proof.
  split; [|done]. intros r _. cbn -[print parse str_drop]. change (str_drop 1 (String _ ?s)) with s.
  by rewrite parse_print.
Qed.

(** A map in memory. *)
#[local] Instance i_db : KVDB (gmap bytes bytes) := {|
  db_Get d k := Ok (default EmptyString (d !! k));
  db_Keys d s e := Ok (merge_sort String.le (filter (λ k, String.compare s k ≠ Gt ∧ String.compare k e = Lt) (map_to_list d).*1));
  batch_Set k v b := match k with EmptyString => Err (errorf ErrOther "key cannot be empty") | _ => Ok (b ++ [(k, v)]) end;
  batch_Write b := modify (apply_batch b)
|}.

Lemma le_compare a b : String.le a b → String.compare a b ≠ Gt.
Proof. unfold String.le, String.leb. by destruct (String.compare a b). Qed.

Lemma le_sorted l : StronglySorted String.le l → StronglySorted (λ a b, String.compare a b ≠ Gt) l.
Proof. induction 1 as [|a l Hs IH Hf]; constructor; [done|]. eapply Forall_impl; [done|]. apply le_compare. Qed.

#[local] Instance i_db_laws : KVDBLaws (gmap bytes bytes) id.
Proof.
  split; [done| | |].
  - intros d s e. eexists. split; [done|]. split.
    + apply le_sorted, StronglySorted_merge_sort; apply _.
    + intros k. rewrite merge_sort_Permutation, list_elem_of_filter, list_elem_of_fmap. split.
      * intros [Hr ([k' v] & -> & Hk%elem_of_map_to_list)]. split; [by exists v|done].
      * intros [[v Hv] Hr]. split; [done|]. exists (k, v). split; [done|]. by apply elem_of_map_to_list.
  - by intros [].
  - intros b d. exists (apply_batch b d). left. done.
Qed.

(** * A block *)

Definition i_eth (nonce : Z) : EthTx := mkSimpleTx nonce (Some 9) 21000 30 5 0 true.
Definition i_eth_tx (nonce : Z) : SdkTx :=
  mkSdkTx None None true None false (Some ["/cosmos.evm.vm.v1.ExtensionOptionsEthereumTx"%string])
    [EthMsg (mkMsgEthereumTx "sender" (Some (i_eth nonce)))].
Definition i_cosmos_tx : SdkTx := mkSdkTx None None true None false None [OtherMsg "/cosmos.bank.v1beta1.MsgSend"].

Definition i_decoder (b : bytes) : outcome SdkTx :=
  if bool_decide (b = "send"%string) then Ok i_cosmos_tx
  else if bool_decide (b = "call"%string) then Ok (i_eth_tx 3)
  else if bool_decide (b = "deploy"%string) then Ok (i_eth_tx 4)
  else Err (errorf ErrOther "tx parse error").

(** A transfer of coins, a call that was reverted, and one beyond the gas of the block. *)
Definition i_txs : list bytes := ["send"; "call"; "deploy"]%string.
Definition i_called : ExecTxResult := mkExecTxResult 0 EmptyString 26000
  [mkEvent "coin_spent" [("spender", "a")]; tx_hash_event 10 0; mkEvent "tx" [("fee", "1"); ("fee_payer", "a")];
   ethereum_tx_event "0" 10 0 25000 (Some "c0ffee") (Some "9") "execution reverted"]%string.
Definition i_over : ExecTxResult :=
  mkExecTxResult 11 "out of gas in location: block gas meter; gasWanted: 21000" 21000 [tx_hash_event 11 1].
Definition i_results : list ExecTxResult := [mkExecTxResult 0 EmptyString 70000 []; i_called; i_over].

Lemma i_records :
  block_records i_decoder 7 0 0 i_txs i_results =
  [(10, mkTxResult 7 1 0 0 true 26000 26000); (11, mkTxResult 7 2 0 1 true 21000 21000)].
Proof. vm_compute. reflexivity. Qed.

Lemma i_eth_well_formed b result nonce :
  i_decoder b = Ok (i_eth_tx nonce) → (∀ w, ParseTxResult result (Some (i_eth_tx nonce)) ≠ Panic w) →
  well_formed_tx i_decoder b result.
Proof.
  intros E Hp. split; rewrite E; [done|]. intros t [= <-] _. split_and!; [done|cbn; lia|].
  constructor; [by eexists|constructor].
Qed.

Lemma i_called_parsed : ParseTxResult i_called (Some (i_eth_tx 3)) = Ok (single 10 0 26000 true).
Proof. vm_compute. reflexivity. Qed.

Lemma i_over_parsed : ParseTxResult i_over (Some (i_eth_tx 4)) = Ok (single 11 1 21000 true).
Proof. vm_compute. reflexivity. Qed.

Lemma i_send_well_formed result : well_formed_tx i_decoder "send" result.
Proof.
  assert (i_decoder "send" = Ok i_cosmos_tx) as E by reflexivity. split; rewrite E; [done|].
  intros t Et Ee. assert (i_cosmos_tx = t) as <- by congruence. discriminate Ee.
Qed.

Lemma i_wf : Forall2 (well_formed_tx i_decoder) i_txs i_results.
Proof.
  unfold i_txs, i_results. apply Forall2_cons; split; [apply i_send_well_formed|].
  apply Forall2_cons; split; [apply (i_eth_well_formed _ _ 3); [reflexivity|by rewrite i_called_parsed]|].
  apply Forall2_cons; split; [apply (i_eth_well_formed _ _ 4); [reflexivity|by rewrite i_over_parsed]|].
  apply Forall2_nil. done.
Qed.

Lemma i_indexable : indexable i_decoder 7 i_txs i_results.
Proof.
  split; rewrite ?i_records; [lia| |cbn; lia|cbn; lia| | |].
  - apply i_wf.
  - apply (bool_decide_unpack _). vm_compute. exact I.
  - intros h. cbn. rewrite !elem_of_cons, elem_of_nil. change u256_max with (2 ^ 256). intros [->|[->|[]]]; lia.
  - intros p. rewrite !elem_of_cons, elem_of_nil. change u64_max with (2 ^ 64). intros [->|[->|[]]]; cbn; lia.
Qed.

Lemma i_index_ok : snd (IndexBlock i_decoder 7 i_txs i_results ∅) = Ok tt.
Proof. vm_compute. reflexivity. Qed.

Lemma IndexBlock_found_witness :
  ∃ d', IndexBlock i_decoder 7 i_txs i_results ∅ = (d', Ok tt) ∧
    GetByTxHash d' 10 = Ok (mkTxResult 7 1 0 0 true 26000 26000) ∧
    GetByBlockAndIndex d' 7 1 = Ok (mkTxResult 7 2 0 1 true 21000 21000).
Proof.
  destruct (IndexBlock_found id i_decoder 7 i_txs i_results ∅ i_indexable) as (d' & [(e & E & _)|(E & Hk & _)]).
  - exfalso. pose proof i_index_ok as Ho. rewrite E in Ho. discriminate Ho.
  - exists d'. rewrite i_records in Hk. split; [exact E|]. split.
    + exact (proj1 (Hk 0%nat _ _ eq_refl)).
    + exact (proj1 (proj2 (Hk 1%nat _ _ eq_refl))).
Defined.

Lemma i_before : eth_before i_decoder 1 i_txs i_results = 0%nat.
Proof. vm_compute. reflexivity. Qed.

Lemma i_reported : reported i_decoder i_txs i_results 1 (i_eth 3) 0 i_called "call" 26000 true.
Proof.
  split; [reflexivity|reflexivity| |lia|].
  - exists (i_eth_tx 3), (mkMsgEthereumTx "sender" (Some (i_eth 3))). repeat split.
  - change (reports (i_eth 3) 0 i_called (er_GasUsed i_called) (reverted "execution reverted")).
    apply (reports_executed _ _ _ "0" 25000 (Some "c0ffee"%string) (Some "9"%string));
      [reflexivity|change u64_max with (2 ^ 64); cbn; lia|change u64_max with (2 ^ 64); lia|vm_compute; reflexivity].
Qed.

Definition i_indexed : gmap bytes bytes := fst (IndexBlock i_decoder 7 i_txs i_results ∅).

Lemma i_index_run : IndexBlock i_decoder 7 i_txs i_results ∅ = (i_indexed, Ok tt).
Proof. rewrite <-i_index_ok. unfold i_indexed. by destruct (IndexBlock i_decoder 7 i_txs i_results ∅). Qed.

Lemma index_answers_agree_witness :
  GetTxByEthHash i_decoder (Some i_indexed) (Ok []) 10 = Ok (mkTxResult 7 1 0 0 true 26000 26000) ∧
  GetTxByEthHash i_decoder (None : option (gmap bytes bytes)) (Ok [mkResultTx 7 1 i_called "call"]) 10 =
    Ok (mkTxResult 7 1 0 0 true 26000 26000).
Proof.
  destruct (index_answers_agree id i_decoder 7 i_txs i_results ∅ i_indexed 1 (i_eth 3) 0 i_called "call" 26000 true (Ok [])
    i_indexable i_reported i_index_run) as (E1 & E2 & _).
  unfold reported_record in E1, E2. rewrite i_before in E1. split; [exact E1|exact E2].
Defined.

(** A transaction whose commit failed, and one after it, with the index the first one
    had, which it did not count up: the index and CometBFT tell different places for
    the second. *)
Example repeated_index_tells_two_places :
  let uncommitted := mkExecTxResult 11 "failed to commit stateDB" 21000 [tx_hash_event 11 0] in
  let d := fst (IndexBlock i_decoder 7 ["deploy"; "call"]%string [uncommitted; i_called] ∅) in
  GetTxByEthHash i_decoder (Some d) (Ok []) 10 = Ok (mkTxResult 7 1 0 1 true 26000 26000) ∧
  GetTxByEthHash i_decoder (None : option (gmap bytes bytes)) (Ok [mkResultTx 7 1 i_called "call"]) 10 =
    Ok (mkTxResult 7 1 0 0 true 26000 26000).
Proof. vm_compute. split; reflexivity. Qed.

(** The last block that was indexed; a service whose request for block 8 failed stays at 7
    although the chain goes on and the requests would be answered. *)
Example failed_request_stops_the_service :
  let s0 := mkService Waiting 7 8 false i_indexed [] in
  let turn := service_turn i_decoder in
  let s1 := turn None None (turn None None s0) in
  let s2 := new_header 9 s1 in
  let answer := turn (Some (8, [])) (Some (8, [])) in
  LoadLastBlock i_indexed = Ok 7 ∧ sv_blockErr s1 = true ∧
  sv_lastBlock (answer (answer (answer s2))) = 7 ∧ sv_indexed (answer (answer (answer s2))) = [].
Proof. vm_compute. repeat split. Qed.
